(* ===== verification/_CoqProject ===== *)
-Q . S2P
Prelude.v
GoTime.v
GoStrings.v
Sha256.v
GoErrors.v
Model.v
Gorm.v
AuthState.v
RedisStore.v
MemDB.v
World.v
Dao.v
RefreshRepo.v
RbacRepo.v
GoNet.v
GoPath.v
TokenManager.v
AuthService.v
UserService.v
RbacService.v
Web.v
Metrics.v
UserHandler.v
RbacHandler.v
Registry.v
ApiDocs.v
Middleware.v
Server.v
Config.v
Database.v
Main.v
Instances.v
AuthStateTheorems.v
RedisTheorems.v
RedisMem.v
TokenTheorems.v
AuthTheorems.v
UserTheorems.v
RbacTheorems.v
ErrorTheorems.v
HttpTheorems.v
ServerTheorems.v
EndpointTheorems.v
ApiTheorems.v
ConfigTheorems.v
MainTheorems.v
System.v
SystemTheorems.v
TestUtil.v
Schema.v
Migrations.v
MigrationTheorems.v
PolicyTheorems.v
Threads.v
Traffic.v
SessionProperties.v
StoreProperties.v
TokenProperties.v
AccountProperties.v
RbacProperties.v
HttpProperties.v
ConfigProperties.v
SystemProperties.v
RedisProperties.v
ServerProperties.v
TrafficProperties.v
MainProperties.v
MigrationProperties.v
TestUtilProperties.v
MetricsProperties.v
ApiProperties.v
SchemaProperties.v
