(* ===== verification/Prelude.v ===== *)
(** * go-user-system, verified

    A model of the user service in Go under src/ and the theorems that make
    it correct: accounts, sessions of rotating refresh tokens, roles and
    permissions, login rate limiting, the HTTP interface in front with its
    timeouts, metrics and logs, and the process around it; the migrations that
    make its tables, and the documentation of its API.

    ** The program and its parts

    src/cmd/main.go starts the process: it loads the configuration
    (src/config), opens the database (src/pkg/database) and the store of
    revocations and login counters, builds the router and serves until a
    signal comes. A request comes in through src/internal/observability, which
    counts it, the timeout, src/router and src/internal/middleware, which give
    it an identifier, log it, catch panics, authenticate the caller and check
    a permission. A handler (src/internal/handler) decodes it, calls services
    (src/internal/service) and answers in one envelope
    (src/internal/response). The services keep accounts, refresh tokens and
    roles in MySQL through gorm (src/internal/dao, src/internal/repository,
    src/internal/model), issue and parse JWTs (src/internal/auth), and keep
    revoked access tokens and login counters in a shared store
    (src/internal/authstate), in memory or in Redis. The tables are made by
    src/migrations, which goose applies before anything runs; src/docs has the
    document of the API, and src/internal/testutil prepares a database for the
    tests.

    ** How it is modelled

    A call that returns a value and an error is a computation [ST E S A]
    (this file) from a state to an [outcome] ([Ok], [Err] or [Panic]) and a
    state; an error does not undo the writes made before it. The state of
    the services is [World.World]: the database, the shared store, how often
    the clock and how often the source of identifiers were read. The state of
    a handler is that and a [Web.Context], where a call of a service leaves
    its error as a value ([Web.call]) and only a panic unwinds; that of an
    [http.Handler] is the world and a [Metrics.Exchange], what was done to the
    response writer, the metrics and the log; that of a command of the process
    is the world and everything outside ([Main.Proc]). A [defer] is
    [Prelude.defer]: it runs however the body ends. What runs concurrently is
    a step relation: any history of service calls and of their writes
    ([System.history]), the requests in progress, each a tree of operations
    ([Threads.pool_step]), the requests that share the metrics
    ([ServerTheorems.interleaved]), the goroutine of the server beside the
    select of [run] ([Main.life_step]).
    Integers are [Z] with the wrap-around of 64 bits where the code computes
    with them; strings are byte strings, decoded as UTF-8 where Go does; times are
    nanoseconds.

    What is not code of the repository is a class with laws that state its
    documented behaviour: [Gorm.Gorm] (gorm and MySQL: every operation may
    fail, a failing one changes no row, a transaction is all or nothing, a
    unique key is never violated), [Model.Storage] (the collation and the
    rounding of DATETIME), [TokenManager.JWT], [UserService.Bcrypt],
    [AuthService.UnicodeTables], [Web.JSONBinding], [Config.System],
    [RedisStore.RedisClient] (the commands of Redis), [Server.Gin] (routing and
    rendering), [Database.Drivers] (the drivers of MySQL and Redis, and goose),
    [Migrations.AutoIncrement] (the ids MySQL hands out), [Registry.Prometheus]
    (the client of Prometheus), [TestUtil.TestDriver] and
    [TestUtil.UnicodeClasses], and [World.Env] (the clock and the identifiers). [MemDB], [RedisMem],
    [Instances] and the ends of MainProperties, MigrationProperties,
    TestUtilProperties and MetricsProperties are concrete instances that
    satisfy all the laws; every theorem with a hypothesis is applied to them.

    Where the code has an interface, the development has a class and its
    laws: [Dao.UserStore] and [Dao.AuthUserStore], [RefreshRepo.RefreshTokenRepository],
    [RbacRepo.RBACRepository], [AuthState.Store]. The services are verified
    against the laws, and the implementations discharge them.

    ** The files

    - Prelude (this file), GoTime, GoStrings, Sha256, GoNet, GoPath: the
      monad and its rules, and what the program uses of Go's standard library:
      int64 and durations, UTF-8, [strings], [strconv], SHA-256, [net.ParseIP],
      [net.ParseCIDR], [path/filepath].
    - GoErrors: [errors.Is] and [errors.As], src/internal/apperror, the codes
      of src/internal/response/code.go, src/internal/service/errors.go.
    - Model, Gorm, MemDB, World: the rows of src/internal/model, the database,
      and the monad of the services.
    - Dao, RefreshRepo, RbacRepo: src/internal/dao/user.go,
      src/internal/repository/refresh_token.go and rbac.go.
    - AuthState: src/internal/authstate/store.go and memory.go; Module
      [Memory] is the in-memory store.
    - RedisStore, RedisMem: src/internal/authstate/redis.go over the commands
      of Redis, and a Redis server in memory that keeps their laws.
    - TokenManager: src/internal/auth/token_manager.go.
    - AuthService, UserService, RbacService: src/internal/service/auth.go,
      user.go with bootstrap.go, rbac.go. The body of a transaction is a
      definition of its own ([rotateInTx], [updatePasswordInTx], ...).
    - Web, UserHandler, RbacHandler, Middleware: src/internal/response,
      request and handler/error_handler.go; handler/user_handler.go;
      handler/rbac_handler.go, health_handler.go and system_handler.go;
      src/internal/middleware and the routes of src/router/router.go.
    - Metrics, Server: src/internal/observability/metrics.go;
      src/internal/middleware/timeout__middleware.go and [SetupRouter] of
      src/router/router.go, which puts them in front of the engine.
    - Registry: the vectors [NewMetrics] makes and registers, and which of
      them each call of Metrics is on.
    - ApiDocs: src/docs/docs.go, the document as the JSON it is, read by
      functions that say which operations, statuses and schemas it lists; the
      responses as JSON.
    - Config: src/config/config.go.
    - Database, Main: src/pkg/database and src/pkg/redisclient;
      src/cmd/main.go.
    - Schema: the SQL of src/migrations, what a statement does to a schema,
      and the tags of the structs of src/internal/model.
    - Migrations: src/migrations/00004 to 00006, what each statement does to
      the rows. [migrated_tables] is all of them on the accounts and tokens of
      the earlier schema.
    - TestUtil: src/internal/testutil/mysql.go over a driver that records the
      statements sent.
    - System, Threads, Traffic: any history of service calls, and every
      handler as one; requests that run at the same time, cut into their
      operations; any sequence of requests through what [SetupRouter] returns.
    - Instances: the concrete instances and sample worlds.
    - *Theorems: per component, the outcome of every operation, on success
      and on every error, as a weakest precondition ([wp]). PolicyTheorems
      follows roles and permissions over a history; ApiTheorems collects the
      statuses of every service and of every handler by rules on their code.
    - *Properties: the properties, and a witness for each that has hypotheses.

    ** What the theorems show

    - SessionProperties: what the answer to a rotation is, on every input;
      what a rotation or a logout changes and leaves alone; an access token is
      honoured exactly while its session stands.
    - AccountProperties: registration, login, profile, nickname; a password
      change ends every session; an administrator is bootstrapped while nobody
      holds the role, which is once unless roles are assigned to that account.
    - RbacProperties: assigning roles replaces them; the check grants exactly
      the permissions of the user's roles, and the listing lists those.
    - TokenProperties: issued tokens parse back until they expire; access and
      refresh tokens are disjoint; what is accepted is well formed; the gap
      between the leeway of the parser and the end of a revocation.
    - StoreProperties: the in-memory store refines one that never forgets;
      lockouts start and end when they should; waits are bounded.
    - RedisProperties: the Redis store keeps the laws of the interface; no
      lockout outlasts its window whatever commands fail; lockouts start when
      they should.
    - SystemProperties: what holds after any history of service calls, in any
      number and order: keys and families stay sound, at most one token of a
      family is active, a refresh token is used at most once, a revoked token
      stays dead, a replay closes its family
      and a password change ends the old sessions for good; and that what a
      request does is such a history.
    - HttpProperties: every request is answered exactly once by a success or
      an error; protected routes are closed to everyone else; what login,
      refresh and logout did when they say they succeeded; rate limiting;
      readiness.
    - ServerProperties: a client gets a whole answer or the timeout; a request
      is counted once, with the status it got; the gauge of requests in flight
      is right in every interleaving; when the identifier in the answer is the
      one in the log.
    - TrafficProperties: whatever requests come, however they end and however
      their operations interleave, they do to the tables what a history does;
      a password change that was answered with success locks out every token
      issued before it.
    - MigrationProperties: the migrations leave a sound database, taken over
      from any earlier accounts and tokens; the permissions they seed are those
      the router requires; over any history on it the administration is for
      administrators alone and a new account may do what users may do, unless
      roles were assigned to its id before it existed, which nothing forbids.
    - ApiProperties: the document of the API names the routes but for those of
      the metrics and of Swagger, and no others; it lists their answers with
      the schemas they have, but for a few failures it leaves out, and the
      timeout for the readiness probe only.
    - MetricsProperties: no call on the metrics panics, each is on a vector of
      a type that has the operation, with a value for each label.
    - SchemaProperties: the migrations make the schema the structs ask for and
      the model has, which is that of the tests; going down takes back what
      going up did; which migrations can be run again after a failure.
    - TestUtilProperties: what resetting tables sends; a database that is not
      one for tests is refused.
    - ConfigProperties: a loaded configuration is sound, and when it starts the
      token manager; the search for a file terminates.
    - MainProperties: every command closes what it opened; the process refuses
      to start or serves on a sound configuration, in production with Redis,
      and ends as the state machine of serving ends; what connecting to the database needs.

    ** Fuel

    Only three functions take fuel. [Config.findFileUpwardFrom] gets the length
    of the directory plus one: a parent that is not the directory itself is
    shorter (GoPath.Dir_rooted), and [findFileUpwardFrom_spec] proves that it
    never runs out. [GoNet.ipv6_groups] gets nine: an address has at most
    eight groups and each round fills one. [ApiDocs.has_schema] gets eight, a
    reference or a nested schema takes one, and running out counts as not
    having the schema, so [documented_answers] shows that it is enough.

    ** What is not modelled

    A request context is not modelled: a cancelled request shows as a failing
    operation. A handler that goes on after its request timed out is run to
    its end before the next one starts; the interleavings of requests are
    those of Threads, between the operations of the handlers. There a
    transaction with its locks is one step ([World.Transaction]), an
    operation of the in-memory store is one under its mutex, and so is a call
    of a service that reads the clock and then makes its one transaction. Log
    lines other than the access log, what Prometheus exposes, what the
    pages of Swagger and of the metrics answer (that they are registered is in
    [Middleware.registeredRoutes]), and the answers to unknown paths are output of
    libraries. The rows of the schema of 00001 to 00003 are [LegacyUser] and
    [LegacyToken] with what [legacy_ok] says of them; what going down does to
    the rows, and goose with its record of versions, are left out. Signals before [signal.Notify] end the process
    and are left out. Decoding of request bodies and their validation tags, and matching a path
    to a route, are the library's. *)
From Stdlib Require Export ZArith Lia Ascii String.
From stdpp Require Export base tactics list sorting gmap strings sets.

#[global] Open Scope Z_scope.

(** * Outcomes

    A Go call that returns [(T, error)] ends in one of three ways: it returns
    its value with a nil error, it returns a non-nil error, or it panics. *)

Inductive outcome (E A : Type) : Type :=
| Ok (a : A)
| Err (e : E)
| Panic.

Arguments Ok {E A} a.
Arguments Err {E A} e.
Arguments Panic {E A}.

(** * The state-and-outcome monad

    A stateful Go operation over a state [S]. An error does not undo the
    state changes made before it: rolling back is the business of the
    database's transactions only. *)

Definition ST (E S A : Type) : Type := S -> outcome E A * S.

Definition ret {E S A} (a : A) : ST E S A := fun s => (Ok a, s).
Definition fail {E S A} (e : E) : ST E S A := fun s => (Err e, s).
Definition panic {E S A} : ST E S A := fun s => (Panic, s).

Definition bind {E S A B} (m : ST E S A) (k : A -> ST E S B) : ST E S B :=
  fun s => match m s with
           | (Ok a, s') => k a s'
           | (Err e, s') => (Err e, s')
           | (Panic, s') => (Panic, s')
           end.

(** [attempt m]: the value and the error of [m] both reach the code that
    follows, as in [v, err := f()]. A panic still unwinds. *)
Definition attempt {E S A} (m : ST E S A) : ST E S (E + A) :=
  fun s => match m s with
           | (Ok a, s') => (Ok (inr a), s')
           | (Err e, s') => (Ok (inl e), s')
           | (Panic, s') => (Panic, s')
           end.

(** [map_err f m]: [if err != nil { return f(err) }]. *)
Definition map_err {E S A} (f : E -> E) (m : ST E S A) : ST E S A :=
  fun s => match m s with
           | (Ok a, s') => (Ok a, s')
           | (Err e, s') => (Err (f e), s')
           | (Panic, s') => (Panic, s')
           end.

Definition gets {E S A} (f : S -> A) : ST E S A := fun s => (Ok (f s), s).
Definition modify {E S} (f : S -> S) : ST E S unit := fun s => (Ok tt, f s).

(** [zoom get set m] runs [m] on the part of the state [get] selects. *)
Definition zoom {E S T A} (get : S -> T) (put : T -> S -> S) (m : ST E T A) : ST E S A :=
  fun s => let '(r, t) := m (get s) in (r, put t s).

(** [defer d() ; m]: [d] runs when [m] ends, whichever way; a panic of [d]
    replaces what [m] returned. *)
Definition defer {E S A} (d : ST E S unit) (m : ST E S A) : ST E S A :=
  fun s => let '(r, s1) := m s in
           let '(r', s2) := d s1 in
           (match r' with Panic => Panic | _ => r end, s2).

Declare Scope go_scope.
Delimit Scope go_scope with go.

Notation "'let!' x := m 'in' k" := (bind m (fun x => k))
  (at level 10, x binder, m at level 100, k at level 200) : go_scope.
Notation "'do!' m 'in' k" := (bind m (fun _ => k))
  (at level 10, m at level 100, k at level 200) : go_scope.
(** An early return: [if b { return r }], then the rest of the body. *)
Notation "'when!' b 'return!' r 'in' k" := (if b then r else k)
  (at level 10, b at level 100, r at level 100, k at level 200) : go_scope.

#[global] Open Scope go_scope.

(** * Weakest preconditions *)

Definition wp {E S A} (m : ST E S A) (Q : outcome E A -> S -> Prop) (s : S) : Prop :=
  match m s with (r, s') => Q r s' end.

Section wp.
Context {E S : Type}.

Lemma wp_ret {A} (a : A) (Q : outcome E A -> S -> Prop) s : Q (Ok a) s -> wp (ret a) Q s.
Proof. done. Qed.

Lemma wp_fail {A} e (Q : outcome E A -> S -> Prop) s : Q (Err e) s -> wp (fail e) Q s.
Proof. done. Qed.

Lemma wp_panic {A} (Q : outcome E A -> S -> Prop) s : Q Panic s -> wp panic Q s.
Proof. done. Qed.

Lemma wp_bind {A B} (m : ST E S A) (k : A -> ST E S B) Q s :
  wp m (fun r s' => match r with
                    | Ok a => wp (k a) Q s'
                    | Err e => Q (Err e) s'
                    | Panic => Q Panic s'
                    end) s ->
  wp (bind m k) Q s.
Proof. unfold wp, bind. destruct (m s) as [[a|e|] s']; done. Qed.

Lemma wp_attempt {A} (m : ST E S A) Q s :
  wp m (fun r s' => match r with
                    | Ok a => Q (Ok (inr a)) s'
                    | Err e => Q (Ok (inl e)) s'
                    | Panic => Q Panic s'
                    end) s ->
  wp (attempt m) Q s.
Proof. unfold wp, attempt. destruct (m s) as [[a|e|] s']; done. Qed.

Lemma wp_map_err {A} (f : E -> E) (m : ST E S A) Q s :
  wp m (fun r s' => match r with
                    | Ok a => Q (Ok a) s'
                    | Err e => Q (Err (f e)) s'
                    | Panic => Q Panic s'
                    end) s ->
  wp (map_err f m) Q s.
Proof. unfold wp, map_err. destruct (m s) as [[a|e|] s']; done. Qed.

Lemma wp_gets {A} (f : S -> A) (Q : outcome E A -> S -> Prop) s :
  Q (Ok (f s)) s -> wp (gets f) Q s.
Proof. done. Qed.

Lemma wp_modify (f : S -> S) (Q : outcome E unit -> S -> Prop) s :
  Q (Ok tt) (f s) -> wp (modify f) Q s.
Proof. done. Qed.

Lemma wp_zoom {T A} (get : S -> T) put (m : ST E T A) Q s :
  wp m (fun r t => Q r (put t s)) (get s) -> wp (zoom get put m) Q s.
Proof. unfold wp, zoom. destruct (m (get s)) as [r t]; done. Qed.

Lemma wp_defer {A} (d : ST E S unit) (m : ST E S A) Q s :
  wp m (fun r s1 => wp d (fun r' s2 => Q (match r' with Panic => Panic | _ => r end) s2) s1) s ->
  wp (defer d m) Q s.
Proof. unfold wp, defer. destruct (m s) as [r s1]. destruct (d s1) as [r' s2]. done. Qed.

Lemma wp_mono {A} (m : ST E S A) (P Q : outcome E A -> S -> Prop) s :
  wp m P s -> (forall r s', P r s' -> Q r s') -> wp m Q s.
Proof. unfold wp. destruct (m s); eauto. Qed.

Lemma wp_run {A} (m : ST E S A) (Q : outcome E A -> S -> Prop) s r s' :
  wp m Q s -> m s = (r, s') -> Q r s'.
Proof. unfold wp. intros H Heq. by rewrite Heq in H. Qed.

Lemma wp_result {A} (m : ST E S A) (P : outcome E A -> Prop) s r s' :
  m s = (r, s') -> wp m (fun r _ => P r) s -> P r.
Proof. unfold wp. by intros ->. Qed.

Lemma wp_intro {A} (m : ST E S A) (Q : outcome E A -> S -> Prop) s :
  (forall r s', m s = (r, s') -> Q r s') -> wp m Q s.
Proof. unfold wp. destruct (m s); eauto. Qed.
End wp.

(** One step of symbolic execution of a monadic program under [wp]. *)
Ltac wp_step :=
  lazymatch goal with
  | |- wp (bind _ _) _ _ => apply wp_bind
  | |- wp (ret _) _ _ => apply wp_ret
  | |- wp (fail _) _ _ => apply wp_fail
  | |- wp panic _ _ => apply wp_panic
  | |- wp (attempt _) _ _ => apply wp_attempt
  | |- wp (map_err _ _) _ _ => apply wp_map_err
  | |- wp (gets _) _ _ => apply wp_gets
  | |- wp (modify _) _ _ => apply wp_modify
  | |- wp (zoom _ _ _) _ _ => apply wp_zoom
  | |- wp (defer _ _) _ _ => apply wp_defer
  | |- wp (if ?b then _ else _) _ _ => destruct b eqn:?
  | |- wp (match ?x with _ => _ end) _ _ => destruct x eqn:?
  end.

Ltac wp_steps := repeat (wp_step; cbn beta iota).

(** Uses a specification [H : wp m P s] of the call the goal is about. *)
Tactic Notation "wp_use" constr(H) :=
  eapply wp_mono; [apply H | cbv beta].

(** * Booleans as propositions

    The models test with [bool] functions, as the code does; these hints turn
    the tests met in a proof into propositions. *)

Create HintDb go discriminated.
#[export] Hint Constants Opaque : go.
#[export] Hint Variables Opaque : go.

Ltac bool_to_prop :=
  repeat match goal with
         | H : (_ && _)%bool = true |- _ => apply andb_true_iff in H as [? ?]
         | H : (_ && _)%bool = false |- _ => apply andb_false_iff in H
         | H : (_ || _)%bool = false |- _ => apply orb_false_iff in H as [? ?]
         | H : (_ || _)%bool = true |- _ => apply orb_true_iff in H
         | H : negb _ = true |- _ => apply negb_true_iff in H
         | H : negb _ = false |- _ => apply negb_false_iff in H
         | H : Z.eqb _ _ = true |- _ => apply Z.eqb_eq in H
         | H : Z.eqb _ _ = false |- _ => apply Z.eqb_neq in H
         | H : Z.leb _ _ = true |- _ => apply Z.leb_le in H
         | H : Z.leb _ _ = false |- _ => apply Z.leb_gt in H
         | H : Z.ltb _ _ = true |- _ => apply Z.ltb_lt in H
         | H : Z.ltb _ _ = false |- _ => apply Z.ltb_ge in H
         | H : String.eqb _ _ = true |- _ => apply String.eqb_eq in H
         | H : String.eqb _ _ = false |- _ => apply String.eqb_neq in H
         | H : bool_decide _ = true |- _ => apply bool_decide_eq_true in H
         | H : bool_decide _ = false |- _ => apply bool_decide_eq_false in H
         end.

(** * Lists *)

Section lists.
Context {A : Type}.
Implicit Types (l : list A) (p : A -> bool).

(** The rows of [l] that satisfy [p], changed by [f]: an SQL UPDATE. *)
Definition update_where p (f : A -> A) l : list A :=
  map (fun x => if p x then f x else x) l.

Definition delete_where p l : list A := List.filter (fun x => negb (p x)) l.

Definition count_where p l : Z := Z.of_nat (List.length (List.filter p l)).

Lemma in_update_where p f l y :
  In y (update_where p f l) <-> exists x, In x l /\ y = if p x then f x else x.
Proof. unfold update_where. rewrite in_map_iff.
  split; intros (x & H1 & H2); exists x; auto. Qed.

Lemma update_where_id p f l :
  (forall x, In x l -> p x = true -> f x = x) -> update_where p f l = l.
Proof.
  unfold update_where. intros H. rewrite <- (map_id l) at 2. apply map_ext_in.
  intros x Hx. destruct (p x) eqn:?; auto.
Qed.

Lemma update_where_none p f l :
  (forall x, In x l -> p x = false) -> update_where p f l = l.
Proof. intros H. apply update_where_id. intros x Hx. by rewrite H. Qed.

Lemma update_where_ext p q f l :
  (forall x, In x l -> p x = q x) -> update_where p f l = update_where q f l.
Proof. intros H. apply map_ext_in. intros x Hx. by rewrite H. Qed.

Lemma length_update_where p f l : length (update_where p f l) = length l.
Proof. apply length_map. Qed.

Lemma update_where_app p f l1 l2 :
  update_where p f (l1 ++ l2) = update_where p f l1 ++ update_where p f l2.
Proof. apply map_app. Qed.

Lemma in_delete_where p l x : In x (delete_where p l) <-> In x l /\ p x = false.
Proof. unfold delete_where. rewrite filter_In, negb_true_iff. done. Qed.

Lemma count_where_pos p l : 0 < count_where p l <-> exists x, In x l /\ p x = true.
Proof.
  unfold count_where. split.
  - intros H. destruct (List.filter p l) as [|x fl] eqn:Hf; [simpl in H; lia|].
    exists x. apply filter_In. rewrite Hf. by left.
  - intros (x & Hx & Hp). assert (In x (List.filter p l)) as Hin by (by apply filter_In).
    destruct (List.filter p l); [done|]. simpl. lia.
Qed.

Lemma count_where_zero p l : count_where p l = 0 <-> forall x, In x l -> p x = false.
Proof.
  pose proof (count_where_pos p l) as Hpos. split.
  - intros Hz x Hx. destruct (p x) eqn:Hp; [|done].
    assert (0 < count_where p l) by (apply Hpos; eauto). lia.
  - intros Hall. destruct (decide (0 < count_where p l)) as [Hlt|Hge].
    + apply Hpos in Hlt as (x & Hx & Hp). by rewrite Hall in Hp.
    + unfold count_where in *. lia.
Qed.
End lists.

Lemma Forall2_In_l {A B} (R : A -> B -> Prop) l k x :
  Forall2 R l k -> In x l -> exists y, In y k /\ R x y.
Proof.
  induction 1 as [|a b l k Hab Hl IH]; [done|]. intros [->|Hin].
  - exists b. split; [by left|done].
  - destruct (IH Hin) as (y & ? & ?). exists y. split; [by right|done].
Qed.

Lemma Forall2_In_r {A B} (R : A -> B -> Prop) l k y :
  Forall2 R l k -> In y k -> exists x, In x l /\ R x y.
Proof.
  induction 1 as [|a b l k Hab Hl IH]; [done|]. intros [->|Hin].
  - exists a. split; [by left|done].
  - destruct (IH Hin) as (x & ? & ?). exists x. split; [by right|done].
Qed.

Create Rewrite HintDb go_rows.
#[export] Hint Rewrite @in_update_where @in_delete_where : go_rows.
