(* ===== verification/GoTime.v ===== *)
(** Machine integers, durations and instants, as Go computes with them.

    An [int64] and a [time.Duration] (nanoseconds in an [int64]) are a [Z]
    with the wrap-around of every addition and multiplication written out. A
    [time.Time] is the number of nanoseconds since the Unix epoch, an
    unbounded [Z]: its own range (an int64 of seconds) is far beyond any
    date the program handles. *)
From S2P Require Import Prelude.

Definition MinInt64 : Z := - 2 ^ 63.
Definition MaxInt64 : Z := 2 ^ 63 - 1.

Definition wrap64 (z : Z) : Z := (z + 2 ^ 63) mod 2 ^ 64 - 2 ^ 63.

Definition in_int64 (z : Z) : Prop := MinInt64 <= z <= MaxInt64.

#[export] Instance in_int64_dec z : Decision (in_int64 z).
Proof. unfold in_int64. apply _. Defined.

Definition add64 (a b : Z) : Z := wrap64 (a + b).
Definition sub64 (a b : Z) : Z := wrap64 (a - b).
Definition mul64 (a b : Z) : Z := wrap64 (a * b).
(** Go's [/] on signed integers truncates toward zero. *)
Definition quot64 (a b : Z) : Z := wrap64 (Z.quot a b).

Definition Nanosecond : Z := 1.
Definition Millisecond : Z := 1000000.
Definition Second : Z := 1000000000.
Definition Minute : Z := 60 * Second.
Definition Hour : Z := 60 * Minute.

(** [t.Add(d)], [t.After(u)] and [t.Sub(u)]; the last saturates at the bounds
    of a Duration. *)
Definition time_add (t d : Z) : Z := t + d.
Definition time_after (t u : Z) : bool := u <? t.
Definition time_sub (t u : Z) : Z := Z.max MinInt64 (Z.min MaxInt64 (t - u)).

(** [int64(d.Seconds())]: the duration in whole seconds, toward zero. The
    float64 [d.Seconds()] is the integer part [d / time.Second] plus a
    fraction below one; for durations under 2^53 seconds the integer part is
    exact, and an int64 of nanoseconds is always below that. *)
Definition duration_seconds (d : Z) : Z := Z.quot d Second.

Lemma wrap64_id z : in_int64 z -> wrap64 z = z.
Proof.
  unfold in_int64, MinInt64, MaxInt64, wrap64. intros H.
  rewrite Z.mod_small; lia.
Qed.

Lemma wrap64_range z : in_int64 (wrap64 z).
Proof.
  unfold in_int64, MinInt64, MaxInt64, wrap64.
  pose proof (Z.mod_pos_bound (z + 2 ^ 63) (2 ^ 64) ltac:(lia)). lia.
Qed.

Lemma add64_id a b : in_int64 (a + b) -> add64 a b = a + b.
Proof. apply wrap64_id. Qed.

Lemma mul64_id a b : in_int64 (a * b) -> mul64 a b = a * b.
Proof. apply wrap64_id. Qed.

Lemma time_sub_exact t u : in_int64 (t - u) -> time_sub t u = t - u.
Proof. unfold in_int64, time_sub. lia. Qed.

Lemma time_sub_pos t u : 0 < time_sub t u <-> u < t.
Proof. unfold time_sub, MinInt64, MaxInt64. lia. Qed.

Lemma time_sub_le_bound t u d : 0 <= d -> t - u <= d -> time_sub t u <= d.
Proof. unfold time_sub, MinInt64, MaxInt64. lia. Qed.

Lemma time_after_spec t u : time_after t u = true <-> u < t.
Proof. apply Z.ltb_lt. Qed.

Lemma time_after_false t u : time_after t u = false <-> t <= u.
Proof. apply Z.ltb_ge. Qed.

#[export] Hint Resolve wrap64_range : go.
