(* ===== verification/GoStrings.v ===== *)
(** Go strings: byte sequences, read as UTF-8 where the standard library does.

    A Go string is a Rocq [string] whose characters are its bytes. This file
    models what the program uses of [unicode/utf8], [strings] and [strconv]. *)
From stdpp Require Import pretty.
From S2P Require Import Prelude GoTime.

(** * Bytes *)

Definition byte_of (c : ascii) : Z := Z.of_N (N_of_ascii c).
Definition of_byte (b : Z) : ascii := ascii_of_N (Z.to_N b).

Fixpoint bytes (s : string) : list Z :=
  match s with
  | EmptyString => []
  | String c s' => byte_of c :: bytes s'
  end.

Fixpoint of_bytes (l : list Z) : string :=
  match l with
  | [] => EmptyString
  | b :: l' => String (of_byte b) (of_bytes l')
  end.

(** [len(s)] *)
Definition len (s : string) : Z := Z.of_nat (List.length (bytes s)).

Definition is_byte (b : Z) : Prop := 0 <= b < 256.

Lemma byte_of_range c : is_byte (byte_of c).
Proof.
  unfold is_byte, byte_of. pose proof (N_ascii_bounded c). lia.
Qed.

Lemma of_byte_of c : of_byte (byte_of c) = c.
Proof. unfold of_byte, byte_of. rewrite N2Z.id. apply ascii_N_embedding. Qed.

Lemma byte_of_of_byte b : is_byte b -> byte_of (of_byte b) = b.
Proof.
  unfold is_byte, of_byte, byte_of. intros H.
  rewrite N_ascii_embedding; lia.
Qed.

Lemma of_bytes_bytes s : of_bytes (bytes s) = s.
Proof. induction s as [|c s IH]; simpl; [done|]. by rewrite of_byte_of, IH. Qed.

Lemma bytes_of_bytes l : Forall is_byte l -> bytes (of_bytes l) = l.
Proof.
  induction 1 as [|b l Hb _ IH]; simpl; [done|]. by rewrite byte_of_of_byte, IH.
Qed.

Lemma bytes_range s : Forall is_byte (bytes s).
Proof. induction s; simpl; constructor; auto using byte_of_range. Qed.

Lemma len_nonneg s : 0 <= len s.
Proof. unfold len. lia. Qed.

Lemma len_zero s : len s = 0 <-> s = "".
Proof. unfold len. destruct s; simpl; split; (done || lia). Qed.

(** * UTF-8 decoding: [utf8.DecodeRuneInString] *)

Definition RuneError : Z := 0xFFFD.
Definition RuneSelf : Z := 0x80.

Definition in_range (lo hi b : Z) : bool := (lo <=? b) && (b <=? hi).

(** A continuation byte. *)
Definition cont (b : Z) : bool := in_range 0x80 0xBF b.

(** The size of the sequence a lead byte announces and the range of its
    second byte ([utf8]'s [first] and [acceptRanges] tables); [None] for a
    byte that starts no sequence of several bytes. *)
Definition lead (b : Z) : option (nat * Z * Z) :=
  if in_range 0xC2 0xDF b then Some (2%nat, 0x80, 0xBF)
  else if b =? 0xE0 then Some (3%nat, 0xA0, 0xBF)
  else if b =? 0xED then Some (3%nat, 0x80, 0x9F)
  else if in_range 0xE1 0xEF b then Some (3%nat, 0x80, 0xBF)
  else if b =? 0xF0 then Some (4%nat, 0x90, 0xBF)
  else if in_range 0xF1 0xF3 b then Some (4%nat, 0x80, 0xBF)
  else if b =? 0xF4 then Some (4%nat, 0x80, 0x8F)
  else None.

Definition decode_rune (l : list Z) : Z * nat :=
  match l with
  | [] => (RuneError, 0%nat)
  | b0 :: l1 =>
    if b0 <? RuneSelf then (b0, 1%nat) else
    match lead b0, l1 with
    | None, _ => (RuneError, 1%nat)
    | Some _, [] => (RuneError, 1%nat)
    | Some (sz, lo, hi), b1 :: l2 =>
      if negb (in_range lo hi b1) then (RuneError, 1%nat) else
      match sz, l2 with
      | 2%nat, _ => (Z.lor (Z.shiftl (Z.land b0 0x1F) 6) (Z.land b1 0x3F), 2%nat)
      | _, [] => (RuneError, 1%nat)
      | _, b2 :: l3 =>
        if negb (cont b2) then (RuneError, 1%nat) else
        match sz, l3 with
        | 3%nat, _ =>
          (Z.lor (Z.lor (Z.shiftl (Z.land b0 0x0F) 12) (Z.shiftl (Z.land b1 0x3F) 6))
                 (Z.land b2 0x3F), 3%nat)
        | _, [] => (RuneError, 1%nat)
        | _, b3 :: _ =>
          if negb (cont b3) then (RuneError, 1%nat) else
          (Z.lor (Z.lor (Z.lor (Z.shiftl (Z.land b0 0x07) 18) (Z.shiftl (Z.land b1 0x3F) 12))
                        (Z.shiftl (Z.land b2 0x3F) 6))
                 (Z.land b3 0x3F), 4%nat)
        end
      end
    end
  end.

(** The runes of [for _, r := range s]; [skip] counts the bytes of the
    current rune still to be passed over. *)
Fixpoint runes_from (skip : nat) (l : list Z) : list Z :=
  match l with
  | [] => []
  | _ :: l' =>
    match skip with
    | Datatypes.S k => runes_from k l'
    | O => let '(r, w) := decode_rune l in r :: runes_from (w - 1) l'
    end
  end.

Definition runes (s : string) : list Z := runes_from 0 (bytes s).

(** [utf8.RuneCountInString] *)
Definition RuneCountInString (s : string) : Z := Z.of_nat (List.length (runes s)).

(** [utf8.AppendRune]: surrogates and values out of range are written as
    [RuneError]. *)
Definition encode_rune (r : Z) : list Z :=
  let tx x := Z.lor 0x80 (Z.land x 0x3F) in
  let three r := [Z.lor 0xE0 (Z.shiftr r 12); tx (Z.shiftr r 6); tx r] in
  if in_range 0 0x7F r then [r]
  else if in_range 0x80 0x7FF r then [Z.lor 0xC0 (Z.shiftr r 6); tx r]
  else if in_range 0xD800 0xDFFF r || negb (in_range 0 0x10FFFF r) then three RuneError
  else if in_range 0x800 0xFFFF r then three r
  else [Z.lor 0xF0 (Z.shiftr r 18); tx (Z.shiftr r 12); tx (Z.shiftr r 6); tx r].

(** [utf8.ValidString]: decoding loses nothing. *)
Definition ValidString (s : string) : bool :=
  bool_decide (of_bytes (flat_map encode_rune (runes s)) = s).

(** * [strings.TrimSpace] *)

(** [unicode.IsSpace]: the White_Space property. *)
Definition IsSpace (r : Z) : bool :=
  in_range 9 13 r || (r =? 32) || (r =? 0x85) || (r =? 0xA0) || (r =? 0x1680)
  || in_range 0x2000 0x200A r || (r =? 0x2028) || (r =? 0x2029) || (r =? 0x202F)
  || (r =? 0x205F) || (r =? 0x3000).

(** [strings.TrimLeftFunc(s, unicode.IsSpace)] *)
Fixpoint trim_left_from (skip : nat) (l : list Z) : list Z :=
  match l with
  | [] => []
  | _ :: l' =>
    match skip with
    | Datatypes.S k => trim_left_from k l'
    | O => let '(r, w) := decode_rune l in
           if IsSpace r then trim_left_from (w - 1) l' else l
    end
  end.

Definition rune_start (b : Z) : bool := negb (Z.land b 0xC0 =? 0x80).

(** How far back of the last byte the rune starts, looking at most three
    bytes back ([utf8.UTFMax] is four); [rl] is the rest of the bytes, last
    first. *)
Fixpoint back_to_start (fuel : nat) (rl : list Z) : option nat :=
  match fuel, rl with
  | O, _ => None
  | _, [] => None
  | Datatypes.S f, b :: rl' =>
    if rune_start b then Some 1%nat else option_map Datatypes.S (back_to_start f rl')
  end.

(** [utf8.DecodeLastRuneInString], on the bytes last first. *)
Definition decode_last_rune (rl : list Z) : Z * nat :=
  match rl with
  | [] => (RuneError, 0%nat)
  | b :: rl' =>
    if b <? RuneSelf then (b, 1%nat) else
    match back_to_start 3 rl' with
    | None => (RuneError, 1%nat)
    | Some k =>
      let '(r, w) := decode_rune (rev (firstn (Datatypes.S k) rl)) in
      if Nat.eqb w (Datatypes.S k) then (r, w) else (RuneError, 1%nat)
    end
  end.

(** [strings.TrimRightFunc(s, unicode.IsSpace)], on the bytes last first. *)
Fixpoint trim_right_from (skip : nat) (rl : list Z) : list Z :=
  match rl with
  | [] => []
  | _ :: rl' =>
    match skip with
    | Datatypes.S k => trim_right_from k rl'
    | O => let '(r, w) := decode_last_rune rl in
           if IsSpace r then trim_right_from (w - 1) rl' else rl
    end
  end.

Definition TrimSpace (s : string) : string :=
  of_bytes (rev (trim_right_from 0 (rev (trim_left_from 0 (bytes s))))).

(** * [strings.ToLower], [HasPrefix], [TrimPrefix], [Split] *)

Definition lower_byte (b : Z) : Z := if in_range 65 90 b then b + 32 else b.

(** [unicode.ToLower] is a table of the Unicode database; only its ASCII part
    is reproduced, and the rest is the argument [unicode_to_lower]. *)
Definition ToLower (unicode_to_lower : Z -> Z) (s : string) : string :=
  if forallb (fun b => b <? RuneSelf) (bytes s)
  then of_bytes (map lower_byte (bytes s))
  else of_bytes (flat_map (fun r => encode_rune (if r <? RuneSelf then lower_byte r
                                                 else unicode_to_lower r)) (runes s)).

Definition HasPrefix (s prefix : string) : bool := String.prefix prefix s.

Fixpoint drop (n : nat) (s : string) : string :=
  match n, s with
  | O, _ => s
  | _, EmptyString => EmptyString
  | Datatypes.S k, String _ s' => drop k s'
  end.

Definition TrimPrefix (s prefix : string) : string :=
  if HasPrefix s prefix then drop (String.length prefix) s else s.

(** [strings.Split(s, sep)] for a separator of one byte. *)
Fixpoint split_byte (sep : ascii) (s : string) : list string :=
  match s with
  | EmptyString => [""]
  | String c s' =>
    if Ascii.eqb c sep then "" :: split_byte sep s'
    else match split_byte sep s' with
         | [] => [String c ""]
         | h :: t => String c h :: t
         end
  end.

(** * [strconv] *)

Fixpoint parse_digits (acc : Z) (l : list Z) : option Z :=
  match l with
  | [] => Some acc
  | b :: l' => if in_range 48 57 b then parse_digits (acc * 10 + (b - 48)) l' else None
  end.

Definition parse_unsigned (l : list Z) : option Z :=
  match l with [] => None | _ => parse_digits 0 l end.

(** [strconv.ParseInt(s, 10, 64)], and [strconv.Atoi] where [int] has 64 bits:
    an optional sign and decimal digits, in the range of an int64. *)
Definition ParseInt (s : string) : option Z :=
  let signed sgn l :=
    match parse_unsigned l with
    | Some n => if bool_decide (in_int64 (sgn * n)) then Some (sgn * n) else None
    | None => None
    end in
  match bytes s with
  | [] => None
  | b :: l => if b =? 43 then signed 1 l else if b =? 45 then signed (-1) l
              else signed 1 (b :: l)
  end.

Definition Atoi : string -> option Z := ParseInt.

Definition ParseBool (s : string) : option bool :=
  if bool_decide (s ∈ ["1"; "t"; "T"; "true"; "TRUE"; "True"]) then Some true
  else if bool_decide (s ∈ ["0"; "f"; "F"; "false"; "FALSE"; "False"]) then Some false
  else None.

(** [fmt.Sprintf("%d", z)] *)
Definition format_int (z : Z) : string := pretty z.

Example trim_ascii : TrimSpace "  a b " = "a b".
Proof. reflexivity. Qed.
(** U+3000 (E3 80 80) and U+00A0 (C2 A0) are spaces; a lone 0xA0 is not. *)
Example trim_unicode :
  TrimSpace (of_bytes [0xE3; 0x80; 0x80; 97; 0xC2; 0xA0]) = "a" /\
  TrimSpace (of_bytes [97; 0xA0]) = of_bytes [97; 0xA0].
Proof. split; reflexivity. Qed.
Example atoi_examples :
  Atoi "8082" = Some 8082 /\ Atoi "-5" = Some (-5) /\ Atoi "" = None /\ Atoi "1x" = None
  /\ Atoi "9223372036854775808" = None /\ Atoi "-9223372036854775808" = Some MinInt64.
Proof. repeat split; reflexivity. Qed.

(** ** What [format_int] writes, [ParseInt] reads *)

Lemma pretty_N_char_digit d :
  (d < 10)%N -> byte_of (pretty_N_char d) = 48 + Z.of_N d.
Proof.
  intros Hd. assert (d = 0 \/ d = 1 \/ d = 2 \/ d = 3 \/ d = 4 \/ d = 5 \/ d = 6 \/ d = 7 \/ d = 8 \/ d = 9)%N
    as Hcases by lia.
  by repeat (destruct Hcases as [->|Hcases]; [done|]); subst.
Qed.

Lemma parse_digits_pretty x s :
  parse_digits 0 (bytes (pretty_N_go x s)) = parse_digits (Z.of_N x) (bytes s).
Proof.
  revert s. induction (N.lt_wf_0 x) as [x _ IH]. intros s.
  destruct (decide (x = 0%N)) as [->|Hx]; [by rewrite pretty_N_go_0|].
  pose proof (N.mod_lt x 10 ltac:(lia)) as Hm.
  rewrite pretty_N_go_step by lia. rewrite IH by (apply N.div_lt; lia). cbn [bytes parse_digits].
  rewrite pretty_N_char_digit by done. set (d := (x `mod` 10)%N) in *.
  assert (in_range 48 57 (48 + Z.of_N d) = true) as ->.
  { unfold in_range. apply andb_true_iff. rewrite !Z.leb_le. lia. }
  f_equal. rewrite N2Z.inj_div. change (Z.of_N 10) with 10.
  assert (Z.of_N d = Z.of_N x mod 10) as -> by apply N2Z.inj_mod.
  pose proof (Z.div_mod (Z.of_N x) 10 ltac:(lia)). lia.
Qed.

Lemma parse_pretty_N (x : N) : parse_digits 0 (bytes (pretty x)) = Some (Z.of_N x).
Proof.
  unfold pretty, pretty_N. case_decide as Hx; [by subst|]. by rewrite parse_digits_pretty.
Qed.

(** An unsigned number is read as it is: its first byte is a digit. *)
Lemma parse_unsigned_number l n :
  parse_digits 0 l = Some n -> l <> [] ->
  parse_unsigned l = Some n /\ forall b l', l = b :: l' -> 48 <= b <= 57.
Proof.
  destruct l as [|b l]; [done|]. intros Hp _. split; [done|]. intros b' l' [= <- <-].
  simpl in Hp. unfold in_range in Hp. destruct ((48 <=? b) && (b <=? 57)) eqn:Hb; [|done].
  apply andb_true_iff in Hb as [?%Z.leb_le ?%Z.leb_le]. lia.
Qed.

Lemma pretty_N_nonempty (x : N) : bytes (pretty x) <> [].
Proof.
  intros Hn. pose proof (parse_pretty_N x) as Hp. rewrite Hn in Hp. injection Hp as Hp.
  assert (x = 0%N) as -> by lia. done.
Qed.

Lemma ParseInt_format_int n : in_int64 n -> ParseInt (format_int n) = Some n.
Proof.
  intros Hn. unfold format_int. unfold ParseInt.
  assert (forall x : N, parse_unsigned (bytes (pretty x)) = Some (Z.of_N x) /\
            forall b l', bytes (pretty x) = b :: l' -> 48 <= b <= 57) as Hx.
  { intros x. apply parse_unsigned_number; [apply parse_pretty_N|apply pretty_N_nonempty]. }
  destruct n as [|p|p]; [done|..].
  - destruct (Hx (N.pos p)) as [Hp Hb]. change (pretty (Z.pos p)) with (pretty (N.pos p)).
    destruct (bytes (pretty (N.pos p))) as [|b l] eqn:Hl; [done|].
    specialize (Hb b l eq_refl).
    rewrite (proj2 (Z.eqb_neq b 43)), (proj2 (Z.eqb_neq b 45)) by lia. cbv zeta. rewrite Hp.
    change (1 * Z.of_N (N.pos p)) with (Z.pos p). case_bool_decide; done.
  - destruct (Hx (N.pos p)) as [Hp _]. change (pretty (Z.neg p)) with ("-" +:+ pretty (N.pos p)).
    change (bytes ("-" +:+ pretty (N.pos p))) with (45 :: bytes (pretty (N.pos p))).
    cbv beta iota zeta. change (45 =? 43) with false. change (45 =? 45) with true. cbv iota.
    rewrite Hp. change (-1 * Z.of_N (N.pos p)) with (Z.neg p). case_bool_decide; done.
Qed.

Lemma ParseInt_range s n : ParseInt s = Some n -> in_int64 n.
Proof.
  unfold ParseInt. cbv zeta.
  repeat match goal with |- context [match ?x with _ => _ end] => destruct x eqn:? end; try done;
    intros [= <-]; by eapply bool_decide_eq_true.
Qed.
