(* ===== verification/Sha256.v ===== *)
(** [crypto/sha256] and [encoding/hex], as far as the program uses them:
    [sha256.Sum256] and [hex.EncodeToString], and from them
    [auth.HashToken] (src/internal/auth/token_manager.go) and
    [authstate.digest] (src/internal/authstate/store.go).

    Words are 32-bit [Z]s (FIPS 180-4). *)
From S2P Require Import Prelude GoTime GoStrings.

Definition mask32 : Z := 0xFFFFFFFF.
Definition add32 (a b : Z) : Z := Z.land (a + b) mask32.
Definition rotr (n x : Z) : Z := Z.lor (Z.shiftr x n) (Z.land (Z.shiftl x (32 - n)) mask32).
Definition xor3 (a b c : Z) : Z := Z.lxor a (Z.lxor b c).

Definition big_sigma0 x := xor3 (rotr 2 x) (rotr 13 x) (rotr 22 x).
Definition big_sigma1 x := xor3 (rotr 6 x) (rotr 11 x) (rotr 25 x).
Definition small_sigma0 x := xor3 (rotr 7 x) (rotr 18 x) (Z.shiftr x 3).
Definition small_sigma1 x := xor3 (rotr 17 x) (rotr 19 x) (Z.shiftr x 10).
Definition choose x y z := Z.lxor (Z.land x y) (Z.land (Z.lxor x mask32) z).
Definition majority x y z := xor3 (Z.land x y) (Z.land x z) (Z.land y z).

(** The constants are the first 32 bits of the fractional parts of the cube
    roots of the first 64 primes, and of the square roots of the first eight. *)
Definition has_divisor (n : Z) (smaller : list Z) : bool :=
  existsb (fun d => n mod d =? 0) smaller.

Fixpoint primes_from (fuel : nat) (n : Z) (found : list Z) : list Z :=
  match fuel with
  | O => rev found
  | Datatypes.S k => primes_from k (n + 1) (if has_divisor n found then found else n :: found)
  end.

Definition primes : list Z := primes_from 310 2 [].

(** The largest [r] with [r^3 <= n], bit by bit from the bit [k - 1]. *)
Fixpoint cube_root (k : nat) (r n : Z) : Z :=
  match k with
  | O => r
  | Datatypes.S k' =>
    let r' := r + 2 ^ Z.of_nat k' in
    cube_root k' (if r' * r' * r' <=? n then r' else r) n
  end.

Definition round_constants : list Z :=
  Eval vm_compute in map (fun p => Z.land (cube_root 36 0 (p * 2 ^ 96)) mask32) primes.

Definition square_roots : list Z :=
  Eval vm_compute in map (fun p => Z.land (Z.sqrt (p * 2 ^ 64)) mask32) (firstn 8 primes).

Record hstate := mkH { ha : Z; hb : Z; hc : Z; hd : Z; he : Z; hf : Z; hg : Z; hh : Z }.

Definition initial_hash : hstate :=
  match square_roots with
  | [a; b; c; d; e; f; g; h] => mkH a b c d e f g h
  | _ => mkH 0 0 0 0 0 0 0 0
  end.

(** The message schedule: [n] further words, from the words so far, last first. *)
Fixpoint extend (n : nat) (ws : list Z) : list Z :=
  match n with
  | O => ws
  | Datatypes.S k =>
    let w i := nth i ws 0 in
    extend k (add32 (add32 (small_sigma1 (w 1%nat)) (w 6%nat))
                    (add32 (small_sigma0 (w 14%nat)) (w 15%nat)) :: ws)
  end.

Definition round (s : hstate) (kw : Z * Z) : hstate :=
  let t1 := add32 (add32 (hh s) (big_sigma1 (he s)))
                  (add32 (choose (he s) (hf s) (hg s)) (add32 (fst kw) (snd kw))) in
  let t2 := add32 (big_sigma0 (ha s)) (majority (ha s) (hb s) (hc s)) in
  mkH (add32 t1 t2) (ha s) (hb s) (hc s) (add32 (hd s) t1) (he s) (hf s) (hg s).

Definition add_hash (a b : hstate) : hstate :=
  mkH (add32 (ha a) (ha b)) (add32 (hb a) (hb b)) (add32 (hc a) (hc b)) (add32 (hd a) (hd b))
      (add32 (he a) (he b)) (add32 (hf a) (hf b)) (add32 (hg a) (hg b)) (add32 (hh a) (hh b)).

Definition compress (s : hstate) (block : list Z) : hstate :=
  add_hash s (fold_left round (combine round_constants (rev (extend 48 (rev block)))) s).

(** Big-endian bytes of a number and words of a byte string. *)
Fixpoint be_bytes (n : nat) (z : Z) : list Z :=
  match n with
  | O => []
  | Datatypes.S k => Z.land (Z.shiftr z (8 * Z.of_nat k)) 255 :: be_bytes k z
  end.

Fixpoint words (l : list Z) : list Z :=
  match l with
  | a :: b :: c :: d :: l' =>
    Z.lor (Z.lor (Z.shiftl a 24) (Z.shiftl b 16)) (Z.lor (Z.shiftl c 8) d) :: words l'
  | _ => []
  end.

Definition padded (msg : list Z) : list Z :=
  let n := Z.of_nat (List.length msg) in
  msg ++ [0x80] ++ repeat 0 (Z.to_nat ((55 - n) mod 64)) ++ be_bytes 8 (8 * n).

(** The blocks of sixteen words; [fuel] bounds their number. *)
Fixpoint blocks (fuel : nat) (ws : list Z) : list (list Z) :=
  match fuel, ws with
  | O, _ | _, [] => []
  | Datatypes.S k, _ => firstn 16 ws :: blocks k (skipn 16 ws)
  end.

Definition hash_words (s : hstate) : list Z :=
  [ha s; hb s; hc s; hd s; he s; hf s; hg s; hh s].

(** [sha256.Sum256] *)
Definition Sum256 (msg : list Z) : list Z :=
  let ws := words (padded msg) in
  flat_map (be_bytes 4)
    (hash_words (fold_left compress (blocks (List.length ws) ws) initial_hash)).

Definition hex_digit (n : Z) : Z := if n <? 10 then 48 + n else 87 + n.

(** [hex.EncodeToString] *)
Definition EncodeToString (l : list Z) : string :=
  of_bytes (flat_map (fun b => [hex_digit (Z.shiftr b 4); hex_digit (Z.land b 15)]) l).

Definition HashToken (token : string) : string := EncodeToString (Sum256 (bytes token)).
Definition digest (value : string) : string := EncodeToString (Sum256 (bytes value)).

Example sha256_abc :
  HashToken "abc" = "ba7816bf8f01cfea414140de5dae2223b00361a396177a9cb410ff61f20015ad".
Proof. vm_compute. reflexivity. Qed.
Example sha256_two_blocks :
  digest "abcdbcdecdefdefgefghfghighijhijkijkljklmklmnlmnomnopnopq"
  = "248d6a61d20638b8e5c026930c3e6039a33ce45964ff2167f6ecedd419db06c1".
Proof. vm_compute. reflexivity. Qed.

(** Proofs treat the digests as black boxes; computations still run them. *)
#[global] Opaque Sum256 HashToken digest.
