(* ===== verification/GoErrors.v ===== *)
(** Errors: Go's [error] values, [errors.Is] and [errors.As], the
    [apperror] package, the response codes and the services' error values
    (src/internal/apperror, src/internal/response/code.go,
    src/internal/service/errors.go). *)
From S2P Require Import Prelude.

(** * Error values

    A package-level [errors.New] is a [Sentinel], identified by its variable.
    An [AppErr] is a pointer to an [apperror.AppError]: a package-level one
    carries the name of its variable, one made by a call of [Wrap] or [New]
    in a function body is a new pointer and carries none. [Wrapped] is an
    error with an [Unwrap] method that is not an AppError: [fmt.Errorf] with
    [%w] verbs, or a library's joined error. *)
Inductive error : Type :=
| Sentinel (name : string)
| AppErr (name : option string) (HTTPStatus Code : Z) (Message : string) (Cause : option error)
| Wrapped (msg : string) (errs : list error)
| Plain (msg : string).

Abbreviation res := (outcome error).

(** [errors.Is(err, target)] for a package-level [target]. *)
Fixpoint errors_Is (err : error) (target : string) {struct err} : bool :=
  match err with
  | Sentinel n => String.eqb n target
  | AppErr n _ _ _ cause =>
    (match n with Some n => String.eqb n target | None => false end)
    || (match cause with Some c => errors_Is c target | None => false end)
  | Wrapped _ errs =>
    (fix any (l : list error) : bool :=
       match l with [] => false | e :: l' => errors_Is e target || any l' end) errs
  | Plain _ => false
  end.

Record AppError := mkAppError {
  HTTPStatus : Z;
  Code : Z;
  Message : string;
  Cause : option error;
}.

(** [apperror.FromError]: [errors.As(err, &appErr)], the first AppError of the
    tree in depth-first order. *)
Fixpoint FromError (err : error) {struct err} : option AppError :=
  match err with
  | AppErr _ st code msg cause => Some (mkAppError st code msg cause)
  | Wrapped _ errs =>
    (fix first (l : list error) : option AppError :=
       match l with
       | [] => None
       | e :: l' => match FromError e with Some a => Some a | None => first l' end
       end) errs
  | Sentinel _ | Plain _ => None
  end.

(** [apperror.New] as the value of a package-level variable, [apperror.New]
    in a function body, and [apperror.Wrap]. *)
Definition New (name : string) (httpStatus code : Z) (message : string) : error :=
  AppErr (Some name) httpStatus code message None.
Definition NewLocal (httpStatus code : Z) (message : string) : error :=
  AppErr None httpStatus code message None.
Definition Wrap (httpStatus code : Z) (message : string) (cause : option error) : error :=
  AppErr None httpStatus code message cause.

(** [AppError.Error] and the other [Error] methods; a sentinel's text is
    not modelled beyond its name. *)
Fixpoint error_string (err : error) {struct err} : string :=
  match err with
  | Sentinel n => n
  | AppErr _ _ _ msg cause =>
    if negb (String.eqb msg "") then msg
    else match cause with Some c => error_string c | None => "application error" end
  | Wrapped msg _ => msg
  | Plain msg => msg
  end.

(** [fmt.Errorf(msg + ": %w", err)] *)
Definition Errorf (msg : string) (err : error) : error :=
  Wrapped (msg +:+ ": " +:+ error_string err) [err].

(** * Names of the library errors the code tests for *)

Definition gorm_ErrRecordNotFound : string := "gorm.ErrRecordNotFound".
Definition jwt_ErrTokenMalformed : string := "jwt.ErrTokenMalformed".
Definition jwt_ErrTokenSignatureInvalid : string := "jwt.ErrTokenSignatureInvalid".
Definition jwt_ErrTokenExpired : string := "jwt.ErrTokenExpired".
Definition io_EOF : string := "io.EOF".

(** [errors.Is(err, gorm.ErrRecordNotFound)] *)
Definition is_not_found (e : error) : bool := errors_Is e gorm_ErrRecordNotFound.

(** * [net/http] status codes *)

Definition StatusOK : Z := 200.
Definition StatusBadRequest : Z := 400.
Definition StatusUnauthorized : Z := 401.
Definition StatusForbidden : Z := 403.
Definition StatusNotFound : Z := 404.
Definition StatusConflict : Z := 409.
Definition StatusTooManyRequests : Z := 429.
Definition StatusInternalServerError : Z := 500.
Definition StatusServiceUnavailable : Z := 503.

(** * src/internal/response/code.go *)

Definition CodeSuccess : Z := 0.
Definition CodeInvalidParams : Z := 1001.
Definition CodeUsernameAlreadyExists : Z := 2001.
Definition CodeRegisterFailed : Z := 2002.
Definition CodeUserNotFound : Z := 2003.
Definition CodeUserDisabled : Z := 2004.
Definition CodeLoginFailed : Z := 2005.
Definition CodeUserPasswordNoDifference : Z := 2006.
Definition CodeUpdateUserPasswordFailed : Z := 2007.
Definition CodeLoginRateLimited : Z := 2008.
Definition CodeTokenGenerateFailed : Z := 3001.
Definition CodeTokenUserMissing : Z := 3002.
Definition CodeTokenUserInvalid : Z := 3003.
Definition CodeGetProfileFailed : Z := 3004.
Definition CodeTokenMissing : Z := 3005.
Definition CodeTokenInvalidFormat : Z := 3006.
Definition CodeTokenExpired : Z := 3007.
Definition CodeTokenInvalid : Z := 3008.
Definition CodeTokenMalformed : Z := 3009.
Definition CodeTokenSignatureInvalid : Z := 3010.
Definition CodeRefreshTokenInvalid : Z := 3011.
Definition CodeRefreshTokenExpired : Z := 3012.
Definition CodeRefreshTokenRevoked : Z := 3013.
Definition CodeNicknameInvalid : Z := 4001.
Definition CodeUpdateNicknameFailed : Z := 4002.
Definition CodeReadinessFailed : Z := 5001.
Definition CodeDatabaseNotInitialized : Z := 5002.
Definition CodePermissionDenied : Z := 5003.
Definition CodeRoleNotFound : Z := 5004.
Definition CodeRBACFailed : Z := 5005.
Definition CodeAuthStateUnavailable : Z := 5006.
Definition CodeInternalError : Z := 6001.
Definition CodeRequestTimeout : Z := 6002.

(** * src/internal/repository/rbac.go *)

Definition repository_ErrRoleNotFound : error := Sentinel "repository.ErrRoleNotFound".

(** * src/internal/service/errors.go *)

Definition ErrAdminAlreadyBootstrapped : error := Sentinel "service.ErrAdminAlreadyBootstrapped".
Definition ErrRBACNotInitialized : error := Sentinel "service.ErrRBACNotInitialized".

Definition ErrUsernameTooShort : error :=
  New "service.ErrUsernameTooShort" StatusBadRequest CodeInvalidParams "username too short".
Definition ErrPasswordTooShortOrTooLong : error :=
  New "service.ErrPasswordTooShortOrTooLong" StatusBadRequest CodeInvalidParams
    "password must contain at least 12 characters and no more than 72 UTF-8 bytes".
Definition ErrUsernameAlreadyExists : error :=
  New "service.ErrUsernameAlreadyExists" StatusConflict CodeUsernameAlreadyExists
    "username already exists".
Definition ErrUserNotFound : error :=
  New "service.ErrUserNotFound" StatusNotFound CodeUserNotFound "username not found".
Definition ErrUserPasswordNoDifference : error :=
  New "service.ErrUserPasswordNoDifference" StatusConflict CodeUserPasswordNoDifference
    "user password no difference".
Definition ErrUserEnteredTheOldPasswordIncorrectly : error :=
  New "service.ErrUserEnteredTheOldPasswordIncorrectly" StatusConflict
    CodeUserPasswordNoDifference "user entered the old password incorrectly".
Definition ErrUserDisabled : error :=
  New "service.ErrUserDisabled" StatusForbidden CodeUserDisabled "user disabled".
Definition ErrInvalidCredentials : error :=
  New "service.ErrInvalidCredentials" StatusUnauthorized CodeLoginFailed
    "username or password incorrect".
Definition ErrInvalidUserID : error :=
  New "service.ErrInvalidUserID" StatusBadRequest CodeInvalidParams "invalid user id".
Definition ErrNicknameTooLong : error :=
  New "service.ErrNicknameTooLong" StatusBadRequest CodeNicknameInvalid "nickname too long".
Definition ErrNicknameEmpty : error :=
  New "service.ErrNicknameEmpty" StatusBadRequest CodeNicknameInvalid "nickname is empty".
Definition ErrDatabaseNotInitialized : error :=
  New "service.ErrDatabaseNotInitialized" StatusInternalServerError CodeDatabaseNotInitialized
    "database is not initialized".
Definition ErrRefreshTokenInvalid : error :=
  New "service.ErrRefreshTokenInvalid" StatusUnauthorized CodeRefreshTokenInvalid
    "refresh token is invalid".
Definition ErrRefreshTokenExpired : error :=
  New "service.ErrRefreshTokenExpired" StatusUnauthorized CodeRefreshTokenExpired
    "refresh token is expired".
Definition ErrRefreshTokenRevoked : error :=
  New "service.ErrRefreshTokenRevoked" StatusUnauthorized CodeRefreshTokenRevoked
    "refresh token has been revoked".
Definition ErrRefreshTokenReplay : error :=
  New "service.ErrRefreshTokenReplay" StatusUnauthorized CodeRefreshTokenRevoked
    "refresh token replay detected".
Definition ErrAccessSessionInvalid : error :=
  New "service.ErrAccessSessionInvalid" StatusUnauthorized CodeTokenInvalid
    "access session is invalid".
Definition ErrLoginRateLimited : error :=
  New "service.ErrLoginRateLimited" StatusTooManyRequests CodeLoginRateLimited
    "too many login attempts".
Definition ErrPermissionDenied : error :=
  New "service.ErrPermissionDenied" StatusForbidden CodePermissionDenied "permission denied".
Definition ErrRoleNotFound : error :=
  New "service.ErrRoleNotFound" StatusNotFound CodeRoleNotFound "role not found".

(** The errors a handler may answer with: every AppError of the services has a
    client or server error status and a non-zero business code. *)
Definition service_errors : list error :=
  [ErrUsernameTooShort; ErrPasswordTooShortOrTooLong; ErrUsernameAlreadyExists; ErrUserNotFound;
   ErrUserPasswordNoDifference; ErrUserEnteredTheOldPasswordIncorrectly; ErrUserDisabled;
   ErrInvalidCredentials; ErrInvalidUserID; ErrNicknameTooLong; ErrNicknameEmpty;
   ErrDatabaseNotInitialized; ErrRefreshTokenInvalid; ErrRefreshTokenExpired;
   ErrRefreshTokenRevoked; ErrRefreshTokenReplay; ErrAccessSessionInvalid; ErrLoginRateLimited;
   ErrPermissionDenied; ErrRoleNotFound].

(** * Lemmas *)

Lemma FromError_Wrap st code msg c : FromError (Wrap st code msg c) = Some (mkAppError st code msg c).
Proof. done. Qed.

(** [Wrap] makes the cause reachable by [errors.Is] and is no sentinel itself. *)
Lemma errors_Is_Wrap st code msg c target :
  errors_Is (Wrap st code msg (Some c)) target = errors_Is c target.
Proof. done. Qed.

Lemma errors_Is_local st code msg target : errors_Is (NewLocal st code msg) target = false.
Proof. done. Qed.
