(* ===== verification/Model.v ===== *)
(** The data model (src/internal/model): the rows of the six tables, the
    string constants, and what the struct tags say about each table.

    A [time.Time] is a [Z] (nanoseconds), a pointer an [option]. The zero
    [time.Time] is [ZeroTime]. *)
From S2P Require Import Prelude GoTime.

(** Year 1, in nanoseconds before the Unix epoch. *)
Definition ZeroTime : Z := -62135596800 * Second.

(** * Rows *)

Record User := mkUser {
  u_ID : Z;
  u_Username : string;
  u_PasswordHash : string;
  u_Nickname : string;
  u_Status : Z;
  u_AuthVersion : Z;
  u_CreatedAt : Z;
  u_UpdatedAt : Z;
  u_LastLoginAt : option Z;
  u_DeletedAt : option Z;
}.

Record RefreshToken := mkRefreshToken {
  t_ID : Z;
  t_UserID : Z;
  t_JTI : string;
  t_FamilyID : string;
  t_TokenHash : string;
  t_ExpiresAt : Z;
  t_RevokedAt : option Z;
  t_RevokedReason : option string;
  t_ReplacedByJTI : option string;
  t_CreatedAt : Z;
  t_UpdatedAt : Z;
}.

Record Role := mkRole {
  r_ID : Z;
  r_Code : string;
  r_Name : string;
  r_CreatedAt : Z;
  r_UpdatedAt : Z;
}.

Record Permission := mkPermission {
  p_ID : Z;
  p_Code : string;
  p_Name : string;
  p_Method : string;
  p_Path : string;
  p_CreatedAt : Z;
  p_UpdatedAt : Z;
}.

Record UserRole := mkUserRole {
  ur_UserID : Z;
  ur_RoleID : Z;
  ur_CreatedAt : Z;
}.

Record RolePermission := mkRolePermission {
  rp_RoleID : Z;
  rp_PermissionID : Z;
  rp_CreatedAt : Z;
}.

#[export] Instance User_eq_dec : EqDecision User.
Proof. solve_decision. Defined.
#[export] Instance RefreshToken_eq_dec : EqDecision RefreshToken.
Proof. solve_decision. Defined.
#[export] Instance Role_eq_dec : EqDecision Role.
Proof. solve_decision. Defined.
#[export] Instance Permission_eq_dec : EqDecision Permission.
Proof. solve_decision. Defined.
#[export] Instance UserRole_eq_dec : EqDecision UserRole.
Proof. solve_decision. Defined.
#[export] Instance RolePermission_eq_dec : EqDecision RolePermission.
Proof. solve_decision. Defined.

(** * Constants *)

Definition UserStatusActive : Z := 1.
Definition UserStatusDisabled : Z := 2.

Definition ReasonRotated : string := "rotated".
Definition ReasonLogout : string := "logout".
Definition ReasonPasswordChange : string := "password_change".
Definition ReasonReplay : string := "replay_detected".

Definition RoleCodeAdmin : string := "admin".
Definition RoleCodeUser : string := "user".

Definition PermissionProfileRead : string := "profile:read".
Definition PermissionProfileUpdate : string := "profile:update".
Definition PermissionPasswordUpdate : string := "password:update".
Definition PermissionAdminRolesRead : string := "admin:roles:read".
Definition PermissionAdminPermsRead : string := "admin:permissions:read".
Definition PermissionAdminUserRoleEdit : string := "admin:user_roles:update".

(** * Field updates *)

Definition set_nickname (n : string) (u : User) : User :=
  mkUser (u_ID u) (u_Username u) (u_PasswordHash u) n (u_Status u) (u_AuthVersion u)
    (u_CreatedAt u) (u_UpdatedAt u) (u_LastLoginAt u) (u_DeletedAt u).
Definition set_last_login (t : Z) (u : User) : User :=
  mkUser (u_ID u) (u_Username u) (u_PasswordHash u) (u_Nickname u) (u_Status u) (u_AuthVersion u)
    (u_CreatedAt u) (u_UpdatedAt u) (Some t) (u_DeletedAt u).
Definition set_status (st : Z) (u : User) : User :=
  mkUser (u_ID u) (u_Username u) (u_PasswordHash u) (u_Nickname u) st (u_AuthVersion u)
    (u_CreatedAt u) (u_UpdatedAt u) (u_LastLoginAt u) (u_DeletedAt u).
Definition set_password (hash : string) (u : User) : User :=
  mkUser (u_ID u) (u_Username u) hash (u_Nickname u) (u_Status u) (u_AuthVersion u + 1)
    (u_CreatedAt u) (u_UpdatedAt u) (u_LastLoginAt u) (u_DeletedAt u).

(** The columns RevokeByJTI and RevokeFamily/RevokeAllByUserID write. *)
Definition set_revoked (at_ : Z) (reason : string) (t : RefreshToken) : RefreshToken :=
  mkRefreshToken (t_ID t) (t_UserID t) (t_JTI t) (t_FamilyID t) (t_TokenHash t) (t_ExpiresAt t)
    (Some at_) (Some reason) (t_ReplacedByJTI t) (t_CreatedAt t) (t_UpdatedAt t).
Definition set_replaced_by (jti : option string) (t : RefreshToken) : RefreshToken :=
  mkRefreshToken (t_ID t) (t_UserID t) (t_JTI t) (t_FamilyID t) (t_TokenHash t) (t_ExpiresAt t)
    (t_RevokedAt t) (t_RevokedReason t) jti (t_CreatedAt t) (t_UpdatedAt t).

(** [next.UserID = userID; next.FamilyID = family] on a token to be created. *)
Definition set_owner (uid : Z) (family : string) (t : RefreshToken) : RefreshToken :=
  mkRefreshToken (t_ID t) uid (t_JTI t) family (t_TokenHash t) (t_ExpiresAt t)
    (t_RevokedAt t) (t_RevokedReason t) (t_ReplacedByJTI t) (t_CreatedAt t) (t_UpdatedAt t).

(** * Tables *)

Inductive table := TUsers | TRefreshTokens | TRoles | TPermissions | TUserRoles | TRolePermissions.

#[export] Instance table_eq_dec : EqDecision table.
Proof. solve_decision. Defined.

Definition row (t : table) : Type :=
  match t with
  | TUsers => User
  | TRefreshTokens => RefreshToken
  | TRoles => Role
  | TPermissions => Permission
  | TUserRoles => UserRole
  | TRolePermissions => RolePermission
  end.

Definition tables : Type := forall t, list (row t).

#[export] Instance row_eq_dec t : EqDecision (row t).
Proof. destruct t; apply _. Defined.

(** The column [id]; the two join tables have none. *)
Definition row_id (t : table) : row t -> Z :=
  match t with
  | TUsers => u_ID
  | TRefreshTokens => t_ID
  | TRoles => r_ID
  | TPermissions => p_ID
  | TUserRoles | TRolePermissions => fun _ => 0
  end.

(** A [gorm.DeletedAt] field makes every query of the model skip the rows
    where it is set. *)
Definition visible (t : table) : row t -> bool :=
  match t with
  | TUsers => fun u => match u_DeletedAt u with None => true | Some _ => false end
  | _ => fun _ => true
  end.

Definition or_if_zero (z d : Z) : Z := if z =? 0 then d else z.
Definition or_if_zero_time (z d : Z) : Z := if z =? ZeroTime then d else z.

(** What creating a row fills in, from the tags [autoIncrement],
    [default:...], [autoCreateTime] and [autoUpdateTime]: [id] is the key the
    table assigns and [now] the time of the insertion. *)
Definition prepare (t : table) (id now : Z) : row t -> row t :=
  match t with
  | TUsers => fun u =>
      mkUser (or_if_zero (u_ID u) id) (u_Username u) (u_PasswordHash u) (u_Nickname u)
        (or_if_zero (u_Status u) 1) (or_if_zero (u_AuthVersion u) 1)
        (or_if_zero_time (u_CreatedAt u) now) (or_if_zero_time (u_UpdatedAt u) now)
        (u_LastLoginAt u) (u_DeletedAt u)
  | TRefreshTokens => fun k =>
      mkRefreshToken (or_if_zero (t_ID k) id) (t_UserID k) (t_JTI k) (t_FamilyID k)
        (t_TokenHash k) (t_ExpiresAt k) (t_RevokedAt k) (t_RevokedReason k) (t_ReplacedByJTI k)
        (or_if_zero_time (t_CreatedAt k) now) (or_if_zero_time (t_UpdatedAt k) now)
  | TRoles => fun r =>
      mkRole (or_if_zero (r_ID r) id) (r_Code r) (r_Name r)
        (or_if_zero_time (r_CreatedAt r) now) (or_if_zero_time (r_UpdatedAt r) now)
  | TPermissions => fun p =>
      mkPermission (or_if_zero (p_ID p) id) (p_Code p) (p_Name p) (p_Method p) (p_Path p)
        (or_if_zero_time (p_CreatedAt p) now) (or_if_zero_time (p_UpdatedAt p) now)
  | TUserRoles => fun r =>
      mkUserRole (ur_UserID r) (ur_RoleID r) (or_if_zero_time (ur_CreatedAt r) now)
  | TRolePermissions => fun r =>
      mkRolePermission (rp_RoleID r) (rp_PermissionID r) (or_if_zero_time (rp_CreatedAt r) now)
  end.

(** What every UPDATE also writes, from the tag [autoUpdateTime]. *)
Definition touch (t : table) (now : Z) : row t -> row t :=
  match t with
  | TUsers => fun u =>
      mkUser (u_ID u) (u_Username u) (u_PasswordHash u) (u_Nickname u) (u_Status u)
        (u_AuthVersion u) (u_CreatedAt u) now (u_LastLoginAt u) (u_DeletedAt u)
  | TRefreshTokens => fun k =>
      mkRefreshToken (t_ID k) (t_UserID k) (t_JTI k) (t_FamilyID k) (t_TokenHash k)
        (t_ExpiresAt k) (t_RevokedAt k) (t_RevokedReason k) (t_ReplacedByJTI k)
        (t_CreatedAt k) now
  | TRoles => fun r => mkRole (r_ID r) (r_Code r) (r_Name r) (r_CreatedAt r) now
  | TPermissions => fun p =>
      mkPermission (p_ID p) (p_Code p) (p_Name p) (p_Method p) (p_Path p) (p_CreatedAt p) now
  | TUserRoles => fun r => r
  | TRolePermissions => fun r => r
  end.

(** * Storage

    The columns are DATETIME(3) and VARCHAR with the collation
    utf8mb4_0900_ai_ci: the database keeps a time to the millisecond, and
    compares text up to case and accents. Both are the database's, and given
    here by their documented properties only. *)
Class Storage := {
  datetime : Z -> Z;
  coll_eqb : string -> string -> bool;
  datetime_idem : forall t, datetime (datetime t) = datetime t;
  coll_refl : forall a, coll_eqb a a = true;
  coll_sym : forall a b, coll_eqb a b = true -> coll_eqb b a = true;
  coll_trans : forall a b c, coll_eqb a b = true -> coll_eqb b c = true -> coll_eqb a c = true;
  (** [SELECT DISTINCT c ... ORDER BY c ASC] over the values of a text column:
      one of each class of equal values, which one is not promised. *)
  coll_leb : string -> string -> bool;
  distinct_asc : list string -> list string;
  distinct_asc_sub : forall l x, In x (distinct_asc l) -> In x l;
  distinct_asc_cover : forall l x,
    In x l -> exists y, In y (distinct_asc l) /\ coll_eqb x y = true;
  distinct_asc_unique : forall l,
    ForallOrdPairs (fun a b => coll_eqb a b = false) (distinct_asc l);
  distinct_asc_sorted : forall l, Sorted (fun a b => coll_leb a b = true) (distinct_asc l);
}.

Definition coll_equiv `{Storage} (a b : string) : Prop := coll_eqb a b = true.

#[export] Instance coll_equivalence `{Storage} : Equivalence coll_equiv.
Proof.
  unfold coll_equiv. split; red; eauto using coll_refl, coll_sym, coll_trans.
Qed.

#[export] Instance coll_eqb_proper `{Storage} : Proper (coll_equiv ==> coll_equiv ==> eq) coll_eqb.
Proof.
  intros a a' Ha b b' Hb. unfold coll_equiv in *. apply eq_bool_prop_intro.
  rewrite !Is_true_true. split; intros Hab.
  - apply coll_trans with b; [|done]. apply coll_trans with a; [by apply coll_sym|done].
  - apply coll_trans with b'; [|by apply coll_sym]. by apply coll_trans with a'.
Qed.

(** What a row reads back as once it is stored. *)
Definition stored `{Storage} (t : table) : row t -> row t :=
  match t with
  | TUsers => fun u =>
      mkUser (u_ID u) (u_Username u) (u_PasswordHash u) (u_Nickname u) (u_Status u)
        (u_AuthVersion u) (datetime (u_CreatedAt u)) (datetime (u_UpdatedAt u))
        (option_map datetime (u_LastLoginAt u)) (option_map datetime (u_DeletedAt u))
  | TRefreshTokens => fun k =>
      mkRefreshToken (t_ID k) (t_UserID k) (t_JTI k) (t_FamilyID k) (t_TokenHash k)
        (datetime (t_ExpiresAt k)) (option_map datetime (t_RevokedAt k)) (t_RevokedReason k)
        (t_ReplacedByJTI k) (datetime (t_CreatedAt k)) (datetime (t_UpdatedAt k))
  | TRoles => fun r =>
      mkRole (r_ID r) (r_Code r) (r_Name r) (datetime (r_CreatedAt r)) (datetime (r_UpdatedAt r))
  | TPermissions => fun p =>
      mkPermission (p_ID p) (p_Code p) (p_Name p) (p_Method p) (p_Path p)
        (datetime (p_CreatedAt p)) (datetime (p_UpdatedAt p))
  | TUserRoles => fun r => mkUserRole (ur_UserID r) (ur_RoleID r) (datetime (ur_CreatedAt r))
  | TRolePermissions => fun r =>
      mkRolePermission (rp_RoleID r) (rp_PermissionID r) (datetime (rp_CreatedAt r))
  end.

(** The PRIMARY and UNIQUE keys: two rows that may not both be stored. *)
Definition conflicts `{Storage} (t : table) : row t -> row t -> bool :=
  match t with
  | TUsers => fun a b => (u_ID a =? u_ID b) || coll_eqb (u_Username a) (u_Username b)
  | TRefreshTokens => fun a b =>
      (t_ID a =? t_ID b) || coll_eqb (t_JTI a) (t_JTI b) || coll_eqb (t_TokenHash a) (t_TokenHash b)
  | TRoles => fun a b => (r_ID a =? r_ID b) || coll_eqb (r_Code a) (r_Code b)
  | TPermissions => fun a b =>
      (p_ID a =? p_ID b) || coll_eqb (p_Code a) (p_Code b)
      || (coll_eqb (p_Method a) (p_Method b) && coll_eqb (p_Path a) (p_Path b))
  | TUserRoles => fun a b => (ur_UserID a =? ur_UserID b) && (ur_RoleID a =? ur_RoleID b)
  | TRolePermissions => fun a b =>
      (rp_RoleID a =? rp_RoleID b) && (rp_PermissionID a =? rp_PermissionID b)
  end.
