(* ===== verification/Gorm.v ===== *)
(** The database, as gorm presents it.

    gorm and MySQL are not code of the repository. Their operations are the
    methods of the class [Gorm], over an unknown type [DB] of database
    states, and what the program relies on is the class [GormLaws]. A row
    predicate stands for a WHERE clause and a row function for the columns an
    UPDATE sets. Every operation may fail. *)
From S2P Require Import Prelude GoTime GoStrings GoErrors Model.

(** A name of the repository's own error values, as opposed to a library's. *)
Definition own_error_name (n : string) : bool :=
  HasPrefix n "service." || HasPrefix n "repository." || HasPrefix n "auth.".

(** An error that comes out of a library: no AppError, none of the
    repository's own values. *)
Definition library_error (e : error) : Prop :=
  FromError e = None /\ forall n, errors_Is e n = true -> own_error_name n = false.

(** A failure of the database other than a missing row. *)
Definition sql_failure (e : error) : Prop := library_error e /\ is_not_found e = false.

Class Gorm := {
  DB : Type;
  (** What a SELECT on the connection sees, rows in the order of insertion. *)
  rows : DB -> tables;
  (** [db.Create(&r)]; the result is [r] as gorm leaves it. *)
  gCreate : forall t, row t -> ST error DB (row t);
  (** [db.Where(p).First(&r)], with FOR UPDATE when [lock]. *)
  gFirst : forall (lock : bool) t, (row t -> bool) -> ST error DB (row t);
  (** [db.Order("id ASC").Find(&rs)] *)
  gFindById : forall t, ST error DB (list (row t));
  (** [db.Model(&T{}).Where(p).Updates(...)]; the result is RowsAffected. *)
  gUpdates : forall t, (row t -> bool) -> (row t -> row t) -> ST error DB Z;
  (** [db.Where(p).Delete(&T{})] on a table without soft deletion. *)
  gDelete : forall t, (row t -> bool) -> ST error DB unit;
  (** [db.Model(&T{}).Where(p).Count(&n)] *)
  gCount : forall t, (row t -> bool) -> ST error DB Z;
  (** [db.Where(p).FirstOrCreate(&r)] *)
  gFirstOrCreate : forall t, (row t -> bool) -> row t -> ST error DB unit;
  (** A read-only query over several tables. *)
  gSelect : forall A : Type, (tables -> A) -> ST error DB A;
  (** [db.Transaction(f)], where [f] also runs on the rest [X] of the
      program's state, which the database cannot roll back. *)
  gTransaction : forall X A : Type, ST error (DB * X) A -> ST error (DB * X) A;
}.

Definition same_rows `{Gorm} (a b : DB) : Prop := forall t, rows a t = rows b t.

#[export] Instance same_rows_equivalence `{Gorm} : Equivalence same_rows.
Proof. unfold same_rows. split; red; congruence. Qed.

(** Only the table [t] differs, and it now holds [l]. *)
Definition changes_to `{Gorm} (db db' : DB) (t : table) (l : list (row t)) : Prop :=
  rows db' t = l /\ forall t', t' <> t -> rows db' t' = rows db t'.

(** The effect of an UPDATE on a row it selects. *)
Definition updated `{Storage} (t : table) (now : Z) (f : row t -> row t) (r : row t) : row t :=
  stored t (touch t now (f r)).

(** The rows an operation on table [t] with WHERE clause [p] is about. *)
Definition selects (t : table) (p : row t -> bool) (r : row t) : bool := visible t r && p r.

(** The effect of an INSERT of [r], which leaves [r'] in the program. *)
Definition inserted `{Storage} `{Gorm} (db db' : DB) (t : table) (r r' : row t) : Prop :=
  exists id now,
    0 < id /\ r' = prepare t id now r /\
    Forall (fun x => conflicts t x (stored t r') = false) (rows db t) /\
    changes_to db db' t (rows db t ++ [stored t r']).

(** ** Outcomes of database operations *)

Section posts.
Context `{Storage} {G : Gorm}.

(** A read: the rows stay, and the value satisfies [ok]. *)
Definition query_post {A} (ok : A -> Prop) (db : DB) (res : res A) (db' : DB) : Prop :=
  same_rows db db' /\
  match res with Ok a => ok a | Err e => sql_failure e | Panic => False end.

(** The lookup of one row: it is there, or the error says that none is. *)
Definition first_post t (p : row t -> bool) (db : DB) (res : res (row t)) (db' : DB) : Prop :=
  same_rows db db' /\
  match res with
  | Ok r => In r (rows db t) /\ selects t p r = true
  | Err e => library_error e /\
             (is_not_found e = true -> forall r, In r (rows db t) -> selects t p r = false)
  | Panic => False
  end.

(** A write: it has its effect [ok], or fails and the rows stay. *)
Definition exec_post {A} (ok : A -> DB -> Prop) (db : DB) (res : res A) (db' : DB) : Prop :=
  match res with
  | Ok a => ok a db'
  | Err e => sql_failure e /\ same_rows db db'
  | Panic => False
  end.

(** An UPDATE of the rows [p] selects by [f], at some time [now]. *)
Definition update_effect t (p : row t -> bool) (f : row t -> row t) (db db' : DB) : Prop :=
  exists now, changes_to db db' t (update_where (selects t p) (updated t now f) (rows db t)).
End posts.

Class GormLaws `{Storage} `{Gorm} : Prop := {
  create_law : forall t r db,
    wp (gCreate t r) (exec_post (fun r' db' => inserted db db' t r r') db) db;
  first_law : forall lock t p db, wp (gFirst lock t p) (first_post t p db) db;
  find_law : forall t db,
    wp (gFindById t)
      (query_post (fun l => Permutation l (List.filter (visible t) (rows db t)) /\
                            Sorted (fun a b => row_id t a <= row_id t b) l) db) db;
  updates_law : forall t p f db,
    wp (gUpdates t p f)
      (exec_post (fun n db' => exists now,
         changes_to db db' t (update_where (selects t p) (updated t now f) (rows db t)) /\
         n = count_where (fun r => selects t p r && negb (bool_decide (updated t now f r = r)))
               (rows db t)) db) db;
  delete_law : forall t p db,
    (forall r, visible t r = true) ->
    wp (gDelete t p)
      (exec_post (fun _ db' => changes_to db db' t (delete_where p (rows db t))) db) db;
  count_law : forall t p db,
    wp (gCount t p) (query_post (fun n => n = count_where (selects t p) (rows db t)) db) db;
  first_or_create_law : forall t p r db,
    wp (gFirstOrCreate t p r)
      (exec_post (fun _ db' =>
         (exists x, In x (rows db t) /\ selects t p x = true) /\ same_rows db db' \/
         (forall x, In x (rows db t) -> selects t p x = false) /\
         exists r', inserted db db' t r r') db) db;
  select_law : forall A (q : tables -> A) db,
    wp (gSelect A q) (query_post (fun a => a = q (rows db)) db) db;
  (** BEGIN may fail, and then the body does not run. The body runs on the
      same rows. Its error or panic rolls the rows back; its success commits
      them, or the COMMIT fails and they are rolled back. *)
  transaction_law : forall X A (body : ST error (DB * X) A) db x,
    wp (gTransaction X A body) (fun res dx' =>
      (exists e, res = Err e /\ sql_failure e /\ same_rows db (fst dx') /\ snd dx' = x) \/
      exists db0 res0 db1,
        same_rows db db0 /\ body (db0, x) = (res0, (db1, snd dx')) /\
        match res0 with
        | Ok a => res = Ok a /\ same_rows db1 (fst dx') \/
                  (exists e, res = Err e /\ sql_failure e) /\ same_rows db (fst dx')
        | Err e => res = Err e /\ same_rows db (fst dx')
        | Panic => res = Panic /\ same_rows db (fst dx')
        end) (db, x);
}.

(** * Facts about rows *)

Section storage.
Context `{Storage}.

Lemma stored_idem t r : stored t (stored t r) = stored t r.
Proof.
  destruct t, r; simpl; rewrite ?datetime_idem; try done;
    f_equal; match goal with |- context [option_map _ (option_map _ ?o)] => destruct o end;
    simpl; by rewrite ?datetime_idem.
Qed.

(** ** Unique keys

    The table's PRIMARY and UNIQUE keys hold: no two stored rows conflict. *)
Definition keys_ok (t : table) (l : list (row t)) : Prop :=
  ForallOrdPairs (fun a b => conflicts t a b = false) l.

Lemma coll_eqb_sym a b : coll_eqb a b = coll_eqb b a.
Proof. apply eq_bool_prop_intro. rewrite !Is_true_true. split; apply coll_sym. Qed.

Lemma conflicts_sym t a b : conflicts t a b = conflicts t b a.
Proof.
  destruct t; simpl in a, b |- *.
  - by rewrite (Z.eqb_sym (u_ID a)), (coll_eqb_sym (u_Username a)).
  - by rewrite (Z.eqb_sym (t_ID a)), (coll_eqb_sym (t_JTI a)), (coll_eqb_sym (t_TokenHash a)).
  - by rewrite (Z.eqb_sym (r_ID a)), (coll_eqb_sym (r_Code a)).
  - by rewrite (Z.eqb_sym (p_ID a)), (coll_eqb_sym (p_Code a)), (coll_eqb_sym (p_Method a)),
      (coll_eqb_sym (p_Path a)).
  - by rewrite (Z.eqb_sym (ur_UserID a)), (Z.eqb_sym (ur_RoleID a)).
  - by rewrite (Z.eqb_sym (rp_RoleID a)), (Z.eqb_sym (rp_PermissionID a)).
Qed.

Lemma keys_ok_unique t l a b :
  keys_ok t l -> In a l -> In b l -> conflicts t a b = true -> a = b.
Proof.
  intros Hk Ha Hb Hc.
  destruct (ForallOrdPairs_In Hk a b Ha Hb) as [?|[Hn|Hn]]; [done| |].
  - by rewrite Hn in Hc.
  - by rewrite conflicts_sym, Hn in Hc.
Qed.

Lemma keys_ok_app t l r :
  keys_ok t l -> Forall (fun x => conflicts t x r = false) l -> keys_ok t (l ++ [r]).
Proof.
  unfold keys_ok. induction 1 as [|x l Hx Hl IH]; intros Hf; simpl.
  - repeat constructor.
  - inversion Hf as [|? ? Hxr Hf']; subst. constructor; [|by apply IH].
    apply Forall_app. by split; [|constructor].
Qed.

(** A change that keeps the keys of every row keeps them unique. *)
Lemma keys_ok_map t l (f : row t -> row t) :
  (forall a b, conflicts t (f a) (f b) = conflicts t a b) -> keys_ok t l -> keys_ok t (map f l).
Proof.
  intros Hf. unfold keys_ok. induction 1 as [|x l Hx Hl IH]; simpl; constructor; [|done].
  rewrite Forall_forall in *. intros y Hy. apply list_elem_of_In, in_map_iff in Hy as (z & <- & Hz).
  rewrite Hf. apply Hx. by apply list_elem_of_In.
Qed.

Lemma keys_ok_filter t l p : keys_ok t l -> keys_ok t (List.filter p l).
Proof.
  unfold keys_ok. induction 1 as [|x l Hx Hl IH]; simpl; [constructor|].
  destruct (p x); [|done]. constructor; [|done].
  rewrite Forall_forall in *. intros y Hy. apply list_elem_of_In, filter_In in Hy as [Hy _].
  apply Hx. by apply list_elem_of_In.
Qed.

(** A condition that only conflicting rows can share selects one row at most. *)
Lemma count_where_unique t l p :
  keys_ok t l -> (forall a b, p a = true -> p b = true -> conflicts t a b = true) ->
  count_where p l <= 1.
Proof.
  intros Hk Hp. apply (keys_ok_filter _ _ p) in Hk. unfold count_where.
  assert (forall x, In x (List.filter p l) -> p x = true) as Hin by (intros x [_ Hx]%filter_In; done).
  destruct (List.filter p l) as [|x [|y fl]]; simpl; [lia..|].
  inversion Hk as [|? ? Hf]; subst. inversion Hf as [|? ? Hxy]; subst.
  rewrite (Hp x y) in Hxy by (apply Hin; simpl; auto). done.
Qed.
End storage.

Lemma changes_to_at `{Gorm} db db' t l : changes_to db db' t l -> rows db' t = l.
Proof. by intros [? _]. Qed.

Lemma changes_to_other `{Gorm} db db' t l t' :
  changes_to db db' t l -> t' <> t -> rows db' t' = rows db t'.
Proof. intros [_ Ho]. apply Ho. Qed.

Lemma library_error_not_own e n :
  library_error e -> own_error_name n = true -> errors_Is e n = false.
Proof.
  intros [_ Hl] Hn. destruct (errors_Is e n) eqn:He; [|done]. rewrite (Hl _ He) in Hn. done.
Qed.

(** [db.Model(..).Where(p).Updates(f).Error]: the count is dropped. *)
Lemma exec_effect_law `{GormLaws} t p f db :
  wp (do! gUpdates t p f in ret tt) (exec_post (fun _ => update_effect t p f db) db) db.
Proof.
  wp_step. wp_use (updates_law t p f db). intros [n|e|] db'; simpl; [|done..].
  intros (now & Hc & _). apply wp_ret. by exists now.
Qed.
