(* ===== verification/AuthState.v ===== *)
(** The shared authentication state (src/internal/authstate): the [Store]
    interface, what it promises, and the in-memory store.

    A store operation is given the instant [now] its single reading of the
    clock returns. The map keys are digests of the identifiers, so two
    identifiers with one digest share an entry; the specifications are stated
    over keys and assume nothing about the digest. *)
From S2P Require Import Prelude GoTime GoStrings Sha256 GoErrors.

(** * Keys (store.go) *)

Definition keyPrefix : string := "go-user-system:auth:".

Definition accessRevocationKey (jti : string) : string :=
  keyPrefix +:+ "access:revoked:" +:+ digest jti.
Definition accountFailureKey (account : string) : string :=
  keyPrefix +:+ "login:account:" +:+ digest account.
Definition ipFailureKey (ip : string) : string :=
  keyPrefix +:+ "login:ip:" +:+ digest ip.

#[global] Arguments accessRevocationKey : simpl never.
#[global] Arguments accountFailureKey : simpl never.
#[global] Arguments ipFailureKey : simpl never.

Definition maxDuration (first second : Z) : Z := if second <? first then first else second.

(** What a failed login is counted against. *)
Inductive login_key := AccountKey (account : string) | IPKey (ip : string).

Definition failure_key (k : login_key) : string :=
  match k with AccountKey a => accountFailureKey a | IPKey i => ipFailureKey i end.

(** * The Store interface (store.go) *)

Class Store := {
  St : Type;
  st_RevokeAccessToken : forall (now : Z) (jti : string) (ttl : Z), ST error St unit;
  st_IsAccessTokenRevoked : forall (now : Z) (jti : string), ST error St bool;
  st_CheckLoginLimit :
    forall (now : Z) (account ip : string) (accountLimit ipLimit window : Z), ST error St Z;
  st_RecordLoginFailure :
    forall (now : Z) (account ip : string) (accountLimit ipLimit window : Z), ST error St Z;
  st_ResetLoginAccount : forall (account : string), ST error St unit;
  st_Ping : ST error St unit;
}.

(** What a store promises to the services. [live s t j]: the access token [j]
    counts as revoked at [t]. A store may fail, and may keep a revocation up
    to [granularity] short of the requested time; it never forgets one
    before that, and never reports one that was not asked for. *)
Class StoreLaws `{Store} := {
  live : St -> Z -> string -> bool;
  granularity : Z;
  granularity_nonneg : 0 <= granularity;
  revoke_law : forall now jti ttl s,
    wp (st_RevokeAccessToken now jti ttl) (fun r s' =>
      match r with
      | Ok _ => forall t, now <= t -> 0 < ttl -> t < now + ttl - granularity -> live s' t jti = true
      | Err _ => True
      | Panic => False
      end /\
      (forall t j, now <= t -> digest j <> digest jti -> live s' t j = live s t j)) s;
  is_revoked_law : forall now jti s,
    wp (st_IsAccessTokenRevoked now jti) (fun r s' =>
      match r with
      | Ok b => b = live s now jti
      | Err e => True
      | Panic => False
      end /\
      (forall t j, now <= t -> live s' t j = live s t j)) s;
  check_law : forall now account ip al il window s,
    wp (st_CheckLoginLimit now account ip al il window) (fun r s' =>
      r <> Panic /\ (forall t j, now <= t -> live s' t j = live s t j)) s;
  record_law : forall now account ip al il window s,
    wp (st_RecordLoginFailure now account ip al il window) (fun r s' =>
      r <> Panic /\ (forall t j, now <= t -> live s' t j = live s t j)) s;
  reset_law : forall account s,
    wp (st_ResetLoginAccount account) (fun r s' =>
      r <> Panic /\ (forall t j, live s' t j = live s t j)) s;
}.

(** * The in-memory store (memory.go) *)

Module Memory.

Record memoryCounter := mkCounter { count : Z; expiresAt : Z }.

Record MemoryStore := mkMemoryStore {
  revoked : gmap string Z;
  counters : gmap string memoryCounter;
}.

Definition newMemoryStore : MemoryStore := mkMemoryStore ∅ ∅.

Definition set_revoked_map (f : gmap string Z -> gmap string Z) (s : MemoryStore) : MemoryStore :=
  mkMemoryStore (f (revoked s)) (counters s).
Definition set_counters (f : gmap string memoryCounter -> gmap string memoryCounter)
    (s : MemoryStore) : MemoryStore :=
  mkMemoryStore (revoked s) (f (counters s)).

Definition RevokeAccessToken (now : Z) (jti : string) (ttl : Z) : ST error MemoryStore unit :=
  when! ttl <=? 0 return! ret tt in
  modify (set_revoked_map (insert (accessRevocationKey jti) (time_add now ttl))).

Definition IsAccessTokenRevoked (now : Z) (jti : string) : ST error MemoryStore bool :=
  let key := accessRevocationKey jti in
  let! entry := gets (fun s => revoked s !! key) in
  match entry with
  | None => ret false
  | Some exp =>
    when! negb (time_after exp now)
      return! (do! modify (set_revoked_map (delete key)) in ret false) in
    ret true
  end.

Definition counterRetryAfter (key : string) (limit now : Z) : ST error MemoryStore Z :=
  let! entry := gets (fun s => counters s !! key) in
  match entry with
  | None => ret 0
  | Some counter =>
    when! negb (time_after (expiresAt counter) now)
      return! (do! modify (set_counters (delete key)) in ret 0) in
    when! count counter <? limit return! ret 0 in
    ret (time_sub (expiresAt counter) now)
  end.

Definition incrementCounter (key : string) (now window : Z) : ST error MemoryStore memoryCounter :=
  let! entry := gets (fun s => counters s !! key) in
  let fresh := mkCounter 0 (time_add now window) in
  let counter :=
    match entry with
    | None => fresh
    | Some c => if negb (time_after (expiresAt c) now) then fresh else c
    end in
  let counter := mkCounter (add64 (count counter) 1) (expiresAt counter) in
  do! modify (set_counters (insert key counter)) in
  ret counter.

Definition CheckLoginLimit (now : Z) (account ip : string) (accountLimit ipLimit window : Z)
    : ST error MemoryStore Z :=
  let! accountRetry := counterRetryAfter (accountFailureKey account) accountLimit now in
  let! ipRetry := counterRetryAfter (ipFailureKey ip) ipLimit now in
  ret (maxDuration accountRetry ipRetry).

Definition RecordLoginFailure (now : Z) (account ip : string) (accountLimit ipLimit window : Z)
    : ST error MemoryStore Z :=
  let! accountCounter := incrementCounter (accountFailureKey account) now window in
  let! ipCounter := incrementCounter (ipFailureKey ip) now window in
  let accountRetry :=
    if accountLimit <=? count accountCounter then time_sub (expiresAt accountCounter) now else 0 in
  let ipRetry :=
    if ipLimit <=? count ipCounter then time_sub (expiresAt ipCounter) now else 0 in
  ret (maxDuration accountRetry ipRetry).

Definition ResetLoginAccount (account : string) : ST error MemoryStore unit :=
  modify (set_counters (delete (accountFailureKey account))).

Definition Ping : ST error MemoryStore unit := ret tt.

End Memory.

#[export] Instance MemoryStore_Store : Store := {|
  St := Memory.MemoryStore;
  st_RevokeAccessToken := Memory.RevokeAccessToken;
  st_IsAccessTokenRevoked := Memory.IsAccessTokenRevoked;
  st_CheckLoginLimit := Memory.CheckLoginLimit;
  st_RecordLoginFailure := Memory.RecordLoginFailure;
  st_ResetLoginAccount := Memory.ResetLoginAccount;
  st_Ping := Memory.Ping;
|}.
