(* ===== verification/RedisStore.v ===== *)
(** The authentication state in Redis (src/internal/authstate/redis.go).

    The client (github.com/redis/go-redis) and the server are not code of the
    repository: they are the class [RedisClient] over an unknown type [RS] of
    server states, and what the store relies on is the class [RedisLaws], the
    documented behaviour of the commands. A command is given the instant at
    which the server runs it. *)
From S2P Require Import Prelude GoTime GoStrings Sha256 GoErrors AuthState.

(** * The client *)

(** The commands the store queues on a pipeline, and their replies. *)
Inductive command :=
| MGet (keys : list string)
| PTTL (key : string)
| Incr (key : string)
| ExpireNX (key : string) (expiration : Z).

Inductive cmd_reply :=
| SliceReply (values : list (option string))
| DurationReply (d : Z)
| IntReply (n : Z)
| BoolReply (b : bool)
| ErrorReply (e : error).

Class RedisClient := {
  RS : Type;
  (** [client.Set(ctx, key, value, ttl).Err()] *)
  rc_Set : forall (now : Z) (key value : string) (ttl : Z), ST error RS unit;
  (** [client.Exists(ctx, key).Result()] *)
  rc_Exists : forall (now : Z) (key : string), ST error RS Z;
  (** [client.TxPipelined(ctx, ...)]: MULTI, the commands, EXEC. The error is
      that of the connection or of the first command that failed. *)
  rc_TxPipelined : forall (now : Z) (commands : list command), ST error RS (list cmd_reply);
  (** [client.Del(ctx, key).Err()] *)
  rc_Del : forall (key : string), ST error RS unit;
  (** [client.Ping(ctx).Err()] *)
  rc_Ping : ST error RS unit;
}.

(** * redis.go *)

Definition parse_counter_error (value : string) : error :=
  let err := Plain ("strconv.ParseInt: parsing " +:+ value) in
  Wrapped ("parse login counter: " +:+ error_string err) [err].

Definition counterValue (value : option string) : outcome error Z :=
  match value with
  | None => Ok 0
  | Some value =>
    match ParseInt value with
    | Some count => Ok count
    | None => Err (parse_counter_error value)
    end
  end.

Definition positiveTTL (ttl : Z) : Z := if 0 <? ttl then ttl else Second.

Section store.
Context {RC : RedisClient}.

Definition pure_outcome {A} (r : outcome error A) : ST error RS A := fun s => (r, s).

(** [counts[i]] *)
Definition count_at (counts : list (option string)) (i : nat) : ST error RS (option string) :=
  match counts !! i with Some v => ret v | None => panic end.

Definition RedisRevokeAccessToken (now : Z) (jti : string) (ttl : Z) : ST error RS unit :=
  when! ttl <=? 0 return! ret tt in
  rc_Set now (accessRevocationKey jti) "1" ttl.

Definition RedisIsAccessTokenRevoked (now : Z) (jti : string) : ST error RS bool :=
  let! count := rc_Exists now (accessRevocationKey jti) in
  ret (0 <? count).

(** A pipeline answers each command in its kind; anything else would be a
    defect of the client, and is a panic here. *)
Definition RedisCheckLoginLimit (now : Z) (account ip : string) (accountLimit ipLimit window : Z)
    : ST error RS Z :=
  let accountKey := accountFailureKey account in
  let ipKey := ipFailureKey ip in
  let! replies := rc_TxPipelined now [MGet [accountKey; ipKey]; PTTL accountKey; PTTL ipKey] in
  match replies with
  | [SliceReply counts; DurationReply accountTTL; DurationReply ipTTL] =>
    let! value := count_at counts 0 in
    let! accountCount := pure_outcome (counterValue value) in
    let! value := count_at counts 1 in
    let! ipCount := pure_outcome (counterValue value) in
    let accountRetry := if accountLimit <=? accountCount then positiveTTL accountTTL else 0 in
    let ipRetry := if ipLimit <=? ipCount then positiveTTL ipTTL else 0 in
    ret (maxDuration accountRetry ipRetry)
  | _ => panic
  end.

Definition RedisRecordLoginFailure (now : Z) (account ip : string) (accountLimit ipLimit window : Z)
    : ST error RS Z :=
  let accountKey := accountFailureKey account in
  let ipKey := ipFailureKey ip in
  let! replies := rc_TxPipelined now
    [Incr accountKey; ExpireNX accountKey window; Incr ipKey; ExpireNX ipKey window;
     PTTL accountKey; PTTL ipKey] in
  match replies with
  | [IntReply accountCount; _; IntReply ipCount; _; DurationReply accountTTL; DurationReply ipTTL] =>
    let accountRetry := if accountLimit <=? accountCount then positiveTTL accountTTL else 0 in
    let ipRetry := if ipLimit <=? ipCount then positiveTTL ipTTL else 0 in
    ret (maxDuration accountRetry ipRetry)
  | _ => panic
  end.

Definition RedisResetLoginAccount (account : string) : ST error RS unit :=
  rc_Del (accountFailureKey account).

Definition RedisPing : ST error RS unit := rc_Ping.

(** [NewRedisStore] *)
Definition RedisStore : Store := {|
  St := RS;
  st_RevokeAccessToken := RedisRevokeAccessToken;
  st_IsAccessTokenRevoked := RedisIsAccessTokenRevoked;
  st_CheckLoginLimit := RedisCheckLoginLimit;
  st_RecordLoginFailure := RedisRecordLoginFailure;
  st_ResetLoginAccount := RedisResetLoginAccount;
  st_Ping := RedisPing;
|}.
End store.

(** * What the commands do

    [seen s t k]: the value of the key [k] in the server state [s] at the
    instant [t], with the instant of its expiry, if it has one. *)

Definition entry : Type := string * option Z.

(** An entry as it is seen at the instant [t]. *)
Definition at_instant (t : Z) (o : option entry) : option entry :=
  match o with
  | Some (v, Some e) => if t <? e then Some (v, Some e) else None
  | o => o
  end.

Class RedisView {RC : RedisClient} := seen : RS -> Z -> string -> option entry.

Section laws.
Context {RC : RedisClient} {RV : RedisView}.

(** From [now] on, [s'] shows every key as [s] does. *)
Definition unchanged (now : Z) (s s' : RS) : Prop := forall t k, now <= t -> seen s' t k = seen s t k.

(** From [now] on, the key [k] holds [o], and the other keys are as they were. *)
Definition becomes (now : Z) (s s' : RS) (k : string) (o : option entry) : Prop :=
  forall t k', now <= t -> seen s' t k' = if decide (k' = k) then at_instant t o else seen s t k'.

(** Redis reads numbers written in their shortest form only. *)
Definition number (v : string) (n : Z) : Prop := v = format_int n /\ in_int64 n.

(** SET sends the time to live in milliseconds, EXPIRE in whole seconds, both
    rounded down but never to zero; the server counts in milliseconds. *)
Definition set_expiry (now ttl e : Z) : Prop :=
  now + ttl - 2 * Millisecond <= e <= now + Z.max ttl Millisecond + Millisecond.
Definition expire_expiry (now d e : Z) : Prop :=
  now < e /\ now + d - Second - Millisecond <= e <= now + Z.max d Second + Millisecond.

(** What one command replies and does. *)
Definition command_effect (now : Z) (c : command) (s : RS) (r : cmd_reply) (s' : RS) : Prop :=
  match c with
  | MGet keys =>
    r = SliceReply (map (fun k => option_map fst (seen s now k)) keys) /\ unchanged now s s'
  | PTTL k =>
    unchanged now s s' /\
    match seen s now k with
    | Some (_, Some e) => exists d, r = DurationReply d /\ 0 <= d /\ e - now - Millisecond <= d <= e - now
    | Some (_, None) => r = DurationReply (-1)
    | None => r = DurationReply (-2)
    end
  | Incr k =>
    match seen s now k with
    | None => r = IntReply 1 /\ becomes now s s' k (Some (format_int 1, None))
    | Some (v, x) =>
      (exists n, number v n /\ n < MaxInt64 /\ r = IntReply (n + 1) /\
                 becomes now s s' k (Some (format_int (n + 1), x))) \/
      ((forall n, number v n -> n = MaxInt64) /\ (exists e, r = ErrorReply e) /\ unchanged now s s')
    end
  | ExpireNX k d =>
    match seen s now k with
    | Some (v, None) =>
      if 0 <? d
      then exists e, r = BoolReply true /\ expire_expiry now d e /\
                     becomes now s s' k (Some (v, Some e))
      else r = BoolReply true /\ becomes now s s' k None
    | _ => r = BoolReply false /\ unchanged now s s'
    end
  end.

Inductive executed (now : Z) : list command -> RS -> list cmd_reply -> RS -> Prop :=
| executed_nil s : executed now [] s [] s
| executed_cons c cs s r s1 rs s2 :
    command_effect now c s r s1 -> executed now cs s1 rs s2 -> executed now (c :: cs) s (r :: rs) s2.

Definition is_error (r : cmd_reply) : bool := match r with ErrorReply _ => true | _ => false end.

Class RedisLaws : Prop := {
  (** Time only takes keys away, at their expiry. *)
  seen_later : forall s t u k, t <= u -> seen s u k = at_instant u (seen s t k);
  set_law : forall now k v ttl s,
    0 < ttl ->
    wp (rc_Set now k v ttl) (fun r s' =>
      match r with
      | Ok _ => exists e, set_expiry now ttl e /\ becomes now s s' k (Some (v, Some e))
      | Err _ => forall t k', now <= t -> k' <> k -> seen s' t k' = seen s t k'
      | Panic => False
      end) s;
  exists_law : forall now k s,
    wp (rc_Exists now k) (fun r s' =>
      unchanged now s s' /\
      match r with
      | Ok n => n = if seen s now k then 1 else 0
      | Err _ => True
      | Panic => False
      end) s;
  (** The transaction runs as a whole or not at all; the connection may fail
      before it or after it. *)
  pipeline_law : forall now cs s,
    wp (rc_TxPipelined now cs) (fun r s' =>
      (exists e, r = Err e) /\ unchanged now s s' \/
      exists rs, executed now cs s rs s' /\
        (r = Ok rs /\ forallb (fun x => negb (is_error x)) rs = true \/ exists e, r = Err e)) s;
  del_law : forall k s,
    wp (rc_Del k) (fun r s' =>
      match r with
      | Ok _ => forall t k', seen s' t k' = if decide (k' = k) then None else seen s t k'
      | Err _ => (forall t k', k' <> k -> seen s' t k' = seen s t k') /\
                 ((forall t, seen s' t k = seen s t k) \/ (forall t, seen s' t k = None))
      | Panic => False
      end) s;
  ping_law : forall s, wp rc_Ping (fun r s' => r <> Panic /\ forall t k, seen s' t k = seen s t k) s;
}.
End laws.
