(* ===== verification/MemDB.v ===== *)
(** A database in memory that keeps every promise of [GormLaws], and concrete
    instances of the other classes of the environment.

    It shows that the laws can hold together, and the witnesses of the
    theorems run on it. It is not part of the program. The list [md_faults]
    says which of the coming operations fail. *)
From S2P Require Import Prelude GoTime GoStrings GoErrors Model Gorm.

(** ** A collation: text up to the case of ASCII letters *)

Definition fold_case (s : string) : string := ToLower (fun c => c) s.
Definition same_folded (a b : string) : bool := String.eqb (fold_case a) (fold_case b).

Definition folded_le (a b : string) : Prop := String.leb (fold_case a) (fold_case b) = true.

#[export] Instance folded_le_dec : RelDecision folded_le.
Proof. unfold RelDecision, Decision, folded_le. intros a b. decide equality. Defined.

#[export] Instance folded_le_total : Total folded_le.
Proof. intros a b. apply String.leb_total. Qed.

(** One value of each class, the first. *)
Fixpoint distinct (l : list string) : list string :=
  match l with
  | [] => []
  | x :: l' => x :: List.filter (fun y => negb (same_folded x y)) (distinct l')
  end.

Definition distinct_sorted (l : list string) : list string := merge_sort folded_le (distinct l).

Lemma same_folded_refl a : same_folded a a = true.
Proof. apply String.eqb_refl. Qed.

Lemma same_folded_sym a b : same_folded a b = same_folded b a.
Proof. apply String.eqb_sym. Qed.

Lemma same_folded_trans a b c :
  same_folded a b = true -> same_folded b c = true -> same_folded a c = true.
Proof. unfold same_folded. rewrite !String.eqb_eq. congruence. Qed.

Lemma distinct_sub l x : In x (distinct l) -> In x l.
Proof.
  revert x. induction l as [|y l IH]; intros x; simpl; [done|].
  rewrite filter_In. intros [->|[Hx _]]; auto.
Qed.

Lemma distinct_cover l x : In x l -> exists y, In y (distinct l) /\ same_folded x y = true.
Proof.
  induction l as [|z l IH]; simpl; [done|]. intros [->|Hx].
  - exists x. split; [by left|apply same_folded_refl].
  - destruct (IH Hx) as (y & Hy & Hxy). destruct (same_folded z y) eqn:Hzy.
    + exists z. split; [by left|]. eapply same_folded_trans; [exact Hxy|]. by rewrite same_folded_sym.
    + exists y. split; [|done]. right. apply filter_In. by rewrite Hzy.
Qed.

Lemma FOP_filter {A} (R : A -> A -> Prop) p l :
  ForallOrdPairs R l -> ForallOrdPairs R (List.filter p l).
Proof.
  induction 1 as [|x l Hx Hl IH]; simpl; [constructor|]. destruct (p x); [|done].
  constructor; [|done]. rewrite List.Forall_forall in *. intros y [Hy _]%filter_In. auto.
Qed.

Lemma FOP_Permutation {A} (R : A -> A -> Prop) (l l' : list A) :
  (forall a b, R a b -> R b a) -> Permutation l l' -> ForallOrdPairs R l -> ForallOrdPairs R l'.
Proof.
  intros Hsym. induction 1 as [|x l l' Hp IH|x y l|l1 l2 l3 _ IH1 _ IH2]; intros Hf; auto.
  - inversion Hf; subst. constructor; [by rewrite <- Hp|auto].
  - inversion Hf as [|? ? Hy Hf']; subst. inversion Hf' as [|? ? Hx Hl]; subst.
    inversion Hy; subst. constructor; [constructor; auto|by constructor].
Qed.

Lemma distinct_unique l : ForallOrdPairs (fun a b => same_folded a b = false) (distinct l).
Proof.
  induction l as [|x l IH]; simpl; constructor; [|by apply FOP_filter].
  apply List.Forall_forall. intros y [_ Hy]%filter_In. by apply negb_true_iff in Hy.
Qed.

Lemma in_distinct_sorted l x : In x (distinct_sorted l) <-> In x (distinct l).
Proof.
  unfold distinct_sorted. rewrite <- !list_elem_of_In.
  by rewrite (merge_sort_Permutation folded_le).
Qed.

(** Times to the nanosecond, and this collation. *)
#[export] Instance folded_storage : Storage.
Proof.
  refine {| datetime := fun t => t; coll_eqb := same_folded;
            coll_leb := fun a b => String.leb (fold_case a) (fold_case b);
            distinct_asc := distinct_sorted |}; intros; try done.
  - apply same_folded_refl.
  - by rewrite same_folded_sym.
  - by eapply same_folded_trans.
  - by apply distinct_sub, in_distinct_sorted.
  - setoid_rewrite in_distinct_sorted. by apply distinct_cover.
  - eapply FOP_Permutation; [| |apply distinct_unique].
    + intros a b. by rewrite same_folded_sym.
    + unfold distinct_sorted. by rewrite merge_sort_Permutation.
  - apply (Sorted_merge_sort folded_le).
Defined.

(** ** The database *)

Record mem_db := mkMemDB {
  md_rows : tables;
  md_next : nat;
  md_faults : list bool;
}.

Definition set_table (t : table) (l : list (row t)) (ts : tables) : tables := fun t' =>
  match decide (t = t') with
  | left e => eq_rect t (fun t => list (row t)) l t' e
  | right _ => ts t'
  end.

Definition put_table (t : table) (l : list (row t)) (db : mem_db) : mem_db :=
  mkMemDB (set_table t l (md_rows db)) (S (md_next db)) (md_faults db).

Definition empty_tables : tables := fun t => [].
Definition empty_db : mem_db := mkMemDB empty_tables 0 [].

(** The next operation fails when the fault list says so. *)
Definition connection_lost : error := Plain "driver: bad connection".

Definition guarded {A} (m : ST error mem_db A) : ST error mem_db A := fun db =>
  match md_faults db with
  | true :: fs => (Err connection_lost, mkMemDB (md_rows db) (md_next db) fs)
  | false :: fs => m (mkMemDB (md_rows db) (md_next db) fs)
  | [] => m db
  end.

Definition mem_now (db : mem_db) : Z := Z.of_nat (md_next db) * Second.

Definition mem_insert t (r : row t) : ST error mem_db (row t) := fun db =>
  let r' := prepare t (Z.of_nat (S (md_next db))) (mem_now db) r in
  if existsb (fun x => conflicts t x (stored t r')) (md_rows db t)
  then (Err (Plain "Error 1062: Duplicate entry"), db)
  else (Ok r', put_table t (md_rows db t ++ [stored t r']) db).

Definition mem_update t p f : ST error mem_db Z := fun db =>
  let now := mem_now db in
  (Ok (count_where (fun r => selects t p r && negb (bool_decide (updated t now f r = r)))
         (md_rows db t)),
   put_table t (update_where (selects t p) (updated t now f) (md_rows db t)) db).

Definition mem_transaction X A (body : ST error (mem_db * X) A) : ST error (mem_db * X) A :=
  fun dx =>
  let rolled_back (db db' : mem_db) := mkMemDB (md_rows db) (md_next db') (md_faults db') in
  let '(begun, db) := guarded (ret tt) (fst dx) in
  match begun with
  | Ok _ =>
    let '(res, (db', x)) := body (db, snd dx) in
    match res with
    | Ok a =>
      let '(committed, db'') := guarded (ret tt) db' in
      match committed with
      | Ok _ => (Ok a, (db'', x))
      | _ => (Err connection_lost, (rolled_back db db'', x))
      end
    | Err e => (Err e, (rolled_back db db', x))
    | Panic => (Panic, (rolled_back db db', x))
    end
  | _ => (Err connection_lost, (db, snd dx))
  end.

Definition id_le (t : table) (a b : row t) : Prop := row_id t a <= row_id t b.

#[export] Instance id_le_dec t : RelDecision (id_le t).
Proof. intros a b. apply Z.le_dec. Defined.

#[export] Instance id_le_total t : Total (id_le t).
Proof. intros a b. unfold id_le. lia. Qed.

#[export] Instance MemGorm : Gorm := {|
  DB := mem_db;
  rows := md_rows;
  gCreate := fun t r => guarded (mem_insert t r);
  gFirst := fun lock t p => guarded (fun db =>
    match List.find (selects t p) (md_rows db t) with
    | Some r => (Ok r, db)
    | None => (Err (Sentinel gorm_ErrRecordNotFound), db)
    end);
  gFindById := fun t => guarded (gets (fun db =>
    merge_sort (id_le t) (List.filter (visible t) (md_rows db t))));
  gUpdates := fun t p f => guarded (mem_update t p f);
  gDelete := fun t p => guarded (modify (fun db => put_table t (delete_where p (md_rows db t)) db));
  gCount := fun t p => guarded (gets (fun db => count_where (selects t p) (md_rows db t)));
  gFirstOrCreate := fun t p r => guarded (fun db =>
    match List.find (selects t p) (md_rows db t) with
    | Some _ => (Ok tt, db)
    | None => (do! mem_insert t r in ret tt) db
    end);
  gSelect := fun A q => guarded (gets (fun db => q (md_rows db)));
  gTransaction := mem_transaction;
|}.

(** * The laws *)

Lemma set_table_at t l ts : set_table t l ts t = l.
Proof.
  unfold set_table. destruct (decide (t = t)) as [e|]; [|done].
  by rewrite (Eqdep_dec.UIP_dec table_eq_dec e eq_refl).
Qed.

Lemma set_table_other t l ts t' : t' <> t -> set_table t l ts t' = ts t'.
Proof. intros Hne. unfold set_table. destruct (decide (t = t')); [congruence|done]. Qed.

Lemma put_table_changes t l (db db0 : mem_db) :
  md_rows db = md_rows db0 -> changes_to (db0 : DB) (put_table t l db : DB) t l.
Proof.
  intros Heq. split; simpl; [apply set_table_at|].
  intros t' Hne. by rewrite set_table_other, Heq.
Qed.

Lemma sql_failure_plain msg : sql_failure (Plain msg).
Proof. by repeat split. Qed.

Lemma wp_guarded {A} (m : ST error mem_db A) (Q : res A -> mem_db -> Prop) db :
  (forall fs, Q (Err connection_lost) (mkMemDB (md_rows db) (md_next db) fs)) ->
  (forall fs, wp m Q (mkMemDB (md_rows db) (md_next db) fs)) ->
  wp (guarded m) Q db.
Proof.
  intros Hf Hm. unfold guarded, wp in *. destruct db as [rs n fs]. simpl in *.
  destruct fs as [|[|] fs]; [apply (Hm [])|apply Hf|apply Hm].
Qed.

Lemma mem_insert_law t r (db db0 : mem_db) :
  md_rows db = md_rows db0 ->
  wp (mem_insert t r) (exec_post (fun r' db' => inserted (db0 : DB) db' t r r') (db0 : DB)) db.
Proof.
  intros Heq. unfold wp, mem_insert.
  destruct (existsb _ _) eqn:He; simpl.
  - split; [apply sql_failure_plain|]. intros t'. simpl. by rewrite Heq.
  - eexists _, _. split; [|split; [done|]]; [lia|]. rewrite Heq in *. split.
    + apply Forall_forall. intros x Hx%list_elem_of_In.
      destruct (conflicts _ _ _) eqn:Hc; [|done].
      assert (existsb (fun x => conflicts t x (stored t (prepare t (Z.of_nat (S (md_next db)))
                (mem_now db) r))) (md_rows db0 t) = true) as Ht by (apply existsb_exists; eauto).
      rewrite Ht in He. done.
    + by apply put_table_changes.
Qed.

Lemma find_none_selects t p (l : list (row t)) :
  List.find (selects t p) l = None -> forall x, In x l -> selects t p x = false.
Proof. intros Hf x Hx. by apply (find_none _ _ Hf). Qed.

#[export] Instance MemGorm_laws : GormLaws.
Proof.
  split; intros; simpl; try (apply wp_guarded; intros fs);
    try (by split; [apply sql_failure_plain|]); try (by split; [|apply sql_failure_plain]).
  - by apply mem_insert_law.
  - split; [done|]. split; [by split|]. done.
  - unfold wp. destruct (List.find _ _) eqn:Hf; simpl.
    + split; [done|]. by apply find_some in Hf.
    + split; [done|]. split; [split; [done|intros n [= <-]%String.eqb_eq; done]|].
      intros _. by apply find_none_selects.
  - split; [done|]. simpl. split; [apply merge_sort_Permutation|apply (Sorted_merge_sort (id_le t))].
  - unfold wp, mem_update. simpl. eexists. split; [by apply put_table_changes|done].
  - by apply put_table_changes.
  - by split.
  - unfold wp. destruct (List.find _ _) eqn:Hf; simpl.
    + apply find_some in Hf. left. split; [by eexists|done].
    + pose proof (mem_insert_law t r (mkMemDB (md_rows db) (md_next db) fs) db eq_refl) as Hi.
      unfold wp, bind in *. destruct (mem_insert _ _ _) as [[r'|e|] db']; simpl in *; try done.
      right. split; [by apply find_none_selects|by exists r'].
  - by split.
  - unfold wp, mem_transaction.
    destruct db as [rs n fs]. unfold guarded, ret. cbn [fst snd md_faults md_rows md_next].
    destruct fs as [|[|] fs]; [| by left; eexists; split; [done|]; split; [apply sql_failure_plain|] |].
    1: set (db0 := mkMemDB rs n []). 2: set (db0 := mkMemDB rs n fs).
    all: destruct (body (db0, x)) as [res0 [[rs1 n1 fs1] x1]] eqn:Hb; destruct res0 as [a|e|];
      [destruct fs1 as [|[|] fs1]|..]; simpl; right;
      (eexists db0, _, _; split; [done|]; split; [exact Hb|]); simpl; try by left.
    all: try (right; split; [|done]; eexists; split; [done|]; apply sql_failure_plain).
    all: by split.
Qed.
