(* ===== verification/World.v ===== *)
(** The world the services run in: the database, the shared authentication
    state, the clock and the source of random identifiers, and the monad of
    the programs that use them. *)
From S2P Require Import Prelude GoTime GoStrings GoErrors Model Gorm AuthState.

(** Successive readings of [time.Now] and successive results of
    [uuid.NewString]. *)
Class Env := {
  clock : nat -> Z;
  uuid_at : nat -> string;
}.

(** Instants read later are not earlier (Go's monotonic clock). *)
Definition monotone_clock `{Env} : Prop :=
  forall i j, (i <= j)%nat -> clock i <= clock j.

Section world.
Context {STO : Storage} {G : Gorm} {SS : Store}.

Record World := mkWorld {
  w_db : DB;
  w_store : St;
  w_tick : nat;
  w_seed : nat;
}.

Definition put_db (db : DB) (w : World) : World := mkWorld db (w_store w) (w_tick w) (w_seed w).
Definition put_store (s : St) (w : World) : World := mkWorld (w_db w) s (w_tick w) (w_seed w).

Definition M (A : Type) : Type := ST error World A.

Definition on_db {A} (m : ST error DB A) : M A := zoom w_db put_db m.
Definition on_store {A} (m : ST error St A) : M A := zoom w_store put_store m.

(** The rows of a table, as the program sees them in the world [w]. *)
Definition tbl (t : table) (w : World) : list (row t) := rows (w_db w) t.

(** [db.WithContext(ctx).Transaction(func(tx *gorm.DB) error { ... })] *)
Definition Transaction {A} (body : M A) : M A := fun w =>
  let pack (w : World) := (w_db w, (w_store w, w_tick w, w_seed w)) in
  let unpack '(db, (s, k, r)) := mkWorld db s k r in
  let '(res, dx) := gTransaction _ A (fun dx => let '(res, w') := body (unpack dx) in
                                                (res, pack w')) (pack w) in
  (res, unpack dx).

(** Worlds that differ at most in what the program cannot see of the database. *)
Record same_world (a b : World) : Prop := {
  sw_rows : forall t, tbl t a = tbl t b;
  sw_store : w_store a = w_store b;
  sw_tick : w_tick a = w_tick b;
  sw_seed : w_seed a = w_seed b;
}.

#[export] Instance same_world_equivalence : Equivalence same_world.
Proof.
  split.
  - by intros w.
  - intros a b [? ? ? ?]. by split.
  - intros a b c [? ? ? ?] [? ? ? ?]. split; congruence.
Qed.

(** [b] is [a] but for the rows of the database. *)
Record same_rest (a b : World) : Prop := {
  sr_store : w_store a = w_store b;
  sr_tick : w_tick a = w_tick b;
  sr_seed : w_seed a = w_seed b;
}.

#[export] Instance same_rest_equivalence : Equivalence same_rest.
Proof.
  split.
  - by intros w.
  - intros a b [? ? ?]. by split.
  - intros a b c [? ? ?] [? ? ?]. split; congruence.
Qed.

Definition same_tables (a b : World) : Prop := forall t, tbl t a = tbl t b.

#[export] Instance same_tables_equivalence : Equivalence same_tables.
Proof. unfold same_tables. split; red; congruence. Qed.

(** Only table [t] differs between [w] and [w'], and it now holds [l]. *)
Definition sets (w w' : World) (t : table) (l : list (row t)) : Prop :=
  tbl t w' = l /\ forall t', t' <> t -> tbl t' w' = tbl t' w.

Context {E : Env}.

(** [time.Now()] *)
Definition tick (w : World) : World :=
  mkWorld (w_db w) (w_store w) (Datatypes.S (w_tick w)) (w_seed w).
Definition Now : M Z := fun w => (Ok (clock (w_tick w)), tick w).

(** One reading from the source of randomness; [uuid.NewString()]. *)
Definition reseed (w : World) : World :=
  mkWorld (w_db w) (w_store w) (w_tick w) (Datatypes.S (w_seed w)).
Definition Rand : M nat := fun w => (Ok (w_seed w), reseed w).
Definition NewUUID : M string := let! n := Rand in ret (uuid_at n).

(** A pure result in a stateful computation. *)
Definition of_res {A} (r : res A) : M A := fun w => (r, w).

Lemma wp_Now (Q : res Z -> World -> Prop) w : Q (Ok (clock (w_tick w))) (tick w) -> wp Now Q w.
Proof. done. Qed.

Lemma wp_Rand (Q : res nat -> World -> Prop) w : Q (Ok (w_seed w)) (reseed w) -> wp Rand Q w.
Proof. done. Qed.

Lemma wp_NewUUID (Q : res string -> World -> Prop) w :
  Q (Ok (uuid_at (w_seed w))) (reseed w) -> wp NewUUID Q w.
Proof. done. Qed.

Lemma wp_of_res {A} (r : res A) (Q : res A -> World -> Prop) w : Q r w -> wp (of_res r) Q w.
Proof. done. Qed.

(** [later w w']: between [w] and [w'] the clock and the random source may
    have been read, and the database written, but not the shared store. *)
Record later (w w' : World) : Prop := {
  la_store : w_store w' = w_store w;
  la_tick : (w_tick w <= w_tick w')%nat;
  la_seed : (w_seed w <= w_seed w')%nat;
}.

#[export] Instance later_preorder : PreOrder later.
Proof.
  split.
  - by intros w.
  - intros a b c [? ? ?] [? ? ?]. split; [congruence|lia..].
Qed.

Lemma same_world_later a b : same_world a b -> later a b.
Proof. intros [? ? ? ?]. split; [done|lia..]. Qed.
Lemma same_rest_later a b : same_rest a b -> later a b.
Proof. intros [? ? ?]. split; [done|lia..]. Qed.
Lemma tick_later w : later w (tick w).
Proof. split; simpl; [done|lia..]. Qed.
Lemma reseed_later w : later w (reseed w).
Proof. split; simpl; [done|lia..]. Qed.

Lemma same_world_tables a b : same_world a b -> same_tables a b.
Proof. by intros [? ? ? ?]. Qed.
Lemma tick_tables w : same_tables w (tick w).
Proof. by intros t. Qed.
Lemma reseed_tables w : same_tables w (reseed w).
Proof. by intros t. Qed.

(** An instant the clock showed between [w] and [w']. *)
Definition read_between (w w' : World) (t : Z) : Prop :=
  exists i, (w_tick w <= i < w_tick w')%nat /\ t = clock i.

Lemma read_between_tick w0 w w' :
  later w0 w -> later (tick w) w' -> read_between w0 w' (clock (w_tick w)).
Proof.
  intros [_ Ht _] [_ Ht' _]. exists (w_tick w). simpl in Ht'. split; [lia|done].
Qed.

(** An operation on the database leaves the rest of the world alone. *)
Lemma wp_on_db {A} (m : ST error DB A) (P : res A -> DB -> Prop) (Q : res A -> World -> Prop) w :
  wp m P (w_db w) ->
  (forall r w', P r (w_db w') -> same_rest w w' -> Q r w') ->
  wp (on_db m) Q w.
Proof.
  intros Hm HQ. unfold on_db. apply wp_zoom. eapply wp_mono; [done|].
  intros r db HP. apply HQ; [done|]. by split.
Qed.

Lemma wp_on_store {A} (m : ST error St A) (P : res A -> St -> Prop) (Q : res A -> World -> Prop) w :
  wp m P (w_store w) ->
  (forall r s, P r s -> Q r (put_store s w)) ->
  wp (on_store m) Q w.
Proof. intros Hm HQ. unfold on_store. apply wp_zoom. eapply wp_mono; eauto. Qed.

(** The outcomes of database operations, over worlds. *)
Lemma wp_query {A} (m : ST error DB A) ok (Q : res A -> World -> Prop) w :
  wp m (query_post ok (w_db w)) (w_db w) ->
  (forall a w', same_world w w' -> ok a -> Q (Ok a) w') ->
  (forall e w', same_world w w' -> sql_failure e -> Q (Err e) w') ->
  wp (on_db m) Q w.
Proof.
  intros Hm Hok Herr. eapply wp_on_db; [exact Hm|].
  intros r w' [Hs Hr] [? ? ?]. destruct r; [apply Hok|apply Herr|]; try done; by split.
Qed.

Lemma wp_first t p (m : ST error DB (row t)) (Q : res (row t) -> World -> Prop) w :
  wp m (first_post t p (w_db w)) (w_db w) ->
  (forall r w', same_world w w' -> In r (tbl t w) -> selects t p r = true -> Q (Ok r) w') ->
  (forall e w', same_world w w' -> library_error e ->
     (is_not_found e = true -> forall r, In r (tbl t w) -> selects t p r = false) ->
     Q (Err e) w') ->
  wp (on_db m) Q w.
Proof.
  intros Hm Hok Herr. eapply wp_on_db; [exact Hm|].
  intros r w' [Hs Hr] [? ? ?]. destruct r as [r|e|]; [apply Hok|apply Herr|];
    try (by split); by destruct Hr.
Qed.

Lemma wp_exec {A} (m : ST error DB A) ok (Q : res A -> World -> Prop) w :
  wp m (exec_post ok (w_db w)) (w_db w) ->
  (forall a w', same_rest w w' -> ok a (w_db w') -> Q (Ok a) w') ->
  (forall e w', same_world w w' -> sql_failure e -> Q (Err e) w') ->
  wp (on_db m) Q w.
Proof.
  intros Hm Hok Herr. eapply wp_on_db; [exact Hm|].
  intros r w' Hr Hw. destruct r as [a|e|]; [by apply Hok| |done].
  destruct Hr as [He Hs]. destruct Hw. apply Herr; [by split|done].
Qed.

(** The transaction rule. The body runs on some world with the rows of [w];
    what follows knows the rows only. *)
Lemma wp_Transaction `{!GormLaws} {A} (body : M A) (Q : res A -> World -> Prop) w :
  (forall e w', sql_failure e -> same_world w w' -> Q (Err e) w') ->
  (forall w0, same_world w w0 ->
    wp body (fun r w1 =>
      (forall w', same_rest w1 w' -> same_tables w w' ->
         match r with
         | Ok _ => forall e, sql_failure e -> Q (Err e) w'
         | Err e => Q (Err e) w'
         | Panic => Q Panic w'
         end) /\
      (forall w', same_rest w1 w' -> same_tables w1 w' ->
         match r with Ok a => Q (Ok a) w' | _ => True end)) w0) ->
  wp (Transaction body) Q w.
Proof.
  intros Hbegin Hbody. destruct w as [db s k r]. unfold Transaction, wp at 1. simpl.
  match goal with |- context [gTransaction ?X A ?b ?dx] =>
    pose proof (transaction_law X A b db (s, k, r)) as Hlaw;
    unfold wp in Hlaw; destruct (gTransaction X A b dx) as [res [db' [[s' k'] r']]] end.
  simpl in *. destruct Hlaw as [(e & -> & He & Hs & [= -> -> ->])|(db0 & res0 & db1 & Hs & Hrun & Hres)].
  { apply Hbegin; [done|]. by split. }
  specialize (Hbody (mkWorld db0 s k r) ltac:(by split)).
  unfold wp in Hbody. destruct (body (mkWorld db0 s k r)) as [res1 [db2 s2 k2 r2]].
  simpl in Hrun. injection Hrun as -> -> -> -> ->.
  destruct Hbody as [Hroll Hcommit].
  specialize (Hroll (mkWorld db' s' k' r') ltac:(by split)).
  specialize (Hcommit (mkWorld db' s' k' r') ltac:(by split)).
  destruct res0 as [a|e|].
  - destruct Hres as [[-> Hs']|[(e & -> & He) Hs']]; auto.
  - destruct Hres as [-> Hs']. auto.
  - destruct Hres as [-> Hs']. auto.
Qed.

Lemma sets_of_effect t p f w w' :
  update_effect t p f (w_db w) (w_db w') ->
  exists now, sets w w' t (update_where (selects t p) (updated t now f) (tbl t w)).
Proof. intros [now [? ?]]. by exists now. Qed.

Lemma sets_same_tables w w1 w' t l : same_tables w w1 -> sets w1 w' t l -> sets w w' t l.
Proof. intros Hs [? Ho]. split; [done|]. intros t' Ht. by rewrite Ho, Hs. Qed.

Lemma sets_then_same w w1 w' t l : sets w w1 t l -> same_tables w1 w' -> sets w w' t l.
Proof. intros [? Ho] Hs. split; [by rewrite <- Hs|]. intros t' Ht. by rewrite <- Hs, Ho. Qed.

Lemma sets_sets w w1 w2 t l1 l2 : sets w w1 t l1 -> sets w1 w2 t l2 -> sets w w2 t l2.
Proof. intros [? Ho1] [? Ho2]. split; [done|]. intros t' Ht. by rewrite Ho2, Ho1. Qed.

(** An UPDATE, seen from an earlier world with the same rows. *)
Lemma sets_from w w1 w' t p f :
  same_tables w w1 -> update_effect t p f (w_db w1) (w_db w') ->
  exists now, sets w w' t (update_where (selects t p) (updated t now f) (tbl t w)).
Proof.
  intros Ht Heff. apply sets_of_effect in Heff as [now Hs]. exists now.
  eapply sets_same_tables; [exact Ht|]. by rewrite (Ht t).
Qed.

(** A transaction is all or nothing: from the body's account of its own
    success and errors, the account of the transaction. *)
Lemma wp_Transaction_atomic `{!GormLaws} {A} (body : M A) (ok : World -> A -> World -> Prop)
    (err : World -> error -> Prop) w :
  (forall w0, same_world w w0 ->
    wp body (fun r w1 =>
      later w0 w1 /\
      match r with Ok a => ok w0 a w1 | Err e => err w0 e | Panic => False end) w0) ->
  wp (Transaction body) (fun r w' =>
    later w w' /\
    match r with
    | Ok a => exists w0 w1, same_world w w0 /\ ok w0 a w1 /\ same_rest w1 w' /\ same_tables w1 w'
    | Err e => same_tables w w' /\ (sql_failure e \/ exists w0, same_world w w0 /\ err w0 e)
    | Panic => False
    end) w.
Proof.
  intros Hbody. apply wp_Transaction.
  { intros e w' He Hw. split; [by apply same_world_later|]. split; [by apply same_world_tables|].
    by left. }
  intros w0 Hw0. wp_use (Hbody w0 Hw0). intros r w1 [Hl Hr].
  assert (forall w', same_rest w1 w' -> later w w') as Hlater.
  { intros w' Hrest. transitivity w0; [by apply same_world_later|].
    transitivity w1; [done|by apply same_rest_later]. }
  split; intros w' Hrest Htab; destruct r as [a|e|]; try done.
  - intros e He. split; [auto|]. split; [done|by left].
  - split; [auto|]. split; [done|]. right. eauto.
  - split; [auto|]. eauto 10.
Qed.

End world.

#[export] Hint Resolve same_world_later same_rest_later tick_later reseed_later
  same_world_tables tick_tables reseed_tables : go.

(** Proves [later] and [same_tables] along a chain of worlds. *)
Ltac chain :=
  lazymatch goal with
  | |- later ?a ?a => reflexivity
  | |- later ?a (tick ?b) => transitivity b; [chain|apply tick_later]
  | |- later ?a (reseed ?b) => transitivity b; [chain|apply reseed_later]
  | |- same_tables ?a ?a => reflexivity
  | |- same_tables ?a (tick ?b) => transitivity b; [chain|apply tick_tables]
  | |- same_tables ?a (reseed ?b) => transitivity b; [chain|apply reseed_tables]
  | H : later ?b ?c |- later ?a ?c => transitivity b; [chain|exact H]
  | H : same_world ?b ?c |- later ?a ?c => transitivity b; [chain|apply same_world_later, H]
  | H : same_rest ?b ?c |- later ?a ?c => transitivity b; [chain|apply same_rest_later, H]
  | H : same_world ?b ?c |- same_tables ?a ?c =>
      transitivity b; [chain|apply same_world_tables, H]
  | H : same_tables ?b ?c |- same_tables ?a ?c => transitivity b; [chain|exact H]
  end.

(** Rewrites the tables of the world [w'] into those of the world [w] it has
    the tables of. *)
Ltac retable w w' :=
  let H := fresh "Htables" in
  assert (same_tables w w') as H by chain;
  rewrite <- ?(H TUsers), <- ?(H TRefreshTokens), <- ?(H TRoles), <- ?(H TPermissions),
    <- ?(H TUserRoles), <- ?(H TRolePermissions) in *;
  clear H.
