(* ===== verification/Dao.v ===== *)
(** Data access for users (src/internal/dao/user.go), and the interfaces the
    services see it through (src/internal/service/user_interface.go,
    src/internal/service/auth.go). *)
From S2P Require Import Prelude GoTime GoStrings GoErrors Model Gorm.

Section dao.
Context {STO : Storage} {G : Gorm}.

Definition CreateUser (user : User) : ST error DB User := gCreate TUsers user.

Definition GetUserByUsername (username : string) : ST error DB User :=
  gFirst false TUsers (fun u => coll_eqb (u_Username u) username).

Definition GetUserByID (id : Z) : ST error DB User :=
  gFirst false TUsers (fun u => u_ID u =? id).

Definition GetUserByIDForUpdate (id : Z) : ST error DB User :=
  gFirst true TUsers (fun u => u_ID u =? id).

Definition UpdateNicknameByID (id : Z) (nickname : string) : ST error DB unit :=
  do! gUpdates TUsers (fun u => u_ID u =? id) (set_nickname nickname) in ret tt.

Definition UpdateLastLoginAtByID (id : Z) (lastLoginAt : Z) : ST error DB unit :=
  do! gUpdates TUsers (fun u => u_ID u =? id) (set_last_login lastLoginAt) in ret tt.

Definition UpdateUserPasswordByUserID (userID : Z) (oldPasswordHash newPasswordHash : string)
    : ST error DB unit :=
  let! rowsAffected :=
    gUpdates TUsers (fun u => coll_eqb (u_PasswordHash u) oldPasswordHash && (u_ID u =? userID))
      (set_password newPasswordHash) in
  when! negb (rowsAffected =? 1) return! fail (Sentinel gorm_ErrRecordNotFound) in
  ret tt.

Definition UserDisabled (userID : Z) : ST error DB unit :=
  do! gUpdates TUsers (fun u => (u_ID u =? userID) && (u_Status u =? UserStatusActive))
    (set_status UserStatusDisabled) in
  ret tt.

(** [var user model.User] *)
Definition zero_User : User := mkUser 0 "" "" "" 0 0 ZeroTime ZeroTime None None.

(** [Find] gets a copy of the struct as its destination; what it does with
    that is gorm's, the argument [find]. The query has run when [Limit] and
    [Offset] are called. *)
Definition ListUser (find : User -> ST error DB unit) (limit offset : Z) : ST error DB User :=
  do! find zero_User in ret zero_User.

End dao.

(** * The interfaces of the services *)

(** [service.authUserStore] *)
Class AuthUserStore `{Gorm} := {
  aus_GetUserByID : Z -> ST error DB User;
  aus_GetUserByIDForUpdate : Z -> ST error DB User;
}.

(** The lookups find the user with the id, unless it is soft-deleted. *)
Class AuthUserStoreLaws `{Gorm} {A : AuthUserStore} : Prop := {
  aus_get_law : forall id db,
    wp (aus_GetUserByID id) (first_post TUsers (fun u => u_ID u =? id) db) db;
  aus_get_for_update_law : forall id db,
    wp (aus_GetUserByIDForUpdate id) (first_post TUsers (fun u => u_ID u =? id) db) db;
}.

(** [service.daoAuthUserStore] *)
#[export] Instance daoAuthUserStore `{Gorm} : AuthUserStore := {|
  aus_GetUserByID := GetUserByID;
  aus_GetUserByIDForUpdate := GetUserByIDForUpdate;
|}.

#[export] Instance daoAuthUserStore_laws `{GormLaws} : AuthUserStoreLaws.
Proof.
  split; intros.
  - apply (first_law false TUsers).
  - apply (first_law true TUsers).
Qed.

(** [service.userStore], without the two methods no service calls. *)
Class UserStore `{Gorm} := {
  us_CreateUser : User -> ST error DB User;
  us_GetUserByUsername : string -> ST error DB User;
  us_GetUserByID : Z -> ST error DB User;
  us_GetUserByIDForUpdate : Z -> ST error DB User;
  us_UpdateNicknameByID : Z -> string -> ST error DB unit;
  us_UpdateLastLoginAtByID : Z -> Z -> ST error DB unit;
  us_UpdateUserPasswordByUserID : Z -> string -> string -> ST error DB unit;
}.

(** A write that matched no row is the error [ErrRecordNotFound]; it has no
    effect then. *)
Definition exec_or_missing `{Gorm} {A} (ok : A -> DB -> Prop) (db : DB) (res : res A) (db' : DB)
    : Prop :=
  match res with
  | Ok a => ok a db'
  | Err e => library_error e /\ same_rows db db'
  | Panic => False
  end.

Class UserStoreLaws `{Storage} `{Gorm} {U : UserStore} : Prop := {
  us_create_law : forall u db,
    wp (us_CreateUser u) (exec_post (fun u' db' => inserted db db' TUsers u u') db) db;
  us_get_username_law : forall n db,
    wp (us_GetUserByUsername n) (first_post TUsers (fun u => coll_eqb (u_Username u) n) db) db;
  us_get_law : forall id db,
    wp (us_GetUserByID id) (first_post TUsers (fun u => u_ID u =? id) db) db;
  us_get_for_update_law : forall id db,
    wp (us_GetUserByIDForUpdate id) (first_post TUsers (fun u => u_ID u =? id) db) db;
  us_nickname_law : forall id n db,
    wp (us_UpdateNicknameByID id n)
      (exec_post (fun _ => update_effect TUsers (fun u => u_ID u =? id) (set_nickname n) db) db) db;
  us_last_login_law : forall id t db,
    wp (us_UpdateLastLoginAtByID id t)
      (exec_post (fun _ => update_effect TUsers (fun u => u_ID u =? id) (set_last_login t) db) db) db;
  (** Where the keys hold, the update changes the one row with this id and
      this hash, or reports that there is none. *)
  us_password_law : forall id old new db,
    keys_ok TUsers (rows db TUsers) ->
    let p := fun u => coll_eqb (u_PasswordHash u) old && (u_ID u =? id) in
    wp (us_UpdateUserPasswordByUserID id old new)
      (exec_or_missing (fun _ db' =>
         (exists u, In u (rows db TUsers) /\ selects TUsers p u = true) /\
         update_effect TUsers p (set_password new) db db') db) db;
}.

(** [service.daoUserStore] *)
#[export] Instance daoUserStore {STO : Storage} `{Gorm} : UserStore := {|
  us_CreateUser := CreateUser;
  us_GetUserByUsername := GetUserByUsername;
  us_GetUserByID := GetUserByID;
  us_GetUserByIDForUpdate := GetUserByIDForUpdate;
  us_UpdateNicknameByID := UpdateNicknameByID;
  us_UpdateLastLoginAtByID := UpdateLastLoginAtByID;
  us_UpdateUserPasswordByUserID := UpdateUserPasswordByUserID;
|}.

Section dao_laws.
Context {STO : Storage} {G : Gorm} {GL : GormLaws}.

(** The increment of [auth_version] makes every selected row count as changed. *)
Lemma set_password_changes now new u : updated TUsers now (set_password new) u <> u.
Proof. intros Heq. apply (f_equal u_AuthVersion) in Heq. simpl in Heq. lia. Qed.

Lemma UpdateUserPasswordByUserID_law id old new db :
  keys_ok TUsers (rows db TUsers) ->
  let p := fun u => coll_eqb (u_PasswordHash u) old && (u_ID u =? id) in
  wp (UpdateUserPasswordByUserID id old new)
    (exec_or_missing (fun _ db' =>
       (exists u, In u (rows db TUsers) /\ selects TUsers p u = true) /\
       update_effect TUsers p (set_password new) db db') db) db.
Proof.
  intros Hk p. unfold UpdateUserPasswordByUserID. wp_step. fold p.
  wp_use (updates_law TUsers p (set_password new) db).
  intros [n|e|] db'; simpl; [|intros [[? ?] ?]; by split|done].
  intros (now & Hc & Hn).
  assert (n = count_where (selects TUsers p) (rows db TUsers)) as Hcount.
  { rewrite Hn. unfold count_where. do 2 f_equal. apply filter_ext. intros u.
    rewrite bool_decide_eq_false_2 by apply set_password_changes. by rewrite andb_true_r. }
  clear Hn. destruct (n =? 1) eqn:Hn1; simpl; apply Z.eqb_eq in Hn1 || apply Z.eqb_neq in Hn1.
  - apply wp_ret. simpl. split; [|by exists now].
    apply (count_where_pos (A:=row TUsers)). rewrite <- Hcount. lia.
  - apply wp_fail. simpl. split; [by split; [done|intros n' [= <-]%String.eqb_eq]|].
    assert (count_where (selects TUsers p) (rows db TUsers) <= 1) as Hle.
    { apply (count_where_unique TUsers); [done|]. unfold selects, p. intros a b Ha Hb.
      bool_to_prop. simpl. apply orb_true_iff. left. apply Z.eqb_eq. congruence. }
    assert (0 <= n) by (rewrite Hcount; unfold count_where; lia).
    intros t'. destruct (decide (t' = TUsers)) as [->|Hne].
    + rewrite (changes_to_at _ _ _ _ Hc). symmetry. apply update_where_none.
      apply (count_where_zero (A:=row TUsers)). rewrite <- Hcount. lia.
    + symmetry. by apply (changes_to_other _ _ _ _ _ Hc).
Qed.

#[export] Instance daoUserStore_laws : UserStoreLaws.
Proof.
  split; intros; simpl.
  - apply (create_law TUsers).
  - apply (first_law false TUsers).
  - apply (first_law false TUsers).
  - apply (first_law true TUsers).
  - apply (exec_effect_law TUsers).
  - apply (exec_effect_law TUsers).
  - by apply UpdateUserPasswordByUserID_law.
Qed.
End dao_laws.
