(* ===== verification/RefreshRepo.v ===== *)
(** The refresh token repository (src/internal/repository/refresh_token.go):
    the interface the services use, its promises, and the gorm
    implementation. *)
From S2P Require Import Prelude GoTime GoStrings GoErrors Model Gorm.

(** * WHERE clauses *)

(** [revoked_at IS NULL] *)
Definition is_active (k : RefreshToken) : bool :=
  match t_RevokedAt k with None => true | Some _ => false end.

Section clauses.
Context {STO : Storage}.

Definition active_by_jti (jti : string) (k : RefreshToken) : bool :=
  coll_eqb (t_JTI k) jti && is_active k.
Definition active_in_family (userID : Z) (familyID : string) (k : RefreshToken) : bool :=
  (t_UserID k =? userID) && coll_eqb (t_FamilyID k) familyID && is_active k.
Definition active_of_user (userID : Z) (k : RefreshToken) : bool :=
  (t_UserID k =? userID) && is_active k.
End clauses.

(** * The interface *)

(** [repository.RefreshTokenRepository] *)
Class RefreshTokenRepository `{Gorm} := {
  rt_Create : RefreshToken -> ST error DB RefreshToken;
  rt_FindByJTIForUpdate : string -> ST error DB RefreshToken;
  rt_RevokeByJTI : string -> Z -> string -> option string -> ST error DB unit;
  rt_RevokeFamily : Z -> string -> Z -> string -> ST error DB unit;
  rt_RevokeAllByUserID : Z -> Z -> string -> ST error DB unit;
}.

Class RefreshTokenRepositoryLaws {STO : Storage} `{Gorm} {R : RefreshTokenRepository} : Prop := {
  rt_create_law : forall k db,
    wp (rt_Create k) (exec_post (fun k' db' => inserted db db' TRefreshTokens k k') db) db;
  rt_find_law : forall jti db,
    wp (rt_FindByJTIForUpdate jti)
      (first_post TRefreshTokens (fun k => coll_eqb (t_JTI k) jti) db) db;
  rt_revoke_jti_law : forall jti at_ reason by_ db,
    wp (rt_RevokeByJTI jti at_ reason by_)
      (exec_post (fun _ => update_effect TRefreshTokens (active_by_jti jti)
                             (fun k => set_replaced_by by_ (set_revoked at_ reason k)) db) db) db;
  rt_revoke_family_law : forall uid fam at_ reason db,
    wp (rt_RevokeFamily uid fam at_ reason)
      (exec_post (fun _ => update_effect TRefreshTokens (active_in_family uid fam)
                             (set_revoked at_ reason) db) db) db;
  rt_revoke_all_law : forall uid at_ reason db,
    wp (rt_RevokeAllByUserID uid at_ reason)
      (exec_post (fun _ => update_effect TRefreshTokens (active_of_user uid)
                             (set_revoked at_ reason) db) db) db;
}.

(** * The gorm implementation *)

Module GormRefreshTokenRepository.
Section repo.
Context {STO : Storage} {G : Gorm}.

Definition Create (token : RefreshToken) : ST error DB RefreshToken := gCreate TRefreshTokens token.

Definition FindByJTIForUpdate (jti : string) : ST error DB RefreshToken :=
  gFirst true TRefreshTokens (fun k => coll_eqb (t_JTI k) jti).

Definition RevokeByJTI (jti : string) (revokedAt : Z) (reason : string)
    (replacedByJTI : option string) : ST error DB unit :=
  do! gUpdates TRefreshTokens (active_by_jti jti)
    (fun k => set_replaced_by replacedByJTI (set_revoked revokedAt reason k)) in
  ret tt.

Definition RevokeFamily (userID : Z) (familyID : string) (revokedAt : Z) (reason : string)
    : ST error DB unit :=
  do! gUpdates TRefreshTokens (active_in_family userID familyID) (set_revoked revokedAt reason) in
  ret tt.

Definition RevokeAllByUserID (userID : Z) (revokedAt : Z) (reason : string) : ST error DB unit :=
  do! gUpdates TRefreshTokens (active_of_user userID) (set_revoked revokedAt reason) in
  ret tt.
End repo.
End GormRefreshTokenRepository.

#[export] Instance NewGormRefreshTokenRepository {STO : Storage} `{Gorm} : RefreshTokenRepository := {|
  rt_Create := GormRefreshTokenRepository.Create;
  rt_FindByJTIForUpdate := GormRefreshTokenRepository.FindByJTIForUpdate;
  rt_RevokeByJTI := GormRefreshTokenRepository.RevokeByJTI;
  rt_RevokeFamily := GormRefreshTokenRepository.RevokeFamily;
  rt_RevokeAllByUserID := GormRefreshTokenRepository.RevokeAllByUserID;
|}.

#[export] Instance GormRefreshTokenRepository_laws {STO : Storage} {G : Gorm} {GL : GormLaws} :
  RefreshTokenRepositoryLaws.
Proof.
  split; intros.
  - apply (create_law TRefreshTokens).
  - apply (first_law true TRefreshTokens).
  - apply (exec_effect_law TRefreshTokens).
  - apply (exec_effect_law TRefreshTokens).
  - apply (exec_effect_law TRefreshTokens).
Qed.

(** * Facts about tokens *)

Section tokens.
Context {STO : Storage}.

Lemma selects_tokens p k : selects TRefreshTokens p k = p k.
Proof. done. Qed.

Lemma is_active_None k : is_active k = true <-> t_RevokedAt k = None.
Proof. unfold is_active. destruct (t_RevokedAt k); split; done. Qed.

(** A revocation keeps who and what a token is. *)
Lemma revoked_identity now by_ at_ reason k :
  let k' := updated TRefreshTokens now (fun k => set_replaced_by by_ (set_revoked at_ reason k)) k in
  t_UserID k' = t_UserID k /\ t_JTI k' = t_JTI k /\ t_FamilyID k' = t_FamilyID k /\
  t_TokenHash k' = t_TokenHash k /\ is_active k' = false.
Proof. done. Qed.

Lemma revoked_inactive now at_ reason k :
  is_active (updated TRefreshTokens now (set_revoked at_ reason) k) = false.
Proof. done. Qed.
End tokens.
