(* ===== verification/RbacRepo.v ===== *)
(** Roles and permissions (src/internal/repository/rbac.go): the interface the
    services use, its promises, and the gorm implementation. Two of its
    operations read the clock, so it is an interface over the world. *)
From S2P Require Import Prelude GoTime GoStrings GoErrors Model Gorm AuthState World.

Section joins.
Context {STO : Storage}.

(** [user_roles AS ur JOIN role_permissions AS rp ON rp.role_id = ur.role_id
     JOIN permissions AS p ON p.id = rp.permission_id WHERE ur.user_id = ?] *)
Definition permissions_of (userID : Z) (ts : tables) : list Permission :=
  flat_map (fun ur =>
    flat_map (fun rp => List.filter (fun p => p_ID p =? rp_PermissionID rp) (ts TPermissions))
      (List.filter (fun rp => rp_RoleID rp =? ur_RoleID ur) (ts TRolePermissions)))
    (List.filter (fun ur => ur_UserID ur =? userID) (ts TUserRoles)).

(** [user_roles AS ur JOIN roles AS r ON r.id = ur.role_id WHERE ur.user_id = ?] *)
Definition roles_of (userID : Z) (ts : tables) : list Role :=
  flat_map (fun ur => List.filter (fun r => r_ID r =? ur_RoleID ur) (ts TRoles))
    (List.filter (fun ur => ur_UserID ur =? userID) (ts TUserRoles)).

(** What the joins stand for. *)
Definition holds_role (ts : tables) (userID : Z) (r : Role) : Prop :=
  In r (ts TRoles) /\
  exists ur, In ur (ts TUserRoles) /\ ur_UserID ur = userID /\ ur_RoleID ur = r_ID r.

Definition holds_permission (ts : tables) (userID : Z) (p : Permission) : Prop :=
  In p (ts TPermissions) /\
  exists ur rp, In ur (ts TUserRoles) /\ ur_UserID ur = userID /\
                In rp (ts TRolePermissions) /\ rp_RoleID rp = ur_RoleID ur /\
                rp_PermissionID rp = p_ID p.

Lemma in_roles_of ts uid r : In r (roles_of uid ts) <-> holds_role ts uid r.
Proof.
  unfold roles_of, holds_role. rewrite in_flat_map. setoid_rewrite filter_In.
  setoid_rewrite Z.eqb_eq. naive_solver.
Qed.

Lemma in_permissions_of ts uid p : In p (permissions_of uid ts) <-> holds_permission ts uid p.
Proof.
  unfold permissions_of, holds_permission. rewrite in_flat_map. setoid_rewrite in_flat_map.
  setoid_rewrite filter_In. setoid_rewrite Z.eqb_eq. naive_solver.
Qed.

(** [codes] lists the values of [f] on the rows that satisfy [P], each once
    up to the collation, in the order of the collation. *)
Definition lists_codes {A} (P : A -> Prop) (f : A -> string) (codes : list string) : Prop :=
  (forall c, In c codes -> exists a, P a /\ f a = c) /\
  (forall a, P a -> exists c, In c codes /\ coll_eqb (f a) c = true) /\
  ForallOrdPairs (fun a b => coll_eqb a b = false) codes /\
  Sorted (fun a b => coll_leb a b = true) codes.

Lemma distinct_asc_lists {A} (P : A -> Prop) (f : A -> string) l :
  (forall a, In a l <-> P a) -> lists_codes P f (distinct_asc (map f l)).
Proof.
  intros Hl. split; [|split; [|split; [apply distinct_asc_unique|apply distinct_asc_sorted]]].
  - intros c Hc%distinct_asc_sub. apply in_map_iff in Hc as (a & <- & Ha).
    exists a. split; [by apply Hl|done].
  - intros a Ha. apply distinct_asc_cover, in_map_iff. exists a. split; [done|by apply Hl].
Qed.
End joins.

Section interface.
Context {STO : Storage} {G : Gorm} {SS : Store} {E : Env}.

(** [repository.RBACRepository] *)
Class RBACRepository := {
  rb_AssignRoleToUserByCode : Z -> string -> M unit;
  rb_UserHasPermission : Z -> string -> M bool;
  rb_ListRoles : M (list Role);
  rb_ListPermissions : M (list Permission);
  rb_ListUserRoleCodes : Z -> M (list string);
  rb_ListUserPermissionCodes : Z -> M (list string);
  rb_ReplaceUserRolesByCodes : Z -> list string -> M unit;
}.

(** A read-only operation of the repository. *)
Definition read_post {A} (ok : A -> Prop) (w : World) (r : res A) (w' : World) : Prop :=
  later w w' /\ same_tables w w' /\
  match r with Ok a => ok a | Err e => sql_failure e | Panic => False end.

(** The error of an operation that looks roles up by code. *)
Definition missing_role (w : World) (codes : list string) (e : error) : Prop :=
  e = repository_ErrRoleNotFound /\
  exists code, In code codes /\ forall r, In r (tbl TRoles w) -> coll_eqb (r_Code r) code = false.

Definition role_with_code (w : World) (code : string) (r : Role) : Prop :=
  In r (tbl TRoles w) /\ coll_eqb (r_Code r) code = true.

(** The rows a list of roles stands for, with the times they were made. *)
Definition user_role_rows (uid : Z) (roles : list Role) (l : list UserRole) : Prop :=
  Forall2 (fun r ur => ur_UserID ur = uid /\ ur_RoleID ur = r_ID r) roles l.

(** Replaces the roles of [uid] by exactly [roles]. *)
Definition replaced_roles (w w' : World) (uid : Z) (roles : list Role) : Prop :=
  exists l, user_role_rows uid roles l /\
    sets w w' TUserRoles (delete_where (fun ur => ur_UserID ur =? uid) (tbl TUserRoles w) ++ l).

(** Gives [uid] the role [r], unless the user has it. *)
Definition granted_role (w w' : World) (uid : Z) (r : Role) : Prop :=
  if existsb (fun ur => (ur_UserID ur =? uid) && (ur_RoleID ur =? r_ID r)) (tbl TUserRoles w)
  then same_tables w w'
  else exists ur, ur_UserID ur = uid /\ ur_RoleID ur = r_ID r /\
                  sets w w' TUserRoles (tbl TUserRoles w ++ [ur]).

Class RBACRepositoryLaws {R : RBACRepository} : Prop := {
  rb_assign_law : forall uid code w,
    wp (rb_AssignRoleToUserByCode uid code) (fun r w' =>
      later w w' /\
      match r with
      | Ok _ => exists role, role_with_code w code role /\ granted_role w w' uid role
      | Err e => same_tables w w' /\ (missing_role w [code] e \/ sql_failure e)
      | Panic => False
      end) w;
  rb_has_permission_law : forall uid code w,
    wp (rb_UserHasPermission uid code)
      (read_post (fun b => b = true <->
         exists p, holds_permission (rows (w_db w)) uid p /\ coll_eqb (p_Code p) code = true) w) w;
  rb_list_roles_law : forall w,
    wp rb_ListRoles (read_post (fun l => Permutation l (tbl TRoles w) /\
                                         Sorted (fun a b => r_ID a <= r_ID b) l) w) w;
  rb_list_permissions_law : forall w,
    wp rb_ListPermissions (read_post (fun l => Permutation l (tbl TPermissions w) /\
                                         Sorted (fun a b => p_ID a <= p_ID b) l) w) w;
  rb_user_roles_law : forall uid w,
    wp (rb_ListUserRoleCodes uid)
      (read_post (lists_codes (holds_role (rows (w_db w)) uid) r_Code) w) w;
  rb_user_permissions_law : forall uid w,
    wp (rb_ListUserPermissionCodes uid)
      (read_post (lists_codes (holds_permission (rows (w_db w)) uid) p_Code) w) w;
  (** A failure in the middle leaves its writes to the caller's transaction. *)
  rb_replace_law : forall uid codes w,
    wp (rb_ReplaceUserRolesByCodes uid codes) (fun r w' =>
      later w w' /\
      match r with
      | Ok _ => (exists roles, Forall2 (role_with_code w) codes roles /\
                               replaced_roles w w' uid roles) /\
                (keys_ok TUserRoles (tbl TUserRoles w) -> keys_ok TUserRoles (tbl TUserRoles w'))
      | Err e => missing_role w codes e \/ sql_failure e
      | Panic => False
      end) w;
}.
End interface.

(** * The gorm implementation *)

Module GormRBACRepository.
Section repo.
Context {STO : Storage} {G : Gorm} {SS : Store} {E : Env}.

Definition findRoleByCode (roleCode : string) : M Role :=
  map_err (fun err => if is_not_found err then repository_ErrRoleNotFound else err)
    (on_db (gFirst false TRoles (fun r => coll_eqb (r_Code r) roleCode))).

Definition AssignRoleToUserByCode (userID : Z) (roleCode : string) : M unit :=
  let! role := findRoleByCode roleCode in
  let! now := Now in
  on_db (gFirstOrCreate TUserRoles
           (fun ur => (ur_UserID ur =? userID) && (ur_RoleID ur =? r_ID role))
           (mkUserRole userID (r_ID role) now)).

Definition UserHasPermission (userID : Z) (permissionCode : string) : M bool :=
  let! count := on_db (gSelect Z (fun ts =>
      count_where (fun p => coll_eqb (p_Code p) permissionCode) (permissions_of userID ts))) in
  ret (0 <? count).

Definition ListRoles : M (list Role) := on_db (gFindById TRoles).

Definition ListPermissions : M (list Permission) := on_db (gFindById TPermissions).

Definition ListUserRoleCodes (userID : Z) : M (list string) :=
  on_db (gSelect (list string) (fun ts => distinct_asc (map r_Code (roles_of userID ts)))).

Definition ListUserPermissionCodes (userID : Z) : M (list string) :=
  on_db (gSelect (list string) (fun ts => distinct_asc (map p_Code (permissions_of userID ts)))).

Fixpoint findRoles (roleCodes : list string) : M (list Role) :=
  match roleCodes with
  | [] => ret []
  | roleCode :: rest =>
    let! role := findRoleByCode roleCode in
    let! roles := findRoles rest in
    ret (role :: roles)
  end.

Fixpoint createUserRoles (userID : Z) (roles : list Role) : M unit :=
  match roles with
  | [] => ret tt
  | role :: rest =>
    let! now := Now in
    do! on_db (gCreate TUserRoles (mkUserRole userID (r_ID role) now)) in
    createUserRoles userID rest
  end.

Definition ReplaceUserRolesByCodes (userID : Z) (roleCodes : list string) : M unit :=
  let! roles := findRoles roleCodes in
  do! on_db (gDelete TUserRoles (fun ur => ur_UserID ur =? userID)) in
  createUserRoles userID roles.

End repo.
End GormRBACRepository.

#[export] Instance NewGormRBACRepository {STO : Storage} {G : Gorm} {SS : Store} {E : Env} :
  RBACRepository := {|
  rb_AssignRoleToUserByCode := GormRBACRepository.AssignRoleToUserByCode;
  rb_UserHasPermission := GormRBACRepository.UserHasPermission;
  rb_ListRoles := GormRBACRepository.ListRoles;
  rb_ListPermissions := GormRBACRepository.ListPermissions;
  rb_ListUserRoleCodes := GormRBACRepository.ListUserRoleCodes;
  rb_ListUserPermissionCodes := GormRBACRepository.ListUserPermissionCodes;
  rb_ReplaceUserRolesByCodes := GormRBACRepository.ReplaceUserRolesByCodes;
|}.

(** * The implementation keeps the promises *)

Section laws.
Context {STO : Storage} {G : Gorm} {GL : GormLaws} {SS : Store} {E : Env}.
Import GormRBACRepository.

Lemma role_not_found_error : is_not_found repository_ErrRoleNotFound = false.
Proof. done. Qed.

Lemma findRoleByCode_spec code w :
  wp (findRoleByCode code) (fun r w' =>
    same_world w w' /\
    match r with
    | Ok role => role_with_code w code role
    | Err e => missing_role w [code] e \/ sql_failure e
    | Panic => False
    end) w.
Proof.
  unfold findRoleByCode. wp_step.
  eapply (wp_first TRoles); [apply (first_law false TRoles)|..].
  - intros r w' Hw Hin Hsel. by split.
  - intros e w' Hw He Hnone. split; [done|].
    destruct (is_not_found e) eqn:Hn; [left|by right].
    split; [done|]. exists code. split; [by left|]. by apply Hnone.
Qed.

Lemma read_select {A} (q : tables -> A) (ok : A -> Prop) w :
  ok (q (rows (w_db w))) -> wp (on_db (gSelect A q)) (read_post ok w) w.
Proof.
  intros Hok. eapply wp_query; [apply select_law|..].
  - intros a w' Hw ->. split; [chain|]. split; [chain|done].
  - intros e w' Hw He. split; [chain|]. by split; [chain|].
Qed.

Lemma read_find t (ok : list (row t) -> Prop) w :
  (forall r, visible t r = true) ->
  (forall l, Permutation l (tbl t w) -> Sorted (fun a b => row_id t a <= row_id t b) l -> ok l) ->
  wp (on_db (gFindById t)) (read_post ok w) w.
Proof.
  intros Hvis Hok. eapply wp_query; [apply find_law|..].
  - intros a w' Hw [Hp Hs]. split; [chain|]. split; [chain|]. apply Hok; [|done].
    rewrite Hp. clear - Hvis. unfold tbl. induction (rows (w_db w) t) as [|x l IH]; simpl; [done|].
    by rewrite Hvis, IH.
  - intros e w' Hw He. split; [chain|]. by split; [chain|].
Qed.

Lemma AssignRole_law uid code w :
  wp (AssignRoleToUserByCode uid code) (fun r w' =>
    later w w' /\
    match r with
    | Ok _ => exists role, role_with_code w code role /\ granted_role w w' uid role
    | Err e => same_tables w w' /\ (missing_role w [code] e \/ sql_failure e)
    | Panic => False
    end) w.
Proof.
  unfold AssignRoleToUserByCode. wp_step. wp_use (findRoleByCode_spec code w).
  intros [role|e|] w1 [Hw1 Hr]; [|split; [chain|]; split; [chain|done]|done].
  wp_step. apply wp_Now. eapply wp_exec; [apply first_or_create_law|..].
  - intros [] w2 Hrest Hok. split; [chain|]. exists role. split; [done|].
    assert (same_tables w (tick w1)) as Ht by chain.
    unfold granted_role. rewrite (Ht TUserRoles). unfold tbl.
    destruct Hok as [[(x & Hx & Hs) Hsame]|[Hnone (r' & id & now & _ & -> & _ & Hset)]].
    + rewrite (proj2 (existsb_exists _ _)) by eauto. transitivity (tick w1); done.
    + destruct (existsb _ _) eqn:He.
      { apply existsb_exists in He as (x & Hx & Hp). specialize (Hnone x Hx).
        unfold selects in Hnone. simpl in Hnone. by rewrite Hp in Hnone. }
      eexists. split; [|split; [|split; [apply Hset|]]]; [done..|].
      intros t' Hne. rewrite (Ht t'). by apply Hset.
  - intros e w2 Hw He. split; [chain|]. split; [chain|]. by right.
Qed.

Lemma findRoles_spec codes : forall w,
  wp (findRoles codes) (fun r w' =>
    same_world w w' /\
    match r with
    | Ok roles => Forall2 (role_with_code w) codes roles
    | Err e => missing_role w codes e \/ sql_failure e
    | Panic => False
    end) w.
Proof.
  induction codes as [|code codes IH]; intros w; simpl; [by apply wp_ret|].
  assert (forall w1 c e, same_world w w1 -> (forall x, In x c -> In x (code :: codes)) ->
            missing_role w1 c e \/ sql_failure e -> missing_role w (code :: codes) e \/ sql_failure e)
    as Hweak.
  { intros w1 c e Hw Hc [(-> & x & Hx & Hn)|?]; [left|by right]. split; [done|].
    exists x. split; [auto|]. by rewrite (sw_rows _ _ Hw TRoles). }
  wp_step. wp_use (findRoleByCode_spec code w). intros [role|e|] w1 [Hw1 Hr]; [|split; [done|]|done].
  2:{ eapply Hweak; [reflexivity| |exact Hr]. intros x [<-|[]]. by left. }
  wp_step. wp_use (IH w1). intros [roles|e|] w2 [Hw2 Hrs].
  - apply wp_ret. split; [by transitivity w1|]. constructor; [done|].
    eapply Forall2_impl; [exact Hrs|]. unfold role_with_code.
    intros c r. by rewrite (sw_rows _ _ Hw1 TRoles).
  - split; [by transitivity w1|]. eapply Hweak; [exact Hw1|by right|exact Hrs].
  - done.
Qed.

Lemma createUserRoles_spec uid roles : forall w,
  wp (createUserRoles uid roles) (fun r w' =>
    later w w' /\
    match r with
    | Ok _ => (exists l, user_role_rows uid roles l /\ sets w w' TUserRoles (tbl TUserRoles w ++ l)) /\
              (keys_ok TUserRoles (tbl TUserRoles w) -> keys_ok TUserRoles (tbl TUserRoles w'))
    | Err e => sql_failure e
    | Panic => False
    end) w.
Proof.
  induction roles as [|role roles IH]; intros w; simpl.
  { apply wp_ret. split; [chain|]. split; [|done]. exists []. split; [constructor|].
    split; [by rewrite app_nil_r|done]. }
  wp_step. apply wp_Now. wp_step. eapply wp_exec; [apply (create_law TUserRoles)|..].
  2:{ intros e w1 Hw He. split; [chain|done]. }
  intros r' w1 Hrest (id & now & _ & -> & Hfree & Hset).
  wp_use (IH w1). intros [[]|e|] w2 [Hl Hr]; [|by split; [chain|]|done].
  split; [chain|]. destruct Hr as [(l & Hl2 & Hs & Ho) Hkeys]. split.
  2:{ intros Hk. apply Hkeys. unfold tbl at 1. rewrite (proj1 Hset). by apply keys_ok_app. }
  eexists (_ :: l). split; [constructor; [|exact Hl2]|split].
  3:{ intros t' Hne. rewrite Ho by done. by apply Hset. }
  2:{ rewrite Hs. unfold tbl at 1. rewrite (proj1 Hset), <- app_assoc. done. }
  done.
Qed.

Lemma ReplaceUserRoles_law uid codes w :
  wp (ReplaceUserRolesByCodes uid codes) (fun r w' =>
    later w w' /\
    match r with
    | Ok _ => (exists roles, Forall2 (role_with_code w) codes roles /\
                             replaced_roles w w' uid roles) /\
              (keys_ok TUserRoles (tbl TUserRoles w) -> keys_ok TUserRoles (tbl TUserRoles w'))
    | Err e => missing_role w codes e \/ sql_failure e
    | Panic => False
    end) w.
Proof.
  unfold ReplaceUserRolesByCodes. wp_step. wp_use (findRoles_spec codes w).
  intros [roles|e|] w1 [Hw1 Hr]; [|by split; [chain|]|done].
  wp_step. eapply wp_exec; [by apply (delete_law TUserRoles)|..].
  2:{ intros e w2 Hw He. split; [chain|by right]. }
  intros [] w2 Hrest [Hset Ho]. wp_use (createUserRoles_spec uid roles w2).
  intros [[]|e|] w3 [Hl Hc]; [|by split; [chain|right]|done].
  split; [chain|]. destruct Hc as [(l & Hl2 & Hs & Ho2) Hkeys]. split.
  2:{ intros Hk. apply Hkeys. unfold tbl at 1. rewrite Hset. apply keys_ok_filter.
      by rewrite (sw_rows _ _ Hw1 TUserRoles) in Hk. }
  exists roles. split; [done|]. exists l. split; [done|]. split.
  - pose proof (sw_rows _ _ Hw1 TUserRoles) as Hur. unfold tbl in *. by rewrite Hs, Hset, Hur.
  - intros t' Hne. rewrite Ho2 by done. unfold tbl. rewrite Ho by done.
    symmetry. apply (sw_rows _ _ Hw1).
Qed.

#[export] Instance GormRBACRepository_laws : RBACRepositoryLaws.
Proof.
  split; intros; simpl.
  - apply AssignRole_law.
  - unfold UserHasPermission. wp_step.
    eapply wp_mono; [apply (read_select _ (fun n => n = count_where
      (fun p => coll_eqb (p_Code p) code) (permissions_of uid (rows (w_db w))))); reflexivity|].
    intros [n|e|] w' (Hl & Ht & Hr); [|by split; [|split]|done].
    apply wp_ret. split; [done|]. split; [done|].
    rewrite Hr, Z.ltb_lt, count_where_pos. setoid_rewrite in_permissions_of. done.
  - apply (read_find TRoles); auto.
  - apply (read_find TPermissions); auto.
  - apply read_select, distinct_asc_lists. intros r. apply in_roles_of.
  - apply read_select, distinct_asc_lists. intros p. apply in_permissions_of.
  - apply ReplaceUserRoles_law.
Qed.
End laws.
