(* ===== verification/GoNet.v ===== *)
(** What the configuration uses of [net] and [net/netip]: whether a string is
    an IP address or an address with a prefix length. Only validity, the
    width and the zone of an address are kept, not its bits. *)
From S2P Require Import Prelude GoStrings.

Definition is_digit (b : Z) : bool := in_range 48 57 b.
Definition is_hex (b : Z) : bool := is_digit b || in_range 97 102 b || in_range 65 70 b.

(** * IPv4: [parseIPv4Fields]

    [pos] counts the fields done, [digits] those of the current one and [val]
    is its value; [prev_dot] says that the last byte was a dot or that there
    was none. *)
Fixpoint ipv4_fields (pos digits : nat) (val : Z) (prev_dot : bool) (l : list Z) : bool :=
  match l with
  | [] => Nat.eqb pos 3 && negb prev_dot
  | b :: l' =>
    if is_digit b then
      (** an octet with a leading zero, or above 255 *)
      if Nat.eqb digits 1 && (val =? 0) then false
      else if 255 <? val * 10 + (b - 48) then false
      else ipv4_fields pos (Datatypes.S digits) (val * 10 + (b - 48)) false l'
    else if b =? 46 then
      if prev_dot || Nat.eqb pos 3 then false else ipv4_fields (Datatypes.S pos) 0 0 true l'
    else false
  end.

Definition parse_ipv4 (l : list Z) : bool := ipv4_fields 0 0 0 true l.

(** * IPv6: [parseIPv6] *)

(** The hexadecimal digits at the front, and what follows them. *)
Fixpoint hex_group (l : list Z) : nat * list Z :=
  match l with
  | [] => (0%nat, [])
  | b :: l' => if is_hex b then let '(n, rest) := hex_group l' in (Datatypes.S n, rest) else (0%nat, l)
  end.

(** The loop over the groups: [i] bytes of the address are filled, and
    [ellipsis] says whether a [::] was seen. The fuel is the number of groups
    an address can have, plus one. *)
Fixpoint ipv6_groups (fuel i : nat) (ellipsis : bool) (l : list Z) : bool :=
  let finish (i : nat) (ellipsis : bool) (l : list Z) : bool :=
    match l with
    | [] => if Nat.ltb i 16 then ellipsis else negb ellipsis
    | _ => false
    end in
  match fuel with
  | O => finish i ellipsis l
  | Datatypes.S fuel =>
    if negb (Nat.ltb i 16) then finish i ellipsis l else
    let '(off, rest) := hex_group l in
    if Nat.eqb off 0 || Nat.ltb 4 off then false else
    match rest with
    | 46 :: _ =>
      (** an embedded IPv4 address *)
      if negb ellipsis && negb (Nat.eqb i 12) then false
      else if Nat.ltb 16 (i + 4) then false
      else if parse_ipv4 l then finish (i + 4)%nat ellipsis [] else false
    | [] => finish (i + 2)%nat ellipsis []
    | 58 :: [] => false
    | 58 :: 58 :: rest' =>
      if ellipsis then false
      else match rest' with
           | [] => finish (i + 2)%nat true []
           | _ => ipv6_groups fuel (i + 2) true rest'
           end
    | 58 :: rest' => ipv6_groups fuel (i + 2) ellipsis rest'
    | _ => false
    end
  end.

(** The part before the first [%], and the zone after it. *)
Fixpoint cut_byte (sep : Z) (l : list Z) : list Z * option (list Z) :=
  match l with
  | [] => ([], None)
  | b :: l' => if b =? sep then ([], Some l')
               else let '(before, after) := cut_byte sep l' in (b :: before, after)
  end.

Definition parse_ipv6 (l : list Z) : option (list Z) :=
  let '(addr, zone) := cut_byte 37 l in
  match zone with
  | Some [] => None
  | _ =>
    let zone := default [] zone in
    let ok := match addr with
              | 58 :: 58 :: [] => true
              | 58 :: 58 :: rest => ipv6_groups 9 0 true rest
              | _ => ipv6_groups 9 0 false addr
              end in
    if ok then Some zone else None
  end.

(** * [netip.ParseAddr]: the width of the address and its zone *)

Fixpoint first_separator (l : list Z) : option Z :=
  match l with
  | [] => None
  | b :: l' => if (b =? 46) || (b =? 58) || (b =? 37) then Some b else first_separator l'
  end.

Definition ParseAddr (s : string) : option (Z * list Z) :=
  match first_separator (bytes s) with
  | Some 46 => if parse_ipv4 (bytes s) then Some (32, []) else None
  | Some 58 => option_map (fun zone => (128, zone)) (parse_ipv6 (bytes s))
  | _ => None
  end.

(** [net.ParseIP(s) != nil] *)
Definition ParseIP (s : string) : bool :=
  match ParseAddr s with Some (_, []) => true | _ => false end.

(** [net.ParseCIDR(s)] succeeds: an address without a zone, a slash and a
    prefix length of decimal digits that is at most the width. *)
Definition ParseCIDR (s : string) : bool :=
  let '(addr, mask) := cut_byte 47 (bytes s) in
  match mask, ParseAddr (of_bytes addr) with
  | Some mask, Some (width, []) =>
    match parse_unsigned mask with Some n => n <=? width | None => false end
  | _, _ => false
  end.

Example ip_examples :
  map ParseIP ["10.0.0.1"; "255.255.255.255"; "1.2.3"; "1.2.3.4.5"; "01.2.3.4"; "1..2.3"; "256.1.1.1";
               "1.2.3."; "::"; "::1"; "fe80::1"; "fe80::1%eth0"; "1:2:3:4:5:6:7:8"; "1:2:3:4:5:6:7";
               "::ffff:10.0.0.1"; "1::2::3"; "12345::"; "1:2:3:4:5:6:7::"; "1:2:3:4:5:6:7:8::"; ""; "a"]
  = [true; true; false; false; false; false; false;
     false; true; true; true; false; true; false;
     true; false; false; true; false; false; false].
Proof. reflexivity. Qed.

Example cidr_examples :
  map ParseCIDR ["10.0.0.0/8"; "10.0.0.0/33"; "10.0.0.0"; "::/0"; "fd00::/128"; "fd00::/129"; "10.0.0.0/"]
  = [true; false; false; true; true; false; false].
Proof. reflexivity. Qed.
