(* ===== verification/GoPath.v ===== *)
(** What the configuration uses of [path/filepath], on Unix. *)
From S2P Require Import Prelude GoStrings.

(** [strings.Join(elems, "/")] *)
Fixpoint join_slash (elems : list string) : string :=
  match elems with
  | [] => ""
  | [e] => e
  | e :: rest => e +:+ "/" +:+ join_slash rest
  end.

Definition split_slash (s : string) : list string := split_byte "/"%char s.

Definition IsAbs (path : string) : bool := HasPrefix path "/".

(** One element of a path, against the elements kept so far, last first. *)
Definition clean_step (rooted : bool) (stack : list string) (elem : string) : list string :=
  if String.eqb elem "" || String.eqb elem "." then stack
  else if String.eqb elem ".." then
    match stack with
    | top :: below => if String.eqb top ".." then ".." :: stack else below
    | [] => if rooted then [] else [".."]
    end
  else elem :: stack.

Definition clean_elems (rooted : bool) (elems : list string) : list string :=
  rev (fold_left (clean_step rooted) elems []).

Definition Clean (path : string) : string :=
  match path with
  | EmptyString => "."
  | String "/" rest => "/" +:+ join_slash (clean_elems true (split_slash rest))
  | _ =>
    match clean_elems false (split_slash path) with
    | [] => "."
    | elems => join_slash elems
    end
  end.

(** [filepath.Join] of two elements *)
Definition Join (dir name : string) : string :=
  if negb (String.eqb dir "") then Clean (dir +:+ "/" +:+ name)
  else if negb (String.eqb name "") then Clean name
  else "".

(** The path up to and with its last slash. *)
Fixpoint up_to_slash (s : string) : string :=
  match s with
  | EmptyString => ""
  | String c s' =>
    let rest := up_to_slash s' in
    if String.eqb rest "" then (if Ascii.eqb c "/" then "/" else "") else String c rest
  end.

Definition Dir (path : string) : string := Clean (up_to_slash path).

Example clean_examples :
  map Clean [""; "/"; "/a/../b//c/."; "a/b/.."; "../a/.."; "/../x"; "a/"; "/a/b/"; "./config.yml"]
  = ["."; "/"; "/b/c"; "a"; ".."; "/x"; "a"; "/a/b"; "config.yml"].
Proof. reflexivity. Qed.
Example dir_examples :
  map Dir ["/a/b"; "/a"; "/"; "a"; ""; "/a/b/"; "a/b"] = ["/a"; "/"; "/"; "."; "."; "/a/b"; "a"].
Proof. reflexivity. Qed.

(** * A directory of an absolute path is above it

    The weight of a list of elements: their lengths with a slash each. *)
Fixpoint weight (elems : list string) : nat :=
  match elems with
  | [] => 0
  | e :: rest => Datatypes.S (String.length e + weight rest)
  end.

Lemma string_length_app s t : String.length (s +:+ t) = (String.length s + String.length t)%nat.
Proof. induction s; simpl; auto. Qed.

Lemma length_join_slash elems :
  elems <> [] -> Datatypes.S (String.length (join_slash elems)) = weight elems.
Proof.
  induction elems as [|e [|e' rest] IH]; intros Hne; [done|simpl; lia|].
  change (join_slash (e :: e' :: rest)) with (e +:+ "/" +:+ join_slash (e' :: rest)).
  change (weight (e :: e' :: rest)) with (Datatypes.S (String.length e + weight (e' :: rest))).
  rewrite <- IH by done. rewrite !string_length_app. simpl. lia.
Qed.

Lemma weight_app l1 l2 : weight (l1 ++ l2) = (weight l1 + weight l2)%nat.
Proof. induction l1; simpl; lia. Qed.

Lemma weight_rev l : weight (rev l) = weight l.
Proof. induction l; simpl; [done|]. rewrite weight_app. simpl. lia. Qed.

Lemma split_slash_nonempty s : split_slash s <> [].
Proof.
  unfold split_slash. destruct s as [|c s]; simpl; [done|]. destruct (Ascii.eqb c "/"); [done|].
  by destruct (split_byte "/" s).
Qed.

Lemma join_split s : join_slash (split_slash s) = s.
Proof.
  induction s as [|c s IH]; [done|].
  pose proof (split_slash_nonempty s) as Hne. unfold split_slash in *. simpl.
  destruct (Ascii.eqb_spec c "/") as [->|Hc].
  - destruct (split_byte "/" s) as [|h t]; [done|].
    change (join_slash ("" :: h :: t)) with (String "/" (join_slash (h :: t))). by rewrite IH.
  - destruct (split_byte "/" s) as [|h [|h' t]]; [done|simpl in *; congruence|].
    change (join_slash (String c h :: h' :: t)) with (String c (h +:+ "/" +:+ join_slash (h' :: t))).
    change (join_slash (h :: h' :: t)) with (h +:+ "/" +:+ join_slash (h' :: t)) in IH.
    by rewrite IH.
Qed.

(** An element is kept, or the elements get lighter. *)
Lemma clean_step_weight rooted stack elem :
  clean_step rooted stack elem = elem :: stack \/
  (weight (clean_step rooted stack elem) < weight (elem :: stack))%nat.
Proof.
  unfold clean_step. destruct (_ || _); [right; simpl; lia|].
  destruct (String.eqb_spec elem ".."); [subst|by left].
  destruct stack as [|top below]; [destruct rooted; [right; simpl; lia|by left]|].
  destruct (String.eqb top ".."); [by left|right; simpl; lia].
Qed.

Lemma clean_fold_weight rooted elems : forall stack,
  fold_left (clean_step rooted) elems stack = rev elems ++ stack \/
  (weight (fold_left (clean_step rooted) elems stack) < weight elems + weight stack)%nat.
Proof.
  induction elems as [|e elems IH]; intros stack; [by left|]. simpl.
  assert (weight (clean_step rooted stack e) <= weight (e :: stack))%nat as Hle
    by (destruct (clean_step_weight rooted stack e) as [->|]; lia).
  destruct (IH (clean_step rooted stack e)) as [Heq|Hlt]; [|right; simpl in *; lia].
  rewrite Heq. destruct (clean_step_weight rooted stack e) as [->|Hs].
  - left. by rewrite <- app_assoc.
  - right. rewrite weight_app, weight_rev. simpl in Hs. lia.
Qed.

Lemma clean_elems_weight rooted elems :
  clean_elems rooted elems = elems \/ (weight (clean_elems rooted elems) < weight elems)%nat.
Proof.
  unfold clean_elems. destruct (clean_fold_weight rooted elems []) as [->|H].
  - left. by rewrite app_nil_r, rev_involutive.
  - right. rewrite weight_rev. simpl in H. lia.
Qed.

(** Cleaning an absolute path leaves it or makes it shorter. *)
Lemma Clean_rooted_shorter rest :
  Clean (String "/" rest) = String "/" rest \/
  (String.length (Clean (String "/" rest)) < String.length (String "/" rest))%nat.
Proof.
  destruct (String.eqb_spec rest "") as [->|Hne]; [by left|].
  change (Clean (String "/" rest)) with (String "/" (join_slash (clean_elems true (split_slash rest)))).
  pose proof (length_join_slash _ (split_slash_nonempty rest)) as Hw. rewrite join_split in Hw.
  destruct (clean_elems_weight true (split_slash rest)) as [->|Hlt]; [left; by rewrite join_split|].
  right. destruct (clean_elems true (split_slash rest)) as [|e l] eqn:He.
  - destruct rest as [|c rest]; [done|simpl; lia].
  - pose proof (length_join_slash (e :: l) ltac:(done)) as Hw2.
    change (String.length (String "/" (join_slash (e :: l))))
      with (Datatypes.S (String.length (join_slash (e :: l)))).
    change (String.length (String "/" rest)) with (Datatypes.S (String.length rest)). lia.
Qed.

Lemma up_to_slash_rooted rest : exists rest', up_to_slash (String "/" rest) = String "/" rest'.
Proof. simpl. destruct (String.eqb (up_to_slash rest) ""); eauto. Qed.

Lemma up_to_slash_prefix s :
  up_to_slash s = s \/ (String.length (up_to_slash s) < String.length s)%nat.
Proof.
  induction s as [|c s IH]; [by left|]. simpl.
  destruct (String.eqb_spec (up_to_slash s) "") as [He|He].
  - rewrite He in IH. destruct (Ascii.eqb_spec c "/") as [->|Hc].
    + destruct s; [by left|right; simpl in *; lia].
    + right. simpl. lia.
  - destruct IH as [->|Hlt]; [by left|right; simpl; lia].
Qed.

Lemma IsAbs_rooted p : IsAbs p = true -> exists rest, p = String "/" rest.
Proof.
  unfold IsAbs, HasPrefix. destruct p as [|c p]; [done|].
  change (String.prefix "/" (String c p)) with (if ascii_dec "/" c then String.prefix "" p else false).
  destruct (ascii_dec "/" c) as [<-|]; [eauto|done].
Qed.

Lemma rooted_IsAbs rest : IsAbs (String "/" rest) = true.
Proof. by destruct rest. Qed.

(** The directory of an absolute path is absolute, and is the path itself or
    shorter. *)
Lemma Dir_rooted p :
  IsAbs p = true ->
  IsAbs (Dir p) = true /\ (Dir p = p \/ (String.length (Dir p) < String.length p)%nat).
Proof.
  intros [rest ->]%IsAbs_rooted. unfold Dir.
  destruct (up_to_slash_rooted rest) as [rest' Hr].
  pose proof (up_to_slash_prefix (String "/" rest)) as Hp. rewrite Hr in *.
  split; [apply rooted_IsAbs|]. pose proof (Clean_rooted_shorter rest') as Hc.
  destruct Hp as [<-|Hlt]; destruct Hc as [->|Hc]; [by left|by right|by right|right; lia].
Qed.

Lemma Clean_rooted p : IsAbs p = true -> IsAbs (Clean p) = true.
Proof. intros [rest ->]%IsAbs_rooted. apply rooted_IsAbs. Qed.
