(* ===== verification/TokenManager.v ===== *)
(** Access and refresh tokens (src/internal/auth/token_manager.go).

    The JWT library is given by the class [JWT]: signing with HS256, and
    [jwt.ParseWithClaims] under the options the code passes. *)
From S2P Require Import Prelude GoTime GoStrings Sha256 GoErrors Model Gorm AuthState World.

(** * Errors and constants *)

Definition auth_ErrAccessTokenInvalid : error := Sentinel "auth.ErrAccessTokenInvalid".
Definition auth_ErrRefreshTokenInvalid : error := Sentinel "auth.ErrRefreshTokenInvalid".
Definition ErrJWTSecretTooShort : error := Sentinel "auth.ErrJWTSecretTooShort".
Definition ErrJWTIssuerEmpty : error := Sentinel "auth.ErrJWTIssuerEmpty".
Definition ErrJWTExpireInvalid : error := Sentinel "auth.ErrJWTExpireInvalid".
Definition ErrTokenUserInvalid : error := Sentinel "auth.ErrTokenUserInvalid".
Definition ErrTokenUsernameInvalid : error := Sentinel "auth.ErrTokenUsernameInvalid".
Definition ErrTokenTypeInvalid : error := Sentinel "auth.ErrTokenTypeInvalid".
Definition ErrTokenJTIInvalid : error := Sentinel "auth.ErrTokenJTIInvalid".
Definition ErrTokenVersionInvalid : error := Sentinel "auth.ErrTokenVersionInvalid".

Definition TokenTypeAccess : string := "access".
Definition TokenTypeRefresh : string := "refresh".

(** The leeway the parser is given. *)
Definition parse_leeway : Z := 30 * Second.

(** * Data *)

Record TokenManager := mkTokenManager {
  tm_secret : string;
  tm_issuer : string;
  tm_accessTTL : Z;
  tm_refreshTTL : Z;
}.

(** [auth.UserClaims] with its embedded [jwt.RegisteredClaims]: the claims
    the program sets or reads. *)
Record UserClaims := mkUserClaims {
  c_Username : string;
  c_UserID : Z;
  c_TokenType : string;
  c_AuthVersion : Z;
  c_JTI : string;
  c_Issuer : string;
  c_IssuedAt : option Z;
  c_ExpiresAt : option Z;
  c_ID : string;
}.

Record IssuedToken := mkIssuedToken {
  it_Token : string;
  it_JTI : string;
  it_TokenType : string;
  it_ExpiresAt : Z;
  it_ExpiresIn : Z;
}.

Definition set_jti (jti : string) (c : UserClaims) : UserClaims :=
  mkUserClaims (c_Username c) (c_UserID c) (c_TokenType c) (c_AuthVersion c) jti
    (c_Issuer c) (c_IssuedAt c) (c_ExpiresAt c) (c_ID c).

(** * The JWT library *)

Class JWT := {
  (** [jwt.NewNumericDate(t).Time] *)
  numeric_date : Z -> Z;
  (** [jwt.NewWithClaims(HS256, c).SignedString(secret)] *)
  jwt_sign : string -> UserClaims -> res string;
  (** [jwt.ParseWithClaims] with the valid methods [HS256], the given issuer,
      a required expiry, a checked issue time and the given leeway, at the
      time [now]; the claims and [token.Valid]. *)
  jwt_parse : forall (secret issuer : string) (leeway now : Z), string -> res (UserClaims * bool);
}.

(** The claims as they come back from JSON: the field [JTI] is tagged
    [json:"-"] and stays empty. *)
Definition wire (c : UserClaims) : UserClaims := set_jti "" c.

Class JWTLaws `{JWT} : Prop := {
  numeric_date_bounds : forall t, t - Second < numeric_date t <= t;
  (** Signing does not panic, and its errors are the library's. *)
  jwt_sign_outcome : forall secret c,
    match jwt_sign secret c with Ok _ => True | Err e => library_error e | Panic => False end;
  (** A signed token is accepted under its secret and issuer while it is
      fresh, and yields the claims that were signed. *)
  jwt_parse_fresh : forall secret c tok leeway now exp,
    jwt_sign secret c = Ok tok -> ValidString (c_Username c) = true ->
    c_ExpiresAt c = Some exp -> now < exp + leeway ->
    (forall iat, c_IssuedAt c = Some iat -> iat <= now + leeway) ->
    jwt_parse secret (c_Issuer c) leeway now tok = Ok (wire c, true);
  (** An expired one is refused as such. *)
  jwt_parse_expired : forall secret c tok leeway now exp,
    jwt_sign secret c = Ok tok -> ValidString (c_Username c) = true ->
    c_ExpiresAt c = Some exp -> exp + leeway <= now ->
    exists e, jwt_parse secret (c_Issuer c) leeway now tok = Err e /\ library_error e /\
              errors_Is e jwt_ErrTokenExpired = true;
  (** Whatever is accepted has the issuer and is within its lifetime. *)
  jwt_parse_sound : forall secret issuer leeway now tok,
    match jwt_parse secret issuer leeway now tok with
    | Ok (c, valid) => c_Issuer c = issuer /\ c_JTI c = "" /\
                       (exists exp, c_ExpiresAt c = Some exp /\ now < exp + leeway) /\
                       (forall iat, c_IssuedAt c = Some iat -> iat <= now + leeway)
    | Err e => library_error e
    | Panic => False
    end;
}.

(** * Construction *)

Definition NewTokenManagerWithTTL (secret issuer : string) (accessTTL refreshTTL : Z)
    : res TokenManager :=
  let secret := TrimSpace secret in
  when! len secret <? 32 return! Err ErrJWTSecretTooShort in
  when! String.eqb issuer "" return! Err ErrJWTIssuerEmpty in
  when! (accessTTL <=? 0) || (refreshTTL <=? 0) return! Err ErrJWTExpireInvalid in
  Ok (mkTokenManager secret issuer accessTTL refreshTTL).

Definition NewTokenManager (secret issuer : string) (ttl : Z) : res TokenManager :=
  NewTokenManagerWithTTL secret issuer ttl (mul64 ttl 7).

Definition AccessTokenTTL (m : TokenManager) : Z := tm_accessTTL m.
Definition RefreshTokenTTL (m : TokenManager) : Z := tm_refreshTTL m.

Definition claimsFromToken (valid : bool) (claims : UserClaims) : res UserClaims :=
  when! negb valid return! Err auth_ErrAccessTokenInvalid in
  Ok claims.

(** The checks of [parseToken] after the library has accepted the token. The
    identifier is set in the claims the token points to. *)
Definition check_claims (valid : bool) (claims : UserClaims) : res UserClaims :=
  when! negb valid return! Err auth_ErrAccessTokenInvalid in
  when! match c_ExpiresAt claims with None => true | Some _ => false end
        || match c_IssuedAt claims with None => true | Some _ => false end
    return! Err auth_ErrAccessTokenInvalid in
  when! c_UserID claims <=? 0 return! Err ErrTokenUserInvalid in
  when! String.eqb (TrimSpace (c_Username claims)) "" return! Err ErrTokenUsernameInvalid in
  when! negb (String.eqb (c_TokenType claims) TokenTypeAccess)
        && negb (String.eqb (c_TokenType claims) TokenTypeRefresh)
    return! Err ErrTokenTypeInvalid in
  when! c_AuthVersion claims <=? 0 return! Err ErrTokenVersionInvalid in
  let claims := if String.eqb (TrimSpace (c_JTI claims)) "" then set_jti (c_ID claims) claims
                else claims in
  when! String.eqb (TrimSpace (c_JTI claims)) "" || String.eqb (c_ID claims) ""
    return! Err ErrTokenJTIInvalid in
  when! negb (String.eqb (c_ID claims) (c_JTI claims)) return! Err ErrTokenJTIInvalid in
  claimsFromToken valid claims.

Section manager.
Context {G : Gorm} {SS : Store} {E : Env} {J : JWT}.

(** * Generation *)

Definition generateToken (m : TokenManager) (userID : Z) (username : string) (authVersion : Z)
    (tokenType : string) (ttl : Z) : M IssuedToken :=
  when! authVersion <=? 0 return! fail ErrTokenVersionInvalid in
  let! now := Now in
  let expiresAt := time_add now ttl in
  let! jti := NewUUID in
  let claims := mkUserClaims username userID tokenType authVersion jti (tm_issuer m)
                  (Some (numeric_date now)) (Some (numeric_date expiresAt)) jti in
  let! tokenString := of_res (jwt_sign (tm_secret m) claims) in
  ret (mkIssuedToken tokenString jti tokenType expiresAt (duration_seconds ttl)).

Definition GenerateAccessToken (m : TokenManager) (userID : Z) (username : string)
    (authVersion : Z) : M string :=
  let! issuedToken := generateToken m userID username authVersion TokenTypeAccess (tm_accessTTL m) in
  ret (it_Token issuedToken).

Definition GenerateAccessTokenIssue (m : TokenManager) (userID : Z) (username : string)
    (authVersion : Z) : M IssuedToken :=
  generateToken m userID username authVersion TokenTypeAccess (tm_accessTTL m).

Definition GenerateRefreshToken (m : TokenManager) (userID : Z) (username : string)
    (authVersion : Z) : M IssuedToken :=
  generateToken m userID username authVersion TokenTypeRefresh (tm_refreshTTL m).

(** * Parsing *)

(** The library reads [time.Now] itself. *)
Definition parseToken (m : TokenManager) (tokenString : string) : M UserClaims :=
  let! now := Now in
  let! '(claims, valid) :=
    of_res (jwt_parse (tm_secret m) (tm_issuer m) parse_leeway now tokenString) in
  of_res (check_claims valid claims).

Definition ParseAccessToken (m : TokenManager) (tokenString : string) : M UserClaims :=
  let! claims := parseToken m tokenString in
  when! negb (String.eqb (c_TokenType claims) TokenTypeAccess)
    return! fail auth_ErrAccessTokenInvalid in
  ret claims.

Definition ParseRefreshToken (m : TokenManager) (tokenString : string) : M UserClaims :=
  let! claims := parseToken m tokenString in
  when! negb (String.eqb (c_TokenType claims) TokenTypeRefresh)
    return! fail auth_ErrRefreshTokenInvalid in
  ret claims.

End manager.
