(* ===== verification/AuthService.v ===== *)
(** The session service (src/internal/service/auth.go). *)
From S2P Require Import Prelude GoTime GoStrings Sha256 GoErrors Model Gorm AuthState World.
From S2P Require Import Dao RefreshRepo TokenManager.

Record LoginRateLimit := mkLoginRateLimit {
  AccountLimit : Z;
  IPLimit : Z;
  Window : Z;
}.

(** What the methods test of an [*AuthService]: whether its database handle
    and its state store are set, and its limits. A nil receiver is [None]. *)
Record AuthService := mkAuthService {
  as_db : bool;
  as_stateStore : bool;
  as_loginRateLimit : LoginRateLimit;
}.

Definition NewAuthServiceWithState (db stateStore : bool) (limit : LoginRateLimit)
    : option AuthService :=
  (** a nil store is replaced by a new memory store *)
  Some (mkAuthService db true limit).

Definition NewAuthService (db : bool) : option AuthService :=
  NewAuthServiceWithState db true (mkLoginRateLimit 5 20 (15 * Minute)).

Definition authStateUnavailable (message : string) (cause : option error) : error :=
  Wrap StatusServiceUnavailable CodeAuthStateUnavailable message cause.

(** [apperror.Wrap(500, response.CodeRefreshTokenInvalid, message, err)] *)
Definition refreshStorageError (message : string) (cause : error) : error :=
  Wrap StatusInternalServerError CodeRefreshTokenInvalid message (Some cause).

Definition ensureDB (s : option AuthService) : res unit :=
  match s with
  | Some s => if as_db s then Ok tt else Err ErrDatabaseNotInitialized
  | None => Err ErrDatabaseNotInitialized
  end.

Definition ensureRateLimiter (s : option AuthService) : res LoginRateLimit :=
  match s with
  | Some (mkAuthService _ true l) =>
    if (AccountLimit l <=? 0) || (IPLimit l <=? 0) || (Window l <=? 0)
    then Err (authStateUnavailable "登录限流未初始化" None) else Ok l
  | _ => Err (authStateUnavailable "登录限流未初始化" None)
  end.

(** [unicode.ToLower] beyond ASCII is a table of the Unicode database. *)
Class UnicodeTables := { unicode_to_lower : Z -> Z }.

Definition normalizeAccount `{UnicodeTables} (account : string) : string :=
  ToLower unicode_to_lower (TrimSpace account).

Section service.
Context {STO : Storage} {G : Gorm} {SS : Store} {E : Env} {UT : UnicodeTables}.
Context {US : AuthUserStore} {RR : RefreshTokenRepository}.

(** [if err := s.ensureDB(); err != nil { return err }] *)
Definition requireDB (s : option AuthService) : M unit := of_res (ensureDB s).

Definition StoreRefreshToken (s : option AuthService) (token : option RefreshToken) : M unit :=
  do! requireDB s in
  match token with
  | None => fail ErrRefreshTokenInvalid
  | Some token =>
    when! (t_UserID token <=? 0) || String.eqb (t_JTI token) "" || String.eqb (t_FamilyID token) ""
          || String.eqb (t_TokenHash token) ""
      return! fail ErrRefreshTokenInvalid in
    do! map_err (refreshStorageError "保存 refresh token 失败") (on_db (rt_Create token)) in
    ret tt
  end.

(** A revoked token store that is not set is a nil interface: calling it panics. *)
Definition with_stateStore (s : option AuthService) {A} (m : ST error St A) : M A :=
  match s with
  | Some (mkAuthService _ true _) => on_store m
  | _ => panic
  end.

Definition ValidateAccessToken (s : option AuthService) (claims : option UserClaims) : M unit :=
  do! requireDB s in
  match claims with
  | None => fail ErrAccessSessionInvalid
  | Some claims =>
    when! (c_UserID claims <=? 0) || (c_AuthVersion claims <=? 0)
          || String.eqb (TrimSpace (c_JTI claims)) ""
      return! fail ErrAccessSessionInvalid in
    let! found := attempt (on_db (aus_GetUserByID (c_UserID claims))) in
    match found with
    | inl err =>
      when! is_not_found err return! fail ErrAccessSessionInvalid in
      fail (authStateUnavailable "读取用户认证状态失败" (Some err))
    | inr user =>
      when! negb (u_Status user =? UserStatusActive)
            || negb (u_AuthVersion user =? c_AuthVersion claims)
        return! fail ErrAccessSessionInvalid in
      let! now := Now in
      let! revoked :=
        map_err (fun err => authStateUnavailable "读取 access token 吊销状态失败" (Some err))
          (with_stateStore s (st_IsAccessTokenRevoked now (c_JTI claims))) in
      when! revoked return! fail ErrAccessSessionInvalid in
      ret tt
    end
  end.

(** The body of the transaction of [RotateRefreshToken]; its value is the
    variable [replayDetected]. *)
Definition rotateInTx (userID authVersion : Z) (oldJTI oldHash : string) (next : RefreshToken)
    : M bool :=
  let! found := attempt (on_db (aus_GetUserByIDForUpdate userID)) in
  match found with
  | inl err =>
    when! is_not_found err return! fail ErrRefreshTokenInvalid in
    fail (authStateUnavailable "读取用户认证状态失败" (Some err))
  | inr user =>
    when! negb (u_Status user =? UserStatusActive) || negb (u_AuthVersion user =? authVersion)
      return! fail ErrRefreshTokenInvalid in
    let! found := attempt (on_db (rt_FindByJTIForUpdate oldJTI)) in
    match found with
    | inl err =>
      when! is_not_found err return! fail ErrRefreshTokenInvalid in
      fail (refreshStorageError "读取 refresh token 失败" err)
    | inr current =>
      when! negb (t_UserID current =? userID) || negb (String.eqb (t_TokenHash current) oldHash)
        return! fail ErrRefreshTokenInvalid in
      match t_RevokedAt current with
      | Some _ =>
        if bool_decide (t_RevokedReason current = Some ReasonRotated)
           && negb (String.eqb (t_FamilyID current) "")
        then
          let! now := Now in
          do! map_err (refreshStorageError "吊销 refresh token family 失败")
            (on_db (rt_RevokeFamily userID (t_FamilyID current) now ReasonReplay)) in
          ret true
        else fail ErrRefreshTokenRevoked
      | None =>
        let! now := Now in
        when! negb (time_after (t_ExpiresAt current) now) return! fail ErrRefreshTokenExpired in
        let family := if String.eqb (t_FamilyID current) "" then t_JTI current
                      else t_FamilyID current in
        let! next := map_err (refreshStorageError "创建新 refresh token 失败")
          (on_db (rt_Create (set_owner userID family next))) in
        let! now := Now in
        do! map_err (refreshStorageError "吊销旧 refresh token 失败")
          (on_db (rt_RevokeByJTI oldJTI now ReasonRotated (Some (t_JTI next)))) in
        ret false
      end
    end
  end.

Definition RotateRefreshToken (s : option AuthService) (userID authVersion : Z)
    (oldJTI oldHash : string) (next : option RefreshToken) : M unit :=
  do! requireDB s in
  when! (userID <=? 0) || (authVersion <=? 0) || String.eqb oldJTI "" || String.eqb oldHash ""
    return! fail ErrRefreshTokenInvalid in
  match next with
  | None => fail ErrRefreshTokenInvalid
  | Some next =>
    when! String.eqb (t_JTI next) "" || String.eqb (t_TokenHash next) ""
      return! fail ErrRefreshTokenInvalid in
    let! now := Now in
    when! negb (time_after (t_ExpiresAt next) now) return! fail ErrRefreshTokenInvalid in
    let! replayDetected := Transaction (rotateInTx userID authVersion oldJTI oldHash next) in
    when! replayDetected return! fail ErrRefreshTokenReplay in
    ret tt
  end.

Definition revokeInTx (userID : Z) (jti tokenHash : string) : M unit :=
  let! found := attempt (on_db (rt_FindByJTIForUpdate jti)) in
  match found with
  | inl err =>
    when! is_not_found err return! fail ErrRefreshTokenInvalid in
    fail (refreshStorageError "读取 refresh token 失败" err)
  | inr current =>
    when! negb (t_UserID current =? userID) || negb (String.eqb (t_TokenHash current) tokenHash)
      return! fail ErrRefreshTokenInvalid in
    match t_RevokedAt current with
    | Some _ => ret tt
    | None =>
      let! now := Now in
      do! map_err (refreshStorageError "吊销 refresh token 失败")
        (on_db (rt_RevokeByJTI jti now ReasonLogout None)) in
      ret tt
    end
  end.

Definition RevokeRefreshToken (s : option AuthService) (userID : Z) (jti tokenHash : string)
    : M unit :=
  do! requireDB s in
  when! (userID <=? 0) || String.eqb jti "" || String.eqb tokenHash ""
    return! fail ErrRefreshTokenInvalid in
  Transaction (revokeInTx userID jti tokenHash).

Definition RevokeAccessToken (s : option AuthService) (jti : string) (expiresAt : Z) : M unit :=
  when! String.eqb (TrimSpace jti) "" return! fail ErrAccessSessionInvalid in
  match s with
  | Some (mkAuthService _ true _) =>
    let! now := Now in
    let ttl := time_sub expiresAt now in
    when! ttl <=? 0 return! ret tt in
    let! storeNow := Now in
    map_err (fun err => authStateUnavailable "吊销 access token 失败" (Some err))
      (on_store (st_RevokeAccessToken storeNow jti ttl))
  | _ => fail (authStateUnavailable "认证状态存储未初始化" None)
  end.

Definition RevokeAllRefreshTokens (s : option AuthService) (userID : Z) : M unit :=
  do! requireDB s in
  when! userID <=? 0 return! fail ErrInvalidUserID in
  let! now := Now in
  map_err (refreshStorageError "吊销用户 refresh token 失败")
    (on_db (rt_RevokeAllByUserID userID now ReasonPasswordChange)).

Definition CheckLoginAllowed (s : option AuthService) (account ip : string) : M Z :=
  let! limit := of_res (ensureRateLimiter s) in
  let! now := Now in
  map_err (fun err => authStateUnavailable "读取登录限流状态失败" (Some err))
    (on_store (st_CheckLoginLimit now (normalizeAccount account) (TrimSpace ip)
                 (AccountLimit limit) (IPLimit limit) (Window limit))).

Definition RecordLoginFailure (s : option AuthService) (account ip : string) : M Z :=
  let! limit := of_res (ensureRateLimiter s) in
  let! now := Now in
  map_err (fun err => authStateUnavailable "记录登录失败次数失败" (Some err))
    (on_store (st_RecordLoginFailure now (normalizeAccount account) (TrimSpace ip)
                 (AccountLimit limit) (IPLimit limit) (Window limit))).

Definition ResetLoginFailures (s : option AuthService) (account : string) : M unit :=
  do! of_res (ensureRateLimiter s) in
  map_err (fun err => authStateUnavailable "清理登录失败次数失败" (Some err))
    (on_store (st_ResetLoginAccount (normalizeAccount account))).

End service.
