(* ===== verification/UserService.v ===== *)
(** The account service (src/internal/service/user.go) and the creation of
    the first administrator (src/internal/service/bootstrap.go).

    The password hash (golang.org/x/crypto/bcrypt) is given by the class
    [Bcrypt]; a salt is one reading of the source of randomness. *)
From S2P Require Import Prelude GoTime GoStrings GoErrors Model Gorm AuthState World.
From S2P Require Import Dao RefreshRepo RbacRepo.

(** * Requests (src/internal/request/users.go) *)

Record RegisterRequest := mkRegisterRequest { reg_Username : string; reg_Password : string }.
Record LoginRequest := mkLoginRequest { login_Username : string; login_Password : string }.
Record UpdatePasswordRequest := mkUpdatePasswordRequest { OldPassword : string; NewPassword : string }.

(** * Passwords *)

Definition MinPasswordCharacters : Z := 12.
Definition MaxPasswordBytes : Z := 72.

Definition dummyPasswordHash : string :=
  "$2a$10$N9qo8uLOickgx2ZMRZoMyeIjZAgcfl7p92ldGxad68LJZdL17lhWy".

Definition validatePassword (password : string) : res unit :=
  if (RuneCountInString password <? MinPasswordCharacters) || (MaxPasswordBytes <? len password)
  then Err ErrPasswordTooShortOrTooLong else Ok tt.

(** [bcrypt_matches hash password]: [CompareHashAndPassword] returns nil. *)
Class Bcrypt := {
  bcrypt_generate : nat -> string -> res string;
  bcrypt_matches : string -> string -> bool;
}.

Class BcryptLaws {B : Bcrypt} : Prop := {
  (** A password of at most 72 bytes hashes, or the salt cannot be read. *)
  bcrypt_generate_law : forall salt pw,
    match bcrypt_generate salt pw with
    | Ok h => bcrypt_matches h pw = true
    | Err e => library_error e
    | Panic => False
    end;
}.

(** * The service *)

(** Whether the database handle and the two repositories are set. A nil
    receiver is [None]. *)
Record UserService := mkUserService {
  usr_db : bool;
  usr_refreshRepo : bool;
  usr_rbacRepo : bool;
}.

Definition NewUserService (db : bool) : option UserService := Some (mkUserService db true true).

Definition usr_ensureDB (s : option UserService) : res unit :=
  match s with
  | Some s => if usr_db s then Ok tt else Err ErrDatabaseNotInitialized
  | None => Err ErrDatabaseNotInitialized
  end.

(** [s.rbacRepo] and [s.refreshRepo]; the methods read them only after the
    receiver was found not nil. *)
Definition has_rbacRepo (s : option UserService) : bool :=
  match s with Some s => usr_rbacRepo s | None => false end.
Definition has_refreshRepo (s : option UserService) : bool :=
  match s with Some s => usr_refreshRepo s | None => false end.

Definition new_user (username hash : string) : User :=
  mkUser 0 username hash username UserStatusActive 0 ZeroTime ZeroTime None None.

(** [apperror.Wrap(500, code, message, err)] *)
Definition internalError (code : Z) (message : string) (cause : error) : error :=
  Wrap StatusInternalServerError code message (Some cause).

Section service.
Context {STO : Storage} {G : Gorm} {SS : Store} {E : Env} {B : Bcrypt}.
Context {US : UserStore} {RR : RefreshTokenRepository} {RB : RBACRepository}.

(** [bcrypt.GenerateFromPassword([]byte(password), bcrypt.DefaultCost)] *)
Definition GenerateFromPassword (password : string) : M string :=
  let! salt := Rand in of_res (bcrypt_generate salt password).

Definition registerFailed : error -> error := internalError CodeRegisterFailed "注册失败".

Definition createWithRole (user : User) : M unit :=
  let! user := on_db (us_CreateUser user) in
  rb_AssignRoleToUserByCode (u_ID user) RoleCodeUser.

Definition Register (s : option UserService) (req : RegisterRequest) : M unit :=
  let username := TrimSpace (reg_Username req) in
  when! len username <? 3 return! fail ErrUsernameTooShort in
  do! of_res (validatePassword (reg_Password req)) in
  do! of_res (usr_ensureDB s) in
  let! found := attempt (on_db (us_GetUserByUsername username)) in
  match found with
  | inr _ => fail ErrUsernameAlreadyExists
  | inl err =>
    when! negb (is_not_found err) return! fail (registerFailed err) in
    let! hash := map_err registerFailed (GenerateFromPassword (reg_Password req)) in
    let user := new_user username hash in
    when! negb (has_rbacRepo s)
      return! (do! map_err registerFailed (on_db (us_CreateUser user)) in ret tt) in
    map_err registerFailed (Transaction (createWithRole user))
  end.

Definition loginFailed : error -> error := internalError CodeLoginFailed "登录错误".

Definition Login (s : option UserService) (req : LoginRequest) : M User :=
  let username := TrimSpace (login_Username req) in
  do! of_res (usr_ensureDB s) in
  let! found := attempt (on_db (us_GetUserByUsername username)) in
  match found with
  | inl err =>
    when! is_not_found err
      return! (let _ := bcrypt_matches dummyPasswordHash (login_Password req) in
               fail ErrInvalidCredentials) in
    fail (loginFailed err)
  | inr user =>
    when! negb (bcrypt_matches (u_PasswordHash user) (login_Password req))
      return! fail ErrInvalidCredentials in
    when! negb (u_Status user =? UserStatusActive) return! fail ErrInvalidCredentials in
    let! lastLoginAt := Now in
    do! map_err loginFailed (on_db (us_UpdateLastLoginAtByID (u_ID user) lastLoginAt)) in
    ret (set_last_login lastLoginAt user)
  end.

Definition GetProfile (s : option UserService) (userID : Z) : M User :=
  when! userID <=? 0 return! fail ErrInvalidUserID in
  do! of_res (usr_ensureDB s) in
  let! found := attempt (on_db (us_GetUserByID userID)) in
  match found with
  | inl err =>
    when! is_not_found err return! fail ErrUserNotFound in
    fail (internalError CodeGetProfileFailed "获取用户信息失败" err)
  | inr user =>
    when! negb (u_Status user =? UserStatusActive) return! fail ErrUserDisabled in
    ret user
  end.

Definition nicknameFailed : error -> error := internalError CodeUpdateNicknameFailed "更改昵称失败".

Definition UpdateNickname (s : option UserService) (userID : Z) (nickname : string) : M unit :=
  when! userID <=? 0 return! fail ErrInvalidUserID in
  let nickname := TrimSpace nickname in
  when! String.eqb nickname "" return! fail ErrNicknameEmpty in
  when! 64 <? len nickname return! fail ErrNicknameTooLong in
  do! of_res (usr_ensureDB s) in
  let! found := attempt (on_db (us_GetUserByID userID)) in
  match found with
  | inl err =>
    when! is_not_found err return! fail ErrUserNotFound in
    fail (nicknameFailed err)
  | inr user =>
    when! String.eqb (u_Nickname user) nickname return! ret tt in
    when! negb (u_Status user =? UserStatusActive) return! fail ErrUserDisabled in
    map_err nicknameFailed (on_db (us_UpdateNicknameByID userID nickname))
  end.

Definition passwordFailed : error -> error :=
  internalError CodeUpdateUserPasswordFailed "修改密码失败".

Definition updatePasswordInTx (s : option UserService) (userID : Z) (req : UpdatePasswordRequest)
    : M unit :=
  let! user := map_err (fun _ => ErrUserNotFound) (on_db (us_GetUserByIDForUpdate userID)) in
  when! negb (bcrypt_matches (u_PasswordHash user) (OldPassword req))
    return! fail ErrUserEnteredTheOldPasswordIncorrectly in
  do! of_res (validatePassword (NewPassword req)) in
  let! passwordHash :=
    map_err (fun _ => ErrInvalidCredentials) (GenerateFromPassword (NewPassword req)) in
  do! map_err passwordFailed
    (on_db (us_UpdateUserPasswordByUserID userID (u_PasswordHash user) passwordHash)) in
  when! negb (has_refreshRepo s) return! ret tt in
  let! now := Now in
  map_err passwordFailed (on_db (rt_RevokeAllByUserID userID now ReasonPasswordChange)).

Definition UpdateUserPassword (s : option UserService) (userID : Z) (req : UpdatePasswordRequest)
    : M unit :=
  when! userID <=? 0 return! fail ErrInvalidUserID in
  do! of_res (usr_ensureDB s) in
  when! String.eqb (OldPassword req) (NewPassword req) return! fail ErrUserPasswordNoDifference in
  Transaction (updatePasswordInTx s userID req).

(** * bootstrap.go *)

Definition bootstrapInTx (username hash : string) : M unit :=
  let! adminRole :=
    map_err (fun err => if is_not_found err then ErrRBACNotInitialized
                        else Errorf "lock administrator role" err)
      (on_db (gFirst true TRoles (fun r => coll_eqb (r_Code r) RoleCodeAdmin))) in
  let! adminCount := map_err (Errorf "count administrators")
    (on_db (gCount TUserRoles (fun ur => ur_RoleID ur =? r_ID adminRole))) in
  when! 0 <? adminCount return! fail ErrAdminAlreadyBootstrapped in
  let! found := attempt (on_db (us_GetUserByUsername username)) in
  match found with
  | inr _ => fail ErrUsernameAlreadyExists
  | inl err =>
    when! negb (is_not_found err) return! fail (Errorf "check administrator username" err) in
    let! user := map_err (Errorf "create administrator")
      (on_db (us_CreateUser (new_user username hash))) in
    do! map_err (fun err => if errors_Is err "repository.ErrRoleNotFound"
                            then ErrRBACNotInitialized else Errorf "assign user role" err)
      (rb_AssignRoleToUserByCode (u_ID user) RoleCodeUser) in
    map_err (Errorf "assign administrator role")
      (rb_AssignRoleToUserByCode (u_ID user) RoleCodeAdmin)
  end.

Definition BootstrapAdmin (s : option UserService) (req : RegisterRequest) : M unit :=
  let username := TrimSpace (reg_Username req) in
  when! len username <? 3 return! fail ErrUsernameTooShort in
  do! of_res (validatePassword (reg_Password req)) in
  do! of_res (usr_ensureDB s) in
  when! negb (has_rbacRepo s) return! fail ErrRBACNotInitialized in
  let! hash := map_err (Errorf "hash administrator password")
    (GenerateFromPassword (reg_Password req)) in
  Transaction (bootstrapInTx username hash).

End service.
