(* ===== verification/RbacService.v ===== *)
(** The authorization service (src/internal/service/rbac.go). *)
From S2P Require Import Prelude GoTime GoStrings GoErrors Model Gorm AuthState World RbacRepo.

(** Whether the database handle is set; a nil receiver is [None]. *)
Record RBACService := mkRBACService { rbs_db : bool }.

Definition NewRBACService (db : bool) : option RBACService := Some (mkRBACService db).

Definition rbs_ensureDB (s : option RBACService) : res unit :=
  match s with
  | Some s => if rbs_db s then Ok tt else Err ErrDatabaseNotInitialized
  | None => Err ErrDatabaseNotInitialized
  end.

(** [apperror.Wrap(500, response.CodeRBACFailed, message, err)] *)
Definition rbacFailed (message : string) (cause : error) : error :=
  Wrap StatusInternalServerError CodeRBACFailed message (Some cause).

(** The loop of [AssignRolesToUser]: trims the codes, refuses an empty one,
    and drops the ones seen before. *)
Fixpoint normalizeRoleCodes (seen : gset string) (roleCodes : list string) : res (list string) :=
  match roleCodes with
  | [] => Ok []
  | roleCode :: rest =>
    let roleCode := TrimSpace roleCode in
    when! String.eqb roleCode "" return! Err ErrRoleNotFound in
    when! bool_decide (roleCode ∈ seen) return! normalizeRoleCodes seen rest in
    match normalizeRoleCodes ({[roleCode]} ∪ seen) rest with
    | Ok codes => Ok (roleCode :: codes)
    | Err e => Err e
    | Panic => Panic
    end
  end.

Section service.
Context {STO : Storage} {G : Gorm} {SS : Store} {E : Env} {RB : RBACRepository}.

Definition HasPermission (s : option RBACService) (userID : Z) (permissionCode : string) : M bool :=
  when! (userID <=? 0) || String.eqb (TrimSpace permissionCode) ""
    return! fail ErrPermissionDenied in
  do! of_res (rbs_ensureDB s) in
  map_err (rbacFailed "权限校验失败") (rb_UserHasPermission userID permissionCode).

Definition ListRoles (s : option RBACService) : M (list Role) :=
  do! of_res (rbs_ensureDB s) in
  map_err (rbacFailed "读取角色列表失败") rb_ListRoles.

Definition ListPermissions (s : option RBACService) : M (list Permission) :=
  do! of_res (rbs_ensureDB s) in
  map_err (rbacFailed "读取权限列表失败") rb_ListPermissions.

Definition GetUserAuthorization (s : option RBACService) (userID : Z)
    : M (list string * list string) :=
  when! userID <=? 0 return! fail ErrInvalidUserID in
  do! of_res (rbs_ensureDB s) in
  let! roleCodes := map_err (rbacFailed "读取用户角色失败") (rb_ListUserRoleCodes userID) in
  let! permissionCodes :=
    map_err (rbacFailed "读取用户权限失败") (rb_ListUserPermissionCodes userID) in
  ret (roleCodes, permissionCodes).

Definition AssignRolesToUser (s : option RBACService) (userID : Z) (roleCodes : list string)
    : M unit :=
  when! userID <=? 0 return! fail ErrInvalidUserID in
  when! bool_decide (roleCodes = []) return! fail ErrRoleNotFound in
  do! of_res (rbs_ensureDB s) in
  let! normalizedRoleCodes := of_res (normalizeRoleCodes ∅ roleCodes) in
  map_err (fun err => if errors_Is err "repository.ErrRoleNotFound" then ErrRoleNotFound
                      else rbacFailed "分配用户角色失败" err)
    (Transaction (rb_ReplaceUserRolesByCodes userID normalizedRoleCodes)).

End service.
