(* ===== verification/Web.v ===== *)
(** HTTP as the handlers see it (gin): the request, the context with what was
    written and stored in it, and the envelope of the responses
    (src/internal/response).

    A handler runs on the context and the world and returns nothing; it can
    only end or panic. Of the logs only the access log is kept. *)
From S2P Require Import Prelude GoTime GoStrings GoErrors Model Gorm AuthState World.
From S2P Require Import UserService.

(** * Requests *)

Record Request := mkRequest {
  rq_Method : string;
  (** [r.URL.Path] *)
  rq_Path : string;
  (** whether the context of the request carries a [routeState] (metrics.go) *)
  rq_RouteState : bool;
  rq_Header : string -> string;
  rq_Cookie : string -> option string;
  rq_Param : string -> string;
  rq_ClientIP : string;
  rq_Body : string;
}.

(** The requests of src/internal/request/users.go the services do not take. *)
Record UpdateProfileRequest := mkUpdateProfileRequest { upr_Nickname : string }.
Record RefreshTokenRequest := mkRefreshTokenRequest { rtr_RefreshToken : string }.
Record LogoutRequest := mkLogoutRequest { lor_RefreshToken : string }.
Record AssignUserRolesRequest := mkAssignUserRolesRequest { RoleCodes : list string }.

(** [c.ShouldBindJSON]: gin decodes and validates the body. *)
Class JSONBinding := {
  bind_register : string -> error + RegisterRequest;
  bind_login : string -> error + LoginRequest;
  bind_profile : string -> error + UpdateProfileRequest;
  bind_password : string -> error + UpdatePasswordRequest;
  bind_refresh : string -> error + RefreshTokenRequest;
  bind_logout : string -> error + LogoutRequest;
  bind_roles : string -> error + AssignUserRolesRequest;
}.

(** * Responses (src/internal/response) *)

Record UserInfoResponse := mkUserInfo {
  ui_ID : Z;
  ui_Username : string;
  ui_Nickname : string;
  ui_Status : Z;
  ui_LastLoginAt : option Z;
}.

Record TokenAndUserInfoResponse := mkTokenAndUserInfo {
  tu_AccessToken : string;
  tu_AccessTokenExpiresIn : Z;
  tu_RefreshTokenExpiresIn : Z;
  tu_User : UserInfoResponse;
}.

Record TokenPairResponse := mkTokenPair {
  tp_AccessToken : string;
  tp_AccessTokenExpiresIn : Z;
  tp_RefreshTokenExpiresIn : Z;
}.

Record AuthorizationInfoResponse := mkAuthorizationInfo {
  ai_RoleCodes : list string;
  ai_PermissionCodes : list string;
}.

Record RoleResponse := mkRoleResponse { rr_ID : Z; rr_Code : string; rr_Name : string }.

Record PermissionResponse := mkPermissionResponse {
  pr_ID : Z;
  pr_Code : string;
  pr_Name : string;
  pr_Method : string;
  pr_Path : string;
}.

(** [buildinfo.Info] (src/internal/buildinfo/info.go); the linker may set the
    three values. *)
Record Info := mkInfo { Version : string; Commit : string; BuildTime : string }.
Definition default_build : Info := mkInfo "dev" "unknown" "unknown".

(** The field [Data] of the envelope. *)
Inductive data :=
| NoData
| DataUser (u : UserInfoResponse)
| DataLogin (t : TokenAndUserInfoResponse)
| DataTokens (t : TokenPairResponse)
| DataAuthorization (a : AuthorizationInfoResponse)
| DataRoles (l : list RoleResponse)
| DataPermissions (l : list PermissionResponse)
| DataFields (l : list (string * string))
| DataBuild (b : Info).

Record Response := mkResponse { resp_Code : Z; resp_Msg : string; resp_Data : data }.

Inductive SameSite := SameSiteLaxMode.

Record Cookie := mkCookie {
  ck_Name : string;
  ck_Value : string;
  ck_Path : string;
  ck_Expires : Z;
  ck_MaxAge : Z;
  ck_HttpOnly : bool;
  ck_Secure : bool;
  ck_SameSite : SameSite;
}.

(** * The context *)

(** What [c.Set] stores under a key. *)
Inductive value := VInt64 (z : Z) | VString (s : string).

(** A line of the access log (access_log_middleware.go), without the size of
    the body. *)
Inductive LogLevel := LevelInfo | LevelWarn | LevelError.

Record LogEntry := mkLogEntry {
  le_Level : LogLevel;
  le_RequestID : string;
  le_Method : string;
  le_Path : string;
  le_Router : string;
  le_Status : Z;
  le_Latency : Z;
  le_ClientIP : string;
}.

(** The label of a route before the router has found one. *)
Definition unmatchedRoute : string := "unmatched".

Record Context := mkContext {
  cx_Request : Request;
  cx_Keys : gmap string value;
  cx_Headers : list (string * string);
  cx_Cookies : list Cookie;
  (** every call of [c.JSON], first to last; the first sets the status *)
  cx_Writes : list (Z * Response);
  cx_Aborted : bool;
  (** every call of [SetReady] on the readiness recorder *)
  cx_Ready : list bool;
  (** the value of the [routeState], if there is one *)
  cx_Route : option string;
  (** the lines of the access log *)
  cx_Log : list LogEntry;
}.

Definition new_context (rq : Request) : Context :=
  mkContext rq ∅ [] [] [] false []
    (if rq_RouteState rq then Some unmatchedRoute else None) [].

Definition add_write (x : Z * Response) (c : Context) : Context :=
  mkContext (cx_Request c) (cx_Keys c) (cx_Headers c) (cx_Cookies c) (cx_Writes c ++ [x])
    (cx_Aborted c) (cx_Ready c) (cx_Route c) (cx_Log c).
Definition set_aborted (c : Context) : Context :=
  mkContext (cx_Request c) (cx_Keys c) (cx_Headers c) (cx_Cookies c) (cx_Writes c)
    true (cx_Ready c) (cx_Route c) (cx_Log c).
Definition set_key (k : string) (v : value) (c : Context) : Context :=
  mkContext (cx_Request c) (<[k := v]> (cx_Keys c)) (cx_Headers c) (cx_Cookies c) (cx_Writes c)
    (cx_Aborted c) (cx_Ready c) (cx_Route c) (cx_Log c).
Definition add_header (kv : string * string) (c : Context) : Context :=
  mkContext (cx_Request c) (cx_Keys c) (cx_Headers c ++ [kv]) (cx_Cookies c) (cx_Writes c)
    (cx_Aborted c) (cx_Ready c) (cx_Route c) (cx_Log c).
Definition add_cookie (ck : Cookie) (c : Context) : Context :=
  mkContext (cx_Request c) (cx_Keys c) (cx_Headers c) (cx_Cookies c ++ [ck]) (cx_Writes c)
    (cx_Aborted c) (cx_Ready c) (cx_Route c) (cx_Log c).
Definition add_ready (b : bool) (c : Context) : Context :=
  mkContext (cx_Request c) (cx_Keys c) (cx_Headers c) (cx_Cookies c) (cx_Writes c)
    (cx_Aborted c) (cx_Ready c ++ [b]) (cx_Route c) (cx_Log c).
Definition set_route (r : string) (c : Context) : Context :=
  mkContext (cx_Request c) (cx_Keys c) (cx_Headers c) (cx_Cookies c) (cx_Writes c)
    (cx_Aborted c) (cx_Ready c) (Some r) (cx_Log c).
Definition add_log (l : LogEntry) (c : Context) : Context :=
  mkContext (cx_Request c) (cx_Keys c) (cx_Headers c) (cx_Cookies c) (cx_Writes c)
    (cx_Aborted c) (cx_Ready c) (cx_Route c) (cx_Log c ++ [l]).

(** [c.Writer.Status()] *)
Definition cx_Status (c : Context) : Z :=
  match cx_Writes c with (status, _) :: _ => status | [] => 200 end.

Section web.
Context {G : Gorm} {SS : Store}.

(** The monad of the handlers. *)
Definition H (A : Type) : Type := ST Empty_set (Context * World) A.

(** A call of a service: [v, err := f(...)]. *)
Definition call {A} (m : M A) : H (error + A) := fun '(c, w) =>
  match m w with
  | (Ok a, w') => (Ok (inr a), (c, w'))
  | (Err e, w') => (Ok (inl e), (c, w'))
  | (Panic, w') => (Panic, (c, w'))
  end.

Definition on_context (f : Context -> Context) : H unit := modify (fun '(c, w) => (f c, w)).
Definition request : H Request := gets (fun '(c, w) => cx_Request c).

Definition c_JSON (status : Z) (r : Response) : H unit := on_context (add_write (status, r)).
Definition c_Abort : H unit := on_context set_aborted.
Definition c_Set (k : string) (v : value) : H unit := on_context (set_key k v).
Definition c_Get (k : string) : H (option value) := gets (fun '(c, w) => cx_Keys c !! k).
Definition c_Header (k v : string) : H unit := on_context (add_header (k, v)).
Definition SetCookie (ck : Cookie) : H unit := on_context (add_cookie ck).
Definition SetReady (ready : bool) : H unit := on_context (add_ready ready).

(** * response.go *)

Definition Success (d : data) : H unit := c_JSON StatusOK (mkResponse 0 "success" d).
Definition Fail (httpStatus code : Z) (msg : string) : H unit :=
  c_JSON httpStatus (mkResponse code msg NoData).

(** * error_handler.go, without its log *)

Definition handleError (err : error) (fallbackCode : Z) (fallbackMessage : string) : H unit :=
  match FromError err with
  | Some appErr => Fail (HTTPStatus appErr) (Code appErr) (Message appErr)
  | None => Fail StatusInternalServerError fallbackCode fallbackMessage
  end.

End web.
