(* ===== verification/Metrics.v ===== *)
(** The metrics of the HTTP interface (src/internal/observability/metrics.go),
    and an [http.Handler] as net/http runs it.

    The Prometheus client is a library. What the program does with it shows
    as the sequence of its calls ([metric_call]); what a gauge or a counter
    stands at is a count over that sequence. A handler shows as what it did to
    the [http.ResponseWriter] it was given. *)
From S2P Require Import Prelude GoTime GoStrings GoErrors Model Gorm AuthState World Web.

(** * Calls *)

(** [WriteHeader] and [Write] of an [http.ResponseWriter]. *)
Inductive rw_call := WriteHeader (status : Z) | Write (body : string).

(** The calls on the metrics: requests_in_flight, requests_total,
    request_duration_seconds (here in nanoseconds) and readiness. *)
Inductive metric_call :=
| InFlightInc (method : string)
| InFlightDec (method : string)
| RequestsInc (method route status : string)
| DurationObserve (method route : string) (duration : Z)
| ReadinessSet (v : Z).

(** [SetReady] *)
Definition ready_call (ready : bool) : metric_call := ReadinessSet (if ready then 1 else 0).

Definition standardMethods : list string :=
  ["CONNECT"; "DELETE"; "GET"; "HEAD"; "OPTIONS"; "PATCH"; "POST"; "PUT"; "TRACE"].

Definition metricMethod (method : string) : string :=
  if bool_decide (method ∈ standardMethods) then method else "OTHER".

(** * statusRecorder *)

Record statusRecorder := mkStatusRecorder {
  sr_status : Z;
  sr_wroteHeader : bool;
  (** the calls on the writer it wraps *)
  sr_forwarded : list rw_call;
}.

Definition new_recorder : statusRecorder := mkStatusRecorder StatusOK false [].

Definition recorder_WriteHeader (status : Z) (w : statusRecorder) : statusRecorder :=
  if sr_wroteHeader w then w
  else mkStatusRecorder status true (sr_forwarded w ++ [WriteHeader status]).

Definition recorder_Write (body : string) (w : statusRecorder) : statusRecorder :=
  let w := if negb (sr_wroteHeader w) then recorder_WriteHeader StatusOK w else w in
  mkStatusRecorder (sr_status w) (sr_wroteHeader w) (sr_forwarded w ++ [Write body]).

Definition recorder_call (w : statusRecorder) (c : rw_call) : statusRecorder :=
  match c with
  | WriteHeader status => recorder_WriteHeader status w
  | Write body => recorder_Write body w
  end.

Definition recorder_run (calls : list rw_call) : statusRecorder :=
  fold_left recorder_call calls new_recorder.

(** The status net/http sends: that of the first call of [WriteHeader], 200
    when [Write] comes first or nothing is written. A status from 100 to 199
    except 101 is sent as an informational response and does not end the
    search. *)
Definition informational (status : Z) : bool := (100 <=? status) && (status <=? 199) && negb (status =? 101).

Fixpoint sent_status (calls : list rw_call) : Z :=
  match calls with
  | [] => StatusOK
  | WriteHeader status :: rest => if informational status then sent_status rest else status
  | Write _ :: _ => StatusOK
  end.

(** * Handlers *)

(** What a handler leaves of a request: the headers it set, its calls on the
    writer, the value of the [routeState], the calls on the metrics and the
    lines of the access log. *)
Record Exchange := mkExchange {
  ex_Header : gmap string string;
  ex_Cookies : list Cookie;
  ex_Calls : list rw_call;
  ex_Route : option string;
  ex_Metrics : list metric_call;
  ex_Log : list LogEntry;
}.

Definition new_exchange : Exchange := mkExchange ∅ [] [] None [] [].

Definition with_calls (l : list rw_call) (x : Exchange) : Exchange :=
  mkExchange (ex_Header x) (ex_Cookies x) l (ex_Route x) (ex_Metrics x) (ex_Log x).
Definition with_route (r : option string) (x : Exchange) : Exchange :=
  mkExchange (ex_Header x) (ex_Cookies x) (ex_Calls x) r (ex_Metrics x) (ex_Log x).
Definition add_metric (m : metric_call) (x : Exchange) : Exchange :=
  mkExchange (ex_Header x) (ex_Cookies x) (ex_Calls x) (ex_Route x) (ex_Metrics x ++ [m]) (ex_Log x).
Definition put_header (k v : string) (x : Exchange) : Exchange :=
  mkExchange (<[k := v]> (ex_Header x)) (ex_Cookies x) (ex_Calls x) (ex_Route x) (ex_Metrics x)
    (ex_Log x).

(** [r.WithContext(context.WithValue(r.Context(), routeStateContextKey{}, state))] *)
Definition with_route_state (rq : Request) : Request :=
  mkRequest (rq_Method rq) (rq_Path rq) true (rq_Header rq) (rq_Cookie rq) (rq_Param rq)
    (rq_ClientIP rq) (rq_Body rq).

Section handlers.
Context {G : Gorm} {SS : Store} {E : Env}.

(** [func(w http.ResponseWriter, r *http.Request)] *)
Definition HT (A : Type) : Type := ST Empty_set (Exchange * World) A.
Definition http_Handler : Type := Request -> HT unit.

Definition on_exchange (f : Exchange -> Exchange) : HT unit := modify (fun '(x, w) => (f x, w)).
Definition metric (m : metric_call) : HT unit := on_exchange (add_metric m).

(** [time.Now()] in a handler. *)
Definition http_Now : HT Z := fun '(x, w) => (Ok (clock (w_tick w)), (x, tick w)).

(** [recorder := &statusRecorder{...}; next.ServeHTTP(recorder, r)] *)
Definition recording (next : HT unit) : HT statusRecorder := fun '(x, w) =>
  let '(r, (x', w')) := next (with_calls [] x, w) in
  let recorder := recorder_run (ex_Calls x') in
  (match r with Ok _ => Ok recorder | Err e => Err e | Panic => Panic end,
   (with_calls (ex_Calls x ++ sr_forwarded recorder) x', w')).

Definition HTTPHandler (next : http_Handler) : http_Handler := fun rq =>
  when! String.eqb (rq_Path rq) "/metrics" return! next rq in
  do! on_exchange (with_route (Some unmatchedRoute)) in
  let method := metricMethod (rq_Method rq) in
  let! started := http_Now in
  do! metric (InFlightInc method) in
  defer (metric (InFlightDec method))
    (let! recorder := recording (next (with_route_state rq)) in
     let! state := gets (fun '(x, w) => ex_Route x) in
     match state with
     | None => panic
     | Some route =>
       do! metric (RequestsInc method route (format_int (sr_status recorder))) in
       let! now := http_Now in
       metric (DurationObserve method route (time_sub now started))
     end).

(** [RouteMiddleware]; [fullPath] is [c.FullPath()]. *)
Definition RouteMiddleware (fullPath : string) : H unit := fun '(c, w) =>
  match cx_Route c with
  | Some _ =>
    let route := if String.eqb fullPath "" then unmatchedRoute else fullPath in
    (Ok tt, (set_route route c, w))
  | None => (Ok tt, (c, w))
  end.
End handlers.
