(* ===== verification/UserHandler.v ===== *)
(** The account and session endpoints (src/internal/handler/user_handler.go). *)
From S2P Require Import Prelude GoTime GoStrings Sha256 GoErrors Model Gorm AuthState World.
From S2P Require Import Dao RefreshRepo RbacRepo TokenManager AuthService UserService Web.

Definition refreshTokenCookieName : string := "refresh_token".
Definition refreshTokenCookiePath : string := "/api/v1/auth".

(** The services are the concrete ones behind the handler's interfaces; the
    session service may be a nil interface, and its pointer may be nil. *)
Record UserHandler := mkUserHandler {
  h_userService : option UserService;
  h_authSessionService : option (option AuthService);
  h_tokenManager : TokenManager;
  h_secureCookies : bool;
}.

Definition NewUserHandlerWithOptions (userService : option UserService) (tokenManager : TokenManager)
    (secureCookies : bool) (authSessionService : list (option AuthService)) : UserHandler :=
  mkUserHandler userService (head authSessionService) tokenManager secureCookies.

Definition NewUserHandler (userService : option UserService) (tokenManager : TokenManager)
    (authSessionService : list (option AuthService)) : UserHandler :=
  NewUserHandlerWithOptions userService tokenManager false authSessionService.

Definition accessTokenExpiresIn (h : UserHandler) : Z :=
  duration_seconds (AccessTokenTTL (h_tokenManager h)).

Definition refreshTokenModel (userID : Z) (issuedToken : IssuedToken) (tokenHash : string)
    : RefreshToken :=
  mkRefreshToken 0 userID (it_JTI issuedToken) (it_JTI issuedToken) tokenHash
    (it_ExpiresAt issuedToken) None None None ZeroTime ZeroTime.

Definition userInfo (user : User) : UserInfoResponse :=
  mkUserInfo (u_ID user) (u_Username user) (u_Nickname user) (u_Status user) (u_LastLoginAt user).

(** [seconds := int64((retryAfter + time.Second - 1) / time.Second)], at least 1 *)
Definition retryAfterSeconds (retryAfter : Z) : Z :=
  let seconds := quot64 (sub64 (add64 retryAfter Second) 1) Second in
  if seconds <? 1 then 1 else seconds.

(** [apperror.Wrap(500, CodeTokenGenerateFailed, msg, err)] *)
Definition tokenGenerateFailed (msg : string) (err : error) : error :=
  Wrap StatusInternalServerError CodeTokenGenerateFailed msg (Some err).

Section handlers.
Context {STO : Storage} {G : Gorm} {SS : Store} {E : Env} {UT : UnicodeTables} {J : JWT}.
Context {B : Bcrypt} {JB : JSONBinding}.
Context {US : UserStore} {AUS : AuthUserStore}.
Context {RR : RefreshTokenRepository} {RB : RBACRepository}.

Definition badRequest : H unit := Fail StatusBadRequest CodeInvalidParams "参数错误".

Definition RegisterHandler (h : UserHandler) : H unit :=
  let! rq := request in
  match bind_register (rq_Body rq) with
  | inr req =>
    let! r := call (Register (h_userService h) req) in
    match r with
    | inl err => handleError err CodeRegisterFailed "register failed"
    | inr _ => Success NoData
    end
  | inl _ => badRequest
  end.

(** The value says whether the request was answered. *)
Definition respondLoginRateLimited (retryAfter : Z) : H bool :=
  when! retryAfter <=? 0 return! ret false in
  do! c_Header "Retry-After" (format_int (retryAfterSeconds retryAfter)) in
  do! handleError ErrLoginRateLimited CodeLoginRateLimited "登录尝试过于频繁" in
  ret true.

Definition setRefreshTokenCookie (h : UserHandler) (issuedToken : IssuedToken) : H unit :=
  SetCookie (mkCookie refreshTokenCookieName (it_Token issuedToken) refreshTokenCookiePath
               (it_ExpiresAt issuedToken) (it_ExpiresIn issuedToken) true (h_secureCookies h)
               SameSiteLaxMode).

Definition clearRefreshTokenCookie (h : UserHandler) : H unit :=
  SetCookie (mkCookie refreshTokenCookieName "" refreshTokenCookiePath (1 * Second) (-1) true
               (h_secureCookies h) SameSiteLaxMode).

(** ** Login *)

(** The last part of [LoginHandler]: the tokens of the user who logged in. *)
Definition issueLoginTokens (h : UserHandler) (user : User) : H unit :=
  let! token := call (GenerateAccessToken (h_tokenManager h) (u_ID user) (u_Username user)
                        (u_AuthVersion user)) in
  match token with
  | inl err => handleError (tokenGenerateFailed "生成 access_token 失败" err)
                 CodeTokenGenerateFailed "生成 access_token 失败"
  | inr token =>
    let! refreshToken := call (GenerateRefreshToken (h_tokenManager h) (u_ID user)
                                 (u_Username user) (u_AuthVersion user)) in
    match refreshToken with
    | inl err => handleError (tokenGenerateFailed "生成 refresh_token 失败" err)
                   CodeTokenGenerateFailed "生成 refresh_token 失败"
    | inr refreshToken =>
      let! stored :=
        match h_authSessionService h with
        | Some s => call (StoreRefreshToken s (Some (refreshTokenModel (u_ID user) refreshToken
                                                  (HashToken (it_Token refreshToken)))))
        | None => ret (inr tt)
        end in
      match stored with
      | inl err => handleError err CodeRefreshTokenInvalid "保存 refresh_token 失败"
      | inr _ =>
        do! setRefreshTokenCookie h refreshToken in
        Success (DataLogin (mkTokenAndUserInfo token (accessTokenExpiresIn h)
                              (it_ExpiresIn refreshToken) (userInfo user)))
      end
    end
  end.

(** A refused login, counted when the credentials were wrong. *)
Definition refuseLogin (h : UserHandler) (req : LoginRequest) (loginIP : string) (err : error)
    : H unit :=
  let! answered :=
    match h_authSessionService h with
    | Some s =>
      if errors_Is err "service.ErrInvalidCredentials" then
        let! rated := call (RecordLoginFailure s (login_Username req) loginIP) in
        match rated with
        | inl rateErr =>
          do! handleError rateErr CodeAuthStateUnavailable "记录登录失败次数失败" in ret true
        | inr retryAfter => respondLoginRateLimited retryAfter
        end
      else ret false
    | None => ret false
    end in
  when! answered return! ret tt in
  handleError err CodeLoginFailed "登录错误".

Definition LoginHandler (h : UserHandler) : H unit :=
  let! rq := request in
  match bind_login (rq_Body rq) with
  | inr req =>
    let loginIP := if String.eqb (TrimSpace (rq_ClientIP rq)) "" then "unknown"
                   else TrimSpace (rq_ClientIP rq) in
    let! answered :=
      match h_authSessionService h with
      | Some s =>
        let! allowed := call (CheckLoginAllowed s (login_Username req) loginIP) in
        match allowed with
        | inl err => do! handleError err CodeAuthStateUnavailable "登录限流检查失败" in ret true
        | inr retryAfter => respondLoginRateLimited retryAfter
        end
      | None => ret false
      end in
    when! answered return! ret tt in
    let! user := call (Login (h_userService h) req) in
    match user with
    | inl err => refuseLogin h req loginIP err
    | inr user =>
      let! reset :=
        match h_authSessionService h with
        | Some s => call (ResetLoginFailures s (login_Username req))
        | None => ret (inr tt)
        end in
      match reset with
      | inl err => handleError err CodeAuthStateUnavailable "清理登录失败次数失败"
      | inr _ => issueLoginTokens h user
      end
    end
  | inl _ => badRequest
  end.

(** ** Refresh and logout *)

(** [bindOptionalJSON]: an empty body is a request without a token. *)
Definition bindOptionalJSON {A} (zero : A) (bound : error + A) : error + A :=
  match bound with
  | inl e => if errors_Is e io_EOF then inr zero else inl e
  | inr r => inr r
  end.

Definition requestRefreshToken (rq : Request) (bodyToken : string) : string :=
  let token := TrimSpace bodyToken in
  when! negb (String.eqb token "") return! token in
  match rq_Cookie rq refreshTokenCookieName with
  | Some token => TrimSpace token
  | None => ""
  end.

Definition handleRefreshTokenParseError (err : error) : H unit :=
  if errors_Is err jwt_ErrTokenExpired
  then Fail StatusUnauthorized CodeRefreshTokenExpired "refresh token is expired"
  else if errors_Is err jwt_ErrTokenMalformed
  then Fail StatusUnauthorized CodeRefreshTokenInvalid "refresh token is malformed"
  else if errors_Is err jwt_ErrTokenSignatureInvalid
  then Fail StatusUnauthorized CodeRefreshTokenInvalid "refresh token signature is invalid"
  else Fail StatusUnauthorized CodeRefreshTokenInvalid "refresh token is invalid".

Definition sessionServiceMissing : error :=
  NewLocal StatusInternalServerError CodeDatabaseNotInitialized
    "refresh token service is not initialized".

Definition RefreshTokenHandler (h : UserHandler) : H unit :=
  let! rq := request in
  match bindOptionalJSON (mkRefreshTokenRequest "") (bind_refresh (rq_Body rq)) with
  | inr req =>
    let refreshTokenValue := requestRefreshToken rq (rtr_RefreshToken req) in
    when! String.eqb refreshTokenValue "" return!
      (do! clearRefreshTokenCookie h in
       Fail StatusUnauthorized CodeRefreshTokenInvalid "refresh token is missing") in
    let! claims := call (ParseRefreshToken (h_tokenManager h) refreshTokenValue) in
    match claims with
    | inl err => do! clearRefreshTokenCookie h in handleRefreshTokenParseError err
    | inr claims =>
      let! accessToken := call (GenerateAccessToken (h_tokenManager h) (c_UserID claims)
                                  (c_Username claims) (c_AuthVersion claims)) in
      match accessToken with
      | inl err => handleError (tokenGenerateFailed "生成 access_token 失败" err)
                     CodeTokenGenerateFailed "生成 access_token 失败"
      | inr accessToken =>
        let! nextRefreshToken := call (GenerateRefreshToken (h_tokenManager h) (c_UserID claims)
                                         (c_Username claims) (c_AuthVersion claims)) in
        match nextRefreshToken with
        | inl err => handleError (tokenGenerateFailed "生成 refresh_token 失败" err)
                       CodeTokenGenerateFailed "生成 refresh_token 失败"
        | inr nextRefreshToken =>
          match h_authSessionService h with
          | None => handleError sessionServiceMissing CodeRefreshTokenInvalid "刷新 token 失败"
          | Some s =>
            let! rotated := call (RotateRefreshToken s (c_UserID claims) (c_AuthVersion claims)
                (c_JTI claims) (HashToken refreshTokenValue)
                (Some (refreshTokenModel (c_UserID claims) nextRefreshToken
                         (HashToken (it_Token nextRefreshToken))))) in
            match rotated with
            | inl err => handleError err CodeRefreshTokenInvalid "刷新 token 失败"
            | inr _ =>
              do! setRefreshTokenCookie h nextRefreshToken in
              Success (DataTokens (mkTokenPair accessToken (accessTokenExpiresIn h)
                                     (it_ExpiresIn nextRefreshToken)))
            end
          end
        end
      end
    end
  | inl _ => badRequest
  end.

Definition optionalAccessToken (h : UserHandler) (rq : Request) : H (option UserClaims) :=
  let authHeader := TrimSpace (rq_Header rq "Authorization") in
  when! String.eqb authHeader "" return! ret None in
  when! negb (HasPrefix authHeader "Bearer ") return! ret None in
  let tokenValue := TrimSpace (TrimPrefix authHeader "Bearer ") in
  when! String.eqb tokenValue "" return! ret None in
  let! claims := call (ParseAccessToken (h_tokenManager h) tokenValue) in
  match claims with
  | inl _ => ret None
  | inr claims => ret (Some claims)
  end.

(** The end of [LogoutHandler], once the access token has been dealt with. *)
Definition logoutRefreshToken (h : UserHandler) (s : option AuthService) (claims : UserClaims)
    (refreshTokenValue : string) : H unit :=
  let! revoked := call (RevokeRefreshToken s (c_UserID claims) (c_JTI claims)
                          (HashToken refreshTokenValue)) in
  match revoked with
  | inl err => handleError err CodeRefreshTokenInvalid "退出登录失败"
  | inr _ => do! clearRefreshTokenCookie h in Success NoData
  end.

Definition LogoutHandler (h : UserHandler) : H unit :=
  let! rq := request in
  match bindOptionalJSON (mkLogoutRequest "") (bind_logout (rq_Body rq)) with
  | inr req =>
    let refreshTokenValue := requestRefreshToken rq (lor_RefreshToken req) in
    when! String.eqb refreshTokenValue "" return!
      (do! clearRefreshTokenCookie h in
       Fail StatusUnauthorized CodeRefreshTokenInvalid "refresh token is missing") in
    let! claims := call (ParseRefreshToken (h_tokenManager h) refreshTokenValue) in
    match claims with
    | inl err => do! clearRefreshTokenCookie h in handleRefreshTokenParseError err
    | inr claims =>
      match h_authSessionService h with
      | None => handleError sessionServiceMissing CodeRefreshTokenInvalid "退出登录失败"
      | Some s =>
        let! accessClaims := optionalAccessToken h rq in
        match accessClaims with
        | Some accessClaims =>
          when! negb (c_UserID accessClaims =? c_UserID claims) return!
            Fail StatusUnauthorized CodeTokenInvalid "access token does not match refresh token" in
          match c_ExpiresAt accessClaims with
          | None => panic
          | Some expiresAt =>
            let! revoked := call (RevokeAccessToken s (c_JTI accessClaims) expiresAt) in
            match revoked with
            | inl err => handleError err CodeAuthStateUnavailable "吊销 access token 失败"
            | inr _ => logoutRefreshToken h s claims refreshTokenValue
            end
          end
        | None => logoutRefreshToken h s claims refreshTokenValue
        end
      end
    end
  | inl _ => badRequest
  end.

(** ** The account of the caller *)

(** [c.Get("user_id")] and its type assertion, with the errors the handlers
    of this file answer. *)
Definition callerID (fallbackCode : Z) (fallbackMessage : string) : H (option Z) :=
  let! value := c_Get "user_id" in
  match value with
  | None =>
    do! handleError (NewLocal StatusInternalServerError CodeTokenUserMissing "没有找到用户信息")
          fallbackCode fallbackMessage in
    ret None
  | Some (VInt64 userID) => ret (Some userID)
  | Some _ =>
    do! handleError (NewLocal StatusInternalServerError CodeTokenUserInvalid "无效的用户信息")
          fallbackCode fallbackMessage in
    ret None
  end.

Definition MeHandler (h : UserHandler) : H unit :=
  let! caller := callerID CodeGetProfileFailed "获取用户信息失败" in
  match caller with
  | None => ret tt
  | Some userID =>
    let! user := call (GetProfile (h_userService h) userID) in
    match user with
    | inl err => handleError err CodeGetProfileFailed "获取用户信息失败"
    | inr user => Success (DataUser (userInfo user))
    end
  end.

Definition UpdateProfileHandler (h : UserHandler) : H unit :=
  let! caller := callerID CodeUpdateNicknameFailed "更改昵称失败" in
  match caller with
  | None => ret tt
  | Some userID =>
    let! rq := request in
    match bind_profile (rq_Body rq) with
    | inr req =>
      let! r := call (UpdateNickname (h_userService h) userID (upr_Nickname req)) in
      match r with
      | inl err => handleError err CodeUpdateNicknameFailed "更改昵称失败"
      | inr _ => Success NoData
      end
    | inl _ => badRequest
    end
  end.

Definition UpdateUserPasswordHandler (h : UserHandler) : H unit :=
  let! caller := callerID CodeTokenUserMissing "更改昵称失败" in
  match caller with
  | None => ret tt
  | Some userID =>
    let! rq := request in
    match bind_password (rq_Body rq) with
    | inr req =>
      let! r := call (UpdateUserPassword (h_userService h) userID req) in
      match r with
      | inl err => handleError err CodeUpdateUserPasswordFailed "修改密码失败"
      | inr _ => do! clearRefreshTokenCookie h in Success NoData
      end
    | inl _ => badRequest
    end
  end.

End handlers.
