(* ===== verification/RbacHandler.v ===== *)
(** The authorization endpoints and the health and system endpoints
    (src/internal/handler/rbac_handler.go, health_handler.go,
    system_handler.go). *)
From S2P Require Import Prelude GoTime GoStrings GoErrors Model Gorm AuthState World.
From S2P Require Import RbacRepo RbacService UserService Web.

(** * rbac_handler.go *)

Record RBACHandler := mkRBACHandler { rh_rbacService : option RBACService }.

Definition NewRBACHandler (rbacService : option RBACService) : RBACHandler :=
  mkRBACHandler rbacService.

Definition roleResponse (role : Role) : RoleResponse :=
  mkRoleResponse (r_ID role) (r_Code role) (r_Name role).

Definition permissionResponse (p : Permission) : PermissionResponse :=
  mkPermissionResponse (p_ID p) (p_Code p) (p_Name p) (p_Method p) (p_Path p).

Section handlers.
Context {STO : Storage} {G : Gorm} {SS : Store} {E : Env} {RB : RBACRepository} {JB : JSONBinding}.

Definition ListRolesHandler (h : RBACHandler) : H unit :=
  let! roles := call (ListRoles (rh_rbacService h)) in
  match roles with
  | inl err => handleError err CodeRBACFailed "读取角色列表失败"
  | inr roles => Success (DataRoles (map roleResponse roles))
  end.

Definition ListPermissionsHandler (h : RBACHandler) : H unit :=
  let! permissions := call (ListPermissions (rh_rbacService h)) in
  match permissions with
  | inl err => handleError err CodeRBACFailed "读取权限列表失败"
  | inr permissions => Success (DataPermissions (map permissionResponse permissions))
  end.

(** The caller as [GetMyAuthorizationHandler] and [RequirePermission] take it:
    a positive int64 under the key [user_id]. *)
Definition authenticatedUser : H (option Z) :=
  let! value := c_Get "user_id" in
  match value with
  | None => do! Fail StatusUnauthorized CodeTokenUserMissing "用户未认证" in ret None
  | Some (VInt64 userID) =>
    when! userID <=? 0 return!
      (do! Fail StatusUnauthorized CodeTokenUserInvalid "无效的用户信息" in ret None) in
    ret (Some userID)
  | Some _ => do! Fail StatusUnauthorized CodeTokenUserInvalid "无效的用户信息" in ret None
  end.

Definition GetMyAuthorizationHandler (h : RBACHandler) : H unit :=
  let! caller := authenticatedUser in
  match caller with
  | None => ret tt
  | Some userID =>
    let! r := call (GetUserAuthorization (rh_rbacService h) userID) in
    match r with
    | inl err => handleError err CodeRBACFailed "读取用户授权信息失败"
    | inr (roleCodes, permissionCodes) =>
      Success (DataAuthorization (mkAuthorizationInfo roleCodes permissionCodes))
    end
  end.

Definition AssignUserRolesHandler (h : RBACHandler) : H unit :=
  let! rq := request in
  match ParseInt (rq_Param rq "id") with
  | None => Fail StatusBadRequest CodeInvalidParams "无效的用户ID"
  | Some userID =>
    when! userID <=? 0 return! Fail StatusBadRequest CodeInvalidParams "无效的用户ID" in
    match bind_roles (rq_Body rq) with
    | inl _ => Fail StatusBadRequest CodeInvalidParams "参数错误"
    | inr req =>
      let! r := call (AssignRolesToUser (rh_rbacService h) userID (RoleCodes req)) in
      match r with
      | inl err => handleError err CodeRBACFailed "分配用户角色失败"
      | inr _ => Success NoData
      end
    end
  end.

(** * health_handler.go *)

(** The database handle may be nil, its configuration may be nil, and opening
    and pinging the connection may fail; a checker may be a nil interface.
    Pings are of libraries: each is a computation that says whether it
    failed. *)
Record HealthDB := mkHealthDB {
  hd_Config : bool;
  hd_DB : M unit;
  hd_Ping : M unit;
}.

Record HealthHandler := mkHealthHandler {
  hh_db : option HealthDB;
  hh_checkers : list (option (M unit));
  (** whether there is a recorder of readiness *)
  hh_recorder : bool;
}.

Definition NewHealthHandlerWithRecorder (db : option HealthDB) (recorder : bool)
    (checkers : list (option (M unit))) : HealthHandler :=
  mkHealthHandler db checkers recorder.

Definition NewHealthHandler (db : option HealthDB) (checkers : list (option (M unit)))
    : HealthHandler :=
  NewHealthHandlerWithRecorder db false checkers.

Definition PingHandler : H unit := Success (DataFields [("message", "success")]).
Definition LivezHandler : H unit := Success (DataFields [("status", "alive")]).

Definition recordReadiness (h : HealthHandler) (ready : bool) : H unit :=
  if hh_recorder h then SetReady ready else ret tt.

Definition failReadiness (h : HealthHandler) (message : string) : H unit :=
  do! recordReadiness h false in
  Fail StatusServiceUnavailable CodeReadinessFailed message.

(** The loop over the checkers: whether all of them answered. *)
Fixpoint pingCheckers (checkers : list (option (M unit))) : H bool :=
  match checkers with
  | [] => ret true
  | None :: rest => pingCheckers rest
  | Some checker :: rest =>
    let! r := call checker in
    match r with
    | inl _ => ret false
    | inr _ => pingCheckers rest
    end
  end.

Definition ReadyzHandler (h : HealthHandler) : H unit :=
  match hh_db h with
  | None => failReadiness h "database is not initialized"
  | Some db =>
    when! negb (hd_Config db) return! failReadiness h "database is not ready" in
    let! opened := call (hd_DB db) in
    match opened with
    | inl _ => failReadiness h "database is not ready"
    | inr _ =>
      let! pinged := call (hd_Ping db) in
      match pinged with
      | inl _ => failReadiness h "database is not ready"
      | inr _ =>
        let! all := pingCheckers (hh_checkers h) in
        when! negb all return! failReadiness h "authentication state store is not ready" in
        do! recordReadiness h true in
        Success (DataFields [("status", "ready")])
      end
    end
  end.

(** * system_handler.go *)

Record SystemHandler := mkSystemHandler { sh_build : Info }.
Definition NewSystemHandler (build : Info) : SystemHandler := mkSystemHandler build.
Definition VersionHandler (h : SystemHandler) : H unit := Success (DataBuild (sh_build h)).

End handlers.
