(* ===== verification/Registry.v ===== *)
(** The metrics themselves (src/internal/observability/metrics.go): the vectors
    [NewMetrics] makes and registers, and the vector and the labels of each
    call ([Metrics.metric_call]).

    The Prometheus client is a library: the class [Prometheus] has what the
    program calls of it, and [PrometheusLaws] what it relies on. *)
From S2P Require Import Prelude GoTime GoStrings GoErrors Model Gorm AuthState World Web Metrics.

(** * Vectors *)

Inductive value_type := CounterValue | GaugeValue | HistogramValue.

(** [prometheus.CounterOpts], [GaugeOpts] and [HistogramOpts]. *)
Record Opts := mkOpts {
  o_Namespace : string;
  o_Subsystem : string;
  o_Name : string;
  o_Help : string;
}.

(** A vector with its variable labels; a plain gauge is one without labels. *)
Record Vec := mkVec {
  vec_Type : value_type;
  vec_Opts : Opts;
  vec_Labels : list string;
}.

Inductive collector :=
| GoCollector
| ProcessCollector
| OwnVec (v : Vec).

(** The operations on one metric of a vector. *)
Inductive vec_op := OpInc | OpDec | OpObserve | OpSet.

(** The methods of [Counter], [Gauge] and [Histogram]. *)
Definition has_op (ty : value_type) (op : vec_op) : bool :=
  match ty, op with
  | CounterValue, OpInc => true
  | GaugeValue, (OpInc | OpDec | OpSet) => true
  | HistogramValue, OpObserve => true
  | _, _ => false
  end.

Class Prometheus := {
  PromRegistry : Type;
  (** [prometheus.NewRegistry()] *)
  prom_NewRegistry : PromRegistry;
  (** [registry.MustRegister(cs...)], which may panic *)
  prom_MustRegister : PromRegistry -> list collector -> outcome Empty_set PromRegistry;
  (** [v.WithLabelValues(values...)]: whether it returns or panics *)
  prom_WithLabelValues : Vec -> list string -> bool;
  (** the name of a vector, [prometheus.BuildFQName(namespace, subsystem, name)] *)
  prom_BuildFQName : string -> string -> string -> string;
}.

Section metrics.
Context {P : Prometheus}.

Record MetricSet := mkMetricSet {
  registry : PromRegistry;
  httpRequests : Vec;
  httpDuration : Vec;
  httpRequestsNow : Vec;
  readiness : Vec;
}.

Definition requests_total : Vec :=
  mkVec CounterValue
    (mkOpts "go_user_system" "http" "requests_total"
       "Total HTTP requests handled by method, route template, and status.")
    ["method"; "route"; "status"].

Definition request_duration : Vec :=
  mkVec HistogramValue
    (mkOpts "go_user_system" "http" "request_duration_seconds"
       "HTTP request duration in seconds by method and route template.")
    ["method"; "route"].

Definition requests_in_flight : Vec :=
  mkVec GaugeValue
    (mkOpts "go_user_system" "http" "requests_in_flight" "Current in-flight HTTP requests by method.")
    ["method"].

Definition readiness_gauge : Vec :=
  mkVec GaugeValue
    (mkOpts "go_user_system" "" "readiness"
       "Whether the most recent readiness check succeeded (1 ready, 0 not ready).")
    [].

Definition build_info : Vec :=
  mkVec GaugeValue
    (mkOpts "go_user_system" "" "build_info" "Build information for the running application.")
    ["version"; "commit"; "build_time"].

Definition NewMetrics (build : Info) : outcome Empty_set MetricSet :=
  let registry := prom_NewRegistry in
  if prom_WithLabelValues build_info [Version build; Commit build; BuildTime build]
  then
    match prom_MustRegister registry
            [GoCollector; ProcessCollector; OwnVec requests_total; OwnVec request_duration;
             OwnVec requests_in_flight; OwnVec readiness_gauge; OwnVec build_info] with
    | Ok registry => Ok (mkMetricSet registry requests_total request_duration requests_in_flight readiness_gauge)
    | Err e => Err e
    | Panic => Panic
    end
  else Panic.

(** What a call of [HTTPHandler] or [SetReady] is on the vectors. *)
Definition vec_call (m : MetricSet) (c : metric_call) : Vec * list string * vec_op :=
  match c with
  | InFlightInc method => (httpRequestsNow m, [method], OpInc)
  | InFlightDec method => (httpRequestsNow m, [method], OpDec)
  | RequestsInc method route status => (httpRequests m, [method; route; status], OpInc)
  | DurationObserve method route _ => (httpDuration m, [method; route], OpObserve)
  | ReadinessSet _ => (readiness m, [], OpSet)
  end.

(** The call returns, and the metric has the operation. *)
Definition accepted (m : MetricSet) (c : metric_call) : bool :=
  let '(v, values, op) := vec_call m c in prom_WithLabelValues v values && has_op (vec_Type v) op.

(** * What is relied on *)

Definition name_byte (b : Z) : bool := in_range 97 122 b || in_range 65 90 b || (b =? 95).

(** [a-zA-Z_][a-zA-Z0-9_]* *)
Definition valid_name (name : string) : bool :=
  match bytes name with
  | [] => false
  | b :: rest => name_byte b && forallb (fun b => name_byte b || in_range 48 57 b) rest
  end.

Definition fq_name (o : Opts) : string := prom_BuildFQName (o_Namespace o) (o_Subsystem o) (o_Name o).

Definition valid_vec (v : Vec) : Prop :=
  valid_name (fq_name (vec_Opts v)) = true /\ List.NoDup (vec_Labels v) /\
  forall l, In l (vec_Labels v) -> valid_name l = true /\ HasPrefix l "__" = false /\ l <> "le".

Class PrometheusLaws := {
  (** the names that are registered, and those of a collector *)
  registered : PromRegistry -> list string;
  described : collector -> list string;
  (** The parts that are not empty, joined by underscores. *)
  fq_name_law : forall namespace subsystem name, name <> "" ->
    prom_BuildFQName namespace subsystem name =
    String.concat "_" (List.filter (fun part => negb (String.eqb part "")) [namespace; subsystem; name]);
  new_registry_law : registered prom_NewRegistry = [];
  own_described_law : forall v, described (OwnVec v) = [fq_name (vec_Opts v)];
  (** The names of the runtime's collectors are different, and none of them
      begins with the namespace of the program. *)
  runtime_described_law :
    List.NoDup (described GoCollector ++ described ProcessCollector) /\
    forall name, In name (described GoCollector ++ described ProcessCollector) ->
      HasPrefix name "go_user_system_" = false;
  (** Valid vectors under names not taken yet are registered. *)
  register_law : forall reg cs,
    (forall v, In (OwnVec v) cs -> valid_vec v) ->
    List.NoDup (registered reg ++ flat_map described cs) ->
    exists reg', prom_MustRegister reg cs = Ok reg' /\ registered reg' = registered reg ++ flat_map described cs;
  (** A value for each label, in UTF-8, gives a metric. *)
  with_law : forall v values,
    length values = length (vec_Labels v) -> (forall x, In x values -> ValidString x = true) ->
    prom_WithLabelValues v values = true;
}.
End metrics.
