(* ===== verification/ApiDocs.v ===== *)
(** The documentation of the API the program serves (src/docs/docs.go): the
    template of the Swagger document, as the JSON text it is, and what the
    responses of src/internal/response are as JSON.

    The document is data. What it says of an operation is read from it by
    functions: the statuses it lists, whether it needs a token, and which
    bodies have the schema of a response. *)
From S2P Require Import Prelude GoTime GoStrings GoErrors Model Gorm AuthState World UserService Web.

(** * JSON *)

(** A [JAction] is an action of the template, a hole that swag fills. *)
Inductive json :=
| JNull
| JBool (b : bool)
| JNum (z : Z)
| JStr (s : string)
| JArr (l : list json)
| JObj (l : list (string * json))
| JAction (text : string).

Definition member (k : string) (fields : list (string * json)) : option json :=
  option_map snd (List.find (fun field => String.eqb (fst field) k) fields).

Definition field (k : string) (j : json) : option json :=
  match j with JObj fields => member k fields | _ => None end.

Definition fields_of (j : json) : list (string * json) :=
  match j with JObj fields => fields | _ => [] end.

(** * docTemplate *)

Definition doc_admin_permissions : json :=
  JObj
    [("get",
      JObj
        [("security", JArr [JObj [("BearerAuth", JArr [])]]);
         ("produces", JArr [JStr "application/json"]);
         ("tags", JArr [JStr "admin-rbac"]);
         ("summary", JStr "查询权限列表");
         ("responses",
          JObj
            [("200",
              JObj
                [("description", JStr "OK");
                 ("schema",
                  JObj
                    [("allOf",
                      JArr
                        [JObj [("$ref", JStr "#/definitions/response.Response")];
                         JObj
                           [("type", JStr "object");
                            ("properties",
                             JObj
                               [("data",
                                 JObj
                                   [("type", JStr "array");
                                    ("items",
                                     JObj
                                       [("$ref",
                                         JStr "#/definitions/response.PermissionResponse")])])])]])])]);
             ("401",
              JObj
                [("description", JStr "Unauthorized");
                 ("schema", JObj [("$ref", JStr "#/definitions/response.Response")])]);
             ("403",
              JObj
                [("description", JStr "Forbidden");
                 ("schema", JObj [("$ref", JStr "#/definitions/response.Response")])]);
             ("500",
              JObj
                [("description", JStr "Internal Server Error");
                 ("schema", JObj [("$ref", JStr "#/definitions/response.Response")])])])])].

Definition doc_admin_roles : json :=
  JObj
    [("get",
      JObj
        [("security", JArr [JObj [("BearerAuth", JArr [])]]);
         ("produces", JArr [JStr "application/json"]);
         ("tags", JArr [JStr "admin-rbac"]);
         ("summary", JStr "查询角色列表");
         ("responses",
          JObj
            [("200",
              JObj
                [("description", JStr "OK");
                 ("schema",
                  JObj
                    [("allOf",
                      JArr
                        [JObj [("$ref", JStr "#/definitions/response.Response")];
                         JObj
                           [("type", JStr "object");
                            ("properties",
                             JObj
                               [("data",
                                 JObj
                                   [("type", JStr "array");
                                    ("items",
                                     JObj [("$ref", JStr "#/definitions/response.RoleResponse")])])])]])])]);
             ("401",
              JObj
                [("description", JStr "Unauthorized");
                 ("schema", JObj [("$ref", JStr "#/definitions/response.Response")])]);
             ("403",
              JObj
                [("description", JStr "Forbidden");
                 ("schema", JObj [("$ref", JStr "#/definitions/response.Response")])]);
             ("500",
              JObj
                [("description", JStr "Internal Server Error");
                 ("schema", JObj [("$ref", JStr "#/definitions/response.Response")])])])])].

Definition doc_admin_users_id_roles : json :=
  JObj
    [("put",
      JObj
        [("security", JArr [JObj [("BearerAuth", JArr [])]]);
         ("consumes", JArr [JStr "application/json"]);
         ("produces", JArr [JStr "application/json"]);
         ("tags", JArr [JStr "admin-rbac"]);
         ("summary", JStr "给用户分配角色");
         ("parameters",
          JArr
            [JObj
               [("type", JStr "integer");
                ("description", JStr "用户ID");
                ("name", JStr "id");
                ("in", JStr "path");
                ("required", JBool true)];
             JObj
               [("description", JStr "角色编码列表");
                ("name", JStr "body");
                ("in", JStr "body");
                ("required", JBool true);
                ("schema", JObj [("$ref", JStr "#/definitions/request.AssignUserRolesRequest")])]]);
         ("responses",
          JObj
            [("200",
              JObj
                [("description", JStr "OK");
                 ("schema", JObj [("$ref", JStr "#/definitions/response.Response")])]);
             ("400",
              JObj
                [("description", JStr "Bad Request");
                 ("schema", JObj [("$ref", JStr "#/definitions/response.Response")])]);
             ("401",
              JObj
                [("description", JStr "Unauthorized");
                 ("schema", JObj [("$ref", JStr "#/definitions/response.Response")])]);
             ("403",
              JObj
                [("description", JStr "Forbidden");
                 ("schema", JObj [("$ref", JStr "#/definitions/response.Response")])]);
             ("404",
              JObj
                [("description", JStr "Not Found");
                 ("schema", JObj [("$ref", JStr "#/definitions/response.Response")])]);
             ("500",
              JObj
                [("description", JStr "Internal Server Error");
                 ("schema", JObj [("$ref", JStr "#/definitions/response.Response")])])])])].

Definition doc_auth_login : json :=
  JObj
    [("post",
      JObj
        [("consumes", JArr [JStr "application/json"]);
         ("produces", JArr [JStr "application/json"]);
         ("tags", JArr [JStr "auth"]);
         ("summary", JStr "用户登录");
         ("parameters",
          JArr
            [JObj
               [("description", JStr "登录参数");
                ("name", JStr "body");
                ("in", JStr "body");
                ("required", JBool true);
                ("schema", JObj [("$ref", JStr "#/definitions/request.LoginRequest")])]]);
         ("responses",
          JObj
            [("200",
              JObj
                [("description", JStr "OK");
                 ("schema",
                  JObj
                    [("allOf",
                      JArr
                        [JObj [("$ref", JStr "#/definitions/response.Response")];
                         JObj
                           [("type", JStr "object");
                            ("properties",
                             JObj
                               [("data",
                                 JObj
                                   [("$ref",
                                     JStr "#/definitions/response.TokenAndUserInfoResponse")])])]])])]);
             ("400",
              JObj
                [("description", JStr "Bad Request");
                 ("schema", JObj [("$ref", JStr "#/definitions/response.Response")])]);
             ("401",
              JObj
                [("description", JStr "Unauthorized");
                 ("schema", JObj [("$ref", JStr "#/definitions/response.Response")])]);
             ("429",
              JObj
                [("description", JStr "Too Many Requests");
                 ("schema", JObj [("$ref", JStr "#/definitions/response.Response")])]);
             ("500",
              JObj
                [("description", JStr "Internal Server Error");
                 ("schema", JObj [("$ref", JStr "#/definitions/response.Response")])])])])].

Definition doc_auth_logout : json :=
  JObj
    [("post",
      JObj
        [("description", JStr "浏览器客户端优先通过 HttpOnly Cookie 发送 Refresh Token，请求体仅用于非浏览器客户端兼容。");
         ("consumes", JArr [JStr "application/json"]);
         ("produces", JArr [JStr "application/json"]);
         ("tags", JArr [JStr "auth"]);
         ("summary", JStr "退出登录并吊销 Refresh Token");
         ("parameters",
          JArr
            [JObj
               [("description", JStr "Refresh Token");
                ("name", JStr "body");
                ("in", JStr "body");
                ("schema", JObj [("$ref", JStr "#/definitions/request.LogoutRequest")])]]);
         ("responses",
          JObj
            [("200",
              JObj
                [("description", JStr "OK");
                 ("schema", JObj [("$ref", JStr "#/definitions/response.Response")])]);
             ("400",
              JObj
                [("description", JStr "Bad Request");
                 ("schema", JObj [("$ref", JStr "#/definitions/response.Response")])]);
             ("401",
              JObj
                [("description", JStr "Unauthorized");
                 ("schema", JObj [("$ref", JStr "#/definitions/response.Response")])]);
             ("500",
              JObj
                [("description", JStr "Internal Server Error");
                 ("schema", JObj [("$ref", JStr "#/definitions/response.Response")])])])])].

Definition doc_auth_refresh : json :=
  JObj
    [("post",
      JObj
        [("description", JStr "浏览器客户端优先通过 HttpOnly Cookie 发送 Refresh Token，请求体仅用于非浏览器客户端兼容。");
         ("consumes", JArr [JStr "application/json"]);
         ("produces", JArr [JStr "application/json"]);
         ("tags", JArr [JStr "auth"]);
         ("summary", JStr "刷新双 Token");
         ("parameters",
          JArr
            [JObj
               [("description", JStr "Refresh Token");
                ("name", JStr "body");
                ("in", JStr "body");
                ("schema", JObj [("$ref", JStr "#/definitions/request.RefreshTokenRequest")])]]);
         ("responses",
          JObj
            [("200",
              JObj
                [("description", JStr "OK");
                 ("schema",
                  JObj
                    [("allOf",
                      JArr
                        [JObj [("$ref", JStr "#/definitions/response.Response")];
                         JObj
                           [("type", JStr "object");
                            ("properties",
                             JObj
                               [("data",
                                 JObj
                                   [("$ref", JStr "#/definitions/response.TokenPairResponse")])])]])])]);
             ("400",
              JObj
                [("description", JStr "Bad Request");
                 ("schema", JObj [("$ref", JStr "#/definitions/response.Response")])]);
             ("401",
              JObj
                [("description", JStr "Unauthorized");
                 ("schema", JObj [("$ref", JStr "#/definitions/response.Response")])]);
             ("500",
              JObj
                [("description", JStr "Internal Server Error");
                 ("schema", JObj [("$ref", JStr "#/definitions/response.Response")])])])])].

Definition doc_auth_register : json :=
  JObj
    [("post",
      JObj
        [("consumes", JArr [JStr "application/json"]);
         ("produces", JArr [JStr "application/json"]);
         ("tags", JArr [JStr "auth"]);
         ("summary", JStr "用户注册");
         ("parameters",
          JArr
            [JObj
               [("description", JStr "注册参数");
                ("name", JStr "body");
                ("in", JStr "body");
                ("required", JBool true);
                ("schema", JObj [("$ref", JStr "#/definitions/request.RegisterRequest")])]]);
         ("responses",
          JObj
            [("200",
              JObj
                [("description", JStr "OK");
                 ("schema", JObj [("$ref", JStr "#/definitions/response.Response")])]);
             ("400",
              JObj
                [("description", JStr "Bad Request");
                 ("schema", JObj [("$ref", JStr "#/definitions/response.Response")])]);
             ("409",
              JObj
                [("description", JStr "Conflict");
                 ("schema", JObj [("$ref", JStr "#/definitions/response.Response")])]);
             ("500",
              JObj
                [("description", JStr "Internal Server Error");
                 ("schema", JObj [("$ref", JStr "#/definitions/response.Response")])])])])].

Definition doc_users_me : json :=
  JObj
    [("get",
      JObj
        [("security", JArr [JObj [("BearerAuth", JArr [])]]);
         ("produces", JArr [JStr "application/json"]);
         ("tags", JArr [JStr "users"]);
         ("summary", JStr "获取当前用户资料");
         ("responses",
          JObj
            [("200",
              JObj
                [("description", JStr "OK");
                 ("schema",
                  JObj
                    [("allOf",
                      JArr
                        [JObj [("$ref", JStr "#/definitions/response.Response")];
                         JObj
                           [("type", JStr "object");
                            ("properties",
                             JObj
                               [("data",
                                 JObj [("$ref", JStr "#/definitions/response.UserInfoResponse")])])]])])]);
             ("401",
              JObj
                [("description", JStr "Unauthorized");
                 ("schema", JObj [("$ref", JStr "#/definitions/response.Response")])]);
             ("403",
              JObj
                [("description", JStr "Forbidden");
                 ("schema", JObj [("$ref", JStr "#/definitions/response.Response")])]);
             ("500",
              JObj
                [("description", JStr "Internal Server Error");
                 ("schema", JObj [("$ref", JStr "#/definitions/response.Response")])])])])].

Definition doc_users_me_authorization : json :=
  JObj
    [("get",
      JObj
        [("security", JArr [JObj [("BearerAuth", JArr [])]]);
         ("produces", JArr [JStr "application/json"]);
         ("tags", JArr [JStr "users"]);
         ("summary", JStr "查询当前用户角色和权限码");
         ("responses",
          JObj
            [("200",
              JObj
                [("description", JStr "OK");
                 ("schema",
                  JObj
                    [("allOf",
                      JArr
                        [JObj [("$ref", JStr "#/definitions/response.Response")];
                         JObj
                           [("type", JStr "object");
                            ("properties",
                             JObj
                               [("data",
                                 JObj
                                   [("$ref",
                                     JStr "#/definitions/response.AuthorizationInfoResponse")])])]])])]);
             ("401",
              JObj
                [("description", JStr "Unauthorized");
                 ("schema", JObj [("$ref", JStr "#/definitions/response.Response")])]);
             ("500",
              JObj
                [("description", JStr "Internal Server Error");
                 ("schema", JObj [("$ref", JStr "#/definitions/response.Response")])])])])].

Definition doc_users_me_profile : json :=
  JObj
    [("put",
      JObj
        [("security", JArr [JObj [("BearerAuth", JArr [])]]);
         ("consumes", JArr [JStr "application/json"]);
         ("produces", JArr [JStr "application/json"]);
         ("tags", JArr [JStr "users"]);
         ("summary", JStr "修改当前用户昵称");
         ("parameters",
          JArr
            [JObj
               [("description", JStr "昵称参数");
                ("name", JStr "body");
                ("in", JStr "body");
                ("required", JBool true);
                ("schema", JObj [("$ref", JStr "#/definitions/request.UpdateProfileRequest")])]]);
         ("responses",
          JObj
            [("200",
              JObj
                [("description", JStr "OK");
                 ("schema", JObj [("$ref", JStr "#/definitions/response.Response")])]);
             ("400",
              JObj
                [("description", JStr "Bad Request");
                 ("schema", JObj [("$ref", JStr "#/definitions/response.Response")])]);
             ("401",
              JObj
                [("description", JStr "Unauthorized");
                 ("schema", JObj [("$ref", JStr "#/definitions/response.Response")])]);
             ("403",
              JObj
                [("description", JStr "Forbidden");
                 ("schema", JObj [("$ref", JStr "#/definitions/response.Response")])]);
             ("500",
              JObj
                [("description", JStr "Internal Server Error");
                 ("schema", JObj [("$ref", JStr "#/definitions/response.Response")])])])])].

Definition doc_users_me_update_password : json :=
  JObj
    [("patch",
      JObj
        [("security", JArr [JObj [("BearerAuth", JArr [])]]);
         ("consumes", JArr [JStr "application/json"]);
         ("produces", JArr [JStr "application/json"]);
         ("tags", JArr [JStr "users"]);
         ("summary", JStr "修改当前用户密码");
         ("parameters",
          JArr
            [JObj
               [("description", JStr "密码参数");
                ("name", JStr "body");
                ("in", JStr "body");
                ("required", JBool true);
                ("schema", JObj [("$ref", JStr "#/definitions/request.UpdatePasswordRequest")])]]);
         ("responses",
          JObj
            [("200",
              JObj
                [("description", JStr "OK");
                 ("schema", JObj [("$ref", JStr "#/definitions/response.Response")])]);
             ("400",
              JObj
                [("description", JStr "Bad Request");
                 ("schema", JObj [("$ref", JStr "#/definitions/response.Response")])]);
             ("401",
              JObj
                [("description", JStr "Unauthorized");
                 ("schema", JObj [("$ref", JStr "#/definitions/response.Response")])]);
             ("403",
              JObj
                [("description", JStr "Forbidden");
                 ("schema", JObj [("$ref", JStr "#/definitions/response.Response")])]);
             ("500",
              JObj
                [("description", JStr "Internal Server Error");
                 ("schema", JObj [("$ref", JStr "#/definitions/response.Response")])])])])].

Definition doc_livez : json :=
  JObj
    [("get",
      JObj
        [("produces", JArr [JStr "application/json"]);
         ("tags", JArr [JStr "health"]);
         ("summary", JStr "应用存活检查");
         ("responses",
          JObj
            [("200",
              JObj
                [("description", JStr "OK");
                 ("schema", JObj [("$ref", JStr "#/definitions/response.Response")])])])])].

Definition doc_ping : json :=
  JObj
    [("get",
      JObj
        [("produces", JArr [JStr "application/json"]);
         ("tags", JArr [JStr "health"]);
         ("summary", JStr "基础连通性检查");
         ("responses",
          JObj
            [("200",
              JObj
                [("description", JStr "OK");
                 ("schema", JObj [("$ref", JStr "#/definitions/response.Response")])])])])].

Definition doc_readyz : json :=
  JObj
    [("get",
      JObj
        [("produces", JArr [JStr "application/json"]);
         ("tags", JArr [JStr "health"]);
         ("summary", JStr "服务就绪检查");
         ("responses",
          JObj
            [("200",
              JObj
                [("description", JStr "OK");
                 ("schema", JObj [("$ref", JStr "#/definitions/response.Response")])]);
             ("503",
              JObj
                [("description", JStr "Service Unavailable");
                 ("schema", JObj [("$ref", JStr "#/definitions/response.Response")])])])])].

Definition doc_version : json :=
  JObj
    [("get",
      JObj
        [("produces", JArr [JStr "application/json"]);
         ("tags", JArr [JStr "system"]);
         ("summary", JStr "查询运行版本");
         ("responses",
          JObj
            [("200",
              JObj
                [("description", JStr "OK");
                 ("schema", JObj [("$ref", JStr "#/definitions/response.Response")])])])])].

Definition doc_AssignUserRolesRequest : json :=
  JObj
    [("type", JStr "object");
     ("required", JArr [JStr "role_codes"]);
     ("properties",
      JObj
        [("role_codes",
          JObj [("type", JStr "array"); ("items", JObj [("type", JStr "string")])])])].

Definition doc_LoginRequest : json :=
  JObj
    [("type", JStr "object");
     ("required", JArr [JStr "password"; JStr "username"]);
     ("properties",
      JObj
        [("password", JObj [("type", JStr "string")]);
         ("username", JObj [("type", JStr "string")])])].

Definition doc_LogoutRequest : json :=
  JObj
    [("type", JStr "object");
     ("properties", JObj [("refresh_token", JObj [("type", JStr "string")])])].

Definition doc_RefreshTokenRequest : json :=
  JObj
    [("type", JStr "object");
     ("properties", JObj [("refresh_token", JObj [("type", JStr "string")])])].

Definition doc_RegisterRequest : json :=
  JObj
    [("type", JStr "object");
     ("required", JArr [JStr "password"; JStr "username"]);
     ("properties",
      JObj
        [("password",
          JObj [("type", JStr "string"); ("maxLength", JNum 72); ("minLength", JNum 12)]);
         ("username", JObj [("type", JStr "string")])])].

Definition doc_UpdatePasswordRequest : json :=
  JObj
    [("type", JStr "object");
     ("required", JArr [JStr "new_password"; JStr "old_password"]);
     ("properties",
      JObj
        [("new_password",
          JObj [("type", JStr "string"); ("maxLength", JNum 72); ("minLength", JNum 12)]);
         ("old_password", JObj [("type", JStr "string")])])].

Definition doc_UpdateProfileRequest : json :=
  JObj
    [("type", JStr "object");
     ("required", JArr [JStr "nickname"]);
     ("properties", JObj [("nickname", JObj [("type", JStr "string")])])].

Definition doc_AuthorizationInfoResponse : json :=
  JObj
    [("type", JStr "object");
     ("properties",
      JObj
        [("permission_codes",
          JObj [("type", JStr "array"); ("items", JObj [("type", JStr "string")])]);
         ("role_codes",
          JObj [("type", JStr "array"); ("items", JObj [("type", JStr "string")])])])].

Definition doc_PermissionResponse : json :=
  JObj
    [("type", JStr "object");
     ("properties",
      JObj
        [("code", JObj [("type", JStr "string")]);
         ("id", JObj [("type", JStr "integer")]);
         ("method", JObj [("type", JStr "string")]);
         ("name", JObj [("type", JStr "string")]);
         ("path", JObj [("type", JStr "string")])])].

Definition doc_Response : json :=
  JObj
    [("type", JStr "object");
     ("properties",
      JObj
        [("code", JObj [("type", JStr "integer")]);
         ("data", JObj []);
         ("msg", JObj [("type", JStr "string")])])].

Definition doc_RoleResponse : json :=
  JObj
    [("type", JStr "object");
     ("properties",
      JObj
        [("code", JObj [("type", JStr "string")]);
         ("id", JObj [("type", JStr "integer")]);
         ("name", JObj [("type", JStr "string")])])].

Definition doc_TokenAndUserInfoResponse : json :=
  JObj
    [("type", JStr "object");
     ("properties",
      JObj
        [("access_token", JObj [("type", JStr "string")]);
         ("access_token_expires_in", JObj [("type", JStr "integer")]);
         ("refresh_token_expires_in", JObj [("type", JStr "integer")]);
         ("user", JObj [("$ref", JStr "#/definitions/response.UserInfoResponse")])])].

Definition doc_TokenPairResponse : json :=
  JObj
    [("type", JStr "object");
     ("properties",
      JObj
        [("access_token", JObj [("type", JStr "string")]);
         ("access_token_expires_in", JObj [("type", JStr "integer")]);
         ("refresh_token_expires_in", JObj [("type", JStr "integer")])])].

Definition doc_UserInfoResponse : json :=
  JObj
    [("type", JStr "object");
     ("properties",
      JObj
        [("id", JObj [("type", JStr "integer")]);
         ("last_login_at", JObj [("type", JStr "string")]);
         ("nickname", JObj [("type", JStr "string")]);
         ("status", JObj [("type", JStr "integer")]);
         ("username", JObj [("type", JStr "string")])])].

Definition doc_paths : list (string * json) :=
  [("/api/v1/admin/permissions", doc_admin_permissions);
   ("/api/v1/admin/roles", doc_admin_roles);
   ("/api/v1/admin/users/{id}/roles", doc_admin_users_id_roles);
   ("/api/v1/auth/login", doc_auth_login);
   ("/api/v1/auth/logout", doc_auth_logout);
   ("/api/v1/auth/refresh", doc_auth_refresh);
   ("/api/v1/auth/register", doc_auth_register);
   ("/api/v1/users/me", doc_users_me);
   ("/api/v1/users/me/authorization", doc_users_me_authorization);
   ("/api/v1/users/me/profile", doc_users_me_profile);
   ("/api/v1/users/me/update/password", doc_users_me_update_password);
   ("/livez", doc_livez);
   ("/ping", doc_ping);
   ("/readyz", doc_readyz);
   ("/version", doc_version)].

Definition doc_definitions : list (string * json) :=
  [("request.AssignUserRolesRequest", doc_AssignUserRolesRequest);
   ("request.LoginRequest", doc_LoginRequest);
   ("request.LogoutRequest", doc_LogoutRequest);
   ("request.RefreshTokenRequest", doc_RefreshTokenRequest);
   ("request.RegisterRequest", doc_RegisterRequest);
   ("request.UpdatePasswordRequest", doc_UpdatePasswordRequest);
   ("request.UpdateProfileRequest", doc_UpdateProfileRequest);
   ("response.AuthorizationInfoResponse", doc_AuthorizationInfoResponse);
   ("response.PermissionResponse", doc_PermissionResponse);
   ("response.Response", doc_Response);
   ("response.RoleResponse", doc_RoleResponse);
   ("response.TokenAndUserInfoResponse", doc_TokenAndUserInfoResponse);
   ("response.TokenPairResponse", doc_TokenPairResponse);
   ("response.UserInfoResponse", doc_UserInfoResponse)].

Definition docTemplate : json :=
  JObj
    [("schemes", JAction "{{ marshal .Schemes }}");
     ("swagger", JStr "2.0");
     ("info", JObj
          [("description", JStr "{{escape .Description}}");
           ("title", JStr "{{.Title}}");
           ("contact", JObj []);
           ("version", JStr "{{.Version}}")]);
     ("host", JStr "{{.Host}}");
     ("basePath", JStr "{{.BasePath}}");
     ("paths", JObj doc_paths);
     ("definitions", JObj doc_definitions);
     ("securityDefinitions", JObj
          [("BearerAuth",
            JObj
              [("description", JStr "输入 Bearer access_token，例如：Bearer eyJhbGciOi...");
               ("type", JStr "apiKey");
               ("name", JStr "Authorization");
               ("in", JStr "header")])])].

(** * SwaggerInfo *)

Record Spec := mkSpec {
  sp_Version : string;
  sp_Host : string;
  sp_BasePath : string;
  sp_Schemes : list string;
  sp_Title : string;
  sp_Description : string;
  sp_InfoInstanceName : string;
  sp_SwaggerTemplate : json;
  sp_LeftDelim : string;
  sp_RightDelim : string;
}.

Definition SwaggerInfo : Spec :=
  mkSpec "1.0.0" "localhost:8082" "/" ["http"] "go-user-system API"
    "用户系统后端接口文档，包含 JWT Access/Refresh 双 Token 认证、RBAC 权限控制和统一响应结构。"
    "swagger" docTemplate "{{" "}}".

(** * What the document says *)

(** The path of a route as the document writes it: [:id] is [{id}]. *)
Definition doc_segment (segment : string) : string :=
  match segment with
  | String ":" name => "{" +:+ name +:+ "}"
  | _ => segment
  end.

Definition doc_path (path : string) : string :=
  String.concat "/" (map doc_segment (split_byte "/" path)).

Definition doc_operation (method path : string) : option json :=
  match field "paths" (sp_SwaggerTemplate SwaggerInfo) with
  | Some paths =>
    match field (doc_path path) paths with
    | Some item => field (ToLower (fun c => c) method) item
    | None => None
    end
  | None => None
  end.

(** Every operation of the document, with its path and its method. *)
Definition doc_operations : list (string * string * json) :=
  match field "paths" (sp_SwaggerTemplate SwaggerInfo) with
  | Some paths => flat_map (fun item => map (fun op => (fst item, fst op, snd op)) (fields_of (snd item)))
                    (fields_of paths)
  | None => []
  end.

Definition needs_token (operation : json) : bool :=
  match field "security" operation with
  | Some (JArr requirements) =>
    existsb (fun r => match field "BearerAuth" r with Some _ => true | None => false end) requirements
  | _ => false
  end.

(** ["#/definitions/name"] *)
Definition definition_of (ref : string) : option json :=
  match field "definitions" (sp_SwaggerTemplate SwaggerInfo) with
  | Some definitions => field (TrimPrefix ref "#/definitions/") definitions
  | None => None
  end.

(** The value has the schema. References and nested schemas take fuel; the
    deepest of the document is eight levels. *)
Fixpoint has_schema (fuel : nat) (schema j : json) : bool :=
  match fuel with
  | O => false
  | S fuel =>
    match field "$ref" schema, field "allOf" schema, field "type" schema with
    | Some (JStr ref), _, _ =>
      match definition_of ref with Some schema => has_schema fuel schema j | None => false end
    | _, Some (JArr schemas), _ => forallb (fun schema => has_schema fuel schema j) schemas
    | _, _, Some (JStr "string") => match j with JStr _ => true | _ => false end
    | _, _, Some (JStr "integer") => match j with JNum _ => true | _ => false end
    | _, _, Some (JStr "array") =>
      match j, field "items" schema with
      | JArr l, Some items => forallb (has_schema fuel items) l
      | _, _ => false
      end
    | _, _, Some (JStr "object") =>
      match j, field "properties" schema with
      | JObj fields, Some properties =>
        forallb (fun property =>
                   match member (fst property) fields with
                   | Some v => has_schema fuel (snd property) v
                   | None => true
                   end) (fields_of properties)
      | _, _ => false
      end
    | None, None, None => true
    | _, _, _ => false
    end
  end.

Definition schema_fuel : nat := 8.

(** * The responses as JSON *)

(** [format] is [time.Time.MarshalJSON], without its quotes. *)
Section encoding.
Variable format : Z -> string.

Definition encode_user (u : UserInfoResponse) : json :=
  JObj ([("id", JNum (ui_ID u)); ("username", JStr (ui_Username u)); ("nickname", JStr (ui_Nickname u));
         ("status", JNum (ui_Status u))] ++
        match ui_LastLoginAt u with Some t => [("last_login_at", JStr (format t))] | None => [] end).

Definition encode_login (t : TokenAndUserInfoResponse) : json :=
  JObj [("access_token", JStr (tu_AccessToken t));
        ("access_token_expires_in", JNum (tu_AccessTokenExpiresIn t));
        ("refresh_token_expires_in", JNum (tu_RefreshTokenExpiresIn t)); ("user", encode_user (tu_User t))].

Definition encode_tokens (t : TokenPairResponse) : json :=
  JObj [("access_token", JStr (tp_AccessToken t));
        ("access_token_expires_in", JNum (tp_AccessTokenExpiresIn t));
        ("refresh_token_expires_in", JNum (tp_RefreshTokenExpiresIn t))].

Definition encode_authorization (a : AuthorizationInfoResponse) : json :=
  JObj [("role_codes", JArr (map JStr (ai_RoleCodes a)));
        ("permission_codes", JArr (map JStr (ai_PermissionCodes a)))].

Definition encode_role (r : RoleResponse) : json :=
  JObj [("id", JNum (rr_ID r)); ("code", JStr (rr_Code r)); ("name", JStr (rr_Name r))].

Definition encode_permission (p : PermissionResponse) : json :=
  JObj [("id", JNum (pr_ID p)); ("code", JStr (pr_Code p)); ("name", JStr (pr_Name p));
        ("method", JStr (pr_Method p)); ("path", JStr (pr_Path p))].

Definition encode_build (b : Info) : json :=
  JObj [("version", JStr (Version b)); ("commit", JStr (Commit b)); ("build_time", JStr (BuildTime b))].

Definition encode_data (d : data) : json :=
  match d with
  | NoData => JNull
  | DataUser u => encode_user u
  | DataLogin t => encode_login t
  | DataTokens t => encode_tokens t
  | DataAuthorization a => encode_authorization a
  | DataRoles l => JArr (map encode_role l)
  | DataPermissions l => JArr (map encode_permission l)
  | DataFields l => JObj (map (fun kv => (fst kv, JStr (snd kv))) l)
  | DataBuild b => encode_build b
  end.

Definition encode_response (r : Response) : json :=
  JObj [("code", JNum (resp_Code r)); ("msg", JStr (resp_Msg r)); ("data", encode_data (resp_Data r))].

(** The answer is one the document lists for the operation. *)
Definition documented (operation : json) (status : Z) (r : Response) : bool :=
  match field "responses" operation with
  | Some responses =>
    match field (format_int status) responses with
    | Some response =>
      match field "schema" response with
      | Some schema => has_schema schema_fuel schema (encode_response r)
      | None => true
      end
    | None => false
    end
  | None => false
  end.
End encoding.
