(* ===== verification/Middleware.v ===== *)
(** The middleware that decides who reaches a handler
    (src/internal/middleware), and the routes (src/router/router.go).

    A middleware ends without [c.Abort] where the code calls [c.Next]; the
    chain runs what follows only then. *)
From S2P Require Import Prelude GoTime GoStrings Sha256 GoErrors Model Gorm AuthState World.
From S2P Require Import Dao RefreshRepo RbacRepo TokenManager AuthService UserService RbacService.
From S2P Require Import Web Metrics UserHandler RbacHandler.

Definition RequestIDHeader : string := "X-Request-ID".
Definition RequestIDKey : string := "request_id".

Section middleware.
Context {STO : Storage} {G : Gorm} {SS : Store} {E : Env} {UT : UnicodeTables} {J : JWT}.
Context {B : Bcrypt} {JB : JSONBinding}.
Context {US : UserStore} {AUS : AuthUserStore}.
Context {RR : RefreshTokenRepository} {RB : RBACRepository}.

(** [response.Fail(...)], [c.Abort()], [return] *)
Definition abortWith (httpStatus code : Z) (msg : string) : H unit :=
  do! Fail httpStatus code msg in c_Abort.

(** * auth_middleware.go *)

Definition accessTokenError (err : error) : Z * string :=
  if errors_Is err jwt_ErrTokenMalformed then (CodeTokenMalformed, "token is malformed")
  else if errors_Is err jwt_ErrTokenSignatureInvalid
  then (CodeTokenSignatureInvalid, "token signature is invalid")
  else if errors_Is err jwt_ErrTokenExpired then (CodeTokenExpired, "token is expired")
  else (CodeTokenInvalid, "invalid token").

(** [validator] is the first of the optional arguments: none, or a session
    service that may be a nil pointer. *)
Definition AuthMiddleware (tokenManager : TokenManager) (validators : list (option AuthService))
    : H unit :=
  let! rq := request in
  let authHeader := rq_Header rq "Authorization" in
  when! String.eqb (TrimSpace authHeader) "" return!
    abortWith StatusUnauthorized CodeTokenMissing "authorization header is empty" in
  when! negb (HasPrefix authHeader "Bearer ") return!
    abortWith StatusUnauthorized CodeTokenInvalidFormat "invalid authorization Bearer" in
  let tokenString := TrimSpace (TrimPrefix authHeader "Bearer ") in
  when! String.eqb tokenString "" return!
    abortWith StatusUnauthorized CodeTokenInvalidFormat "invalid authorization header" in
  let! claims := call (ParseAccessToken tokenManager tokenString) in
  match claims with
  | inl err =>
    let '(code, msg) := accessTokenError err in abortWith StatusUnauthorized code msg
  | inr claims =>
    let! valid :=
      match head validators with
      | Some validator => call (ValidateAccessToken validator (Some claims))
      | None => ret (inr tt)
      end in
    match valid with
    | inl err =>
      match FromError err with
      | Some appErr =>
        if HTTPStatus appErr =? StatusServiceUnavailable
        then abortWith (HTTPStatus appErr) (Code appErr) (Message appErr)
        else abortWith StatusUnauthorized CodeTokenInvalid "invalid access session"
      | None => abortWith StatusUnauthorized CodeTokenInvalid "invalid access session"
      end
    | inr _ =>
      do! c_Set "user_id" (VInt64 (c_UserID claims)) in
      do! c_Set "username" (VString (c_Username claims)) in
      do! c_Set "access_token" (VString tokenString) in
      c_Set "access_jti" (VString (c_JTI claims))
    end
  end.

(** * permission_middleware.go *)

(** The checker is an interface: [None] is nil. *)
Definition RequirePermission (checker : option (option RBACService)) (permissionCode : string)
    : H unit :=
  match checker with
  | None => abortWith StatusInternalServerError CodeRBACFailed "权限配置错误"
  | Some s =>
    when! String.eqb (TrimSpace permissionCode) "" return!
      abortWith StatusInternalServerError CodeRBACFailed "权限配置错误" in
    let! caller := authenticatedUser in
    match caller with
    | None => c_Abort
    | Some userID =>
      let! allowed := call (HasPermission s userID permissionCode) in
      match allowed with
      | inl _ => abortWith StatusInternalServerError CodeRBACFailed "权限校验失败"
      | inr false => abortWith StatusForbidden CodePermissionDenied "无权限访问"
      | inr true => ret tt
      end
    end
  end.

(** * request_id_middleware.go *)

Definition lift {A} (m : M A) (k : A -> H unit) : H unit :=
  let! r := call m in match r with inr a => k a | inl _ => panic end.

Definition ensureRequestID (rq : Request) : M string :=
  let requestID := rq_Header rq RequestIDHeader in
  if String.eqb requestID "" then NewUUID else ret requestID.

Definition RequestID : H unit :=
  let! rq := request in
  lift (ensureRequestID rq) (fun requestID =>
  lift (if String.eqb requestID "" then NewUUID else ret requestID) (fun requestID =>
  do! c_Set RequestIDKey (VString requestID) in
  c_Header RequestIDHeader requestID)).

Definition GetRequestID (c : Context) : string :=
  match cx_Keys c !! RequestIDKey with
  | Some (VString requestID) => requestID
  | _ => ""
  end.

(** * recovery_middleware.go *)

(** A panic in what follows is caught; it is answered unless something was
    written already. *)
Definition Recovery (next : H unit) : H unit := fun cw =>
  match next cw with
  | (Panic, (c, w)) =>
    (if bool_decide (cx_Writes c = [])
     then do! Fail StatusInternalServerError CodeInternalError "server error" in c_Abort
     else c_Abort) (c, w)
  | r => r
  end.

(** * access_log_middleware.go *)

Definition access_level (status : Z) : LogLevel :=
  if 500 <=? status then LevelError else if 400 <=? status then LevelWarn else LevelInfo.

(** [fullPath] is [c.FullPath()]. No handler calls [c.Error], so there are no
    errors to log. *)
Definition AccessLog (fullPath : string) (next : H unit) : H unit :=
  lift Now (fun start =>
  let! rq := request in
  let! requestID := gets (fun '(c, w) => GetRequestID c) in
  do! next in
  let! status := gets (fun '(c, w) => cx_Status c) in
  lift Now (fun now =>
  on_context (add_log (mkLogEntry (access_level status) requestID (rq_Method rq) (rq_Path rq)
                         fullPath status (time_sub now start) (rq_ClientIP rq))))).

(** * Chains *)

(** Runs the handlers of a route in order until one aborts. *)
Fixpoint chain_of (handlers : list (H unit)) : H unit :=
  match handlers with
  | [] => ret tt
  | h :: rest =>
    do! h in
    let! aborted := gets (fun '(c, w) => cx_Aborted c) in
    when! aborted return! ret tt in
    chain_of rest
  end.

(** * router.go *)

Record Handlers := mkHandlers {
  hs_user : UserHandler;
  hs_rbac : RBACHandler;
  hs_health : HealthHandler;
  hs_system : SystemHandler;
  hs_tokenManager : TokenManager;
  hs_authService : option AuthService;
  hs_rbacService : option RBACService;
}.

Record Route := mkRoute {
  ro_Method : string;
  ro_Path : string;
  ro_Handlers : list (H unit);
}.

(** The routes with handlers of the repository; [registerSystemPages] is the
    one more that the function registers. *)
Definition registerSystemRoutes (hs : Handlers) : list Route :=
  [mkRoute "GET" "/ping" [PingHandler];
   mkRoute "GET" "/livez" [LivezHandler];
   mkRoute "GET" "/readyz" [ReadyzHandler (hs_health hs)];
   mkRoute "GET" "/version" [VersionHandler (hs_system hs)]].

(** Routes, by method and path, whose handlers are libraries':
    [gin.WrapH(metrics.Handler())] and the pages of gin-swagger. What they
    answer is [Server.gin_other]. *)
Definition registerSystemPages : list (string * string) := [("GET", "/metrics")].
Definition registerSwaggerRoutes : list (string * string) := [("GET", "/swagger/*any")].

Definition registerAuthRoutes (hs : Handlers) (registrationEnabled : bool) : list Route :=
  (if registrationEnabled
   then [mkRoute "POST" "/api/v1/auth/register" [RegisterHandler (hs_user hs)]] else []) ++
  [mkRoute "POST" "/api/v1/auth/login" [LoginHandler (hs_user hs)];
   mkRoute "POST" "/api/v1/auth/refresh" [RefreshTokenHandler (hs_user hs)];
   mkRoute "POST" "/api/v1/auth/logout" [LogoutHandler (hs_user hs)]].

Definition require (hs : Handlers) (permission : string) : H unit :=
  RequirePermission (Some (hs_rbacService hs)) permission.

Definition authenticate (hs : Handlers) : H unit :=
  AuthMiddleware (hs_tokenManager hs) [hs_authService hs].

Definition registerUsersRoutes (hs : Handlers) : list Route :=
  [mkRoute "GET" "/api/v1/users/me"
     [authenticate hs; require hs PermissionProfileRead; MeHandler (hs_user hs)];
   mkRoute "GET" "/api/v1/users/me/authorization"
     [authenticate hs; GetMyAuthorizationHandler (hs_rbac hs)];
   mkRoute "PUT" "/api/v1/users/me/profile"
     [authenticate hs; require hs PermissionProfileUpdate; UpdateProfileHandler (hs_user hs)];
   mkRoute "PATCH" "/api/v1/users/me/update/password"
     [authenticate hs; require hs PermissionPasswordUpdate; UpdateUserPasswordHandler (hs_user hs)]].

Definition registerAdminRoutes (hs : Handlers) : list Route :=
  [mkRoute "GET" "/api/v1/admin/roles"
     [authenticate hs; require hs PermissionAdminRolesRead; ListRolesHandler (hs_rbac hs)];
   mkRoute "GET" "/api/v1/admin/permissions"
     [authenticate hs; require hs PermissionAdminPermsRead; ListPermissionsHandler (hs_rbac hs)];
   mkRoute "PUT" "/api/v1/admin/users/:id/roles"
     [authenticate hs; require hs PermissionAdminUserRoleEdit; AssignUserRolesHandler (hs_rbac hs)]].

Definition registerAPIRoutes (hs : Handlers) (registrationEnabled : bool) : list Route :=
  registerAuthRoutes hs registrationEnabled ++ registerUsersRoutes hs ++ registerAdminRoutes hs.

(** The routes of the service with handlers of the repository. *)
Definition routes (hs : Handlers) (registrationEnabled : bool) : list Route :=
  registerSystemRoutes hs ++ registerAPIRoutes hs registrationEnabled.

(** Everything [SetupRouter] registers, by method and path, in its order. *)
Definition registeredRoutes (hs : Handlers) (registrationEnabled : bool) : list (string * string) :=
  let name r := (ro_Method r, ro_Path r) in
  map name (registerSystemRoutes hs) ++ registerSystemPages ++ registerSwaggerRoutes ++
  map name (registerAPIRoutes hs registrationEnabled).

(** What [SetupRouter] builds from the database, the state store and the
    limits of the runtime. *)
Definition SetupHandlers (db : bool) (healthDB : option HealthDB) (tokenManager : TokenManager)
    (stateStore : bool) (limit : LoginRateLimit) (secureCookies : bool) (build : Info) : Handlers :=
  let userService := NewUserService db in
  let authService := if stateStore then NewAuthServiceWithState db true limit
                     else NewAuthService db in
  let healthCheckers := if stateStore then [Some (on_store st_Ping)] else [] in
  let rbacService := NewRBACService db in
  mkHandlers (NewUserHandlerWithOptions userService tokenManager secureCookies [authService])
    (NewRBACHandler rbacService) (NewHealthHandlerWithRecorder healthDB true healthCheckers)
    (NewSystemHandler build) tokenManager authService rbacService.

(** A request to a route, behind the middleware of the engine. *)
Definition serve (route : Route) : H unit :=
  do! RequestID in
  do! RouteMiddleware (ro_Path route) in
  AccessLog (ro_Path route) (Recovery (chain_of (ro_Handlers route))).

End middleware.
