(* ===== verification/Server.v ===== *)
(** The handler that [SetupRouter] returns (src/router/router.go): gin's
    engine over the routes, behind the timeout
    (src/internal/middleware/timeout__middleware.go) and the metrics.

    Matching a path to a route, writing an answer to the wire and checking
    the trusted proxies are gin's: the class [Gin]. [http.TimeoutHandler] is
    net/http's; which of its three ends a request takes is the [verdict]. *)
From S2P Require Import Prelude GoTime GoStrings GoNet GoErrors Model Gorm AuthState World.
From S2P Require Import Dao RefreshRepo RbacRepo TokenManager AuthService UserService RbacService.
From S2P Require Import Web Metrics UserHandler RbacHandler Middleware.

(** * timeout__middleware.go *)

Definition quoted (s : string) : string := String "034" (s +:+ String "034" "").

(** [json.Marshal(response.Response{Code: code, Msg: msg})] for a message that
    needs no escapes. *)
Definition json_Response (code : Z) (msg : string) : string :=
  "{" +:+ quoted "code" +:+ ":" +:+ format_int code +:+ "," +:+ quoted "msg" +:+ ":" +:+ quoted msg
  +:+ "," +:+ quoted "data" +:+ ":null}".

Definition timeout_body : string := json_Response CodeRequestTimeout "request timeout".

(** How [http.TimeoutHandler] ends a request: the handler finished, the
    deadline passed, or the client went away; in the last two, whether the
    router had stored the route by then. *)
Inductive verdict := Finished | DeadlineExceeded (routed : bool) | Canceled (routed : bool).

(** The buffer of [http.TimeoutHandler]. *)
Definition tw_code (calls : list rw_call) : Z :=
  match calls with WriteHeader status :: _ => status | _ => StatusOK end.

Fixpoint tw_body (calls : list rw_call) : string :=
  match calls with
  | [] => ""
  | WriteHeader _ :: rest => tw_body rest
  | Write body :: rest => body +:+ tw_body rest
  end.

(** The handler [next] is not stopped at the deadline: it goes on in its own
    goroutine, and what it does to the world and the log by its end is kept;
    what it writes is not. *)
Definition answer_late (routed : bool) (calls : list rw_call) (x x1 : Exchange) : Exchange :=
  mkExchange (ex_Header x) (ex_Cookies x) (ex_Calls x ++ calls)
    (if routed then ex_Route x1 else ex_Route x) (ex_Metrics x1) (ex_Log x1).

(** The buffer is copied: the headers replace those of the writer. *)
Definition answer_buffered (x x1 : Exchange) : Exchange :=
  mkExchange (ex_Header x1 ∪ ex_Header x) (ex_Cookies x ++ ex_Cookies x1)
    (ex_Calls x ++ [WriteHeader (tw_code (ex_Calls x1)); Write (tw_body (ex_Calls x1))])
    (ex_Route x1) (ex_Metrics x1) (ex_Log x1).

Section server.
Context {STO : Storage} {G : Gorm} {SS : Store} {E : Env} {UT : UnicodeTables} {J : JWT}.
Context {B : Bcrypt} {JB : JSONBinding}.
Context {US : UserStore} {AUS : AuthUserStore}.
Context {RR : RefreshTokenRepository} {RB : RBACRepository}.

Definition http_TimeoutHandler (v : verdict) (body : string) (next : http_Handler) : http_Handler :=
  fun rq '(x, w) =>
  let fresh := mkExchange ∅ [] [] (ex_Route x) (ex_Metrics x) (ex_Log x) in
  let '(r, (x1, w1)) := next rq (fresh, w) in
  match v with
  | Finished =>
    match r with
    | Ok _ => (Ok tt, (answer_buffered x x1, w1))
    | _ => (r, (answer_late true [] x x1, w1))
    end
  | DeadlineExceeded routed =>
    (Ok tt, (answer_late routed [WriteHeader StatusServiceUnavailable; Write body] x x1, w1))
  | Canceled routed => (Ok tt, (answer_late routed [WriteHeader StatusServiceUnavailable] x x1, w1))
  end.

(** [requestID := ensureRequestID(r)] *)
Definition http_ensureRequestID (rq : Request) : HT string := fun '(x, w) =>
  match ensureRequestID rq w with
  | (Ok id, w') => (Ok id, (x, w'))
  | (_, w') => (Panic, (x, w'))
  end.

(** The marshalling of the body cannot fail; its fallback is left out. *)
Definition TimeoutHandler (v : verdict) (next : http_Handler) (timeout : Z) : http_Handler :=
  if timeout <=? 0 then next
  else fun rq =>
    let! requestID := http_ensureRequestID rq in
    do! on_exchange (put_header RequestIDHeader requestID) in
    do! on_exchange (put_header "Content-Type" "application/json;charset=utf-8") in
    http_TimeoutHandler v timeout_body next rq.

(** * router.go *)

Class Gin := {
  (** [r.SetTrustedProxies(proxies)] *)
  gin_SetTrustedProxies : list string -> option error;
  (** the route for a method and a path *)
  gin_match : list Route -> string -> string -> option Route;
  (** what the answers of a context make on the wire *)
  gin_render : Context -> list rw_call;
  (** what none of the routes with handlers of the repository matches: the
      pages of Swagger and of the metrics ([Middleware.registerSystemPages],
      [registerSwaggerRoutes]), and what is not found *)
  gin_other : Request -> ST Empty_set World Exchange;
}.

Context {GIN : Gin}.

Definition put_headers (l : list (string * string)) (m : gmap string string) : gmap string string :=
  fold_left (fun m kv => <[kv.1 := kv.2]> m) l m.

(** What a context leaves on the exchange. *)
Definition render (x : Exchange) (c : Context) : Exchange :=
  mkExchange (put_headers (cx_Headers c) (ex_Header x)) (ex_Cookies x ++ cx_Cookies c)
    (ex_Calls x ++ gin_render c)
    (match cx_Route c with Some r => Some r | None => ex_Route x end)
    (ex_Metrics x ++ map ready_call (cx_Ready c)) (ex_Log x ++ cx_Log c).

(** What [gin_other] did, on the exchange; the metrics are not its. *)
Definition render_other (x y : Exchange) : Exchange :=
  mkExchange (ex_Header y ∪ ex_Header x) (ex_Cookies x ++ ex_Cookies y) (ex_Calls x ++ ex_Calls y)
    (match ex_Route y with Some r => Some r | None => ex_Route x end)
    (ex_Metrics x) (ex_Log x ++ ex_Log y).

(** The engine as an [http.Handler]. *)
Definition engine (rs : list Route) : http_Handler := fun rq '(x, w) =>
  match gin_match rs (rq_Method rq) (rq_Path rq) with
  | Some route =>
    let '(r, (c, w')) := serve route (new_context rq, w) in (r, (render x c, w'))
  | None =>
    match gin_other rq w with
    | (Ok y, w') => (Ok tt, (render_other x y, w'))
    | (_, w') => (Panic, (x, w'))
    end
  end.

Record AuthRuntime := mkAuthRuntime {
  (** whether there is a state store; the store is that of the world *)
  ar_StateStore : bool;
  ar_LoginRateLimit : LoginRateLimit;
  ar_RegistrationEnabled : option bool;
  ar_SecureCookies : bool;
  ar_TrustedProxies : list string;
  ar_RequestTimeout : Z;
}.

Definition zero_runtime : AuthRuntime :=
  mkAuthRuntime false (mkLoginRateLimit 0 0 0) None false [] 0.

(** The text of [panic(fmt.Sprintf("configure trusted proxies: %v", err))] or
    the handler. A request brings its verdict. *)
Definition SetupRouter (db : bool) (healthDB : option HealthDB) (tokenManager : TokenManager)
    (build : Info) (runtimes : list AuthRuntime) : string + (verdict -> http_Handler) :=
  let runtime := default zero_runtime (head runtimes) in
  match gin_SetTrustedProxies (ar_TrustedProxies runtime) with
  | Some err => inl ("configure trusted proxies: " +:+ error_string err)
  | None =>
    let handlers := SetupHandlers db healthDB tokenManager (ar_StateStore runtime)
                      (ar_LoginRateLimit runtime) (ar_SecureCookies runtime) build in
    let registrationEnabled := default true (ar_RegistrationEnabled runtime) in
    inr (fun v => HTTPHandler (TimeoutHandler v (engine (routes handlers registrationEnabled))
                                 (ar_RequestTimeout runtime)))
  end.

(** What is relied on of gin. *)
Class GinLaws : Prop := {
  (** Addresses and CIDRs are accepted. *)
  proxies_law : forall l,
    Forall (fun p => ParseIP p || ParseCIDR p = true) l -> gin_SetTrustedProxies l = None;
  match_law : forall rs method path route,
    gin_match rs method path = Some route -> In route rs /\ ro_Method route = method;
  (** The first answer sets the status, and its body follows. *)
  render_law : forall c, cx_Writes c <> [] ->
    exists body rest, gin_render c = WriteHeader (cx_Status c) :: Write body :: map Write rest;
}.
End server.
