(* ===== verification/Config.v ===== *)
(** The configuration (src/config/config.go): its file, the environment
    variables that override it, the defaults and the validation.

    The operating system, the YAML decoder and godotenv are given by the class
    [System]; the file system and the environment do not change while the
    configuration is loaded. *)
From S2P Require Import Prelude GoTime GoStrings GoNet GoPath GoErrors AuthService.

(** * Data *)

Record ServerConfig := mkServerConfig { sc_Port : Z }.

Record MySQLConfig := mkMySQLConfig {
  my_Host : string;
  my_Port : string;
  my_User : string;
  my_Database : string;
  my_MaxOpenConns : Z;
  my_MaxIdleConns : Z;
  my_ConnMaxLifetime : Z;
  my_ConnMaxIdleTime : Z;
  my_PingTimeout : Z;
}.

Record RedisConfig := mkRedisConfig {
  rc_Enabled : bool;
  rc_Address : string;
  rc_Password : string;
  rc_DB : Z;
  rc_DialTimeout : Z;
  rc_ReadTimeout : Z;
  rc_WriteTimeout : Z;
  rc_PingTimeout : Z;
}.

Record RefreshCookieConfig := mkRefreshCookieConfig { rk_Secure : bool }.

Record RegistrationConfig := mkRegistrationConfig { rg_Enabled : option bool }.

Record LoginRateLimitConfig := mkLoginRateLimitConfig {
  rl_AccountLimit : Z;
  rl_IPLimit : Z;
  rl_Window : Z;
}.

Record AuthConfig := mkAuthConfig {
  ac_Registration : RegistrationConfig;
  ac_LoginRateLimit : LoginRateLimitConfig;
  ac_RefreshCookie : RefreshCookieConfig;
}.

Record JWTConfig := mkJWTConfig {
  jc_ExpireHours : Z;
  jc_AccessTokenExpireMinutes : Z;
  jc_RefreshTokenExpireHours : Z;
  jc_Algorithm : string;
  jc_Secret : string;
}.

Record HttpServerConfig := mkHttpServerConfig {
  hc_ReadTimeOut : Z;
  hc_WriteTimeout : Z;
  hc_IdleTimeout : Z;
  hc_ReadHeaderTimeout : Z;
  hc_MaxHeaderBytesKib : Z;
  hc_Timeout : Z;
}.

Record HttpServer := mkHttpServer {
  hs_Server : HttpServerConfig;
  hs_TrustedProxies : list string;
}.

Record Config := mkConfig {
  Environment : string;
  Server : ServerConfig;
  MySQL : MySQLConfig;
  Redis : RedisConfig;
  cfg_JWT : JWTConfig;
  cfg_Auth : AuthConfig;
  cfg_HttpServer : HttpServer;
}.

Definition RegistrationEnabled (c : AuthConfig) : bool :=
  match rg_Enabled (ac_Registration c) with None => true | Some b => b end.

(** * Errors *)

Definition ErrReadConfigFileFailed : error := Sentinel "config.ErrReadConfigFileFailed".
Definition ErrUnmarshalConfigFileDataFailed : error :=
  Sentinel "config.ErrUnmarshalConfigFileDataFailed".
Definition ErrInvalidServerPort : error := Sentinel "config.ErrInvalidServerPort".
Definition ErrInvalidExpireHours : error := Sentinel "config.ErrInvalidExpireHours".
Definition ErrInvalidMySQLPort : error := Sentinel "config.ErrInvalidMySQLPort".
Definition ErrMySQLDatabaseNotFound : error := Sentinel "config.ErrMySQLDatabaseNotFound".
Definition ErrMySQLUserNotFound : error := Sentinel "config.ErrMySQLUserNotFound".
Definition ErrMySQLHostNotFound : error := Sentinel "config.ErrMySQLHostNotFound".
Definition ErrInvalidHttpServerReadTimeout : error := Sentinel "config.ErrInvalidHttpServerReadTimeout".
Definition ErrInvalidHttpServerWriteTimeout : error :=
  Sentinel "config.ErrInvalidHttpServerWriteTimeout".
Definition ErrInvalidHttpServerIdleTimeout : error := Sentinel "config.ErrInvalidHttpServerIdleTimeout".
Definition ErrInvalidHttpServerReadHeaderTimeout : error :=
  Sentinel "config.ErrInvalidHttpServerReadHeaderTimeout".
Definition ErrInvalidHttpServerMaxHeaderBytes : error :=
  Sentinel "config.ErrInvalidHttpServerMaxHeaderBytes".
Definition ErrInvalidHttpServerTimeout : error := Sentinel "config.ErrInvalidHttpServerTimeout".
Definition ErrMySQLMaxOpenConnsFailed : error := Sentinel "config.ErrMySQLMaxOpenConnsFailed".
Definition ErrMySQLMaxIdleConnsFailed : error := Sentinel "config.ErrMySQLMaxIdleConnsFailed".
Definition ErrMySQLInvalidConnMaxIdleTime : error := Sentinel "config.ErrMySQLInvalidConnMaxIdleTime".
Definition ErrMySQLInvalidConnMaxLifetime : error := Sentinel "config.ErrMySQLInvalidConnMaxLifetime".
Definition ErrMySQLInvalidPingTimeout : error := Sentinel "config.ErrMySQLInvalidPingTimeout".
Definition ErrRedisAddressEmpty : error := Sentinel "config.ErrRedisAddressEmpty".
Definition ErrRedisDBInvalid : error := Sentinel "config.ErrRedisDBInvalid".
Definition ErrRedisTimeoutInvalid : error := Sentinel "config.ErrRedisTimeoutInvalid".
Definition ErrLoginRateLimitInvalid : error := Sentinel "config.ErrLoginRateLimitInvalid".
Definition ErrEnvironmentInvalid : error := Sentinel "config.ErrEnvironmentInvalid".
Definition ErrTrustedProxyInvalid : error := Sentinel "config.ErrTrustedProxyInvalid".
Definition ErrProductionRedisRequired : error := Sentinel "config.ErrProductionRedisRequired".
Definition ErrProductionSecureCookieRequired : error :=
  Sentinel "config.ErrProductionSecureCookieRequired".

(** [fmt.Errorf("%w: ...", errs...)]; the text is that of the first error. *)
Definition wrapping (errs : list error) : error :=
  Wrapped (match errs with e :: _ => error_string e | [] => "" end) errs.

(** * Validate *)

(** The loop over the trusted proxies: the first that is neither an address
    nor a CIDR. *)
Fixpoint invalid_proxy (proxies : list string) : option string :=
  match proxies with
  | [] => None
  | p :: rest => if ParseIP p then invalid_proxy rest
                 else if ParseCIDR p then invalid_proxy rest else Some p
  end.

Definition validate_redis (redis : RedisConfig) : res unit :=
  when! String.eqb (rc_Address redis) "" return! Err ErrRedisAddressEmpty in
  when! rc_DB redis <? 0 return! Err ErrRedisDBInvalid in
  when! (rc_DialTimeout redis <=? 0) || (rc_ReadTimeout redis <=? 0)
        || (rc_WriteTimeout redis <=? 0) || (rc_PingTimeout redis <=? 0)
    return! Err ErrRedisTimeoutInvalid in
  Ok tt.

Definition Validate (c : Config) : res unit :=
  let server := Server c in
  let mysql := MySQL c in
  let jwt := cfg_JWT c in
  let http := hs_Server (cfg_HttpServer c) in
  let loginRateLimit := ac_LoginRateLimit (cfg_Auth c) in
  when! negb (bool_decide (Environment c ∈ ["development"; "test"; "production"]))
    return! Err (wrapping [ErrEnvironmentInvalid]) in
  when! sc_Port server <=? 0 return! Err ErrInvalidServerPort in
  when! jc_ExpireHours jwt <=? 0 return! Err ErrInvalidExpireHours in
  when! jc_AccessTokenExpireMinutes jwt <=? 0 return! Err ErrInvalidExpireHours in
  when! jc_RefreshTokenExpireHours jwt <=? 0 return! Err ErrInvalidExpireHours in
  when! negb (String.eqb (jc_Algorithm jwt) "HS256")
    return! Err (Plain ("invalid JWT algorithm: " +:+ jc_Algorithm jwt +:+ " (supported: HS256)")) in
  when! len (jc_Secret jwt) <? 32
    return! Err (Plain ("invalid JWT secret: must be at least 32 characters (got "
                        +:+ format_int (len (jc_Secret jwt)) +:+ ")")) in
  when! String.eqb (my_Host mysql) "" return! Err ErrMySQLHostNotFound in
  when! match Atoi (my_Port mysql) with
        | None => true
        | Some mysqlPort => (mysqlPort <=? 0) || (65535 <? mysqlPort)
        end
    return! Err ErrInvalidMySQLPort in
  when! String.eqb (my_Database mysql) "" return! Err ErrMySQLDatabaseNotFound in
  when! String.eqb (my_User mysql) "" return! Err ErrMySQLUserNotFound in
  when! hc_ReadTimeOut http <=? 0 return! Err ErrInvalidHttpServerReadTimeout in
  when! hc_WriteTimeout http <=? 0 return! Err ErrInvalidHttpServerWriteTimeout in
  when! hc_IdleTimeout http <=? 0 return! Err ErrInvalidHttpServerIdleTimeout in
  when! hc_ReadHeaderTimeout http <=? 0 return! Err ErrInvalidHttpServerReadHeaderTimeout in
  when! hc_MaxHeaderBytesKib http <=? 0 return! Err ErrInvalidHttpServerMaxHeaderBytes in
  when! hc_Timeout http <=? 0 return! Err ErrInvalidHttpServerTimeout in
  when! my_MaxOpenConns mysql <=? 0 return! Err ErrMySQLMaxOpenConnsFailed in
  when! (my_MaxIdleConns mysql <? 0) || (my_MaxOpenConns mysql <? my_MaxIdleConns mysql)
    return! Err ErrMySQLMaxIdleConnsFailed in
  when! my_ConnMaxIdleTime mysql <=? 0 return! Err ErrMySQLInvalidConnMaxIdleTime in
  when! my_ConnMaxLifetime mysql <=? 0 return! Err ErrMySQLInvalidConnMaxLifetime in
  when! my_PingTimeout mysql <=? 0 return! Err ErrMySQLInvalidPingTimeout in
  match (if rc_Enabled (Redis c) then validate_redis (Redis c) else Ok tt) with
  | Ok _ =>
    when! (rl_AccountLimit loginRateLimit <=? 0) || (rl_IPLimit loginRateLimit <=? 0)
          || (rl_Window loginRateLimit <=? 0)
      return! Err ErrLoginRateLimitInvalid in
    match invalid_proxy (hs_TrustedProxies (cfg_HttpServer c)) with
    | Some _ => Err (wrapping [ErrTrustedProxyInvalid])
    | None =>
      if String.eqb (Environment c) "production" then
        when! negb (rc_Enabled (Redis c)) return! Err ErrProductionRedisRequired in
        when! negb (rk_Secure (ac_RefreshCookie (cfg_Auth c)))
          return! Err ErrProductionSecureCookieRequired in
        Ok tt
      else Ok tt
    end
  | r => r
  end.

(** * applyDefaults *)

Definition default_Z (d z : Z) : Z := if z =? 0 then d else z.
Definition default_string (d s : string) : string := if String.eqb s "" then d else s.

Definition default_http (http : HttpServerConfig) : HttpServerConfig :=
  mkHttpServerConfig
    (default_Z (5 * Second) (hc_ReadTimeOut http))
    (default_Z (10 * Second) (hc_WriteTimeout http))
    (default_Z (60 * Second) (hc_IdleTimeout http))
    (default_Z (2 * Second) (hc_ReadHeaderTimeout http))
    (default_Z 512 (hc_MaxHeaderBytesKib http))
    (hc_Timeout http).

Definition default_redis (redis : RedisConfig) : RedisConfig :=
  mkRedisConfig (rc_Enabled redis)
    (default_string "127.0.0.1:6379" (rc_Address redis))
    (rc_Password redis) (rc_DB redis)
    (default_Z (3 * Second) (rc_DialTimeout redis))
    (default_Z (2 * Second) (rc_ReadTimeout redis))
    (default_Z (2 * Second) (rc_WriteTimeout redis))
    (default_Z (3 * Second) (rc_PingTimeout redis)).

Definition default_jwt (jwt : JWTConfig) : JWTConfig :=
  mkJWTConfig (jc_ExpireHours jwt)
    (if (jc_AccessTokenExpireMinutes jwt =? 0) && (0 <? jc_ExpireHours jwt)
     then mul64 (jc_ExpireHours jwt) 60 else jc_AccessTokenExpireMinutes jwt)
    (default_Z (24 * 7) (jc_RefreshTokenExpireHours jwt))
    (default_string "HS256" (jc_Algorithm jwt))
    (jc_Secret jwt).

Definition default_rate_limit (l : LoginRateLimitConfig) : LoginRateLimitConfig :=
  mkLoginRateLimitConfig
    (default_Z 5 (rl_AccountLimit l)) (default_Z 20 (rl_IPLimit l))
    (default_Z (15 * Minute) (rl_Window l)).

Section load.
Context {UT : UnicodeTables}.

Definition applyDefaults (cfg : Config) : Config :=
  mkConfig
    (if String.eqb (TrimSpace (Environment cfg)) "" then "development"
     else ToLower unicode_to_lower (TrimSpace (Environment cfg)))
    (Server cfg) (MySQL cfg) (default_redis (Redis cfg)) (default_jwt (cfg_JWT cfg))
    (mkAuthConfig (ac_Registration (cfg_Auth cfg)) (default_rate_limit (ac_LoginRateLimit (cfg_Auth cfg)))
       (ac_RefreshCookie (cfg_Auth cfg)))
    (mkHttpServer (default_http (hs_Server (cfg_HttpServer cfg)))
       (hs_TrustedProxies (cfg_HttpServer cfg))).

(** * applyEnvOverrides *)

Definition splitCommaSeparated (value : string) : list string :=
  List.filter (fun s => negb (String.eqb s "")) (map TrimSpace (split_byte ","%char value)).

(** [strconv.Atoi] or [ParseBool] failed on [v]. *)
Definition parse_failure (func v : string) : error := Plain ("strconv." +:+ func +:+ ": parsing " +:+ v).
Definition invalid_env (name : string) (cause : error) : error :=
  Wrapped ("invalid " +:+ name +:+ ": " +:+ error_string cause) [cause].

Section env.
Variable Getenv : string -> string.

Definition env_string (name old : string) : string :=
  if String.eqb (Getenv name) "" then old else Getenv name.

Definition env_int (name : string) (old : Z) : res Z :=
  if String.eqb (Getenv name) "" then Ok old
  else match Atoi (Getenv name) with
       | Some n => Ok n
       | None => Err (invalid_env name (parse_failure "Atoi" (Getenv name)))
       end.

Definition env_bool {A} (name : string) (old : A) (set : bool -> A) : res A :=
  if String.eqb (Getenv name) "" then Ok old
  else match ParseBool (Getenv name) with
       | Some b => Ok (set b)
       | None => Err (invalid_env name (parse_failure "ParseBool" (Getenv name)))
       end.

Definition and_then {A B} (r : res A) (k : A -> res B) : res B :=
  match r with Ok a => k a | Err e => Err e | Panic => Panic end.

(** The first value that does not parse ends the function; its caller drops
    the configuration then, so the fields set before are not modelled. *)
Definition applyEnvOverrides (cfg : Config) : res Config :=
  let mysql := MySQL cfg in
  let redis := Redis cfg in
  let jwt := cfg_JWT cfg in
  let environment := if String.eqb (Getenv "APP_ENV") "" then Environment cfg
                     else ToLower unicode_to_lower (TrimSpace (Getenv "APP_ENV")) in
  and_then (env_int "APP_PORT" (sc_Port (Server cfg))) (fun port =>
  and_then (env_bool "REDIS_ENABLED" (rc_Enabled redis) id) (fun redisEnabled =>
  and_then (env_int "REDIS_DB" (rc_DB redis)) (fun db =>
  and_then (env_int "JWT_EXPIRE_HOURS" (jc_ExpireHours jwt)) (fun hours =>
  and_then (env_int "JWT_ACCESS_TOKEN_EXPIRE_MINUTES" (jc_AccessTokenExpireMinutes jwt)) (fun minutes =>
  and_then (env_int "JWT_REFRESH_TOKEN_EXPIRE_HOURS" (jc_RefreshTokenExpireHours jwt)) (fun refreshHours =>
  and_then (env_bool "REGISTRATION_ENABLED" (rg_Enabled (ac_Registration (cfg_Auth cfg))) Some) (fun enabled =>
  and_then (env_bool "COOKIE_SECURE" (rk_Secure (ac_RefreshCookie (cfg_Auth cfg))) id) (fun secure =>
  Ok (mkConfig environment (mkServerConfig port)
        (mkMySQLConfig (env_string "DB_HOST" (my_Host mysql)) (env_string "DB_PORT" (my_Port mysql))
           (env_string "DB_USER" (my_User mysql)) (env_string "DB_NAME" (my_Database mysql))
           (my_MaxOpenConns mysql) (my_MaxIdleConns mysql) (my_ConnMaxLifetime mysql)
           (my_ConnMaxIdleTime mysql) (my_PingTimeout mysql))
        (mkRedisConfig redisEnabled (env_string "REDIS_ADDR" (rc_Address redis))
           (env_string "REDIS_PASSWORD" (rc_Password redis)) db (rc_DialTimeout redis)
           (rc_ReadTimeout redis) (rc_WriteTimeout redis) (rc_PingTimeout redis))
        (mkJWTConfig hours minutes refreshHours (jc_Algorithm jwt)
           (env_string "JWT_SECRET" (jc_Secret jwt)))
        (mkAuthConfig (mkRegistrationConfig enabled) (ac_LoginRateLimit (cfg_Auth cfg))
           (mkRefreshCookieConfig secure))
        (mkHttpServer (hs_Server (cfg_HttpServer cfg))
           (if String.eqb (Getenv "TRUSTED_PROXIES") "" then hs_TrustedProxies (cfg_HttpServer cfg)
            else splitCommaSeparated (Getenv "TRUSTED_PROXIES")))))))))))).
End env.

(** * Finding and loading the file *)

Class System := {
  (** [os.Stat]: whether the path is a directory *)
  os_Stat : string -> option bool;
  os_ReadFile : string -> error + string;
  os_Getwd : option string;
  (** the file of [runtime.Caller(0)] *)
  runtime_Caller : option string;
  os_Executable : option string;
  os_Getenv : string -> string;
  yaml_Unmarshal : string -> error + Config;
  (** [godotenv.Load(path)] and [godotenv.Load()] *)
  godotenv_Load : option string -> option error;
}.

Context {SYS : System}.

(** [filepath.Abs] *)
Definition Abs (path : string) : option string :=
  if IsAbs path then Some (Clean path)
  else option_map (fun wd => Join wd path) os_Getwd.

Definition is_file (path : string) : bool :=
  match os_Stat path with Some is_dir => negb is_dir | None => false end.

(** The endless loop up the directories; [None] when the fuel runs out. *)
Fixpoint findFileUpwardFrom (fuel : nat) (dir name : string) : option (option string) :=
  match fuel with
  | O => None
  | S fuel =>
    let candidate := Join dir name in
    when! is_file candidate return! Some (Some candidate) in
    let parent := Dir dir in
    when! String.eqb parent dir return! Some None in
    findFileUpwardFrom fuel parent name
  end.

(** Enough for a directory that [filepath.Abs] returned. *)
Definition upward_fuel (dir : string) : nat := S (String.length dir).

Definition addDir (dirs : list string) (dir : string) : list string :=
  if String.eqb dir "" then dirs
  else match Abs dir with
       | None => dirs
       | Some absDir => if bool_decide (absDir ∈ dirs) then dirs else dirs ++ [absDir]
       end.

Definition searchStartDirs : list string :=
  let dirs := match os_Getwd with Some dir => addDir [] dir | None => [] end in
  let dirs := match runtime_Caller with Some file => addDir dirs (Dir file) | None => dirs end in
  match os_Executable with Some exePath => addDir dirs (Dir exePath) | None => dirs end.

Fixpoint search_dirs (dirs : list string) (name : string) : option (option string) :=
  match dirs with
  | [] => Some None
  | dir :: rest =>
    match findFileUpwardFrom (upward_fuel dir) dir name with
    | None => None
    | Some (Some path) => Some (Some path)
    | Some None => search_dirs rest name
    end
  end.

Definition findFileUpward (name : string) : option (option string) :=
  if IsAbs name then Some (if is_file name then Some name else None)
  else search_dirs searchStartDirs name.

(** [os.ErrNotExist] *)
Definition os_ErrNotExist : string := "os.ErrNotExist".

Definition loadEnvFile (name : string) : option (option error) :=
  option_map (fun found =>
    match found with
    | Some path => godotenv_Load (Some path)
    | None => godotenv_Load None
    end) (findFileUpward name).

Definition LoadEnv : option (option error) :=
  option_map (fun failed =>
    match failed with
    | Some err => if errors_Is err os_ErrNotExist then None
                  else Some (Wrapped "load env file failed" [err])
    | None => None
    end) (loadEnvFile ".env").

Definition load_from (resolvedPath : string) : res Config :=
  match os_ReadFile resolvedPath with
  | inl err => Err (wrapping [ErrReadConfigFileFailed; err])
  | inr data =>
    match yaml_Unmarshal data with
    | inl err => Err (wrapping [ErrUnmarshalConfigFileDataFailed; err])
    | inr cfg =>
      and_then (applyEnvOverrides os_Getenv cfg) (fun cfg =>
      let cfg := applyDefaults cfg in
      and_then (Validate cfg) (fun _ => Ok cfg))
    end
  end.

Definition Load (path : string) : option (res Config) :=
  match os_Stat path with
  | Some _ => Some (load_from path)
  | None => option_map (fun found => load_from (default path found)) (findFileUpward path)
  end.

End load.
