(* ===== verification/Database.v ===== *)
(** Opening and closing the connections of the process: MySQL for the service
    (src/pkg/database/db.go) and for the migrations
    (src/pkg/database/migration.go), and Redis
    (src/pkg/redisclient/client.go).

    The drivers are libraries: the class [Drivers] has their calls, over an
    unknown state [OS] of everything outside the process, and [DriversLaws]
    says what they do to the set of open connections. *)
From S2P Require Import Prelude GoTime GoStrings GoErrors Config.

(** * Drivers *)

(** [sqlDB.SetMaxOpenConns(n)] and its three siblings. *)
Inductive pool_setting :=
| MaxOpenConns (n : Z)
| MaxIdleConns (n : Z)
| ConnMaxIdleTime (d : Z)
| ConnMaxLifetime (d : Z).

(** [mysqldriver.Config], as [NewConfig] makes it and the program fills it. *)
Record MySQLDriverConfig := mkDriverConfig {
  dc_User : string;
  dc_Passwd : string;
  dc_Net : string;
  dc_Addr : string;
  dc_DBName : string;
  dc_ParseTime : bool;
  dc_MultiStatements : bool;
}.

(** [redis.Options] *)
Record RedisOptions := mkRedisOptions {
  ro_Addr : string;
  ro_Password : string;
  ro_DB : Z;
  ro_DialTimeout : Z;
  ro_ReadTimeout : Z;
  ro_WriteTimeout : Z;
}.

Class Drivers := {
  OS : Type;
  GormDB : Type;
  SqlDB : Type;
  RedisConn : Type;
  (** [gorm.Open(mysql.Open(dsn), &gorm.Config{})] and [gormDB.DB()] *)
  gorm_Open : string -> ST error OS GormDB;
  gorm_DB : GormDB -> ST error OS SqlDB;
  (** [sql.Open("mysql", dsn)] *)
  sql_Open : string -> ST error OS SqlDB;
  sql_Set : SqlDB -> pool_setting -> ST error OS unit;
  (** [db.PingContext] under a timeout *)
  sql_Ping : SqlDB -> Z -> ST error OS unit;
  sql_Close : SqlDB -> ST error OS unit;
  mysql_FormatDSN : MySQLDriverConfig -> string;
  redis_NewClient : RedisOptions -> ST error OS RedisConn;
  (** [client.Ping] under a timeout *)
  redis_Ping : RedisConn -> Z -> ST error OS unit;
  redis_Close : RedisConn -> ST error OS unit;
  (** [goose.SetDialect(dialect)] and [goose.UpContext(ctx, db, dir)] *)
  goose_SetDialect : string -> ST error OS unit;
  goose_Up : SqlDB -> string -> ST error OS unit;
}.

(** * migration.go *)

Definition migrationPingTimeout : Z := 10 * Second.

Record MigrationConfig := mkMigrationConfig {
  mc_Host : string;
  mc_Port : string;
  mc_User : string;
  mc_Password : string;
  mc_Database : string;
}.

Definition migration_fields (cfg : MigrationConfig) : list (string * string) :=
  [("DB_HOST", mc_Host cfg); ("DB_PORT", mc_Port cfg); ("DB_USER", mc_User cfg);
   ("DB_PASSWORD", mc_Password cfg); ("DB_NAME", mc_Database cfg)].

Definition MigrationConfigFromEnv (Getenv : string -> string) : res MigrationConfig :=
  let cfg := mkMigrationConfig (TrimSpace (Getenv "DB_HOST")) (TrimSpace (Getenv "DB_PORT"))
               (TrimSpace (Getenv "DB_USER")) (Getenv "DB_PASSWORD") (TrimSpace (Getenv "DB_NAME")) in
  let missing := map fst (List.filter (fun field => String.eqb field.2 "") (migration_fields cfg)) in
  when! (0 <? length missing)%nat return!
    Err (Plain ("migration database config missing: " +:+ String.concat ", " missing)) in
  Ok cfg.

(** [net.JoinHostPort] *)
Definition JoinHostPort (host port : string) : string :=
  if existsb (fun b => (b =? 58) || (b =? 37)) (bytes host)
  then "[" +:+ host +:+ "]:" +:+ port
  else host +:+ ":" +:+ port.

Section database.
Context {D : Drivers}.

(** [_ = close()] *)
Definition ignoring {A} (m : ST error OS A) : ST error OS unit := do! attempt m in ret tt.

Definition migration_driver_config (cfg : MigrationConfig) : MySQLDriverConfig :=
  mkDriverConfig (mc_User cfg) (mc_Password cfg) "tcp" (JoinHostPort (mc_Host cfg) (mc_Port cfg))
    (mc_Database cfg) true true.

(** The context is that of [main] and is never nil. *)
Definition OpenMigrationDB (cfg : MigrationConfig) : ST error OS SqlDB :=
  let! db := map_err (Errorf "open migration database")
               (sql_Open (mysql_FormatDSN (migration_driver_config cfg))) in
  let! pinged := attempt (sql_Ping db migrationPingTimeout) in
  match pinged with
  | inl err => do! ignoring (sql_Close db) in fail (Errorf "ping migration database" err)
  | inr _ => ret db
  end.

Definition OpenMigrationDBFromEnv (Getenv : string -> string) : ST error OS SqlDB :=
  match MigrationConfigFromEnv Getenv with
  | Ok cfg => OpenMigrationDB cfg
  | Err err => fail err
  | Panic => panic
  end.

(** * db.go *)

Definition openMySQL (cfg : Config) (dsn : string) : ST error OS GormDB :=
  let! gormDB := map_err (Errorf "connect mysql failed") (gorm_Open dsn) in
  let! sqlDB := map_err (Errorf "get mysql db failed") (gorm_DB gormDB) in
  do! sql_Set sqlDB (MaxOpenConns (my_MaxOpenConns (MySQL cfg))) in
  do! sql_Set sqlDB (MaxIdleConns (my_MaxIdleConns (MySQL cfg))) in
  do! sql_Set sqlDB (ConnMaxIdleTime (my_ConnMaxIdleTime (MySQL cfg))) in
  do! sql_Set sqlDB (ConnMaxLifetime (my_ConnMaxLifetime (MySQL cfg))) in
  let! pinged := attempt (sql_Ping sqlDB (my_PingTimeout (MySQL cfg))) in
  match pinged with
  | inl err => do! ignoring (sql_Close sqlDB) in fail (Errorf "ping mysql" err)
  | inr _ => ret gormDB
  end.

Definition buildDSN (cfg : Config) (dbPassword : string) : res string :=
  let mysql := MySQL cfg in
  when! String.eqb (my_User mysql) "" || String.eqb dbPassword "" || String.eqb (my_Host mysql) ""
        || String.eqb (my_Port mysql) "" || String.eqb (my_Database mysql) ""
    return! Err (Plain "database config missing") in
  Ok (my_User mysql +:+ ":" +:+ dbPassword +:+ "@tcp(" +:+ my_Host mysql +:+ ":" +:+ my_Port mysql
      +:+ ")/" +:+ my_Database mysql +:+ "?charset=utf8mb4&parseTime=True&loc=Local").

Definition InitDB (Getenv : string -> string) (cfg : Config) : ST error OS GormDB :=
  match buildDSN cfg (Getenv "DB_PASSWORD") with
  | Ok dsn =>
    when! String.eqb dsn "" return! fail (Plain "database dsn not found") in
    openMySQL cfg dsn
  | Err err => fail err
  | Panic => panic
  end.

(** * client.go *)

Definition redisclient_New (cfg : RedisConfig) : ST error OS RedisConn :=
  let! client := redis_NewClient
    (mkRedisOptions (rc_Address cfg) (rc_Password cfg) (rc_DB cfg) (rc_DialTimeout cfg)
       (rc_ReadTimeout cfg) (rc_WriteTimeout cfg)) in
  let! pinged := attempt (redis_Ping client (rc_PingTimeout cfg)) in
  match pinged with
  | inl err => do! ignoring (redis_Close client) in fail (Errorf "ping redis" err)
  | inr _ => ret client
  end.

(** * What the drivers do to the connections

    A connection is a pool of database/sql or a client of Redis. [opened] is
    the set of those that were handed to the program and not closed since. *)

Class DriversLaws := {
  opened : OS -> gset nat;
  sql_id : SqlDB -> nat;
  gorm_id : GormDB -> nat;
  redis_id : RedisConn -> nat;
  gorm_Open_law : forall dsn s,
    wp (gorm_Open dsn) (fun r s' =>
      match r with
      | Ok g => gorm_id g ∉ opened s /\ opened s' = {[gorm_id g]} ∪ opened s
      | Err _ => opened s' = opened s
      | Panic => False
      end) s;
  gorm_DB_law : forall g s,
    wp (gorm_DB g) (fun r s' =>
      opened s' = opened s /\
      match r with Ok d => sql_id d = gorm_id g | Err _ => True | Panic => False end) s;
  sql_Open_law : forall dsn s,
    wp (sql_Open dsn) (fun r s' =>
      match r with
      | Ok d => sql_id d ∉ opened s /\ opened s' = {[sql_id d]} ∪ opened s
      | Err _ => opened s' = opened s
      | Panic => False
      end) s;
  (** Setting a limit cannot fail. *)
  sql_Set_law : forall d p s,
    wp (sql_Set d p) (fun r s' => opened s' = opened s /\ r = Ok tt) s;
  sql_Ping_law : forall d t s,
    wp (sql_Ping d t) (fun r s' => opened s' = opened s /\ r <> Panic) s;
  (** A connection is closed even when closing it reports an error. *)
  sql_Close_law : forall d s,
    wp (sql_Close d) (fun r s' => opened s' = opened s ∖ {[sql_id d]} /\ r <> Panic) s;
  redis_NewClient_law : forall o s,
    wp (redis_NewClient o) (fun r s' =>
      match r with
      | Ok c => redis_id c ∉ opened s /\ opened s' = {[redis_id c]} ∪ opened s
      | _ => False
      end) s;
  redis_Ping_law : forall c t s,
    wp (redis_Ping c t) (fun r s' => opened s' = opened s /\ r <> Panic) s;
  redis_Close_law : forall c s,
    wp (redis_Close c) (fun r s' => opened s' = opened s ∖ {[redis_id c]} /\ r <> Panic) s;
  goose_SetDialect_law : forall n s,
    wp (goose_SetDialect n) (fun r s' => opened s' = opened s /\ r <> Panic) s;
  goose_Up_law : forall d dir s,
    wp (goose_Up d dir) (fun r s' => opened s' = opened s /\ r <> Panic) s;
}.
End database.
