(* ===== verification/Main.v ===== *)
(** The process (src/cmd/main.go): its three commands, what they open and
    close, and how the server starts, serves and stops.

    The state of the process is the world of the services and everything
    outside ([Proc]). A command runs on [appDeps], the record of functions the
    code passes around; [defaultAppDeps] is the one [main] uses. Serving runs
    beside the select of [run]: it is the step relation [life_step], and [run]
    takes its end as the argument [serving]. Log lines are left out. *)
From S2P Require Import Prelude GoTime GoStrings GoNet GoErrors Model Gorm AuthState World.
From S2P Require Import Dao RefreshRepo RbacRepo TokenManager AuthService UserService RbacService.
From S2P Require Import Web Metrics UserHandler RbacHandler Middleware Server Config Database.

(** * Serving *)

Definition http_ErrServerClosed : string := "http.ErrServerClosed".

(** The goroutine that serves: before [ListenAndServe], in it, after it
    returned, and after it sent its result. *)
Inductive server_state :=
| Starting
| Listening
| Returned (err : option error)
| Sent (sent : option error).

(** [run] from the start of the goroutine on. *)
Inductive main_state :=
| Notifying
| Selecting
| ShuttingDown
| Finished_run (r : outcome error unit).

Record Life := mkLife {
  lf_server : server_state;
  (** the channels; each has room for one value *)
  lf_serverErr : list (option error);
  lf_quit : list unit;
  lf_main : main_state;
}.

Definition initial_life : Life := mkLife Starting [] [] Notifying.

(** [if err != nil && !errors.Is(err, http.ErrServerClosed)] *)
Definition server_failure (err : option error) : option error :=
  match err with
  | Some e => if errors_Is e http_ErrServerClosed then None else Some e
  | None => None
  end.

Definition finish_served (err : option error) : outcome error unit :=
  match err with Some e => Err (Errorf "server run failed" e) | None => Ok tt end.
Definition finish_shutdown (err : option error) : outcome error unit :=
  match err with Some e => Err (Errorf "server shutdown failed" e) | None => Ok tt end.

Inductive life_step : Life -> Life -> Prop :=
| life_listen serverErr quit main :
    life_step (mkLife Starting serverErr quit main) (mkLife Listening serverErr quit main)
| life_return err serverErr quit main :
    life_step (mkLife Listening serverErr quit main) (mkLife (Returned err) serverErr quit main)
(** a send on a full channel blocks *)
| life_send err quit main :
    life_step (mkLife (Returned err) [] quit main) (mkLife (Sent (server_failure err)) [server_failure err] quit main)
| life_notify server serverErr quit :
    life_step (mkLife server serverErr quit Notifying) (mkLife server serverErr quit Selecting)
(** the runtime delivers a signal without blocking; before [Notify] the
    signal ends the process *)
| life_signal server serverErr quit main :
    main <> Notifying ->
    life_step (mkLife server serverErr quit main)
      (mkLife server serverErr (match quit with [] => [tt] | _ => quit end) main)
| life_quit server serverErr quit :
    life_step (mkLife server serverErr (tt :: quit) Selecting) (mkLife server serverErr quit ShuttingDown)
| life_served server err serverErr quit :
    life_step (mkLife server (err :: serverErr) quit Selecting)
      (mkLife server serverErr quit (Finished_run (finish_served err)))
| life_shutdown err server serverErr quit :
    life_step (mkLife server serverErr quit ShuttingDown)
      (mkLife server serverErr quit (Finished_run (finish_shutdown err))).

(** * The process *)

Section process.
Context {STO : Storage} {G : Gorm} {SS : Store} {E : Env} {UT : UnicodeTables} {J : JWT}.
Context {B : Bcrypt} {JB : JSONBinding}.
Context {US : UserStore} {AUS : AuthUserStore}.
Context {RR : RefreshTokenRepository} {RB : RBACRepository} {GIN : Gin}.
Context {SYS : System} {D : Drivers}.

Record Proc := mkProc { pr_world : World; pr_outside : OS }.

Definition P (A : Type) : Type := ST error Proc A.

Definition on_world {A} (m : M A) : P A := zoom pr_world (fun w p => mkProc w (pr_outside p)) m.
Definition outside {A} (m : ST error OS A) : P A :=
  zoom pr_outside (fun o p => mkProc (pr_world p) o) m.

(** An [authstate.Store] as the process holds it. *)
Inductive AppStore := AppMemory | AppRedis (client : RedisConn).

(** [Close] of memory.go and redis.go. *)
Definition store_Close (s : AppStore) : ST error OS unit :=
  match s with AppMemory => ret tt | AppRedis client => redis_Close client end.

(** [http.Server], and [appServer] as [run] uses it. *)
Record http_Server := mkServer {
  sv_Addr : string;
  sv_Handler : verdict -> http_Handler;
  sv_ReadTimeout : Z;
  sv_WriteTimeout : Z;
  sv_IdleTimeout : Z;
  sv_ReadHeaderTimeout : Z;
  sv_MaxHeaderBytes : Z;
}.

Record appDeps := mkDeps {
  loadEnv : P unit;
  loadConfig : string -> P Config;
  initDB : Config -> P GormDB;
  openMigrationDB : P SqlDB;
  newAuthStateStore : RedisConfig -> P AppStore;
  newTokenManager : string -> string -> Z -> Z -> P TokenManager;
  setupRouter : GormDB -> TokenManager -> AuthRuntime -> P (verdict -> http_Handler);
  bootstrapAdmin : GormDB -> RegisterRequest -> P unit;
  migrateUp : SqlDB -> string -> P unit;
  getenv : string -> string;
  newServer : string -> (verdict -> http_Handler) -> HttpServerConfig -> http_Server;
  shutdownTimeout : Z;
}.

(** A pure result, and one of a search that may run out of fuel: it does not,
    [file_search_terminates]. *)
Definition pure_result {A} (r : res A) : P A := fun p => (r, p).
Definition searched {A} (r : option (res A)) : P A := pure_result (default Panic r).

Definition default_newAuthStateStore (cfg : RedisConfig) : P AppStore :=
  when! negb (rc_Enabled cfg) return! ret AppMemory in
  let! client := outside (redisclient_New cfg) in
  ret (AppRedis client).

(** [1 << 10] kibibytes, in 64 bits. *)
Definition default_newServer (addr : string) (router : verdict -> http_Handler)
    (cfg : HttpServerConfig) : http_Server :=
  mkServer addr router (hc_ReadTimeOut cfg) (hc_WriteTimeout cfg) (hc_IdleTimeout cfg)
    (hc_ReadHeaderTimeout cfg) (wrap64 (Z.shiftl (hc_MaxHeaderBytesKib cfg) 10)).

(** [health] is what the readiness check sees of the database. *)
Definition defaultAppDeps (health : GormDB -> HealthDB) (build : Info) : appDeps :=
  mkDeps
    (searched (option_map (fun e => match e with Some e => Err e | None => Ok tt end) LoadEnv))
    (fun path => searched (Load path))
    (fun cfg => outside (InitDB os_Getenv cfg))
    (outside (OpenMigrationDBFromEnv os_Getenv))
    default_newAuthStateStore
    (fun secret issuer accessTTL refreshTTL =>
       pure_result (NewTokenManagerWithTTL secret issuer accessTTL refreshTTL))
    (fun db tokenManager runtime =>
       match SetupRouter true (Some (health db)) tokenManager build [runtime] with
       | inl _ => panic
       | inr h => ret h
       end)
    (fun db req => on_world (BootstrapAdmin (NewUserService true) req))
    (fun db dir => do! outside (goose_SetDialect "mysql") in outside (goose_Up db dir))
    os_Getenv default_newServer (10 * Second).

(** The deferred closings: an error is logged only. *)
Definition closing (m : ST error OS unit) : P unit := outside (ignoring m).

Definition runMigrateUp (deps : appDeps) : P unit :=
  do! loadEnv deps in
  let! sqlDB := map_err (Errorf "open migration database failed") (openMigrationDB deps) in
  defer (closing (sql_Close sqlDB))
    (map_err (Errorf "apply database migrations") (migrateUp deps sqlDB "migrations")).

Definition runBootstrapAdmin (deps : appDeps) : P unit :=
  do! loadEnv deps in
  let username := getenv deps "BOOTSTRAP_ADMIN_USERNAME" in
  let password := getenv deps "BOOTSTRAP_ADMIN_PASSWORD" in
  when! String.eqb username "" || String.eqb password ""
    return! fail (Plain "BOOTSTRAP_ADMIN_USERNAME and BOOTSTRAP_ADMIN_PASSWORD are required") in
  let! cfg := map_err (Errorf "load config failed") (loadConfig deps "config.yml") in
  let! db := map_err (Errorf "failed to connect database") (initDB deps cfg) in
  let! sqlDB := map_err (Errorf "get database handle failed") (outside (gorm_DB db)) in
  defer (closing (sql_Close sqlDB))
    (map_err (Errorf "bootstrap administrator failed")
       (bootstrapAdmin deps db (mkRegisterRequest username password))).

(** The runtime that [run] gives the router. *)
Definition auth_runtime (cfg : Config) : AuthRuntime :=
  let l := ac_LoginRateLimit (cfg_Auth cfg) in
  mkAuthRuntime true (mkLoginRateLimit (rl_AccountLimit l) (rl_IPLimit l) (rl_Window l))
    (Some (RegistrationEnabled (cfg_Auth cfg))) (rk_Secure (ac_RefreshCookie (cfg_Auth cfg)))
    (hs_TrustedProxies (cfg_HttpServer cfg)) (hc_Timeout (hs_Server (cfg_HttpServer cfg))).

(** [serving server timeout]: the part of [run] from the start of the
    goroutine to its return, which ends as [life_step] says. *)
Definition run (serving : http_Server -> Z -> P unit) (deps : appDeps) : P unit :=
  do! loadEnv deps in
  let! cfg := map_err (Errorf "load config failed") (loadConfig deps "config.yml") in
  let! db := map_err (Errorf "failed to connect database") (initDB deps cfg) in
  let! sqlDB := map_err (Errorf "get database handle failed") (outside (gorm_DB db)) in
  defer (closing (sql_Close sqlDB))
    (let! tokenManager := map_err (Errorf "new token manager failed")
       (newTokenManager deps (jc_Secret (cfg_JWT cfg)) "go-user-system"
          (mul64 (jc_AccessTokenExpireMinutes (cfg_JWT cfg)) Minute)
          (mul64 (jc_RefreshTokenExpireHours (cfg_JWT cfg)) Hour)) in
     let! authStateStore := map_err (Errorf "initialize authentication state store failed")
       (newAuthStateStore deps (Redis cfg)) in
     defer (closing (store_Close authStateStore))
       (let! r := setupRouter deps db tokenManager (auth_runtime cfg) in
        let addr := ":" +:+ format_int (sc_Port (Server cfg)) in
        let server := newServer deps addr r (hs_Server (cfg_HttpServer cfg)) in
        serving server (if shutdownTimeout deps =? 0 then 10 * Second else shutdownTimeout deps))).

Definition usage_error : error := Plain "usage: go-user-system migrate up".

(** What [main] passes to [fatalf], if it does; [args] is [os.Args]. *)
Definition main (serving : http_Server -> Z -> P unit) (deps : appDeps) (args : list string)
    : P (option string) :=
  let arg i := default "" (args !! i) in
  let! r := attempt
    (if (1 <? length args)%nat && String.eqb (arg 1%nat) "bootstrap-admin" then runBootstrapAdmin deps
     else if (1 <? length args)%nat && String.eqb (arg 1%nat) "migrate" then
       (if negb (length args =? 3)%nat || negb (String.eqb (arg 2%nat) "up") then fail usage_error
        else runMigrateUp deps)
     else run serving deps) in
  ret (match r with
       | inl err => Some ("application failed: " +:+ error_string err)
       | inr _ => None
       end).
End process.
