(* ===== verification/Instances.v ===== *)
(** Concrete instances of the environment, next to [MemDB]: a clock, a
    source of identifiers, a token format, a password hash. They are not part
    of the program; they show that its assumptions can hold together, and the
    witnesses of the theorems run on them. *)
From S2P Require Import Prelude GoTime GoStrings GoNet Sha256 GoErrors Model Gorm AuthState MemDB World.
From S2P Require Import TokenManager AuthService UserService Web Metrics UserHandler RbacHandler Middleware Server.

(** * Clock, identifiers, letters *)

Definition launch : Z := 1700000000 * Second.

#[export] Instance test_env : Env := {|
  clock := fun n => launch + Z.of_nat n * Second;
  uuid_at := fun n => "uuid-" +:+ format_int (Z.of_nat n);
|}.

Lemma test_env_monotone : monotone_clock.
Proof. intros i j Hij. simpl. unfold Second. lia. Qed.

#[export] Instance ascii_tables : UnicodeTables := {| unicode_to_lower := fun c => c |}.

(** * A password hash: the password itself, marked *)

#[export] Instance plain_bcrypt : Bcrypt := {|
  bcrypt_generate := fun salt pw =>
    if 72 <? len pw then Err (Plain "bcrypt: password length exceeds 72 bytes")
    else Ok ("hash:" +:+ pw);
  bcrypt_matches := fun h pw => String.eqb h ("hash:" +:+ pw);
|}.

Lemma library_error_plain msg : library_error (Plain msg).
Proof. by split. Qed.

#[export] Instance plain_bcrypt_laws : BcryptLaws.
Proof.
  split. intros salt pw. simpl. destruct (_ <? _); [apply library_error_plain|apply String.eqb_refl].
Qed.

(** * Tokens: the secret and the claims, in binary *)

Fixpoint digits (p : positive) : string :=
  match p with
  | xH => ""
  | xO p => String "0" (digits p)
  | xI p => String "1" (digits p)
  end.

Fixpoint undigits (s : string) : positive :=
  match s with
  | EmptyString => xH
  | String c s' => if Ascii.eqb c "1" then xI (undigits s') else xO (undigits s')
  end.

Lemma undigits_digits p : undigits (digits p) = p.
Proof. induction p; simpl; congruence. Qed.

Definition claims_code (c : UserClaims) : list positive :=
  [encode (c_Username c); encode (c_UserID c); encode (c_TokenType c); encode (c_AuthVersion c);
   encode (c_Issuer c); encode (c_IssuedAt c); encode (c_ExpiresAt c); encode (c_ID c)].

Definition claims_of_code (l : list positive) : option UserClaims :=
  match l with
  | [u; i; t; v; s; a; e; d] =>
    u ← decode u; i ← decode i; t ← decode t; v ← decode v; s ← decode s; a ← decode a;
    e ← decode e; d ← decode d; Some (mkUserClaims u i t v "" s a e d)
  | _ => None
  end.

Lemma claims_of_code_claims c : claims_of_code (claims_code c) = Some (wire c).
Proof. unfold claims_of_code, claims_code. rewrite !decode_encode. done. Qed.

Definition token_of (secret : string) (c : UserClaims) : string :=
  digits (encode (encode secret :: claims_code c)).

Definition read_token (tok : string) : option (string * UserClaims) :=
  l ← (decode (undigits tok) : option (list positive));
  match l with
  | k :: l' => secret ← decode k; c ← claims_of_code l'; Some (secret, c)
  | [] => None
  end.

Lemma read_token_of secret c : read_token (token_of secret c) = Some (secret, wire c).
Proof.
  unfold read_token, token_of. rewrite undigits_digits, decode_encode. cbn [mbind option_bind].
  rewrite decode_encode. cbn [mbind option_bind]. by rewrite claims_of_code_claims.
Qed.

Definition token_expired : error := Wrapped "token has invalid claims" [Sentinel jwt_ErrTokenExpired].

#[export] Instance test_jwt : JWT := {|
  numeric_date := fun t => t / Second * Second;
  jwt_sign := fun secret c => Ok (token_of secret c);
  jwt_parse := fun secret issuer leeway now tok =>
    match read_token tok with
    | None => Err (Sentinel jwt_ErrTokenMalformed)
    | Some (secret', c) =>
      if negb (String.eqb secret secret') then Err (Sentinel jwt_ErrTokenSignatureInvalid)
      else match c_ExpiresAt c with
      | None => Err (Plain "token is missing required claim")
      | Some exp =>
        if exp + leeway <=? now then Err token_expired
        else if match c_IssuedAt c with Some iat => now + leeway <? iat | None => false end
        then Err (Plain "token used before issued")
        else if negb (String.eqb (c_Issuer c) issuer) then Err (Plain "token has invalid issuer")
        else if negb (String.eqb (c_JTI c) "") then Err (Plain "malformed")
        else Ok (c, true)
      end
    end;
|}.

Lemma library_error_sentinel n : own_error_name n = false -> library_error (Sentinel n).
Proof. intros Hn. split; [done|]. intros m [= <-]%String.eqb_eq. done. Qed.

Lemma token_expired_library : library_error token_expired.
Proof.
  split; [done|]. intros n Hn.
  change (String.eqb jwt_ErrTokenExpired n || false = true) in Hn.
  rewrite orb_false_r in Hn. apply String.eqb_eq in Hn as <-. done.
Qed.

#[export] Instance test_jwt_laws : JWTLaws.
Proof.
  split.
  - intros t. simpl. pose proof (Z.div_mod t Second ltac:(unfold Second; lia)).
    pose proof (Z.mod_pos_bound t Second ltac:(unfold Second; lia)). unfold Second in *. lia.
  - by intros secret c.
  - intros secret c tok leeway now exp [= <-] _ Hexp Hnow Hiat. simpl.
    rewrite read_token_of, String.eqb_refl. simpl. rewrite Hexp.
    rewrite (proj2 (Z.leb_gt _ _)) by lia. rewrite String.eqb_refl. simpl.
    destruct (c_IssuedAt c) as [iat|]; [|done].
    by rewrite (proj2 (Z.ltb_ge _ _)) by (specialize (Hiat _ eq_refl); lia).
  - intros secret c tok leeway now exp [= <-] _ Hexp Hnow. simpl.
    rewrite read_token_of, String.eqb_refl. simpl. rewrite Hexp.
    rewrite (proj2 (Z.leb_le _ _)) by lia. exists token_expired.
    split; [done|]. split; [apply token_expired_library|done].
  - intros secret issuer leeway now tok. simpl.
    destruct (read_token tok) as [[secret' c]|]; [|by apply library_error_sentinel].
    destruct (negb (String.eqb secret secret')); [by apply library_error_sentinel|].
    destruct (c_ExpiresAt c) as [exp|] eqn:Hexp; [|apply library_error_plain].
    destruct (Z.leb_spec (exp + leeway) now); [apply token_expired_library|].
    destruct (match c_IssuedAt c with Some iat => now + leeway <? iat | None => false end) eqn:Hiat;
      [apply library_error_plain|].
    destruct (String.eqb_spec (c_Issuer c) issuer); [|apply library_error_plain].
    destruct (String.eqb_spec (c_JTI c) ""); [|apply library_error_plain].
    simpl. split; [done|]. split; [done|]. split; [by exists exp|].
    intros iat Heq. rewrite Heq in Hiat. bool_to_prop. lia.
Qed.

(** * Request bodies: the password, the token or the role itself *)

#[export] Instance test_json : JSONBinding := {|
  bind_register := fun b => inr (mkRegisterRequest "bob" b);
  bind_login := fun b => inr (mkLoginRequest "alice" b);
  bind_profile := fun b => inr (mkUpdateProfileRequest b);
  bind_password := fun b => inr (mkUpdatePasswordRequest "correct horse battery" b);
  bind_refresh := fun b => if String.eqb b "" then inl (Sentinel io_EOF)
                           else inr (mkRefreshTokenRequest b);
  bind_logout := fun b => if String.eqb b "" then inl (Sentinel io_EOF)
                          else inr (mkLogoutRequest b);
  bind_roles := fun b => inr (mkAssignUserRolesRequest [b]);
|}.

(** * Worlds *)

Definition world (db : mem_db) : World := mkWorld db Memory.newMemoryStore 0 0.

Definition db_with (users : list User) (tokens : list RefreshToken) : mem_db :=
  mkMemDB (set_table TUsers users (set_table TRefreshTokens tokens empty_tables)) 10 [].

Definition with_roles (roles : list Role) (perms : list Permission) (urs : list UserRole)
    (rps : list RolePermission) (db : mem_db) : mem_db :=
  mkMemDB (set_table TRoles roles (set_table TPermissions perms (set_table TUserRoles urs
             (set_table TRolePermissions rps (md_rows db))))) (md_next db) (md_faults db).

(** An active account, the roles, and one live refresh token. *)
Definition alice : User :=
  mkUser 1 "alice" "hash:correct horse battery" "alice" UserStatusActive 1 launch launch None None.

Definition alice_token : RefreshToken :=
  mkRefreshToken 1 1 "jti-1" "family-1" "hash-1" (launch + Hour) None None None launch launch.

Definition role_user : Role := mkRole 1 "user" "User" launch launch.
Definition role_admin : Role := mkRole 2 "admin" "Administrator" launch launch.

Definition permission_roles : Permission :=
  mkPermission 1 PermissionAdminRolesRead "read" "GET" "/api/v1/admin/roles" launch launch.

Definition alice_db : mem_db :=
  with_roles [role_user; role_admin] [permission_roles] [mkUserRole 1 1 launch]
    [mkRolePermission 2 1 launch] (db_with [alice] [alice_token]).

Definition alice_world : World := world alice_db.

(** A run of the program on a concrete input. *)
Lemma run_of {E S A} (m : ST E S A) s r : fst (m s) = r -> m s = (r, snd (m s)).
Proof. intros <-. apply surjective_pairing. Qed.

Lemma handler_run {A} (x : A * (Context * World)) r : fst x = r -> x = (r, (fst (snd x), snd (snd x))).
Proof. intros <-. by destruct x as [? [? ?]]. Qed.

Definition auth_service : option AuthService := NewAuthService true.

Definition next_token (jti hash : string) : RefreshToken :=
  mkRefreshToken 0 1 jti "" hash (launch + Hour) None None None ZeroTime ZeroTime.

(** A later world with the same database, whose clock was read [n] more times. *)
Definition later_by (n : nat) (w : World) : World :=
  mkWorld (w_db w) (w_store w) (n + w_tick w) (w_seed w).

(** The unique keys of concrete rows, by computation. *)
Fixpoint keys_okb (t : table) (l : list (row t)) : bool :=
  match l with
  | [] => true
  | x :: l' => forallb (fun y => negb (conflicts t x y)) l' && keys_okb t l'
  end.

Lemma keys_okb_ok t l : keys_okb t l = true -> keys_ok t l.
Proof.
  unfold keys_ok. induction l as [|x l IH]; simpl; [constructor|].
  intros [Hf Hl]%andb_true_iff. constructor; [|auto].
  apply Forall_forall. intros y Hy%list_elem_of_In. rewrite forallb_forall in Hf.
  specialize (Hf y Hy). by apply negb_true_iff in Hf.
Qed.

Ltac keys_by_computation := apply keys_okb_ok; vm_compute; reflexivity.

Definition sample_manager : TokenManager :=
  mkTokenManager "0123456789abcdef0123456789abcdef" "go-user-system" (15 * Minute) (7 * 24 * Hour).

(** The handlers over the concrete services, and requests to them. *)
Definition test_handlers : Handlers :=
  SetupHandlers true (Some (mkHealthDB true (ret tt) (ret tt))) sample_manager true
    (mkLoginRateLimit 2 20 (15 * Minute)) true default_build.

Definition test_request (token body : string) : Request :=
  mkRequest "POST" "/api/v1" true (fun k => if String.eqb k "Authorization" && negb (String.eqb token "")
                      then "Bearer " +:+ token else "")
    (fun _ => None) (fun _ => "1") "10.0.0.1" body.

(** The same world, where alice is an administrator too. *)
Definition promoted (w : World) : World :=
  let db : mem_db := w_db w in
  mkWorld (with_roles [role_user; role_admin] [permission_roles]
             [mkUserRole 1 1 launch; mkUserRole 1 2 launch] [mkRolePermission 2 1 launch] db : mem_db)
    (w_store w) (w_tick w) (w_seed w).

(** A router that finds a route by its path as it is written. *)
#[export] Instance test_gin : Gin := {|
  gin_SetTrustedProxies := fun l =>
    if forallb (fun p => ParseIP p || ParseCIDR p) l then None else Some (Plain "invalid proxy");
  gin_match := fun rs method path =>
    List.find (fun r => String.eqb (ro_Method r) method && String.eqb (ro_Path r) path) rs;
  gin_render := fun c =>
    match cx_Writes c with [] => [] | _ => [WriteHeader (cx_Status c); Write "{}"] end;
  gin_other := fun _ => ret (with_calls [WriteHeader StatusNotFound; Write "404 page not found"] new_exchange);
|}.

#[export] Instance test_gin_laws : GinLaws.
Proof.
  split.
  - intros l Hl. simpl. rewrite (proj2 (forallb_forall _ l)); [done|].
    intros p Hp. rewrite Forall_forall in Hl. by apply Hl, list_elem_of_In.
  - intros rs method path route [Hin Heq]%find_some. split; [done|].
    apply andb_true_iff in Heq as [Heq _]. by apply String.eqb_eq.
  - intros c Hc. simpl. destruct (cx_Writes c); [done|]. by exists "{}", [].
Qed.
