(* ===== verification/AuthStateTheorems.v ===== *)
(** The in-memory store meets the promises of [StoreLaws], and its login
    counters are, key by key, fixed windows that start at the first failure. *)
From S2P Require Import Prelude GoTime GoStrings Sha256 GoErrors AuthState.
Import Memory.
#[local] Arguments String.eqb : simpl never.

(** * Keys *)

Lemma string_app_inj a b c : a +:+ b = a +:+ c -> b = c.
Proof. induction a as [|x a IH]; simpl; [done|]. intros [= H]. auto. Qed.

Lemma access_key_digest a b : accessRevocationKey a = accessRevocationKey b <-> digest a = digest b.
Proof.
  unfold accessRevocationKey. split; [|congruence].
  intros H. by apply string_app_inj, string_app_inj in H.
Qed.

Lemma account_key_digest a b : accountFailureKey a = accountFailureKey b <-> digest a = digest b.
Proof.
  unfold accountFailureKey. split; [|congruence].
  intros H. by apply string_app_inj, string_app_inj in H.
Qed.

Lemma ip_key_digest a b : ipFailureKey a = ipFailureKey b <-> digest a = digest b.
Proof.
  unfold ipFailureKey. split; [|congruence].
  intros H. by apply string_app_inj, string_app_inj in H.
Qed.

(** Accounts and addresses never share a counter. *)
Lemma account_ip_keys a i : accountFailureKey a <> ipFailureKey i.
Proof.
  unfold accountFailureKey, ipFailureKey. intros H. apply string_app_inj in H. discriminate.
Qed.

(** * Revocations *)

Definition revoked_at (s : MemoryStore) (t : Z) (jti : string) : bool :=
  match revoked s !! accessRevocationKey jti with
  | Some e => time_after e t
  | None => false
  end.

(** The counter of a key as it counts at the time [t]: an expired entry is
    no entry. *)
Definition window_at (s : MemoryStore) (t : Z) (key : string) : option (Z * Z) :=
  match counters s !! key with
  | Some c => if time_after (expiresAt c) t then Some (count c, expiresAt c) else None
  | None => None
  end.

(** Stores that cannot be told apart from the time [t] on. *)
Record equiv_from (t : Z) (a b : MemoryStore) : Prop := {
  ef_revoked : forall u j, t <= u -> revoked_at a u j = revoked_at b u j;
  ef_window : forall u k, t <= u -> window_at a u k = window_at b u k;
}.

#[export] Instance equiv_from_equivalence t : Equivalence (equiv_from t).
Proof.
  split.
  - by intros a.
  - intros a b [Hr Hw]. split; intros; symmetry; auto.
  - intros a b c [Hr Hw] [Hr' Hw']. split; intros.
    + rewrite Hr by done. by apply Hr'.
    + rewrite Hw by done. by apply Hw'.
Qed.

(** Looking is one thing with the passing of time: equivalence is kept. *)
Lemma equiv_from_later t u a b : t <= u -> equiv_from t a b -> equiv_from u a b.
Proof. intros Hle [Hr Hw]. split; intros; [apply Hr|apply Hw]; lia. Qed.

Lemma window_at_expired s t u k : t <= u -> window_at s t k = None -> window_at s u k = None.
Proof.
  unfold window_at. intros Hle. destruct (counters s !! k) as [c|]; [|done].
  destruct (time_after (expiresAt c) t) eqn:Ht; [done|]. intros _.
  apply time_after_false in Ht. by rewrite (proj2 (time_after_false _ _)) by lia.
Qed.

Lemma window_at_later s t u k n e :
  t <= u -> window_at s t k = Some (n, e) -> window_at s u k = if time_after e u then Some (n, e) else None.
Proof.
  unfold window_at. intros Hle. destruct (counters s !! k) as [c|]; [|done].
  destruct (time_after (expiresAt c) t); [|done]. by intros [= <- <-].
Qed.

Lemma revoked_at_insert s t jti j e :
  revoked_at (set_revoked_map (insert (accessRevocationKey jti) e) s) t j
  = if decide (digest jti = digest j) then time_after e t else revoked_at s t j.
Proof.
  unfold revoked_at. simpl. rewrite lookup_insert.
  destruct (decide (digest jti = digest j)) as [Hd|Hd].
  - by rewrite decide_True by (by apply access_key_digest).
  - by rewrite decide_False by (by rewrite access_key_digest).
Qed.

(** Dropping an expired revocation or counter changes nothing from then on. *)
Lemma drop_revocation s now jti e :
  revoked s !! accessRevocationKey jti = Some e -> time_after e now = false ->
  equiv_from now (set_revoked_map (delete (accessRevocationKey jti)) s) s.
Proof.
  intros He Hexp. apply time_after_false in Hexp. split; [|done].
  intros u j Hu. unfold revoked_at. simpl. rewrite lookup_delete. case_decide as Hk; [|done].
  rewrite <- Hk, He. symmetry. apply time_after_false. lia.
Qed.

Lemma drop_counter s now key c :
  counters s !! key = Some c -> time_after (expiresAt c) now = false ->
  equiv_from now (set_counters (delete key) s) s.
Proof.
  intros Hc Hexp. apply time_after_false in Hexp. split; [done|].
  intros u k Hu. unfold window_at. simpl. rewrite lookup_delete. case_decide as Hk; [|done].
  subst. rewrite Hc. by rewrite (proj2 (time_after_false _ _)) by lia.
Qed.

Lemma window_at_insert s t key k n e :
  window_at (set_counters (insert key (mkCounter n e)) s) t k
  = if decide (key = k) then (if time_after e t then Some (n, e) else None) else window_at s t k.
Proof. unfold window_at. simpl. rewrite lookup_insert. by case_decide. Qed.

(** * What the operations do *)

Lemma RevokeAccessToken_run now jti ttl s :
  RevokeAccessToken now jti ttl s
  = (Ok tt, if ttl <=? 0 then s
            else set_revoked_map (insert (accessRevocationKey jti) (now + ttl)) s).
Proof. unfold RevokeAccessToken. by destruct (ttl <=? 0). Qed.

Lemma IsAccessTokenRevoked_spec now jti s :
  exists s', IsAccessTokenRevoked now jti s = (Ok (revoked_at s now jti), s') /\ equiv_from now s' s.
Proof.
  unfold IsAccessTokenRevoked, revoked_at, bind, gets. simpl.
  destruct (revoked s !! accessRevocationKey jti) as [e|] eqn:He; simpl; [|by exists s].
  destruct (time_after e now) eqn:Ht; simpl; [by exists s|].
  eexists. split; [done|]. by eapply drop_revocation.
Qed.

(** The wait a counter imposes at [now]. *)
Definition retry_of (w : option (Z * Z)) (limit now : Z) : Z :=
  match w with
  | Some (n, e) => if n <? limit then 0 else time_sub e now
  | None => 0
  end.

Lemma counterRetryAfter_spec key limit now s :
  exists s', counterRetryAfter key limit now s = (Ok (retry_of (window_at s now key) limit now), s')
             /\ equiv_from now s' s.
Proof.
  unfold counterRetryAfter, window_at, bind, gets. simpl.
  destruct (counters s !! key) as [c|] eqn:Hc; simpl; [|by exists s].
  destruct (time_after (expiresAt c) now) eqn:Ht; simpl.
  - destruct (count c <? limit) eqn:Hl; simpl; rewrite ?Hl; by exists s.
  - eexists. split; [done|]. by eapply drop_counter.
Qed.

(** One more failure: the live window goes on, or a new one starts. *)
Definition bump (w : option (Z * Z)) (now window : Z) : Z * Z :=
  match w with
  | Some (n, e) => (add64 n 1, e)
  | None => (add64 0 1, now + window)
  end.

Lemma incrementCounter_run key now window s :
  let '(n, e) := bump (window_at s now key) now window in
  incrementCounter key now window s
  = (Ok (mkCounter n e), set_counters (insert key (mkCounter n e)) s).
Proof.
  unfold bump, window_at, incrementCounter, bind, gets. simpl.
  destruct (counters s !! key) as [c|]; simpl; [|done].
  by destruct (time_after (expiresAt c) now).
Qed.

Lemma CheckLoginLimit_spec now account ip al il window s :
  exists s', CheckLoginLimit now account ip al il window s
    = (Ok (Z.max (retry_of (window_at s now (accountFailureKey account)) al now)
                 (retry_of (window_at s now (ipFailureKey ip)) il now)), s')
    /\ equiv_from now s' s.
Proof.
  unfold CheckLoginLimit, bind.
  destruct (counterRetryAfter_spec (accountFailureKey account) al now s) as (s1 & -> & H1).
  destruct (counterRetryAfter_spec (ipFailureKey ip) il now s1) as (s2 & -> & H2).
  exists s2. split; [|by transitivity s1].
  rewrite (ef_window _ _ _ H1) by lia. unfold ret, maxDuration. do 2 f_equal.
  destruct (Z.ltb_spec (retry_of (window_at s now (ipFailureKey ip)) il now)
              (retry_of (window_at s now (accountFailureKey account)) al now)); lia.
Qed.

Lemma RecordLoginFailure_spec now account ip al il window s :
  let '(n1, e1) := bump (window_at s now (accountFailureKey account)) now window in
  let '(n2, e2) := bump (window_at s now (ipFailureKey ip)) now window in
  RecordLoginFailure now account ip al il window s
  = (Ok (Z.max (if al <=? n1 then time_sub e1 now else 0)
               (if il <=? n2 then time_sub e2 now else 0)),
     set_counters (insert (ipFailureKey ip) (mkCounter n2 e2))
       (set_counters (insert (accountFailureKey account) (mkCounter n1 e1)) s)).
Proof.
  pose proof (incrementCounter_run (accountFailureKey account) now window s) as H1.
  destruct (bump (window_at s now (accountFailureKey account)) now window) as [n1 e1].
  set (s1 := set_counters (insert (accountFailureKey account) (mkCounter n1 e1)) s) in *.
  assert (window_at s1 now (ipFailureKey ip) = window_at s now (ipFailureKey ip)) as Hw.
  { unfold s1. rewrite window_at_insert. by rewrite decide_False by apply account_ip_keys. }
  pose proof (incrementCounter_run (ipFailureKey ip) now window s1) as H2. rewrite Hw in H2.
  destruct (bump (window_at s now (ipFailureKey ip)) now window) as [n2 e2].
  unfold RecordLoginFailure, bind. rewrite H1, H2. unfold ret, maxDuration. simpl.
  do 2 f_equal.
  match goal with |- (if ?a <? ?b then _ else _) = _ => destruct (Z.ltb_spec a b) end; lia.
Qed.

(** * Refinement: the store against its history

    The specification of a store is two functions: until when each token is
    revoked, and how each key's current window stands. It never forgets an
    entry; an expired one merely no longer counts. *)

Inductive store_op :=
| OpRevoke (now : Z) (jti : string) (ttl : Z)
| OpIsRevoked (now : Z) (jti : string)
| OpCheck (now : Z) (account ip : string) (al il window : Z)
| OpFail (now : Z) (account ip : string) (al il window : Z)
| OpReset (account : string).

Inductive reply := ReplyUnit | ReplyBool (b : bool) | ReplyDuration (d : Z) | ReplyFailure.

Definition reply_of {A} (f : A -> reply) (r : res A) : reply :=
  match r with Ok a => f a | _ => ReplyFailure end.

Definition step_op (op : store_op) (s : MemoryStore) : reply * MemoryStore :=
  match op with
  | OpRevoke now jti ttl =>
      let '(r, s') := RevokeAccessToken now jti ttl s in (reply_of (fun _ => ReplyUnit) r, s')
  | OpIsRevoked now jti =>
      let '(r, s') := IsAccessTokenRevoked now jti s in (reply_of ReplyBool r, s')
  | OpCheck now a i al il win =>
      let '(r, s') := CheckLoginLimit now a i al il win s in (reply_of ReplyDuration r, s')
  | OpFail now a i al il win =>
      let '(r, s') := RecordLoginFailure now a i al il win s in (reply_of ReplyDuration r, s')
  | OpReset a => let '(r, s') := ResetLoginAccount a s in (reply_of (fun _ => ReplyUnit) r, s')
  end.

Fixpoint run_ops (ops : list store_op) (s : MemoryStore) : list reply * MemoryStore :=
  match ops with
  | [] => ([], s)
  | op :: ops' =>
    let '(r, s1) := step_op op s in
    let '(rs, s2) := run_ops ops' s1 in (r :: rs, s2)
  end.

Record ideal := mkIdeal {
  revoked_until : string -> option Z;
  current_window : string -> option (Z * Z);
}.

Definition ideal_empty : ideal := mkIdeal (fun _ => None) (fun _ => None).

Definition ideal_revoked (i : ideal) (t : Z) (key : string) : bool :=
  match revoked_until i key with Some e => t <? e | None => false end.

Definition ideal_window (i : ideal) (t : Z) (key : string) : option (Z * Z) :=
  match current_window i key with
  | Some (n, e) => if t <? e then Some (n, e) else None
  | None => None
  end.

Definition fn_set {V} (key : string) (v : V) (f : string -> V) : string -> V :=
  fun k => if String.eqb k key then v else f k.

Definition ideal_step (op : store_op) (i : ideal) : reply * ideal :=
  match op with
  | OpRevoke now jti ttl =>
      (ReplyUnit, if ttl <=? 0 then i
                  else mkIdeal (fn_set (accessRevocationKey jti) (Some (now + ttl)) (revoked_until i))
                         (current_window i))
  | OpIsRevoked now jti => (ReplyBool (ideal_revoked i now (accessRevocationKey jti)), i)
  | OpCheck now a ip al il win =>
      (ReplyDuration (Z.max (retry_of (ideal_window i now (accountFailureKey a)) al now)
                            (retry_of (ideal_window i now (ipFailureKey ip)) il now)), i)
  | OpFail now a ip al il win =>
      let '(n1, e1) := bump (ideal_window i now (accountFailureKey a)) now win in
      let '(n2, e2) := bump (ideal_window i now (ipFailureKey ip)) now win in
      (ReplyDuration (Z.max (if al <=? n1 then time_sub e1 now else 0)
                            (if il <=? n2 then time_sub e2 now else 0)),
       mkIdeal (revoked_until i)
         (fn_set (ipFailureKey ip) (Some (n2, e2))
            (fn_set (accountFailureKey a) (Some (n1, e1)) (current_window i))))
  | OpReset a =>
      (ReplyUnit, mkIdeal (revoked_until i) (fn_set (accountFailureKey a) None (current_window i)))
  end.

Fixpoint ideal_run (ops : list store_op) (i : ideal) : list reply * ideal :=
  match ops with
  | [] => ([], i)
  | op :: ops' =>
    let '(r, i1) := ideal_step op i in
    let '(rs, i2) := ideal_run ops' i1 in (r :: rs, i2)
  end.

(** The readings of the clock do not go back, from [t] on. *)
Definition op_time (op : store_op) : option Z :=
  match op with
  | OpRevoke now _ _ | OpIsRevoked now _ | OpCheck now _ _ _ _ _ | OpFail now _ _ _ _ _ => Some now
  | OpReset _ => None
  end.

Fixpoint ordered (t : Z) (ops : list store_op) : Prop :=
  match ops with
  | [] => True
  | op :: ops' =>
    match op_time op with
    | Some u => t <= u /\ ordered u ops'
    | None => ordered t ops'
    end
  end.

(** The simulation relation: from [t] on, the same answers. *)
Record simulates (t : Z) (s : MemoryStore) (i : ideal) : Prop := {
  sim_revoked : forall u j, t <= u -> revoked_at s u j = ideal_revoked i u (accessRevocationKey j);
  sim_window : forall u k, t <= u -> window_at s u k = ideal_window i u k;
}.

#[export] Instance simulates_proper t : Proper (equiv_from t ==> eq ==> iff) (simulates t).
Proof.
  assert (forall a b i, equiv_from t a b -> simulates t a i -> simulates t b i) as H.
  { intros a b i [Hr Hw] [Hsr Hsw].
    split; intros; [rewrite <- Hr by done; by apply Hsr|rewrite <- Hw by done; by apply Hsw]. }
  intros a b Hab i ? <-. split; eauto. intros. eapply H; [by symmetry|done].
Qed.

Lemma simulates_later t u s i : t <= u -> simulates t s i -> simulates u s i.
Proof. intros Hle [Hr Hw]. split; intros; [apply Hr|apply Hw]; lia. Qed.

Lemma simulates_insert t s i key n e :
  simulates t s i ->
  simulates t (set_counters (insert key (mkCounter n e)) s)
    (mkIdeal (revoked_until i) (fn_set key (Some (n, e)) (current_window i))).
Proof.
  intros [Hr Hw]. split; [exact Hr|]. intros u k Hu. rewrite window_at_insert.
  unfold ideal_window, fn_set. simpl. case_decide as Hk.
  - subst. rewrite String.eqb_refl. done.
  - destruct (String.eqb_spec k key); [congruence|]. by apply Hw.
Qed.

Lemma step_simulates t op s i :
  simulates t s i -> match op_time op with Some u => t <= u | None => True end ->
  fst (step_op op s) = fst (ideal_step op i) /\
  simulates (match op_time op with Some u => u | None => t end)
    (snd (step_op op s)) (snd (ideal_step op i)).
Proof.
  intros Hsim Ht. destruct op as [now jti ttl|now jti|now a ip al il win|now a ip al il win|a];
    simpl in Ht; try (apply (simulates_later t now) in Hsim as Hsim'; [|done]);
    unfold step_op, ideal_step.
  - rewrite RevokeAccessToken_run. simpl. split; [done|].
    destruct (ttl <=? 0); [done|]. split; [|apply Hsim'].
    intros u j Hu. rewrite revoked_at_insert. unfold ideal_revoked, fn_set. simpl.
    case_decide as Hd.
    + apply access_key_digest in Hd. by rewrite Hd, String.eqb_refl.
    + destruct (String.eqb_spec (accessRevocationKey j) (accessRevocationKey jti)) as [Heq|].
      * apply access_key_digest in Heq. congruence.
      * by apply (sim_revoked _ _ _ Hsim').
  - destruct (IsAccessTokenRevoked_spec now jti s) as (s' & -> & Heq). simpl.
    split; [by rewrite (sim_revoked _ _ _ Hsim') by lia|]. by rewrite Heq.
  - destruct (CheckLoginLimit_spec now a ip al il win s) as (s' & -> & Heq). simpl.
    split; [by rewrite !(sim_window _ _ _ Hsim') by lia|]. by rewrite Heq.
  - pose proof (RecordLoginFailure_spec now a ip al il win s) as Hrun.
    rewrite !(sim_window _ _ _ Hsim') in Hrun by lia.
    destruct (bump (ideal_window i now (accountFailureKey a)) now win) as [n1 e1].
    destruct (bump (ideal_window i now (ipFailureKey ip)) now win) as [n2 e2].
    rewrite Hrun. simpl. split; [done|].
    apply (simulates_insert now _
             (mkIdeal (revoked_until i)
                (fn_set (accountFailureKey a) (Some (n1, e1)) (current_window i)))).
    by apply simulates_insert.
  - simpl. split; [done|]. split; [apply Hsim|]. intros u k Hu.
    unfold window_at, ideal_window, fn_set. simpl. rewrite lookup_delete. case_decide as Hk.
    + subst. by rewrite String.eqb_refl.
    + destruct (String.eqb_spec k (accountFailureKey a)); [congruence|].
      apply (sim_window _ _ _ Hsim u k Hu).
Qed.

Lemma run_simulates ops : forall t s i,
  simulates t s i -> ordered t ops -> fst (run_ops ops s) = fst (ideal_run ops i).
Proof.
  induction ops as [|op ops IH]; intros t s i Hsim Hord; [done|].
  simpl in Hord.
  assert (match op_time op with Some u => t <= u | None => True end) as Ht
    by (destruct (op_time op); [apply Hord|done]).
  destruct (step_simulates t op s i Hsim Ht) as [Hr Hsim']. simpl.
  destruct (step_op op s) as [r s1], (ideal_step op i) as [r' i1]. simpl in Hr, Hsim'. subst r'.
  assert (fst (run_ops ops s1) = fst (ideal_run ops i1)) as Hrest
    by (eapply IH; [exact Hsim'|]; destruct (op_time op); [apply Hord|done]).
  destruct (run_ops ops s1), (ideal_run ops i1). simpl in *. congruence.
Qed.

(** * The memory store keeps the promises of the interface *)

#[export] Instance MemoryStore_laws : StoreLaws.
Proof.
  refine {| live := revoked_at : St -> Z -> string -> bool; granularity := 0 |}; [lia|..].
  - intros now jti ttl s. unfold wp, st_RevokeAccessToken. simpl. rewrite RevokeAccessToken_run.
    split.
    + intros t Hnow Httl Ht. rewrite (proj2 (Z.leb_gt _ _)) by lia.
      rewrite revoked_at_insert, decide_True by done. apply time_after_spec. lia.
    + intros t j Hnow Hd. destruct (ttl <=? 0); [done|].
      rewrite revoked_at_insert, decide_False; congruence.
  - intros now jti s. unfold wp. simpl.
    destruct (IsAccessTokenRevoked_spec now jti s) as (s' & -> & Heq).
    split; [done|]. apply Heq.
  - intros now a ip al il win s. unfold wp. simpl.
    destruct (CheckLoginLimit_spec now a ip al il win s) as (s' & -> & Heq).
    split; [done|]. apply Heq.
  - intros now a ip al il win s. unfold wp.
    change (@st_RecordLoginFailure _ now a ip al il win) with (RecordLoginFailure now a ip al il win).
    pose proof (RecordLoginFailure_spec now a ip al il win s) as Hrun.
    destruct (bump _ _ _) as [n1 e1], (bump _ _ _) as [n2 e2]. by rewrite Hrun.
  - intros a s. by split.
Defined.

(** * Lockout *)

(** A series of failed logins of one account, at the given times and from the
    given addresses. *)
Fixpoint fail_logins (account : string) (al il window : Z) (attempts : list (Z * string))
    (s : MemoryStore) : MemoryStore :=
  match attempts with
  | [] => s
  | (now, ip) :: rest =>
    fail_logins account al il window rest (snd (RecordLoginFailure now account ip al il window s))
  end.

(** Times from [t] on that do not go back and end before [stop]. *)
Fixpoint times_within (t stop : Z) (attempts : list (Z * string)) : Prop :=
  match attempts with
  | [] => True
  | (now, _) :: rest => t <= now < stop /\ times_within now stop rest
  end.

Lemma record_account_window now account ip al il window s t :
  let '(n, e) := bump (window_at s now (accountFailureKey account)) now window in
  window_at (snd (RecordLoginFailure now account ip al il window s)) t (accountFailureKey account)
  = if time_after e t then Some (n, e) else None.
Proof.
  pose proof (RecordLoginFailure_spec now account ip al il window s) as Hrun.
  destruct (bump (window_at s now (accountFailureKey account)) now window) as [n e].
  destruct (bump (window_at s now (ipFailureKey ip)) now window) as [n2 e2].
  rewrite Hrun. simpl. rewrite window_at_insert, decide_False.
  - by rewrite window_at_insert, decide_True.
  - intros H. by eapply account_ip_keys.
Qed.

Lemma fail_logins_window account al il window stop attempts : forall s t n,
  times_within t stop attempts ->
  (forall u, t <= u -> window_at s u (accountFailureKey account)
                       = if time_after stop u then Some (n, stop) else None) ->
  0 <= n -> n + Z.of_nat (length attempts) <= MaxInt64 ->
  exists t', t <= t' /\ (forall a, In a attempts -> fst a <= t') /\ (t' = t \/ In t' (map fst attempts)) /\
  forall u, t' <= u ->
    window_at (fail_logins account al il window attempts s) u (accountFailureKey account)
    = if time_after stop u then Some (n + Z.of_nat (length attempts), stop) else None.
Proof.
  induction attempts as [|[now ip] rest IH]; intros s t n Ht Hw Hn Hmax.
  { exists t. split; [lia|]. split; [done|]. split; [by left|]. intros u Hu. simpl.
    rewrite Z.add_0_r. by apply Hw. }
  destruct Ht as [Hnow Hrest]. cbn [fail_logins]. cbn [length] in Hmax |- *.
  destruct (IH (snd (RecordLoginFailure now account ip al il window s)) now (n + 1))
    as (t' & Ht' & Hall & Hor & Hres); [done| |lia|lia|].
  - intros u Hu. pose proof (record_account_window now account ip al il window s u) as Hrec.
    rewrite Hw in Hrec by lia. rewrite (proj2 (time_after_spec stop now)) in Hrec by lia.
    cbn [bump] in Hrec. rewrite Hrec, add64_id; [done|]. unfold in_int64, MinInt64, MaxInt64 in *. lia.
  - exists t'. split; [lia|]. split; [intros a [<-|Ha]; [done|by apply Hall]|]. split.
    { right. simpl. destruct Hor as [->|Hin]; [by left|by right]. }
    intros u Hu. rewrite Hres by done.
    by replace (n + 1 + Z.of_nat (length rest)) with (n + Z.of_nat (S (length rest))) by lia.
Qed.

Lemma fail_logins_locks account al il window t0 ip0 rest s :
  0 < window -> times_within t0 (t0 + window) rest ->
  window_at s t0 (accountFailureKey account) = None ->
  Z.of_nat (length rest) + 1 <= MaxInt64 ->
  forall u, (forall a, In a ((t0, ip0) :: rest) -> fst a <= u) ->
    window_at (fail_logins account al il window ((t0, ip0) :: rest) s) u (accountFailureKey account)
    = if time_after (t0 + window) u then Some (Z.of_nat (length rest) + 1, t0 + window) else None.
Proof.
  intros Hwin Hrest Hnone Hmax u Hu. cbn [fail_logins].
  destruct (fail_logins_window account al il window (t0 + window) rest
    (snd (RecordLoginFailure t0 account ip0 al il window s)) t0 1)
    as (t' & Ht' & Hall & Hor & Hres); [done| |lia|lia|].
  - intros v Hv. pose proof (record_account_window t0 account ip0 al il window s v) as Hrec.
    rewrite Hnone in Hrec. cbn [bump] in Hrec. by rewrite Hrec.
  - rewrite Hres; [by rewrite (Z.add_comm 1)|].
    destruct Hor as [->|Hin]; [apply (Hu (t0, ip0)); by left|].
    apply in_map_iff in Hin as ([x y] & <- & Hin). apply (Hu (x, y)). by right.
Qed.

(** * Bounds *)

(** Every window of the store ends within [W] of [t]. *)
Definition windows_within (W t : Z) (s : MemoryStore) : Prop :=
  forall k n e, window_at s t k = Some (n, e) -> e <= t + W.

Definition op_window (op : store_op) : option Z :=
  match op with OpFail _ _ _ _ _ w => Some w | _ => None end.

Lemma windows_within_later W t u s : t <= u -> windows_within W t s -> windows_within W u s.
Proof.
  intros Hle Hw k n e Hk. destruct (window_at s t k) as [[n' e']|] eqn:Ht.
  - rewrite (window_at_later _ _ _ _ _ _ Hle Ht) in Hk.
    destruct (time_after e' u); [injection Hk as -> ->|done]. apply Hw in Ht. lia.
  - by rewrite (window_at_expired _ _ _ _ Hle Ht) in Hk.
Qed.

Lemma windows_within_equiv W t a b : equiv_from t a b -> windows_within W t b -> windows_within W t a.
Proof. intros [_ Hw] H k n e. rewrite Hw by lia. apply H. Qed.

Lemma windows_within_insert W t s key n e :
  e <= t + W -> windows_within W t s ->
  windows_within W t (set_counters (insert key (mkCounter n e)) s).
Proof.
  intros He Hw k m f. rewrite window_at_insert. case_decide; [|by apply Hw].
  destruct (time_after e t); [by intros [= <- <-]|done].
Qed.

Lemma time_sub_within e t W : 0 <= W <= MaxInt64 -> e <= t + W -> time_sub e t <= W.
Proof. unfold time_sub, MinInt64, MaxInt64. lia. Qed.

Lemma retry_of_bounds w limit t W :
  0 <= W <= MaxInt64 -> (forall n e, w = Some (n, e) -> e <= t + W /\ t < e) ->
  0 <= retry_of w limit t <= W.
Proof.
  intros HW Hw. destruct w as [[n e]|]; simpl; [|lia]. destruct (n <? limit); [lia|].
  destruct (Hw n e eq_refl) as [He Ht]. split; [|by apply time_sub_within].
  apply time_sub_pos in Ht. lia.
Qed.

Lemma window_at_live s t k n e : window_at s t k = Some (n, e) -> t < e.
Proof.
  unfold window_at. destruct (counters s !! k) as [c|]; [|done].
  destruct (time_after (expiresAt c) t) eqn:Ht; [|done]. intros [= <- <-]. by apply time_after_spec.
Qed.

Lemma bump_bounds W t s key window n e :
  0 < window <= W -> windows_within W t s -> bump (window_at s t key) t window = (n, e) ->
  t < e <= t + W.
Proof.
  intros Hwin Hw. destruct (window_at s t key) as [[m f]|] eqn:Hk; simpl; intros [= <- <-]; [|lia].
  split; [by eapply window_at_live|by eapply Hw].
Qed.

Definition reply_within (W : Z) (r : reply) : Prop :=
  match r with ReplyDuration d => 0 <= d <= W | ReplyFailure => False | _ => True end.

Lemma step_bounds W t op s :
  0 <= W <= MaxInt64 -> windows_within W t s ->
  match op_time op with Some u => t <= u | None => True end ->
  match op_window op with Some w => 0 < w <= W | None => True end ->
  reply_within W (fst (step_op op s)) /\
  windows_within W (match op_time op with Some u => u | None => t end) (snd (step_op op s)).
Proof.
  intros HW Hw Ht Hwin. destruct op as [now jti ttl|now jti|now a ip al il win|now a ip al il win|a];
    simpl in Ht, Hwin; try (apply (windows_within_later W t now) in Hw as Hw'; [|done]);
    unfold step_op; cbn [op_time].
  - rewrite RevokeAccessToken_run. split; [done|]. cbn [snd]. by destruct (ttl <=? 0).
  - destruct (IsAccessTokenRevoked_spec now jti s) as (s' & -> & Heq). split; [done|].
    by eapply windows_within_equiv.
  - destruct (CheckLoginLimit_spec now a ip al il win s) as (s' & -> & Heq).
    split; [|by eapply windows_within_equiv].
    assert (forall k, 0 <= retry_of (window_at s now k) al now <= W /\
                      0 <= retry_of (window_at s now k) il now <= W) as Hb.
    { intros k. split; apply retry_of_bounds; try done; intros n e Hk;
        (split; [by eapply Hw'|by eapply window_at_live]). }
    pose proof (Hb (accountFailureKey a)). pose proof (Hb (ipFailureKey ip)). simpl. lia.
  - pose proof (RecordLoginFailure_spec now a ip al il win s) as Hrun.
    destruct (bump (window_at s now (accountFailureKey a)) now win) as [n1 e1] eqn:H1.
    destruct (bump (window_at s now (ipFailureKey ip)) now win) as [n2 e2] eqn:H2.
    rewrite Hrun. apply (bump_bounds W) in H1; [|done..]. apply (bump_bounds W) in H2; [|done..].
    split; [|apply windows_within_insert; [lia|]; apply windows_within_insert; [lia|done]].
    assert (forall e, now < e <= now + W -> 0 <= time_sub e now <= W) as Hb.
    { intros e He. split; [|apply time_sub_within; lia].
      assert (0 < time_sub e now) by (apply time_sub_pos; lia). lia. }
    pose proof (Hb e1 H1). pose proof (Hb e2 H2). simpl.
    destruct (al <=? n1), (il <=? n2); lia.
  - split; [done|]. intros k n e. simpl. unfold window_at. simpl. rewrite lookup_delete.
    case_decide; [done|]. apply Hw.
Qed.

Lemma run_bounds W ops : forall t s,
  0 <= W <= MaxInt64 -> windows_within W t s -> ordered t ops ->
  (forall op w, In op ops -> op_window op = Some w -> 0 < w <= W) ->
  Forall (reply_within W) (fst (run_ops ops s)).
Proof.
  induction ops as [|op ops IH]; intros t s HW Hw Hord Hwin; [constructor|].
  simpl in Hord.
  destruct (step_bounds W t op s HW Hw) as [Hr Hw'].
  - destruct (op_time op); [apply Hord|done].
  - destruct (op_window op) eqn:?; [|done]. eapply Hwin; [by left|done].
  - cbn [run_ops]. destruct (step_op op s) as [r s1]. cbn [fst snd] in Hr, Hw'.
    assert (Forall (reply_within W) (fst (run_ops ops s1))) as Hrest.
    { eapply IH; [done|exact Hw'|destruct (op_time op); [apply Hord|done]|].
      intros op' w Hin Hop. eapply Hwin; [right; exact Hin|exact Hop]. }
    destruct (run_ops ops s1). by constructor.
Qed.
