(* ===== verification/RedisTheorems.v ===== *)
(** The Redis store meets the promises of [StoreLaws], counts failed logins
    in windows that begin at the first one, and lets every counter expire. *)
From S2P Require Import Prelude GoTime GoStrings Sha256 GoErrors AuthState RedisStore.
From S2P Require Import AuthStateTheorems.

(** * Keys of different kinds differ *)

Lemma access_account_keys j a : accessRevocationKey j <> accountFailureKey a.
Proof. unfold accessRevocationKey, accountFailureKey. intros H%string_app_inj. discriminate. Qed.

Lemma access_ip_keys j i : accessRevocationKey j <> ipFailureKey i.
Proof. unfold accessRevocationKey, ipFailureKey. intros H%string_app_inj. discriminate. Qed.

Section theory.
Context {RC : RedisClient} {RV : RedisView} {RL : RedisLaws}.

(** * The key space *)

#[export] Instance unchanged_preorder now : PreOrder (unchanged now).
Proof.
  split.
  - by intros s t k.
  - intros a b c Hab Hbc t k Ht. by rewrite Hbc, Hab.
Qed.

Lemma becomes_at now s s' k o t : becomes now s s' k o -> now <= t -> seen s' t k = at_instant t o.
Proof. intros Hb Ht. by rewrite (Hb t k Ht), decide_True. Qed.

Lemma becomes_other now s s' k o t k' :
  becomes now s s' k o -> now <= t -> k' <> k -> seen s' t k' = seen s t k'.
Proof. intros Hb Ht Hk. by rewrite (Hb t k' Ht), decide_False. Qed.

(** The keys a command may write. *)
Definition writes (c : command) : option string :=
  match c with Incr k | ExpireNX k _ => Some k | _ => None end.

Lemma command_other now c s r s' t k :
  command_effect now c s r s' -> now <= t -> writes c <> Some k -> seen s' t k = seen s t k.
Proof.
  destruct c as [ks|k'|k'|k' d]; simpl; intros He Ht Hk.
  - by apply He.
  - by apply He.
  - destruct (seen s now k') as [[v x]|].
    + destruct He as [(n & _ & _ & _ & Hb)|(_ & _ & Hu)]; [|by apply Hu].
      eapply becomes_other; [exact Hb|done|congruence].
    + destruct He as [_ Hb]. eapply becomes_other; [exact Hb|done|congruence].
  - destruct (seen s now k') as [[v [x|]]|]; [by apply He| |by apply He].
    destruct (0 <? d).
    + destruct He as (e & _ & _ & Hb). eapply becomes_other; [exact Hb|done|congruence].
    + destruct He as [_ Hb]. eapply becomes_other; [exact Hb|done|congruence].
Qed.

Lemma executed_other now cs s rs s' t k :
  executed now cs s rs s' -> now <= t -> Forall (fun c => writes c <> Some k) cs ->
  seen s' t k = seen s t k.
Proof.
  induction 1 as [|c cs s r s1 rs s2 Hc _ IH]; intros Ht Hf; [done|].
  inversion Hf; subst. rewrite IH by done. by eapply command_other.
Qed.

(** * The store's promises *)

Definition redis_live (s : RS) (t : Z) (jti : string) : bool :=
  if seen s t (accessRevocationKey jti) then true else false.

Lemma redis_live_eq s s' t j :
  seen s' t (accessRevocationKey j) = seen s t (accessRevocationKey j) ->
  redis_live s' t j = redis_live s t j.
Proof. unfold redis_live. by intros ->. Qed.

(** A pipeline over keys of failed logins leaves the revocations alone. *)
Lemma pipeline_live now cs s :
  (forall j, Forall (fun c => writes c <> Some (accessRevocationKey j)) cs) ->
  wp (rc_TxPipelined now cs) (fun r s' =>
    (forall t j, now <= t -> redis_live s' t j = redis_live s t j) /\
    match r with
    | Ok rs => executed now cs s rs s' /\ forallb (fun x => negb (is_error x)) rs = true
    | Err _ => True
    | Panic => False
    end) s.
Proof.
  intros Hw. wp_use (pipeline_law now cs s).
  intros r s' [[[e ->] Hu]|(rs & He & Hr)].
  - split; [|done]. intros t j Ht. by apply redis_live_eq, Hu.
  - split; [intros t j Ht; apply redis_live_eq; by eapply executed_other|].
    by destruct Hr as [[-> Hok]|[e ->]].
Qed.

Lemma wp_pure_outcome {A} (r : outcome error A) (Q : outcome error A -> RS -> Prop) s :
  Q r s -> wp (pure_outcome r) Q s.
Proof. done. Qed.

Lemma executed_inv now c cs s rs s' :
  executed now (c :: cs) s rs s' ->
  exists r rs' s1, rs = r :: rs' /\ command_effect now c s r s1 /\ executed now cs s1 rs' s'.
Proof. inversion 1; subst. eauto 10. Qed.

Lemma executed_nil_inv now s rs s' : executed now [] s rs s' -> rs = [] /\ s' = s.
Proof. by inversion 1. Qed.

Lemma record_commands_live a i win j :
  Forall (fun c => writes c <> Some (accessRevocationKey j))
    [Incr (accountFailureKey a); ExpireNX (accountFailureKey a) win; Incr (ipFailureKey i);
     ExpireNX (ipFailureKey i) win; PTTL (accountFailureKey a); PTTL (ipFailureKey i)].
Proof.
  pose proof (access_account_keys j a). pose proof (access_ip_keys j i).
  repeat constructor; simpl; congruence.
Qed.

(** What [counterValue] makes of an entry. *)
Definition counter_of (o : option entry) : outcome error Z := counterValue (option_map fst o).

(** What [PTTL] tells of an entry, as the store uses it. *)
Definition ttl_of (now : Z) (o : option entry) (d : Z) : Prop :=
  match o with
  | Some (_, Some e) => 0 <= d /\ e - now - Millisecond <= d <= e - now
  | Some (_, None) => d = -1
  | None => d = -2
  end.

Lemma pttl_effect now k s r s' :
  command_effect now (PTTL k) s r s' ->
  unchanged now s s' /\ exists d, r = DurationReply d /\ ttl_of now (seen s now k) d.
Proof.
  simpl. intros [Hu Hr]. split; [done|]. unfold ttl_of.
  destruct (seen s now k) as [[v [e|]]|]; [|by eexists..].
  destruct Hr as (d & -> & Hd). by exists d.
Qed.

(** Every answer of the limiter's check, when Redis answers: the waits of the
    two counters. *)
Definition check_answer (now al il : Z) (oa oi : option entry) (r : outcome error Z) : Prop :=
  match counter_of oa, counter_of oi with
  | Ok na, Ok ni => exists da di, ttl_of now oa da /\ ttl_of now oi di /\
      r = Ok (maxDuration (if al <=? na then positiveTTL da else 0)
                (if il <=? ni then positiveTTL di else 0))
  | _, _ => exists e, r = Err e
  end.

Lemma RedisCheckLoginLimit_spec now a i al il win s :
  wp (RedisCheckLoginLimit now a i al il win) (fun r s' =>
    unchanged now s s' /\
    (check_answer now al il (seen s now (accountFailureKey a)) (seen s now (ipFailureKey i)) r \/
     exists e, r = Err e)) s.
Proof.
  unfold RedisCheckLoginLimit. set (ka := accountFailureKey a). set (ki := ipFailureKey i).
  wp_step. wp_use (pipeline_law now [MGet [ka; ki]; PTTL ka; PTTL ki] s).
  intros r s' [[[e ->] Hu]|(rs & He & Hr)].
  { split; [done|]. right. by exists e. }
  apply executed_inv in He as (r1 & rs1 & s1 & -> & [-> Hu1] & He).
  apply executed_inv in He as (r2 & rs2 & s2 & -> & He2 & He).
  apply executed_inv in He as (r3 & rs3 & s3 & -> & He3 & He).
  apply executed_nil_inv in He as [-> ->].
  apply pttl_effect in He2 as (Hu2 & da & -> & Hda). apply pttl_effect in He3 as (Hu3 & di & -> & Hdi).
  assert (unchanged now s s3) as Hu by (transitivity s1; [done|by transitivity s2]).
  rewrite (Hu1 now ka) in Hda by lia. rewrite (Hu2 now ki), (Hu1 now ki) in Hdi by lia.
  destruct Hr as [[-> _]|[e ->]]; [|split; [done|right; by exists e]].
  unfold check_answer, counter_of. cbn [map]. unfold count_at.
  wp_step. simpl. wp_step. wp_step. apply wp_pure_outcome.
  destruct (counterValue (option_map fst (seen s now ka))) as [na|e|] eqn:Hna.
  2:{ split; [done|]. right. by exists e. }
  2:{ split; [done|]. left. by destruct (seen s now ka) as [[v x]|]; simpl in Hna; [destruct (ParseInt v)|]. }
  wp_step. wp_step. wp_step. apply wp_pure_outcome.
  destruct (counterValue (option_map fst (seen s now ki))) as [ni|e|] eqn:Hni.
  2:{ split; [done|]. right. by exists e. }
  2:{ split; [done|]. left. by destruct (seen s now ki) as [[v x]|]; simpl in Hni; [destruct (ParseInt v)|]. }
  apply wp_ret. split; [done|]. left. by exists da, di.
Qed.

(** ** Counting *)

Lemma becomes_trans now s s1 s2 k o o' :
  becomes now s s1 k o -> becomes now s1 s2 k o' -> becomes now s s2 k o'.
Proof.
  intros H1 H2 t k' Ht. rewrite (H2 t k' Ht). case_decide; [done|].
  by apply (becomes_other _ _ _ _ _ _ _ H1).
Qed.

Lemma becomes_unchanged now s s1 s2 k o :
  becomes now s s1 k o -> unchanged now s1 s2 -> becomes now s s2 k o.
Proof. intros H1 H2 t k' Ht. rewrite (H2 t k' Ht). by apply H1. Qed.

Lemma unchanged_becomes now s s1 s2 k o :
  unchanged now s s1 -> becomes now s1 s2 k o -> becomes now s s2 k o.
Proof. intros H1 H2 t k' Ht. rewrite (H2 t k' Ht). case_decide; [done|]. by apply H1. Qed.

(** What is seen has not expired. *)
Lemma seen_live s t k v e : seen s t k = Some (v, Some e) -> t < e.
Proof.
  intros Hs. pose proof (seen_later s t t k ltac:(lia)) as Hl. rewrite Hs in Hl. simpl in Hl.
  destruct (Z.ltb_spec t e); [done|discriminate].
Qed.

(** An unchanged key holds what it held. *)
Lemma unchanged_holds now s s' k : unchanged now s s' -> becomes now s s' k (seen s now k).
Proof.
  intros Hu t k' Ht. rewrite (Hu t k' Ht). case_decide; [|done]. subst. by apply seen_later.
Qed.

(** One more failure: the counter goes up by one; its window is the one that
    runs, or a new one. *)
Inductive bumped (now win : Z) : option entry -> option entry -> Z -> Prop :=
| bumped_new e : expire_expiry now win e -> bumped now win None (Some (format_int 1, Some e)) 1
| bumped_running v m e : number v m -> m < MaxInt64 ->
    bumped now win (Some (v, Some e)) (Some (format_int (m + 1), Some e)) (m + 1)
| bumped_adopted v m e : number v m -> m < MaxInt64 -> expire_expiry now win e ->
    bumped now win (Some (v, None)) (Some (format_int (m + 1), Some e)) (m + 1).

(** A counter that cannot go up keeps its value. *)
Inductive stuck (now win : Z) : option entry -> option entry -> Prop :=
| stuck_running v e : (forall n, number v n -> n = MaxInt64) ->
    stuck now win (Some (v, Some e)) (Some (v, Some e))
| stuck_adopted v e : (forall n, number v n -> n = MaxInt64) -> expire_expiry now win e ->
    stuck now win (Some (v, None)) (Some (v, Some e)).

Lemma expire_effect now win k s r s' v x :
  0 < win -> seen s now k = Some (v, x) -> command_effect now (ExpireNX k win) s r s' ->
  is_error r = false /\
  exists e, becomes now s s' k (Some (v, Some e)) /\
            match x with Some e' => e = e' | None => expire_expiry now win e end.
Proof.
  intros Hw Hs. cbn [command_effect]. rewrite Hs. destruct x as [e|].
  - intros [-> Hu]. split; [done|]. exists e. split; [|done]. rewrite <- Hs. by apply unchanged_holds.
  - rewrite (proj2 (Z.ltb_lt _ _) Hw). intros (e & -> & He & Hb). split; [done|]. by exists e.
Qed.

Lemma record_effect now win k s r1 s1 r2 s2 :
  0 < win -> command_effect now (Incr k) s r1 s1 -> command_effect now (ExpireNX k win) s1 r2 s2 ->
  is_error r2 = false /\ exists o', becomes now s s2 k o' /\
  ((exists n, r1 = IntReply n /\ bumped now win (seen s now k) o' n) \/
   (exists e, r1 = ErrorReply e) /\ stuck now win (seen s now k) o').
Proof.
  intros Hw Hi He. cbn [command_effect] in Hi.
  assert (forall v x, becomes now s s1 k (Some (v, x)) -> at_instant now (Some (v, x)) = Some (v, x) ->
            is_error r2 = false /\ exists e, becomes now s s2 k (Some (v, Some e)) /\
              match x with Some e' => e = e' | None => expire_expiry now win e end) as Hexp.
  { intros v x Hb Hl. destruct (expire_effect now win k s1 r2 s2 v x Hw) as (H2 & e & Hb2 & Hx);
      [by rewrite (becomes_at _ _ _ _ _ _ Hb) by lia|done|].
    split; [done|]. exists e. split; [by eapply becomes_trans|done]. }
  destruct (seen s now k) as [[v x]|] eqn:Hs.
  - assert (forall u, at_instant now (Some (u, x)) = Some (u, x)) as Hl.
    { intros u. destruct x as [e|]; [|done]. simpl.
      by rewrite (proj2 (Z.ltb_lt _ _) (seen_live _ _ _ _ _ Hs)). }
    destruct Hi as [(n & Hn & Hlt & -> & Hb)|(Hmax & Herr & Hu)].
    + destruct (Hexp _ _ Hb (Hl _)) as (H2 & e & Hb2 & Hx). split; [done|].
      eexists. split; [exact Hb2|]. left. eexists. split; [done|].
      destruct x; [subst; by constructor|by constructor].
    + pose proof (unchanged_holds now s s1 k Hu) as Hb. rewrite Hs in Hb.
      destruct (Hexp _ _ Hb (Hl _)) as (H2 & e & Hb2 & Hx). split; [done|].
      eexists. split; [exact Hb2|]. right. split; [done|].
      destruct x; [subst; by constructor|by constructor].
  - destruct Hi as [-> Hb]. destruct (Hexp _ _ Hb eq_refl) as (H2 & e & Hb2 & Hx).
    split; [done|]. eexists. split; [exact Hb2|]. left. exists 1. split; [done|]. by constructor.
Qed.

(** What recording a failure does to one of the two counters. *)
Definition counted (now win : Z) (s s' : RS) (k : string) : Prop :=
  exists o', (forall t, now <= t -> seen s' t k = at_instant t o') /\
    ((exists n, bumped now win (seen s now k) o' n) \/ stuck now win (seen s now k) o').

(** When the store answers, both counters went up, and the wait is that of
    the counters it leaves. *)
Definition record_answer (now al il win : Z) (s s' : RS) (ka ki : string) (r : outcome error Z) : Prop :=
  exists oa na oi ni da di,
    bumped now win (seen s now ka) oa na /\ bumped now win (seen s now ki) oi ni /\
    (forall t, now <= t -> seen s' t ka = at_instant t oa /\ seen s' t ki = at_instant t oi) /\
    ttl_of now oa da /\ ttl_of now oi di /\
    r = Ok (maxDuration (if al <=? na then positiveTTL da else 0)
              (if il <=? ni then positiveTTL di else 0)).

Lemma bumped_now now win o o' n : bumped now win o o' n ->
  (forall v e, o = Some (v, Some e) -> now < e) -> at_instant now o' = o'.
Proof.
  intros Hb Hl. destruct Hb as [e [He _]|v m e|v m e _ _ [He _]]; simpl;
    [by rewrite (proj2 (Z.ltb_lt _ _) He)| |by rewrite (proj2 (Z.ltb_lt _ _) He)].
  by rewrite (proj2 (Z.ltb_lt _ _) (Hl v e eq_refl)).
Qed.

Lemma RedisRecordLoginFailure_spec now a i al il win s :
  0 < win ->
  let ka := accountFailureKey a in let ki := ipFailureKey i in
  wp (RedisRecordLoginFailure now a i al il win) (fun r s' =>
    (forall t k, now <= t -> k <> ka -> k <> ki -> seen s' t k = seen s t k) /\
    match r with
    | Ok _ => record_answer now al il win s s' ka ki r
    | Err _ => unchanged now s s' \/ counted now win s s' ka /\ counted now win s s' ki
    | Panic => False
    end) s.
Proof.
  intros Hw ka ki. unfold RedisRecordLoginFailure. fold ka ki.
  assert (ka <> ki) as Hne by apply account_ip_keys.
  wp_step. wp_use (pipeline_law now [Incr ka; ExpireNX ka win; Incr ki; ExpireNX ki win; PTTL ka; PTTL ki] s).
  intros r s' [[[e ->] Hu]|(rs & He & Hr)].
  { split; [by intros t k Ht _ _; apply Hu|]. by left. }
  assert (forall t k, now <= t -> k <> ka -> k <> ki -> seen s' t k = seen s t k) as Hother.
  { intros t k Ht Hka Hki. eapply executed_other; [exact He|done|]. repeat constructor; simpl; congruence. }
  apply executed_inv in He as (r1 & ? & s1 & -> & H1 & He).
  apply executed_inv in He as (r2 & ? & s2 & -> & H2 & He).
  apply executed_inv in He as (r3 & ? & s3 & -> & H3 & He).
  apply executed_inv in He as (r4 & ? & s4 & -> & H4 & He).
  apply executed_inv in He as (r5 & ? & s5 & -> & H5 & He).
  apply executed_inv in He as (r6 & ? & s6 & -> & H6 & He).
  apply executed_nil_inv in He as [-> ->].
  destruct (record_effect _ _ _ _ _ _ _ _ Hw H1 H2) as (_ & oa & Hba & Hra).
  destruct (record_effect _ _ _ _ _ _ _ _ Hw H3 H4) as (_ & oi & Hbi & Hri).
  apply pttl_effect in H5 as (Hu5 & da & -> & Hda). apply pttl_effect in H6 as (Hu6 & di & -> & Hdi).
  assert (forall t, now <= t -> seen s4 t ka = at_instant t oa) as Ha4.
  { intros t Ht. rewrite (becomes_other _ _ _ _ _ _ _ Hbi Ht) by done. by apply (becomes_at _ _ _ _ _ _ Hba). }
  assert (seen s2 now ki = seen s now ki) as Hi2 by (by apply (becomes_other _ _ _ _ _ _ _ Hba); [lia|]).
  rewrite Hi2 in Hri.
  assert (forall t, now <= t -> seen s6 t ka = at_instant t oa /\ seen s6 t ki = at_instant t oi) as Hfin.
  { intros t Ht. rewrite (Hu6 t ka Ht), (Hu5 t ka Ht), (Hu6 t ki Ht), (Hu5 t ki Ht).
    split; [by apply Ha4|by apply (becomes_at _ _ _ _ _ _ Hbi)]. }
  assert (counted now win s s6 ka /\ counted now win s s6 ki) as Hcounted.
  { split; [exists oa|exists oi]; (split; [intros t Ht; by apply Hfin|]).
    - destruct Hra as [(n & _ & Hb)|[_ Hb]]; [left; by exists n|by right].
    - destruct Hri as [(n & _ & Hb)|[_ Hb]]; [left; by exists n|by right]. }
  destruct Hr as [[-> Hok]|[e ->]]; [|split; [done|by right]].
  simpl in Hok. destruct Hra as [(na & -> & Hna)|[[e ->] _]]; [|done].
  destruct Hri as [(ni & -> & Hni)|[[e ->] _]]; [|by rewrite ?andb_false_r in Hok].
  apply wp_ret. split; [done|]. exists oa, na, oi, ni, da, di.
  split; [done|]. split; [done|]. split; [done|].
  assert (forall k v e, seen s now k = Some (v, Some e) -> now < e) as Hlive by (intros k v e; apply seen_live).
  rewrite (Ha4 now), (bumped_now _ _ _ _ _ Hna) in Hda by (lia || apply Hlive).
  rewrite (Hu5 now ki), (becomes_at _ _ _ _ _ _ Hbi), (bumped_now _ _ _ _ _ Hni) in Hdi
    by (lia || apply Hlive). done.
Qed.

(** ** The laws *)

Lemma RedisRecordLoginFailure_live now a i al il win s :
  wp (RedisRecordLoginFailure now a i al il win) (fun r s' =>
    r <> Panic /\ (forall t j, now <= t -> redis_live s' t j = redis_live s t j)) s.
Proof.
  unfold RedisRecordLoginFailure. wp_step.
  wp_use (pipeline_live now
    [Incr (accountFailureKey a); ExpireNX (accountFailureKey a) win; Incr (ipFailureKey i);
     ExpireNX (ipFailureKey i) win; PTTL (accountFailureKey a); PTTL (ipFailureKey i)] s
    (record_commands_live a i win)).
  intros [rs|e|] s' [Hl Hr]; [|by split|done]. destruct Hr as [He Hok].
  apply executed_inv in He as (r1 & ? & s1 & -> & H1 & He).
  apply executed_inv in He as (r2 & ? & s2 & -> & H2 & He).
  apply executed_inv in He as (r3 & ? & s3 & -> & H3 & He).
  apply executed_inv in He as (r4 & ? & s4 & -> & H4 & He).
  apply executed_inv in He as (r5 & ? & s5 & -> & H5 & He).
  apply executed_inv in He as (r6 & ? & s6 & -> & H6 & He).
  apply executed_nil_inv in He as [-> _].
  apply pttl_effect in H5 as (_ & da & -> & _). apply pttl_effect in H6 as (_ & di & -> & _).
  assert (forall k s r s', command_effect now (Incr k) s r s' -> is_error r = false ->
            exists n, r = IntReply n) as Hint.
  { intros k u r u' He' Hr'. cbn [command_effect] in He'. destruct (seen u now k) as [[v x]|].
    - destruct He' as [(n & _ & _ & -> & _)|(_ & [e ->] & _)]; [by eexists|done].
    - destruct He' as [-> _]. by eexists. }
  simpl in Hok. rewrite !andb_true_iff, !negb_true_iff in Hok. destruct Hok as (Hr1 & _ & Hr3 & _).
  destruct (Hint _ _ _ _ H1 Hr1) as [n1 ->], (Hint _ _ _ _ H3 Hr3) as [n3 ->].
  by apply wp_ret.
Qed.

Definition redis_granularity : Z := 2 * Millisecond.

(** The proof is kept open: the properties say which bounds it promises. *)
Lemma RedisStore_laws : @StoreLaws RedisStore.
Proof.
  refine {| live := redis_live : @St RedisStore -> Z -> string -> bool;
            granularity := redis_granularity |}; [done|..]; simpl.
  - intros now jti ttl s. unfold RedisRevokeAccessToken. wp_step; bool_to_prop.
    { apply wp_ret. split; [lia|done]. }
    wp_use (set_law now (accessRevocationKey jti) "1" ttl s Heqb).
    intros [[]|e|] s' Hr; [|split; [done|]|done].
    + destruct Hr as (e & He & Hb). split.
      * intros t Ht _ Hlt. unfold redis_live. rewrite (becomes_at _ _ _ _ _ _ Hb Ht). simpl.
        unfold set_expiry, redis_granularity in *. by rewrite (proj2 (Z.ltb_lt _ _)) by lia.
      * intros t j Ht Hd. apply redis_live_eq, (becomes_other _ _ _ _ _ _ _ Hb Ht).
        by rewrite access_key_digest.
    + intros t j Ht Hd. apply redis_live_eq, Hr; [done|]. by rewrite access_key_digest.
  - intros now jti s. unfold RedisIsAccessTokenRevoked. wp_step.
    wp_use (exists_law now (accessRevocationKey jti) s). intros [n|e|] s' [Hu Hr]; [| |done].
    + apply wp_ret. subst n. unfold redis_live at 1. split; [by destruct (seen _ _ _)|].
      intros t j Ht. by apply redis_live_eq, Hu.
    + split; [done|]. intros t j Ht. by apply redis_live_eq, Hu.
  - intros now a i al il win s. wp_use (RedisCheckLoginLimit_spec now a i al il win s).
    intros r s' [Hu Hr]. split; [|intros t j Ht; by apply redis_live_eq, Hu].
    intros ->. destruct Hr as [Hr|[e He]]; [|done]. unfold check_answer in Hr.
    destruct (counter_of _); [|by destruct Hr..]. destruct (counter_of _); [|by destruct Hr..].
    by destruct Hr as (? & ? & _ & _ & ?).
  - intros now a i al il win s. apply RedisRecordLoginFailure_live.
  - intros a s. unfold RedisResetLoginAccount. wp_use (del_law (accountFailureKey a) s).
    intros [[]|e|] s' Hr; [..|done]; (split; [done|]); intros t j; apply redis_live_eq.
    + rewrite Hr, decide_False; [done|]. apply access_account_keys.
    + apply Hr, access_account_keys.
Defined.

(** * Counters expire *)

Lemma counterValue_number v n : number v n -> counterValue (Some v) = Ok n.
Proof. intros [-> Hn]. unfold counterValue. by rewrite ParseInt_format_int. Qed.

(** A counter as the store leaves it: a number of failures, and an expiry at
    most [M] away. *)
Definition sound_counter (t M : Z) (o : option entry) : Prop :=
  match o with
  | None => True
  | Some (v, x) => exists n e, x = Some e /\ number v n /\ 0 < n /\ t < e <= t + M
  end.

Definition sound_counters (s : RS) (t M : Z) : Prop :=
  forall k, sound_counter t M (seen s t (failure_key k)).

(** The longest a window of at most [W] can last in Redis. *)
Definition longest (W : Z) : Z := Z.max W Second + Millisecond.

Lemma sound_counter_later t u M o :
  t <= u -> sound_counter t M o -> sound_counter u M (at_instant u o).
Proof.
  intros Ht. destruct o as [[v x]|]; [|done]. intros (n & e & -> & Hn & Hpos & He). simpl.
  destruct (Z.ltb_spec u e); [|done]. exists n, e. split_and!; (done || lia).
Qed.

Lemma sound_counters_later s t u M : t <= u -> sound_counters s t M -> sound_counters s u M.
Proof.
  intros Ht Hs k. rewrite (seen_later s t u _ Ht). by apply (sound_counter_later t).
Qed.

Lemma bumped_sound now W win o o' n :
  0 < win <= W -> bumped now win o o' n -> sound_counter now (longest W) o ->
  sound_counter now (longest W) o'.
Proof.
  intros Hw Hb Hs. unfold longest in *. destruct Hb as [e He|v m e Hm Hlt|v m e Hm Hlt He].
  - exists 1, e. destruct He as [He1 He2]. split_and!; (done || lia).
  - destruct Hs as (n & e' & [= <-] & [Hv _] & Hpos & He).
    assert (n = m) as ->.
    { destruct Hm as [-> Hm2]. unfold format_int in Hv. by apply pretty.pretty_Z_inj in Hv. }
    exists (m + 1), e. destruct Hm as [_ Hm]. unfold in_int64, MinInt64, MaxInt64 in *.
    split_and!; try (done || lia). split; [done|]. unfold in_int64, MinInt64, MaxInt64. lia.
  - by destruct Hs as (n & e' & [=] & _).
Qed.

Lemma stuck_sound now W win o o' :
  stuck now win o o' -> sound_counter now (longest W) o -> sound_counter now (longest W) o'.
Proof. intros [v e _|v e _ _] Hs; [done|]. by destruct Hs as (n & e' & [=] & _). Qed.

Lemma counted_sound now W win s s' k t :
  0 < win <= W -> counted now win s s' k -> now <= t -> sound_counter now (longest W) (seen s now k) ->
  sound_counter t (longest W) (seen s' t k).
Proof.
  intros Hw (o' & Hs' & Ho) Ht Hs. rewrite (Hs' t Ht). apply (sound_counter_later now); [done|].
  destruct Ho as [[n Hb]|Hst]; [by eapply bumped_sound|by eapply stuck_sound].
Qed.

(** ** Runs of the store *)

Definition redis_step (op : store_op) (s : RS) : RS :=
  match op with
  | OpRevoke now jti ttl => snd (RedisRevokeAccessToken now jti ttl s)
  | OpIsRevoked now jti => snd (RedisIsAccessTokenRevoked now jti s)
  | OpCheck now a i al il win => snd (RedisCheckLoginLimit now a i al il win s)
  | OpFail now a i al il win => snd (RedisRecordLoginFailure now a i al il win s)
  | OpReset a => snd (RedisResetLoginAccount a s)
  end.

Definition redis_run (ops : list store_op) (s : RS) : RS := fold_left (fun s op => redis_step op s) ops s.

(** The clock after the operations, which began at [t]. *)
Definition time_after_ops (t : Z) (ops : list store_op) : Z :=
  fold_left (fun t op => default t (op_time op)) ops t.

(** A window the configuration may ask for, up to [W]. *)
Definition window_within (W : Z) (op : store_op) : Prop :=
  match op with OpFail _ _ _ _ _ win => 0 < win <= W | _ => True end.

Lemma same_counters s s' t M :
  (forall k, seen s' t (failure_key k) = seen s t (failure_key k)) ->
  sound_counters s t M -> sound_counters s' t M.
Proof. intros Hs Hc k. by rewrite Hs. Qed.

Lemma failure_key_cases k a i :
  failure_key k <> accountFailureKey a -> failure_key k <> ipFailureKey i \/ failure_key k = ipFailureKey i.
Proof. destruct (decide (failure_key k = ipFailureKey i)); auto. Qed.

Lemma revoke_counters now jti ttl s M :
  sound_counters s now M -> sound_counters (snd (RedisRevokeAccessToken now jti ttl s)) now M.
Proof.
  intros Hs. unfold RedisRevokeAccessToken. destruct (Z.leb_spec ttl 0) as [?|Httl]; [done|].
  assert (forall k, failure_key k <> accessRevocationKey jti) as Hne.
  { intros [a|i]; simpl; [intros H; by eapply access_account_keys|intros H; by eapply access_ip_keys]. }
  pose proof (set_law now (accessRevocationKey jti) "1" ttl s Httl) as Hlaw. unfold wp in Hlaw.
  destruct (rc_Set _ _ _ _ s) as [[[]|e|] s'] eqn:Hrun; simpl; [..|done];
    (eapply same_counters; [|exact Hs]); intros k.
  - destruct Hlaw as (e & _ & Hb). by eapply becomes_other; [exact Hb|lia|].
  - apply Hlaw; [lia|done].
Qed.

Lemma fail_counters W now a i al il win s :
  0 < win <= W -> sound_counters s now (longest W) ->
  sound_counters (snd (RedisRecordLoginFailure now a i al il win s)) now (longest W).
Proof.
  intros Hw Hs. pose proof (RedisRecordLoginFailure_spec now a i al il win s ltac:(lia)) as Hspec.
  unfold wp in Hspec. destruct (RedisRecordLoginFailure _ _ _ _ _ _ s) as [r s']. simpl in *.
  destruct Hspec as [Hother Hr].
  assert (unchanged now s s' \/ counted now win s s' (accountFailureKey a) /\
                                counted now win s s' (ipFailureKey i)) as [Hu|[Ha Hi]].
  { destruct r as [d|e|]; [|done..]. right.
    destruct Hr as (oa & na & oi & ni & da & di & Hba & Hbi & Hsee & _).
    split; [exists oa|exists oi]; (split; [intros t Ht; by apply Hsee|left; by eexists]). }
  { eapply same_counters; [|exact Hs]. intros k. apply Hu. lia. }
  intros k. destruct (decide (failure_key k = accountFailureKey a)) as [->|Hna].
  { eapply counted_sound; [done|exact Ha|lia|]. apply (Hs (AccountKey a)). }
  destruct (decide (failure_key k = ipFailureKey i)) as [->|Hni].
  { eapply counted_sound; [done|exact Hi|lia|]. apply (Hs (IPKey i)). }
  rewrite Hother by (done || lia). apply Hs.
Qed.

Lemma reset_counters a s t M :
  sound_counters s t M -> sound_counters (snd (RedisResetLoginAccount a s)) t M.
Proof.
  intros Hs k. pose proof (del_law (accountFailureKey a) s) as Hlaw. unfold wp in Hlaw.
  unfold RedisResetLoginAccount. destruct (rc_Del _ s) as [[[]|e|] s']; simpl; [..|done].
  - rewrite Hlaw. case_decide; [done|apply Hs].
  - destruct Hlaw as [Ho Hk]. destruct (decide (failure_key k = accountFailureKey a)) as [He|He].
    + rewrite He. destruct Hk as [Hk|Hk]; rewrite Hk; [|done]. rewrite <- He. apply Hs.
    + rewrite Ho by done. apply Hs.
Qed.

Lemma read_counters {A} (m : ST error RS A) (P : outcome error A -> RS -> Prop) now s M :
  wp m (fun r s' => unchanged now s s' /\ P r s') s ->
  sound_counters s now M -> sound_counters (snd (m s)) now M.
Proof.
  unfold wp. destruct (m s) as [r s']. intros [Hu _] Hs. simpl.
  eapply same_counters; [|exact Hs]. intros k. apply Hu. lia.
Qed.

Lemma run_counters W ops t s :
  ordered t ops -> Forall (window_within W) ops -> sound_counters s t (longest W) ->
  t <= time_after_ops t ops /\
  sound_counters (redis_run ops s) (time_after_ops t ops) (longest W).
Proof.
  revert t s. induction ops as [|op ops IH]; intros t s Hord Hwin Hs; simpl.
  { split; [lia|done]. }
  inversion Hwin as [|? ? Hw Hwin']; subst.
  assert (forall u, op_time op = Some u -> t <= u) as Ht.
  { intros u Hu. simpl in Hord. rewrite Hu in Hord. lia. }
  assert (ordered (default t (op_time op)) ops /\ t <= default t (op_time op)) as [Hord' Hle].
  { simpl in Hord. destruct (op_time op); simpl; split; (apply Hord || done || lia). }
  assert (sound_counters (redis_step op s) (default t (op_time op)) (longest W)) as Hs'.
  { apply (sound_counters_later s t (default t (op_time op))) in Hs; [|done].
    destruct op as [now j ttl|now j|now a i al il win|now a i al il win|a]; simpl in *.
    - by apply revoke_counters.
    - eapply (read_counters _ (fun _ _ => True)); [|exact Hs]. unfold RedisIsAccessTokenRevoked.
      wp_step. wp_use (exists_law now (accessRevocationKey j) s).
      by intros [n|e|] s' [Hu Hr].
    - eapply read_counters; [apply RedisCheckLoginLimit_spec|done].
    - by apply fail_counters.
    - by apply reset_counters. }
  destruct (IH _ _ Hord' Hwin' Hs') as [Hle2 Hfin]. split; [|done].
  unfold time_after_ops in *. lia.
Qed.

(** ** Waits *)

Lemma sound_check now M al il a i win s d s' :
  0 < al -> 0 < il -> sound_counters s now M ->
  RedisCheckLoginLimit now a i al il win s = (Ok d, s') ->
  exists na ni, counter_of (seen s now (accountFailureKey a)) = Ok na /\
    counter_of (seen s now (ipFailureKey i)) = Ok ni /\
    (0 < d <-> al <= na \/ il <= ni) /\ 0 <= d <= Z.max M Second /\
    (d = 0 \/ exists k v e, seen s now (failure_key k) = Some (v, Some e) /\ d <= Z.max (e - now) Second).
Proof.
  intros Hal Hil Hs Hrun.
  apply (wp_run _ _ _ _ _ (RedisCheckLoginLimit_spec now a i al il win s)) in Hrun as [_ Hr].
  destruct Hr as [Hr|[e He]]; [|done]. unfold check_answer in Hr.
  pose proof (Hs (AccountKey a)) as Ha. pose proof (Hs (IPKey i)) as Hi. simpl in Ha, Hi.
  assert (forall k o d0 n lim, o = seen s now (failure_key k) -> sound_counter now M o ->
            ttl_of now o d0 -> counter_of o = Ok n -> 0 < lim ->
            let x := if lim <=? n then positiveTTL d0 else 0 in
            (0 < x <-> lim <= n) /\ 0 <= x <= Z.max M Second /\
            (x = 0 \/ exists v e, o = Some (v, Some e) /\ x <= Z.max (e - now) Second)) as Hwait.
  { intros k o d0 n lim -> Hso Hd Hn Hlim x. subst x. unfold positiveTTL.
    assert (0 < Second) as HS by done.
    destruct (Z.leb_spec lim n) as [Hle|Hgt]; [|split_and!; [lia|lia|lia|by left]].
    destruct (seen s now (failure_key k)) as [[v [e|]]|] eqn:Hk; simpl in Hd.
    - destruct Hso as (n' & e' & [= <-] & _ & _ & He).
      destruct (Z.ltb_spec 0 d0); (split_and!; [lia|lia|lia|right; exists v, e; split; [done|lia]]).
    - by destruct Hso as (n' & e' & [=] & _).
    - simpl in Hn. injection Hn as <-. lia. }
  destruct (counter_of (seen s now (accountFailureKey a))) as [na|e|] eqn:Hna; [|by destruct Hr..].
  destruct (counter_of (seen s now (ipFailureKey i))) as [ni|e|] eqn:Hni; [|by destruct Hr..].
  destruct Hr as (da & di & Hda & Hdi & [= ->]).
  destruct (Hwait (AccountKey a) _ _ _ _ eq_refl Ha Hda Hna Hal) as (Ha1 & Ha2 & Ha3).
  destruct (Hwait (IPKey i) _ _ _ _ eq_refl Hi Hdi Hni Hil) as (Hi1 & Hi2 & Hi3).
  exists na, ni. split; [done|]. split; [done|]. unfold maxDuration.
  destruct (Z.ltb_spec (if il <=? ni then positiveTTL di else 0)
              (if al <=? na then positiveTTL da else 0)) as [Hlt|Hge].
  - split; [rewrite <- Ha1, <- Hi1; lia|]. split; [done|].
    destruct Ha3 as [?|(v & e & He & Hx)]; [by left|]. right. by exists (AccountKey a), v, e.
  - split; [rewrite <- Ha1, <- Hi1; lia|]. split; [done|].
    destruct Hi3 as [?|(v & e & He & Hx)]; [by left|]. right. by exists (IPKey i), v, e.
Qed.

(** ** A series of failed logins of one account, each of them answered *)

Fixpoint redis_failures (a : string) (al il win : Z) (fs : list (Z * string)) (s s' : RS) : Prop :=
  match fs with
  | [] => s' = s
  | (now, ip) :: fs' => exists d s1, RedisRecordLoginFailure now a ip al il win s = (Ok d, s1) /\
                                     redis_failures a al il win fs' s1 s'
  end.

Lemma redis_failure_counted now a ip al il win s d s1 n e :
  0 < win -> RedisRecordLoginFailure now a ip al il win s = (Ok d, s1) ->
  seen s now (accountFailureKey a) = Some (format_int n, Some e) -> in_int64 n ->
  in_int64 (n + 1) /\
  forall t, now <= t -> seen s1 t (accountFailureKey a) = at_instant t (Some (format_int (n + 1), Some e)).
Proof.
  intros Hw Hrun Hs Hn.
  apply (wp_run _ _ _ _ _ (RedisRecordLoginFailure_spec now a ip al il win s Hw)) in Hrun
    as [_ (oa & na & oi & ni & da & di & Hb & _ & Hsee & _)].
  rewrite Hs in Hb. inversion Hb as [|v m x Hm Hlt Hv Ho Hna|]; subst.
  destruct Hm as [Hm Hm2]. apply pretty.pretty_Z_inj in Hm as ->.
  split; [unfold in_int64, MinInt64, MaxInt64 in *; lia|]. intros t Ht. by apply Hsee.
Qed.

Lemma redis_failures_running a al il win fs s s' n e t0 t1 :
  0 < win -> redis_failures a al il win fs s s' -> times_within t0 t1 fs -> t1 <= e -> in_int64 n ->
  (forall t, t0 <= t -> seen s t (accountFailureKey a) = at_instant t (Some (format_int n, Some e))) ->
  forall t, t0 <= t -> (forall f, In f fs -> fst f <= t) ->
  in_int64 (n + Z.of_nat (length fs)) /\
  seen s' t (accountFailureKey a)
  = at_instant t (Some (format_int (n + Z.of_nat (length fs)), Some e)).
Proof.
  intros Hw. revert s n t0. induction fs as [|[now ip] fs IH]; intros s n t0 Hf Ht He Hn Hs t Hle Hlast.
  { simpl in Hf. subst. simpl. rewrite Z.add_0_r. split; [done|]. by apply Hs. }
  destruct Hf as (d & s1 & Hrun & Hf). simpl in Ht. destruct Ht as ([Hn1 Hn2] & Ht).
  assert (seen s now (accountFailureKey a) = Some (format_int n, Some e)) as Hnow.
  { rewrite Hs by lia. simpl. by rewrite (proj2 (Z.ltb_lt _ _)) by lia. }
  destruct (redis_failure_counted _ _ _ _ _ _ _ _ _ _ _ Hw Hrun Hnow Hn) as [Hn' Hs1].
  assert (now <= t) as Hnt by (apply (Hlast (now, ip)); by left).
  destruct (IH s1 (n + 1) now Hf Ht He Hn' Hs1 t Hnt) as [Hin Hsee].
  { intros f Hin. apply Hlast. by right. }
  replace (n + Z.of_nat (length ((now, ip) :: fs))) with (n + 1 + Z.of_nat (length fs)); [done|].
  simpl. lia.
Qed.
End theory.
