(* ===== verification/RedisMem.v ===== *)
(** A Redis server in memory that keeps every promise of [RedisLaws]: the
    laws can hold together, and the witnesses run on it. It is not part of
    the program. Its connection fails when the list says so. *)
From S2P Require Import Prelude GoTime GoStrings Sha256 GoErrors AuthState RedisStore RedisTheorems.

Record redis_mem := mkRedisMem { rm_keys : gmap string entry; rm_faults : list bool }.

Definition mem_seen (m : gmap string entry) (t : Z) (k : string) : option entry := at_instant t (m !! k).

Definition mem_command (now : Z) (c : command) (m : gmap string entry) : cmd_reply * gmap string entry :=
  match c with
  | MGet keys => (SliceReply (map (fun k => option_map fst (mem_seen m now k)) keys), m)
  | PTTL k =>
    (match mem_seen m now k with
     | Some (_, Some e) => DurationReply (e - now)
     | Some (_, None) => DurationReply (-1)
     | None => DurationReply (-2)
     end, m)
  | Incr k =>
    match mem_seen m now k with
    | None => (IntReply 1, <[k := (format_int 1, None)]> m)
    | Some (v, x) =>
      match ParseInt v with
      | Some n => if String.eqb v (format_int n) && (n <? MaxInt64)
                  then (IntReply (n + 1), <[k := (format_int (n + 1), x)]> m)
                  else (ErrorReply (Plain "ERR value is not an integer or out of range"), m)
      | None => (ErrorReply (Plain "ERR value is not an integer or out of range"), m)
      end
    end
  | ExpireNX k d =>
    match mem_seen m now k with
    | Some (v, None) => (BoolReply true, if 0 <? d then <[k := (v, Some (now + Z.max d Second))]> m
                                         else delete k m)
    | _ => (BoolReply false, m)
    end
  end.

Fixpoint mem_commands (now : Z) (cs : list command) (m : gmap string entry)
    : list cmd_reply * gmap string entry :=
  match cs with
  | [] => ([], m)
  | c :: cs =>
    let '(r, m) := mem_command now c m in
    let '(rs, m) := mem_commands now cs m in (r :: rs, m)
  end.

Definition connection_error : error := Plain "redis: connection refused".

(** Uses up one fault. *)
Definition with_connection {A} (m : ST error (gmap string entry) A) : ST error redis_mem A :=
  fun s => match rm_faults s with
           | true :: fs => (Err connection_error, mkRedisMem (rm_keys s) fs)
           | fs => let '(r, k) := m (rm_keys s) in (r, mkRedisMem k (tail fs))
           end.

#[export] Instance mem_client : RedisClient := {|
  RS := redis_mem;
  rc_Set now k v ttl := with_connection (modify (insert k (v, Some (now + ttl))));
  rc_Exists now k := with_connection (gets (fun m => if mem_seen m now k then 1 else 0));
  (** an empty pipeline is not sent *)
  rc_TxPipelined now cs := if bool_decide (length cs = 0%nat) then ret [] else with_connection (fun m =>
    let '(rs, m') := mem_commands now cs m in
    (match List.find is_error rs with Some (ErrorReply e) => Err e | _ => Ok rs end, m'));
  rc_Del k := with_connection (modify (delete k));
  rc_Ping := with_connection (ret tt);
|}.

#[export] Instance mem_view : RedisView := fun s t k => mem_seen (rm_keys s) t k.

Lemma mem_unchanged m fs fs' now : unchanged now (mkRedisMem m fs : RS) (mkRedisMem m fs' : RS).
Proof. by intros t k _. Qed.

Lemma mem_insert m now fs fs' k o :
  becomes now (mkRedisMem m fs : RS) (mkRedisMem (<[k := o]> m) fs' : RS) k (Some o).
Proof.
  intros t k' _. unfold seen, mem_view, mem_seen. simpl. rewrite lookup_insert.
  case_decide; [by rewrite decide_True|]. by rewrite decide_False.
Qed.

Lemma mem_delete m now fs fs' k :
  becomes now (mkRedisMem m fs : RS) (mkRedisMem (delete k m) fs' : RS) k None.
Proof.
  intros t k' _. unfold seen, mem_view, mem_seen. simpl. rewrite lookup_delete.
  case_decide; [by rewrite decide_True|]. by rewrite decide_False.
Qed.

Lemma mem_seen_live m t k v e : mem_seen m t k = Some (v, Some e) -> t < e.
Proof.
  unfold mem_seen, at_instant. destruct (m !! k) as [[v' [x|]]|]; [|done..].
  destruct (Z.ltb_spec t x); [|done]. by intros [= _ <-].
Qed.

Lemma mem_command_effect now c m fs fs' r m' :
  mem_command now c m = (r, m') ->
  command_effect now c (mkRedisMem m fs : RS) r (mkRedisMem m' fs' : RS).
Proof.
  destruct c as [ks|k|k|k d]; cbn [mem_command command_effect]; change (seen ?s) with (mem_seen m).
  - intros [= <- <-]. split; [done|]. apply mem_unchanged.
  - destruct (mem_seen m now k) as [[v [e|]]|] eqn:Hk; intros [= <- <-];
      (split; [apply mem_unchanged|]); [|done..].
    pose proof (mem_seen_live _ _ _ _ _ Hk). exists (e - now). unfold Millisecond. split_and!; (done || lia).
  - destruct (mem_seen m now k) as [[v x]|] eqn:Hk.
    2:{ intros [= <- <-]. split; [done|]. apply mem_insert. }
    assert (forall n, number v n -> ParseInt v = Some n) as Hp.
    { intros n [-> Hn]. by apply ParseInt_format_int. }
    destruct (ParseInt v) as [n|] eqn:Hv.
    + destruct (String.eqb_spec v (format_int n)) as [Heq|Hne]; cbn [andb].
      * destruct (Z.ltb_spec n MaxInt64); intros [= <- <-].
        -- left. exists n. split; [|split; [done|split; [done|apply mem_insert]]].
           split; [done|]. by apply ParseInt_range in Hv.
        -- right. split; [|split; [by eexists|apply mem_unchanged]]. intros n' Hn'.
           pose proof (Hp n' Hn') as [= ->]. destruct Hn' as [_ [_ Hn']]. lia.
      * intros [= <- <-]. right. split; [|split; [by eexists|apply mem_unchanged]].
        intros n' Hn'. pose proof (Hp n' Hn') as [= ->]. by destruct Hn'.
    + intros [= <- <-]. right. split; [|split; [by eexists|apply mem_unchanged]].
      intros n' Hn'. by specialize (Hp n' Hn').
  - destruct (mem_seen m now k) as [[v [e|]]|] eqn:Hk; intros [= <- <-].
    + split; [done|]. apply mem_unchanged.
    + destruct (Z.ltb_spec 0 d).
      * eexists. split; [done|]. split; [|apply mem_insert]. unfold expire_expiry, Second, Millisecond. lia.
      * split; [done|]. apply mem_delete.
    + split; [done|]. apply mem_unchanged.
Qed.

Lemma mem_commands_executed now cs m fs rs m' :
  mem_commands now cs m = (rs, m') ->
  executed now cs (mkRedisMem m fs : RS) rs (mkRedisMem m' fs : RS).
Proof.
  revert m rs. induction cs as [|c cs IH]; intros m rs; simpl; [intros [= <- <-]; constructor|].
  destruct (mem_command now c m) as [r m1] eqn:Hc. destruct (mem_commands now cs m1) as [rs1 m2] eqn:Hcs.
  intros [= <- <-]. econstructor; [by apply mem_command_effect|by apply IH].
Qed.

(** A command over the connection: it fails and nothing happens, or it runs. *)
Lemma with_connection_run {A} (m : ST error (gmap string entry) A) (s : redis_mem) r s' :
  with_connection m s = (r, s') ->
  r = Err connection_error /\ rm_keys s' = rm_keys s \/
  m (rm_keys s) = (r, rm_keys s').
Proof.
  unfold with_connection. destruct (m (rm_keys s)) as [r0 k].
  destruct (rm_faults s) as [|[|] fs]; intros [= <- <-]; auto.
Qed.

Lemma mem_same_keys (s s' : redis_mem) : rm_keys s' = rm_keys s -> forall t k, seen (s' : RS) t k = seen (s : RS) t k.
Proof. intros Hk t k. unfold seen, mem_view. by rewrite Hk. Qed.

(** A pipeline that is sent. *)
Lemma mem_pipeline now c cs m fs fs' rs m' :
  mem_commands now (c :: cs) m = (rs, m') ->
  executed now (c :: cs) (mkRedisMem m fs : RS) rs (mkRedisMem m' fs' : RS).
Proof.
  simpl. destruct (mem_command now c m) as [r m1] eqn:Hc. destruct (mem_commands now cs m1) as [rs1 m2] eqn:Hcs.
  intros [= <- <-]. econstructor; [by eapply mem_command_effect|by apply mem_commands_executed].
Qed.

Lemma find_no_error rs : List.find is_error rs = None -> forallb (fun x => negb (is_error x)) rs = true.
Proof.
  intros Hf. apply forallb_forall. intros x Hx. apply negb_true_iff.
  by apply (find_none is_error rs).
Qed.

#[export] Instance mem_laws : RedisLaws.
Proof.
  split.
  - intros [m fs] t u k Htu. unfold seen, mem_view, mem_seen. simpl.
    destruct (m !! k) as [[v [e|]]|]; [|done..]. simpl.
    destruct (Z.ltb_spec t e); [done|]. by rewrite (proj2 (Z.ltb_ge u e)) by lia.
  - intros now k v ttl s Httl. apply wp_intro. intros r s' Hrun.
    apply with_connection_run in Hrun as [[-> Hk]|Hrun].
    { intros t k' _ _. by apply mem_same_keys. }
    injection Hrun as <- Hk. exists (now + ttl). split; [unfold set_expiry, Millisecond; lia|].
    destruct s as [m fs], s' as [m' fs']. simpl in Hk. subst m'. apply mem_insert.
  - intros now k s. apply wp_intro. intros r s' Hrun.
    apply with_connection_run in Hrun as [[-> Hk]|Hrun].
    { split; [intros t k' _; by apply mem_same_keys|done]. }
    injection Hrun as <- Hk. split; [intros t k' _; by apply mem_same_keys|].
    unfold seen, mem_view. by destruct (mem_seen _ _ _).
  - intros now cs s. apply wp_intro. intros r s' Hrun. simpl in Hrun.
    destruct cs as [|c cs]; [injection Hrun as <- <-; right; exists []; split; [constructor|by left]|].
    rewrite bool_decide_false in Hrun by done.
    apply with_connection_run in Hrun as [[-> Hk]|Hrun].
    { left. split; [by eexists|]. intros t k' _. by apply mem_same_keys. }
    right. destruct (mem_commands now (c :: cs) (rm_keys s)) as [rs m'] eqn:Hcs.
    destruct s as [m fs], s' as [m1 fs']. injection Hrun as <- Hm. simpl in Hm, Hcs. subst m'.
    exists rs. split; [by apply mem_pipeline|].
    destruct (List.find is_error rs) as [[]|] eqn:Hf; try (apply find_some in Hf as [_ Hf]; done).
    + right. by eexists.
    + left. split; [done|]. by apply find_no_error.
  - intros k s. apply wp_intro. intros r s' Hrun.
    apply with_connection_run in Hrun as [[-> Hk]|Hrun].
    { split; [intros t k' _; by apply mem_same_keys|left; intros t; by apply mem_same_keys]. }
    injection Hrun as <- Hk. intros t k'. unfold seen, mem_view, mem_seen. rewrite <- Hk, lookup_delete.
    case_decide; [by rewrite decide_True|]. by rewrite decide_False.
  - intros s. apply wp_intro. intros r s' Hrun.
    apply with_connection_run in Hrun as [[-> Hk]|Hrun]; [split; [done|by apply mem_same_keys]|].
    injection Hrun as <- Hk. split; [done|by apply mem_same_keys].
Qed.
