(* ===== verification/TokenTheorems.v ===== *)
(** What the token manager guarantees: tokens it issues come back as they
    were issued until they expire, and what it accepts is well formed. *)
From S2P Require Import Prelude GoTime GoStrings Sha256 GoErrors Model Gorm AuthState World.
From S2P Require Import TokenManager.

(** * The checks on claims *)

Definition known_type (t : string) : Prop := t = TokenTypeAccess \/ t = TokenTypeRefresh.

(** What [parseToken] promises of the claims it returns. *)
Record sound_claims (c : UserClaims) : Prop := {
  sc_user : 0 < c_UserID c;
  sc_username : TrimSpace (c_Username c) <> "";
  sc_type : known_type (c_TokenType c);
  sc_version : 0 < c_AuthVersion c;
  sc_jti : TrimSpace (c_JTI c) <> "" /\ c_JTI c = c_ID c;
  sc_times : c_IssuedAt c <> None /\ c_ExpiresAt c <> None;
}.

Definition same_claims_but_jti (c c' : UserClaims) : Prop := c' = set_jti (c_JTI c') c.

Lemma set_jti_same c : set_jti (c_JTI c) c = c.
Proof. by destruct c. Qed.

Lemma check_claims_sound valid c c' :
  check_claims valid c = Ok c' -> valid = true /\ sound_claims c' /\ same_claims_but_jti c c'.
Proof.
  unfold check_claims, claimsFromToken.
  destruct valid; [|done]. cbn [negb].
  destruct (_ || _) eqn:Htimes; [done|].
  destruct (c_UserID c <=? 0) eqn:Hu; [done|].
  destruct (String.eqb (TrimSpace (c_Username c)) "") eqn:Hn; [done|].
  destruct (_ && _) eqn:Ht; [done|].
  destruct (c_AuthVersion c <=? 0) eqn:Hv; [done|].
  set (d := if String.eqb (TrimSpace (c_JTI c)) "" then set_jti (c_ID c) c else c).
  assert (d = set_jti (c_JTI d) c /\ c_ID d = c_ID c) as [Hd Hid].
  { unfold d. destruct (String.eqb (TrimSpace (c_JTI c)) ""); [done|]. by rewrite set_jti_same. }
  clearbody d.
  destruct (String.eqb (TrimSpace (c_JTI d)) "" || String.eqb (c_ID d) "") eqn:Hj; [done|].
  destruct (negb (String.eqb (c_ID d) (c_JTI d))) eqn:Heq; [done|]. intros [= <-].
  bool_to_prop. split; [done|]. split; [|exact Hd]. rewrite Hd. split; simpl; try done.
  - destruct Ht as [Ht|Ht]; bool_to_prop; [by left|by right].
  - split; [done|]. congruence.
  - destruct (c_IssuedAt c), (c_ExpiresAt c); done.
Qed.

(** Claims as the manager issues them, back from the wire, pass the checks. *)
Definition issued_claims `{JWT} (m : TokenManager) (uid : Z) (username : string) (ver : Z)
    (tokenType : string) (now exp : Z) (jti : string) : UserClaims :=
  mkUserClaims username uid tokenType ver jti (tm_issuer m)
    (Some (numeric_date now)) (Some (numeric_date exp)) jti.

Lemma check_claims_issued `{JWT} m uid username ver ty now exp jti :
  0 < uid -> TrimSpace username <> "" -> known_type ty -> 0 < ver -> TrimSpace jti <> "" ->
  check_claims true (wire (issued_claims m uid username ver ty now exp jti))
  = Ok (issued_claims m uid username ver ty now exp jti).
Proof.
  intros Hu Hn Ht Hv Hj. unfold check_claims, claimsFromToken, issued_claims, wire. simpl.
  rewrite (proj2 (Z.leb_gt _ _)) by done. rewrite (proj2 (String.eqb_neq _ _) Hn).
  assert (negb (String.eqb ty TokenTypeAccess) && negb (String.eqb ty TokenTypeRefresh) = false)
    as -> by (by destruct Ht as [-> | ->]).
  rewrite (proj2 (Z.leb_gt _ _)) by done. rewrite (proj2 (String.eqb_neq _ _) Hj). simpl.
  assert (jti <> "") as Hj0 by (by intros ->).
  rewrite (proj2 (String.eqb_neq _ _) Hj0), String.eqb_refl. done.
Qed.

Section theory.
Context {G : Gorm} {SS : Store} {E : Env} {J : JWT} {JL : JWTLaws}.

(** * Issuing *)

Definition TTL_of (m : TokenManager) (tokenType : string) : Z :=
  if String.eqb tokenType TokenTypeAccess then tm_accessTTL m else tm_refreshTTL m.

(** What an issued token is, made at the clock reading [w_tick w]. *)
Definition issued (m : TokenManager) (w : World) (uid : Z) (username : string) (ver : Z)
    (tokenType : string) (ttl : Z) (it : IssuedToken) : Prop :=
  let now := clock (w_tick w) in
  it_JTI it = uuid_at (w_seed w) /\ it_TokenType it = tokenType /\
  it_ExpiresAt it = now + ttl /\ it_ExpiresIn it = duration_seconds ttl /\
  jwt_sign (tm_secret m) (issued_claims m uid username ver tokenType now (now + ttl) (it_JTI it))
  = Ok (it_Token it).

Lemma generateToken_spec m uid username ver ty ttl w :
  wp (generateToken m uid username ver ty ttl) (fun r w' =>
    match r with
    | Ok it => 0 < ver /\ issued m w uid username ver ty ttl it /\ w' = reseed (tick w)
    | Err e => e = ErrTokenVersionInvalid /\ ver <= 0 /\ w' = w \/ library_error e /\ 0 < ver
    | Panic => False
    end) w.
Proof.
  unfold generateToken. wp_step; bool_to_prop; [apply wp_fail; by left|].
  wp_step. apply wp_Now. wp_step. apply wp_NewUUID. wp_step. apply wp_of_res.
  pose proof (jwt_sign_outcome (tm_secret m)
    (issued_claims m uid username ver ty (clock (w_tick w)) (time_add (clock (w_tick w)) ttl)
       (uuid_at (w_seed (tick w))))) as Hs.
  fold (issued_claims m uid username ver ty (clock (w_tick w)) (time_add (clock (w_tick w)) ttl)
       (uuid_at (w_seed (tick w)))).
  destruct (jwt_sign _ _) as [tok|e|] eqn:Hsign; [|by right|done].
  apply wp_ret. done.
Qed.

(** * Parsing *)

Lemma parse_fresh_token m w w2 uid username ver ty ttl it :
  issued m w uid username ver ty ttl it ->
  0 < uid -> 0 < ver -> TrimSpace username <> "" -> ValidString username = true ->
  known_type ty -> TrimSpace (it_JTI it) <> "" ->
  clock (w_tick w) <= clock (w_tick w2) < it_ExpiresAt it - Second + parse_leeway ->
  parseToken m (it_Token it) w2
  = (Ok (issued_claims m uid username ver ty (clock (w_tick w)) (it_ExpiresAt it) (it_JTI it)), tick w2).
Proof.
  intros (Hj & Hty & Hexp & _ & Hsign) Hu Hv Hn Hvalid Hk Hjti Hnow.
  rewrite <- Hexp in Hsign.
  pose proof (numeric_date_bounds (it_ExpiresAt it)) as Hd.
  pose proof (numeric_date_bounds (clock (w_tick w))) as Hd0.
  assert (jwt_parse (tm_secret m) (tm_issuer m) parse_leeway (clock (w_tick w2)) (it_Token it)
          = Ok (wire (issued_claims m uid username ver ty (clock (w_tick w)) (it_ExpiresAt it)
                        (it_JTI it)), true)) as Hp.
  { eapply (jwt_parse_fresh (tm_secret m) (issued_claims m uid username ver ty (clock (w_tick w))
      (it_ExpiresAt it) (it_JTI it)) (it_Token it)); [exact Hsign|done|reflexivity|lia|].
    intros iat [= <-]. unfold parse_leeway, Second in *. lia. }
  unfold parseToken, bind, Now, of_res. cbn beta iota. rewrite Hp. cbn beta iota.
  by rewrite check_claims_issued.
Qed.

Lemma parse_expired_token m w w2 uid username ver ty ttl it :
  issued m w uid username ver ty ttl it -> ValidString username = true ->
  it_ExpiresAt it + parse_leeway <= clock (w_tick w2) ->
  exists e, parseToken m (it_Token it) w2 = (Err e, tick w2) /\ errors_Is e jwt_ErrTokenExpired = true.
Proof.
  intros (Hj & Hty & Hexp & _ & Hsign) Hvalid Hnow. rewrite <- Hexp in Hsign.
  pose proof (numeric_date_bounds (it_ExpiresAt it)) as Hd.
  destruct (jwt_parse_expired _ _ _ parse_leeway (clock (w_tick w2)) _ Hsign Hvalid eq_refl)
    as (e & He & _ & Hx); [lia|].
  exists e. split; [|done]. unfold parseToken, bind, Now, of_res. cbn beta iota. simpl in He.
  by rewrite He.
Qed.

(** What [parseToken] accepts at a clock reading [now]. *)
Definition accepted (m : TokenManager) (now : Z) (c : UserClaims) : Prop :=
  sound_claims c /\ c_Issuer c = tm_issuer m /\
  exists iat exp, c_IssuedAt c = Some iat /\ c_ExpiresAt c = Some exp /\
                  iat - parse_leeway <= now < exp + parse_leeway.

Lemma parseToken_spec m tok w :
  wp (parseToken m tok) (fun r w' =>
    w' = tick w /\
    match r with Ok c => accepted m (clock (w_tick w)) c | Err _ => True | Panic => False end) w.
Proof.
  unfold parseToken. wp_step. apply wp_Now. wp_step. apply wp_of_res.
  pose proof (jwt_parse_sound (tm_secret m) (tm_issuer m) parse_leeway (clock (w_tick w)) tok) as Hs.
  destruct (jwt_parse _ _ _ _ _) as [[c valid]|e|]; [|done..].
  apply wp_of_res. split; [done|]. destruct Hs as (Hiss & _ & (exp & Hexp & Hlt) & Hiat).
  destruct (check_claims valid c) as [c'|e|] eqn:Hc; [|done|].
  - apply check_claims_sound in Hc as (_ & Hsound & Hsame). split; [done|].
    rewrite Hsame. split; [done|]. destruct Hsound as [_ _ _ _ _ [Hi _]].
    rewrite Hsame in Hi. simpl in *. destruct (c_IssuedAt c) as [iat|]; [|done].
    exists iat, exp. specialize (Hiat iat eq_refl). split; [done|]. split; [done|lia].
  - unfold check_claims, claimsFromToken in Hc. by repeat (destruct (if _ then _ else _); try done); repeat case_match.
Qed.

Lemma ParseAccessToken_spec m tok w :
  wp (ParseAccessToken m tok) (fun r w' =>
    w' = tick w /\
    match r with
    | Ok c => accepted m (clock (w_tick w)) c /\ c_TokenType c = TokenTypeAccess
    | Err _ => True
    | Panic => False
    end) w.
Proof.
  unfold ParseAccessToken. wp_step. wp_use (parseToken_spec m tok w).
  intros [c|e|] w1 [-> Hc]; [|done..]. wp_step; [by apply wp_fail|]. bool_to_prop.
  by apply wp_ret.
Qed.

Lemma ParseRefreshToken_spec m tok w :
  wp (ParseRefreshToken m tok) (fun r w' =>
    w' = tick w /\
    match r with
    | Ok c => accepted m (clock (w_tick w)) c /\ c_TokenType c = TokenTypeRefresh
    | Err _ => True
    | Panic => False
    end) w.
Proof.
  unfold ParseRefreshToken. wp_step. wp_use (parseToken_spec m tok w).
  intros [c|e|] w1 [-> Hc]; [|done..]. wp_step; [by apply wp_fail|]. bool_to_prop.
  by apply wp_ret.
Qed.
End theory.
