(* ===== verification/AuthTheorems.v ===== *)
(** What the session service guarantees: rotation, replay detection, logout
    and the validation of access tokens. *)
From S2P Require Import Prelude GoTime GoStrings Sha256 GoErrors Model Gorm AuthState World.
From S2P Require Import Dao RefreshRepo TokenManager AuthService.

Section theory.
Context {STO : Storage} {G : Gorm} {GL : GormLaws} {SS : Store} {SL : StoreLaws}.
Context {E : Env} {UT : UnicodeTables}.
Context {US : AuthUserStore} {UL : AuthUserStoreLaws}.
Context {RR : RefreshTokenRepository} {RL : RefreshTokenRepositoryLaws}.

(** * Vocabulary *)

(** The user [uid] is active with authentication version [ver]. *)
Definition session_user (w : World) (uid ver : Z) : Prop :=
  exists u, In u (tbl TUsers w) /\ u_DeletedAt u = None /\ u_ID u = uid /\
            u_Status u = UserStatusActive /\ u_AuthVersion u = ver.

(** The stored token the caller presents, as its owner. *)
Definition presents (w : World) (uid : Z) (jti hash : string) (k : RefreshToken) : Prop :=
  In k (tbl TRefreshTokens w) /\ coll_eqb (t_JTI k) jti = true /\
  t_UserID k = uid /\ t_TokenHash k = hash.

Definition family_of (k : RefreshToken) : string :=
  if String.eqb (t_FamilyID k) "" then t_JTI k else t_FamilyID k.

Definition mark_rotated (at_ : Z) (by_ : string) (k : RefreshToken) : RefreshToken :=
  set_replaced_by (Some by_) (set_revoked at_ ReasonRotated k).

(** The new row of a rotation, as stored. *)
Definition successor (id now uid : Z) (old next : RefreshToken) : RefreshToken :=
  stored TRefreshTokens (prepare TRefreshTokens id now (set_owner uid (family_of old) next)).

(** The effect of a rotation: the presented token, live at a time the clock
    showed, is revoked and points to [next], which is added to its family. *)
Definition rotation_effect (w w' : World) (uid : Z) (oldJTI oldHash : string) (next : RefreshToken)
    : Prop :=
  exists old id now1 now2 at_,
    presents w uid oldJTI oldHash old /\ t_RevokedAt old = None /\
    (exists t, read_between w w' t /\ t < t_ExpiresAt old) /\ 0 < id /\
    let new := successor id now1 uid old next in
    Forall (fun k => conflicts TRefreshTokens k new = false) (tbl TRefreshTokens w) /\
    sets w w' TRefreshTokens
      (update_where (active_by_jti oldJTI)
         (updated TRefreshTokens now2 (mark_rotated at_ (t_JTI next))) (tbl TRefreshTokens w)
       ++ [new]).

(** The effect of a replay: the presented token had been rotated away, and
    every active token of its family is revoked. *)
Definition replay_effect (w w' : World) (uid : Z) (oldJTI oldHash : string) : Prop :=
  exists old now at_,
    presents w uid oldJTI oldHash old /\ is_active old = false /\
    t_RevokedReason old = Some ReasonRotated /\ t_FamilyID old <> "" /\
    sets w w' TRefreshTokens
      (update_where (active_in_family uid (t_FamilyID old))
         (updated TRefreshTokens now (set_revoked at_ ReasonReplay)) (tbl TRefreshTokens w)).

(** * Lemmas *)

Lemma selects_user w uid ver u :
  In u (tbl TUsers w) -> selects TUsers (fun u => u_ID u =? uid) u = true ->
  (negb (u_Status u =? UserStatusActive) || negb (u_AuthVersion u =? ver)) = false ->
  session_user w uid ver.
Proof.
  unfold selects. simpl. intros Hin Hsel Hck. bool_to_prop.
  exists u. repeat split; try done. by destruct (u_DeletedAt u).
Qed.

(** An error of the storage, wrapped or not, is none of the service's own values. *)
Lemma wrapped_sql_failure f st code msg e n :
  f = (fun e => Wrap st code msg (Some e)) -> sql_failure e -> own_error_name n = true ->
  errors_Is (f e) n = false.
Proof. intros -> [Hl _] Hn. simpl. by apply library_error_not_own. Qed.

(** The new row of a rotation does not share the presented token's JTI, so
    revoking the old one leaves it alone. *)
Lemma successor_untouched uid old next id now oldJTI l f :
  In old l -> coll_eqb (t_JTI old) oldJTI = true ->
  Forall (fun k => conflicts TRefreshTokens k (successor id now uid old next) = false) l ->
  update_where (active_by_jti oldJTI) f [successor id now uid old next]
  = [successor id now uid old next].
Proof.
  intros Hin Hjti Hf. apply update_where_none. intros x [<-|[]].
  unfold active_by_jti. apply andb_false_iff. left.
  rewrite Forall_forall in Hf. specialize (Hf old (proj2 (list_elem_of_In _ _) Hin)).
  simpl in Hf. bool_to_prop. simpl.
  destruct (coll_eqb (t_JTI next) oldJTI) eqn:Hn; [|done].
  by rewrite (coll_trans _ _ _ Hjti (coll_sym _ _ Hn)) in *.
Qed.

(** * Rotation *)

(** The transaction's body: what it returns and does on each path. *)
Definition rotate_body_post (w : World) (uid ver : Z) (oldJTI oldHash : string)
    (next : RefreshToken) (r : res bool) (w' : World) : Prop :=
  later w w' /\
  match r with
  | Ok false => session_user w uid ver /\ rotation_effect w w' uid oldJTI oldHash next
  | Ok true => session_user w uid ver /\ replay_effect w w' uid oldJTI oldHash
  | Err e => errors_Is e "service.ErrRefreshTokenReplay" = false
  | Panic => False
  end.

Lemma rotate_replay_branch w w1 uid ver oldJTI oldHash next old :
  later w w1 -> same_tables w w1 -> session_user w uid ver ->
  presents w uid oldJTI oldHash old -> is_active old = false ->
  t_RevokedReason old = Some ReasonRotated -> t_FamilyID old <> "" ->
  wp (let! now := Now in
      do! map_err (refreshStorageError "吊销 refresh token family 失败")
        (on_db (rt_RevokeFamily uid (t_FamilyID old) now ReasonReplay)) in
      ret true)
    (rotate_body_post w uid ver oldJTI oldHash next) w1.
Proof.
  intros Hl Ht Hu Hp Ha Hr Hfam. wp_step. apply wp_Now. wp_step. wp_step.
  eapply wp_exec; [apply rt_revoke_family_law|intros [] w2 Hrest Heff|intros e w2 Hsame Hsql].
  - apply wp_ret. split; [chain|]. split; [done|].
    apply sets_of_effect in Heff as [now Hsets].
    exists old, now, (clock (w_tick w1)). do 4 (split; [done|]).
    eapply sets_same_tables; [|rewrite (Ht TRefreshTokens); exact Hsets]. chain.
  - split; [chain|]. by apply (wrapped_sql_failure (refreshStorageError _) _ _ _ _ _ eq_refl).
Qed.

Lemma rotate_fresh_branch w w1 uid ver oldJTI oldHash next old :
  later w w1 -> same_tables w w1 -> session_user w uid ver ->
  presents w uid oldJTI oldHash old -> t_RevokedAt old = None ->
  (exists t, read_between w (tick w1) t /\ t < t_ExpiresAt old) ->
  wp (let! next := map_err (refreshStorageError "创建新 refresh token 失败")
        (on_db (rt_Create (set_owner uid (family_of old) next))) in
      let! now := Now in
      do! map_err (refreshStorageError "吊销旧 refresh token 失败")
        (on_db (rt_RevokeByJTI oldJTI now ReasonRotated (Some (t_JTI next)))) in
      ret false)
    (rotate_body_post w uid ver oldJTI oldHash next) (tick w1).
Proof.
  intros Hl Ht Hu Hp Ha Hexp. wp_step. wp_step.
  eapply wp_exec; [apply rt_create_law|intros next' w2 Hrest Hins|intros e w2 Hsame Hsql].
  2:{ split; [chain|]. by apply (wrapped_sql_failure (refreshStorageError _) _ _ _ _ _ eq_refl). }
  destruct Hins as (id & n1 & Hid & -> & Hfree & Hset).
  wp_step. apply wp_Now. wp_step. wp_step.
  eapply wp_exec; [apply rt_revoke_jti_law|intros [] w3 Hrest3 Heff|intros e w3 Hsame Hsql].
  2:{ split; [chain|]. by apply (wrapped_sql_failure (refreshStorageError _) _ _ _ _ _ eq_refl). }
  apply wp_ret. split; [chain|]. split; [done|].
  apply sets_of_effect in Heff as [n2 Heff].
  fold (successor id n1 uid old next) in Hfree, Hset.
  assert (rows (w_db (tick w1)) TRefreshTokens = tbl TRefreshTokens w) as Hrows
    by (symmetry; apply Ht).
  rewrite Hrows in Hfree, Hset.
  exists old, id, n1, n2, (clock (w_tick w2)). do 2 (split; [done|]).
  split; [destruct Hexp as (t & (i & Hi & ->) & Hlt); exists (clock i); split; [|done];
          exists i; split; [|done]; assert (later (tick w1) w3) as [_ ? _] by chain; simpl in *; lia|].
  split; [done|]. cbv zeta. split; [done|].
  assert (sets w (tick w2) TRefreshTokens
            (tbl TRefreshTokens w ++ [successor id n1 uid old next])) as Hset2.
  { eapply sets_same_tables; [|split; [apply Hset|]].
    - transitivity w1; [exact Ht|apply tick_tables].
    - intros t' Hne. apply (proj2 Hset t' Hne). }
  destruct Hp as (Hin & Hjti & _).
  rewrite <- (successor_untouched uid old next id n1 oldJTI _
                (updated TRefreshTokens n2 (mark_rotated (clock (w_tick w2)) (t_JTI next)))
                Hin Hjti Hfree).
  rewrite <- update_where_app.
  eapply sets_sets; [exact Hset2|]. rewrite (proj1 Hset2) in Heff. exact Heff.
Qed.

Lemma rotateInTx_spec uid ver oldJTI oldHash next w :
  wp (rotateInTx uid ver oldJTI oldHash next) (rotate_body_post w uid ver oldJTI oldHash next) w.
Proof.
  unfold rotateInTx. wp_step. wp_step.
  eapply (wp_first TUsers); [apply aus_get_for_update_law|intros u w1 Hw1 Hin Hsel|intros e w1 Hw1 Hlib _].
  2:{ wp_step; apply wp_fail; (split; [chain|]); [done|]. simpl. by apply library_error_not_own. }
  cbn beta iota. wp_step; [apply wp_fail; split; [chain|done]|].
  assert (session_user w uid ver) as Hu by (eapply selects_user; eauto).
  wp_step. wp_step.
  eapply (wp_first TRefreshTokens); [apply rt_find_law|intros k w2 Hw2 Hk Hksel|intros e w2 Hw2 Hlib _].
  2:{ wp_step; apply wp_fail; (split; [chain|]); [done|]. simpl. by apply library_error_not_own. }
  cbn beta iota. wp_step; [apply wp_fail; split; [chain|done]|].
  assert (presents w uid oldJTI oldHash k) as Hp.
  { rewrite <- (sw_rows _ _ Hw1) in Hk. unfold selects in Hksel. bool_to_prop. by repeat split. }
  destruct (t_RevokedAt k) eqn:Hrev.
  - wp_step; [|apply wp_fail; split; [chain|done]].
    bool_to_prop. eapply rotate_replay_branch; eauto; [chain|chain|].
    unfold is_active. by rewrite Hrev.
  - wp_step. apply wp_Now. wp_step; [apply wp_fail; split; [chain|done]|].
    bool_to_prop. eapply rotate_fresh_branch; eauto; [chain|chain|].
    exists (clock (w_tick w2)). split; [|by apply time_after_spec].
    apply read_between_tick; [chain|reflexivity].
Qed.

(** Every outcome of [RotateRefreshToken]. *)
Definition rotate_post (w : World) (uid ver : Z) (oldJTI oldHash : string)
    (next : option RefreshToken) (r : res unit) (w' : World) : Prop :=
  later w w' /\
  match r with
  | Ok _ => exists k, next = Some k /\ session_user w uid ver /\
                      rotation_effect w w' uid oldJTI oldHash k
  | Err e => if errors_Is e "service.ErrRefreshTokenReplay"
             then session_user w uid ver /\ replay_effect w w' uid oldJTI oldHash
             else same_tables w w'
  | Panic => False
  end.

(** The effects do not depend on how far the clock had been read before. *)
Lemma rotation_effect_mono w w1 w0 w' w'' uid j h k :
  later w w1 -> same_tables w w1 -> same_world w1 w0 -> same_rest w' w'' -> same_tables w' w'' ->
  rotation_effect w0 w' uid j h k -> rotation_effect w w'' uid j h k.
Proof.
  intros [_ Hl _] Ht Hw [_ Hr _] Ht' (old & id & n1 & n2 & at_ & Hp & Hrev & (t & (i & Hi & ->) & Hexp) & Hid & Hf & Hs).
  assert (same_tables w w0) as Htt by (transitivity w1; [done|by apply same_world_tables]).
  exists old, id, n1, n2, at_. unfold presents in *. rewrite !(Htt TRefreshTokens).
  do 2 (split; [done|]). split.
  { exists (clock i). split; [|done]. exists i. split; [|done].
    destruct Hw as [_ _ Hk _]. lia. }
  do 2 (split; [done|]). eapply sets_same_tables; [exact Htt|]. eapply sets_then_same; [exact Hs|done].
Qed.

Lemma replay_effect_mono w w0 w' w'' uid j h :
  same_tables w w0 -> same_tables w' w'' ->
  replay_effect w0 w' uid j h -> replay_effect w w'' uid j h.
Proof.
  intros Ht Ht' (old & now & at_ & Hp & Ha & Hr & Hf & Hs).
  exists old, now, at_. unfold presents in *. rewrite !(Ht TRefreshTokens). do 4 (split; [done|]).
  eapply sets_same_tables; [exact Ht|]. eapply sets_then_same; [exact Hs|done].
Qed.

Lemma session_user_mono w w0 uid ver :
  same_tables w w0 -> session_user w0 uid ver -> session_user w uid ver.
Proof. unfold session_user. intros Ht. by rewrite (Ht TUsers). Qed.

Lemma RotateRefreshToken_spec s uid ver oldJTI oldHash next w :
  wp (RotateRefreshToken s uid ver oldJTI oldHash next)
    (rotate_post w uid ver oldJTI oldHash next) w.
Proof.
  unfold RotateRefreshToken, requireDB. wp_step. apply wp_of_res.
  assert (forall e w1, later w w1 -> same_tables w w1 ->
            errors_Is e "service.ErrRefreshTokenReplay" = false ->
            rotate_post w uid ver oldJTI oldHash next (Err e) w1) as Hfail.
  { intros e w1 Hl Ht He. split; [done|]. by rewrite He. }
  destruct s as [[[|] st l]|]; simpl; try (apply Hfail; reflexivity).
  wp_step; [apply wp_fail, Hfail; reflexivity|].
  destruct next as [k|]; [|apply wp_fail, Hfail; reflexivity].
  wp_step; [apply wp_fail, Hfail; reflexivity|].
  wp_step. apply wp_Now. wp_step; [apply wp_fail, Hfail; [chain|chain|done]|].
  wp_step. apply wp_Transaction.
  { intros e w' [Hl _] Hw. apply Hfail; [chain|chain|]. by apply library_error_not_own. }
  intros w0 Hw0. wp_use (rotateInTx_spec uid ver oldJTI oldHash k w0).
  intros r w1 [Hlater Hr]. split; intros w' Hrest Htab.
  - assert (later w w') by (transitivity w1; [transitivity w0; chain|chain]).
    assert (same_tables w w') by chain.
    destruct r as [b|e|]; [intros e [He _]|..]; try done; apply Hfail; try done.
    by apply library_error_not_own.
  - destruct r as [[|]|e|]; try done; destruct Hr as [Hu Heff].
    + apply wp_fail. split; [transitivity w1; [transitivity w0; chain|chain]|]. simpl.
      split; [eapply session_user_mono; [|exact Hu]; chain|].
      eapply replay_effect_mono; [|exact Htab|exact Heff]. chain.
    + apply wp_ret. split; [transitivity w1; [transitivity w0; chain|chain]|].
      exists k. split; [done|]. split; [eapply session_user_mono; [|exact Hu]; chain|].
      eapply rotation_effect_mono; [apply tick_later|apply tick_tables|exact Hw0|exact Hrest| |exact Heff].
      done.
Qed.

(** * Logout *)

Definition mark_logged_out (at_ : Z) (k : RefreshToken) : RefreshToken :=
  set_replaced_by None (set_revoked at_ ReasonLogout k).

(** The effect of a logout: the presented token is revoked, and stays as it
    is when it was revoked before. *)
Definition logout_effect (w w' : World) (uid : Z) (jti hash : string) : Prop :=
  exists k, presents w uid jti hash k /\
    if is_active k
    then exists now at_, sets w w' TRefreshTokens
           (update_where (active_by_jti jti) (updated TRefreshTokens now (mark_logged_out at_))
              (tbl TRefreshTokens w))
    else same_tables w w'.

Definition logout_post (w : World) (uid : Z) (jti hash : string) (r : res unit) (w' : World)
    : Prop :=
  later w w' /\
  match r with
  | Ok _ => logout_effect w w' uid jti hash
  | Err _ => same_tables w w'
  | Panic => False
  end.

Lemma revokeInTx_spec uid jti hash w :
  wp (revokeInTx uid jti hash)
    (fun r w' => later w w' /\
       match r with Ok _ => logout_effect w w' uid jti hash | Err _ => True | Panic => False end) w.
Proof.
  unfold revokeInTx. wp_step. wp_step.
  eapply (wp_first TRefreshTokens); [apply rt_find_law|intros k w1 Hw1 Hk Hsel|intros e w1 Hw1 Hlib _].
  2:{ wp_step; apply wp_fail; split; (chain || done). }
  cbn beta iota. wp_step; [apply wp_fail; split; [chain|done]|].
  assert (presents w uid jti hash k) as Hp.
  { unfold selects in Hsel. bool_to_prop. by repeat split. }
  destruct (t_RevokedAt k) eqn:Hrev.
  { apply wp_ret. split; [chain|]. exists k. split; [done|]. unfold is_active. rewrite Hrev. chain. }
  wp_step. apply wp_Now. wp_step. wp_step.
  eapply wp_exec; [apply rt_revoke_jti_law|intros [] w2 Hrest Heff|intros e w2 Hsame Hsql].
  2:{ split; [chain|done]. }
  apply wp_ret. split; [chain|]. exists k. split; [done|]. unfold is_active. rewrite Hrev.
  apply sets_of_effect in Heff as [now Hs]. exists now, (clock (w_tick w1)).
  assert (same_tables w (tick w1)) as Ht by chain.
  eapply sets_same_tables; [exact Ht|]. rewrite (Ht TRefreshTokens). exact Hs.
Qed.

Lemma RevokeRefreshToken_spec s uid jti hash w :
  wp (RevokeRefreshToken s uid jti hash) (logout_post w uid jti hash) w.
Proof.
  unfold RevokeRefreshToken, requireDB. wp_step. apply wp_of_res.
  destruct s as [[[|] st l]|]; simpl; try (by split).
  wp_step; [by split|]. apply wp_Transaction.
  { intros e w' _ Hw. split; chain. }
  intros w0 Hw0. wp_use (revokeInTx_spec uid jti hash w0). intros r w1 [Hlater Hr].
  split; intros w' Hrest Htab.
  - assert (later w w') by (transitivity w1; [transitivity w0; chain|chain]).
    destruct r as [b|e|]; [intros e _|..]; try done; by split.
  - destruct r as [[]|e|]; try done.
    split; [transitivity w1; [transitivity w0; chain|chain]|].
    destruct Hr as (k & Hp & Heff). exists k. unfold presents in *.
    assert (same_tables w w0) as Ht by chain. rewrite (Ht TRefreshTokens). split; [done|].
    destruct (is_active k).
    + destruct Heff as (now & at_ & Hs). exists now, at_.
      eapply sets_same_tables; [exact Ht|]. eapply sets_then_same; [exact Hs|done].
    + transitivity w0; [chain|]. transitivity w1; done.
Qed.

(** * Access tokens *)

Definition has_store (s : option AuthService) : Prop :=
  match s with Some s => as_stateStore s = true | None => False end.

(** The claims name a session. *)
Definition session_claims (c : UserClaims) : Prop :=
  0 < c_UserID c /\ 0 < c_AuthVersion c /\ TrimSpace (c_JTI c) <> "".

(** The session of [c] stands at the time [now]. *)
Definition session_stands (w : World) (now : Z) (c : UserClaims) : Prop :=
  session_claims c /\ session_user w (c_UserID c) (c_AuthVersion c) /\
  live (w_store w) now (c_JTI c) = false.

Inductive validate_error (s : option AuthService) (claims : option UserClaims) (w : World)
  : error -> Prop :=
| ve_database : ensureDB s = Err ErrDatabaseNotInitialized ->
    validate_error s claims w ErrDatabaseNotInitialized
| ve_session : (forall c, claims = Some c -> ~ session_stands w (clock (w_tick w)) c) ->
    validate_error s claims w ErrAccessSessionInvalid
| ve_unavailable msg cause : validate_error s claims w (authStateUnavailable msg (Some cause)).

Definition validate_post (s : option AuthService) (claims : option UserClaims) (w : World)
    (r : res unit) (w' : World) : Prop :=
  same_tables w w' /\
  match r with
  | Ok _ => exists c, claims = Some c /\ session_stands w (clock (w_tick w)) c
  | Err e => validate_error s claims w e
  | Panic => False
  end.

Lemma auth_ensureDB_cases s : ensureDB s = Ok tt \/ ensureDB s = Err ErrDatabaseNotInitialized.
Proof. destruct s as [[[|] ? ?]|]; auto. Qed.

Lemma ValidateAccessToken_spec s claims w :
  has_store s -> keys_ok TUsers (tbl TUsers w) ->
  wp (ValidateAccessToken s claims) (validate_post s claims w) w.
Proof.
  intros Hstore Hk. unfold ValidateAccessToken, requireDB, validate_post.
  wp_step. apply wp_of_res. destruct (auth_ensureDB_cases s) as [->|Hdb].
  2:{ rewrite Hdb. split; [chain|by constructor]. }
  destruct claims as [c|]; [|apply wp_fail; split; [chain|by constructor]].
  wp_step.
  { apply wp_fail. split; [chain|]. constructor. intros c' [= <-] ((? & ? & ?) & _).
    apply orb_true_iff in Heqb as [[Hb|Hb]%orb_true_iff|Hb]; bool_to_prop; [lia|lia|done]. }
  wp_step. wp_step.
  eapply (wp_first TUsers); [apply aus_get_law|intros u w1 Hw1 Hin Hsel|intros e w1 Hw1 Hlib Hnone].
  2:{ cbn beta iota. wp_step; apply wp_fail; (split; [chain|]); [|constructor].
      constructor. intros c' [= <-] (_ & (u & Hu & Hd & Hid & _) & _).
      pose proof (Hnone ltac:(done) u Hu) as Hf. unfold selects in Hf. simpl in Hf.
      by rewrite Hd, Hid, Z.eqb_refl in Hf. }
  cbn beta iota. wp_step.
  { apply wp_fail. split; [chain|]. constructor. intros c' [= <-] (_ & (v & Hv & Hd & Hid & Hst & Hver) & _).
    assert (u = v) as ->; [|by rewrite Hst, Hver, !Z.eqb_refl in *].
    apply (keys_ok_unique TUsers (tbl TUsers w)); try done.
    unfold selects in Hsel. bool_to_prop. simpl. rewrite Hid. by apply orb_true_iff; left; apply Z.eqb_eq. }
  assert (session_user w (c_UserID c) (c_AuthVersion c)) as Hsession by (eapply selects_user; eauto).
  wp_step. apply wp_Now. wp_step. wp_step. destruct s as [[db st lim]|]; [|done].
  simpl in Hstore. subst st. cbn [with_stateStore].
  eapply wp_on_store; [apply is_revoked_law|]. intros r st [Hr _].
  assert (same_tables w (put_store st (tick w1))) as Ht by (transitivity w1; [chain|done]).
  destruct r as [b|e|]; [|split; [done|constructor]|done].
  subst b. simpl in *. rewrite <- (sw_store _ _ Hw1), <- (sw_tick _ _ Hw1).
  wp_step.
  - apply wp_fail. split; [done|]. constructor. intros c' [= <-] (_ & _ & Hlive). congruence.
  - apply wp_ret. split; [done|]. exists c. split; [done|]. split; [|done].
    bool_to_prop. done.
Qed.

(** * Revoking an access token *)

Lemma RevokeAccessToken_spec s jti exp w :
  has_store s -> monotone_clock -> in_int64 (exp - clock (w_tick w)) ->
  wp (RevokeAccessToken s jti exp) (fun r w' =>
    same_tables w w' /\ (w_tick w <= w_tick w')%nat /\
    match r with
    | Ok _ => TrimSpace jti <> "" /\
              forall t, clock (w_tick w') <= t -> t < exp - granularity -> live (w_store w') t jti = true
    | Err e => True
    | Panic => False
    end) w.
Proof.
  intros Hstore Hmono Hbound. unfold RevokeAccessToken. wp_step; bool_to_prop; [by apply wp_fail|].
  destruct s as [[db st lim]|]; [|done]. simpl in Hstore. subst st.
  wp_step. apply wp_Now. rewrite time_sub_exact by done. cbv zeta.
  pose proof granularity_nonneg as Hg.
  wp_step; bool_to_prop.
  { apply wp_ret. split; [done|]. split; [simpl; lia|]. split; [done|]. simpl. intros t Ht1 Ht2.
    pose proof (Hmono (w_tick w) (Datatypes.S (w_tick w)) ltac:(lia)). lia. }
  wp_step. apply wp_Now. wp_step. eapply wp_on_store; [apply revoke_law|]. intros r st [Hr _].
  destruct r as [[]|e|]; (split; [done|]); (split; [simpl; lia|]); [|done..].
  split; [done|]. simpl in *. intros t Ht1 Ht2.
  pose proof (Hmono (w_tick w) (Datatypes.S (w_tick w)) ltac:(lia)) as H1.
  pose proof (Hmono (Datatypes.S (w_tick w)) (Datatypes.S (Datatypes.S (w_tick w))) ltac:(lia)) as H2.
  apply Hr; lia.
Qed.

(** * Revoking every refresh token *)

Lemma RevokeAllRefreshTokens_spec s uid w :
  wp (RevokeAllRefreshTokens s uid) (fun r w' =>
    later w w' /\
    match r with
    | Ok _ => exists now at_, sets w w' TRefreshTokens
        (update_where (active_of_user uid)
           (updated TRefreshTokens now (set_revoked at_ ReasonPasswordChange)) (tbl TRefreshTokens w))
    | Err _ => same_tables w w'
    | Panic => False
    end) w.
Proof.
  unfold RevokeAllRefreshTokens, requireDB. wp_step. apply wp_of_res.
  destruct (auth_ensureDB_cases s) as [-> | ->]; [|done].
  wp_step; [by apply wp_fail|]. wp_step. apply wp_Now. wp_step.
  eapply wp_exec; [apply rt_revoke_all_law|intros [] w1 Hrest Heff|intros e w1 Hw1 _].
  - split; [chain|]. apply (sets_from w) in Heff as [now Hs]; [|chain]. eauto.
  - split; chain.
Qed.

(** * Storing a refresh token *)

Lemma StoreRefreshToken_spec s token w :
  wp (StoreRefreshToken s token) (fun r w' =>
    later w w' /\
    match r with
    | Ok _ => exists k id now, token = Some k /\ 0 < t_UserID k /\ t_JTI k <> "" /\
        t_FamilyID k <> "" /\ t_TokenHash k <> "" /\
        let k' := stored TRefreshTokens (prepare TRefreshTokens id now k) in
        Forall (fun x => conflicts TRefreshTokens x k' = false) (tbl TRefreshTokens w) /\
        sets w w' TRefreshTokens (tbl TRefreshTokens w ++ [k'])
    | Err _ => same_tables w w'
    | Panic => False
    end) w.
Proof.
  unfold StoreRefreshToken, requireDB. wp_step. apply wp_of_res.
  destruct (auth_ensureDB_cases s) as [-> | ->]; [|done].
  destruct token as [k|]; [|by apply wp_fail]. wp_step; [by apply wp_fail|]. bool_to_prop.
  wp_step. wp_step.
  eapply wp_exec; [apply rt_create_law|intros k' w1 Hrest Hins|intros e w1 Hw1 _].
  - apply wp_ret. split; [chain|]. destruct Hins as (id & now & _ & -> & Hfree & Hset).
    exists k, id, now. do 5 (split; [done|]). by split.
  - split; chain.
Qed.

(** * Verdicts

    What the state of the presented token decides, when the storage works. *)

Definition rotation_verdict (old : RefreshToken) (now : Z) : res bool :=
  match t_RevokedAt old with
  | Some _ => if bool_decide (t_RevokedReason old = Some ReasonRotated)
                 && negb (String.eqb (t_FamilyID old) "")
              then Ok true else Err ErrRefreshTokenRevoked
  | None => if time_after (t_ExpiresAt old) now then Ok false else Err ErrRefreshTokenExpired
  end.

(** A failure of the storage, wrapped for the caller or not. *)
Definition storage_failure (e : error) : Prop :=
  sql_failure e \/ exists st code msg cause, e = Wrap st code msg (Some cause) /\ library_error cause.

Lemma wrapped_failure st code msg e : sql_failure e -> storage_failure (Wrap st code msg (Some e)).
Proof. intros [He _]. right. eauto 10. Qed.

Lemma session_user_unique w uid ver u :
  keys_ok TUsers (tbl TUsers w) -> session_user w uid ver -> In u (tbl TUsers w) ->
  selects TUsers (fun u => u_ID u =? uid) u = true ->
  negb (u_Status u =? UserStatusActive) || negb (u_AuthVersion u =? ver) = false.
Proof.
  intros Hk (v & Hv & Hd & Hid & Hst & Hver) Hin Hsel.
  assert (u = v) as ->; [|by rewrite Hst, Hver, !Z.eqb_refl].
  apply (keys_ok_unique TUsers (tbl TUsers w)); try done.
  unfold selects in Hsel. bool_to_prop. simpl. apply orb_true_iff. left. apply Z.eqb_eq. congruence.
Qed.

Lemma token_jti_unique w j a b :
  keys_ok TRefreshTokens (tbl TRefreshTokens w) -> In a (tbl TRefreshTokens w) ->
  In b (tbl TRefreshTokens w) -> coll_eqb (t_JTI a) j = true -> coll_eqb (t_JTI b) j = true -> a = b.
Proof.
  intros Hk Ha Hb Hja Hjb. apply (keys_ok_unique TRefreshTokens (tbl TRefreshTokens w)); try done.
  simpl. apply orb_true_iff. left. apply orb_true_iff. right.
  eapply coll_trans; [exact Hja|by apply coll_sym].
Qed.

(** The account is there, active, and at the version. *)
Definition session_open (w : World) (uid ver : Z) : bool :=
  existsb (fun u => match u_DeletedAt u with None => true | Some _ => false end && (u_ID u =? uid) &&
                    (u_Status u =? UserStatusActive) && (u_AuthVersion u =? ver)) (tbl TUsers w).

(** The stored token that is presented, if there is one. *)
Definition presented (w : World) (uid : Z) (jti hash : string) : option RefreshToken :=
  List.find (fun k => coll_eqb (t_JTI k) jti && (t_UserID k =? uid) && String.eqb (t_TokenHash k) hash)
    (tbl TRefreshTokens w).

(** What the transaction of a rotation answers at the time [now]. *)
Definition transaction_answer (w : World) (uid ver : Z) (jti hash : string) (now : Z) : res bool :=
  if session_open w uid ver then
    match presented w uid jti hash with
    | Some old => rotation_verdict old now
    | None => Err ErrRefreshTokenInvalid
    end
  else Err ErrRefreshTokenInvalid.

Lemma session_open_spec w uid ver : session_open w uid ver = true <-> session_user w uid ver.
Proof.
  unfold session_open. rewrite existsb_exists. split.
  - intros (u & Hu & Hb). exists u. destruct (u_DeletedAt u) eqn:Hd; bool_to_prop; [done|].
    by split_and!.
  - intros (u & Hu & Hd & Hid & Hst & Hv). exists u. by rewrite Hd, Hid, Hst, Hv, !Z.eqb_refl.
Qed.

Lemma presented_spec w uid j h old : presented w uid j h = Some old -> presents w uid j h old.
Proof.
  unfold presented. intros [Hin Hb]%find_some. bool_to_prop. by split_and!.
Qed.

Lemma presented_none w uid j h k :
  presented w uid j h = None -> In k (tbl TRefreshTokens w) -> coll_eqb (t_JTI k) j = true ->
  negb (t_UserID k =? uid) || negb (String.eqb (t_TokenHash k) h) = true.
Proof.
  unfold presented. intros Hn Hk Hj. pose proof (find_none _ _ Hn k Hk) as Hf. cbv beta in Hf.
  rewrite Hj in Hf. simpl in Hf. by destruct (t_UserID k =? uid), (String.eqb _ _).
Qed.

(** An account that is found does not belong to a session that is closed. *)
Lemma session_closed w uid ver u :
  session_open w uid ver = false -> In u (tbl TUsers w) ->
  selects TUsers (fun u => u_ID u =? uid) u = true ->
  negb (u_Status u =? UserStatusActive) || negb (u_AuthVersion u =? ver) = true.
Proof.
  intros Hc Hu Hsel. destruct (negb _ || negb _) eqn:Hn; [done|].
  exfalso. apply not_true_iff_false in Hc. apply Hc, session_open_spec. exists u. unfold selects in Hsel. simpl in Hsel.
  destruct (u_DeletedAt u) eqn:Hd; [done|]. apply orb_false_iff in Hn as [H1 H2].
  apply negb_false_iff in H1, H2. bool_to_prop. by split_and!.
Qed.

Definition answered (expected r : res bool) : Prop := r = expected \/ exists e, r = Err e /\ storage_failure e.

Lemma answered_failure expected e : storage_failure e -> answered expected (Err e).
Proof. intros He. right. by exists e. Qed.

Lemma rotateInTx_answer uid ver j h next w :
  keys_ok TUsers (tbl TUsers w) -> keys_ok TRefreshTokens (tbl TRefreshTokens w) ->
  wp (rotateInTx uid ver j h next) (fun r _ =>
    answered (transaction_answer w uid ver j h (clock (w_tick w))) r) w.
Proof.
  intros Hku Hkt. unfold rotateInTx. wp_step. wp_step.
  eapply (wp_first TUsers); [apply aus_get_for_update_law|intros u w1 Hw1 Hi Hs|intros e w1 Hw1 Hl Hnone].
  2:{ cbn beta iota. wp_step; [|apply wp_fail, answered_failure; right; eauto 10]. apply wp_fail. left. unfold transaction_answer.
      destruct (session_open w uid ver) eqn:Ho; [exfalso|done].
      apply session_open_spec in Ho as (v & Hv & Hd & Hid & _). specialize (Hnone ltac:(done) v Hv).
      unfold selects in Hnone. simpl in Hnone. by rewrite Hd, Hid, Z.eqb_refl in Hnone. }
  cbn beta iota. unfold transaction_answer. destruct (session_open w uid ver) eqn:Ho.
  2:{ rewrite (session_closed w uid ver u) by done. apply wp_fail. by left. }
  rewrite (session_user_unique w uid ver u) by (try done; by apply session_open_spec).
  wp_step. wp_step.
  eapply (wp_first TRefreshTokens); [apply rt_find_law|intros k w2 Hw2 Hk Hks|intros e w2 Hw2 Hl Hnone].
  2:{ cbn beta iota. wp_step; [|apply wp_fail, answered_failure; right; eauto 10]. apply wp_fail. left.
      destruct (presented w uid j h) as [old|] eqn:Hp; [exfalso|done].
      apply presented_spec in Hp as (Hin & Hj & _).
      rewrite <- (sw_rows _ _ Hw1) in Hnone. specialize (Hnone ltac:(done) old Hin).
      unfold selects in Hnone. simpl in Hnone. congruence. }
  rewrite <- (sw_rows _ _ Hw1) in Hk. cbn beta iota.
  destruct (presented w uid j h) as [old|] eqn:Hp.
  2:{ rewrite (presented_none w uid j h k) by done. apply wp_fail. by left. }
  apply presented_spec in Hp. pose proof Hp as (Hin & Hj & Huid & Hh).
  assert (k = old) as -> by (apply (token_jti_unique w j); done).
  rewrite Huid, Hh, Z.eqb_refl, String.eqb_refl. cbn [negb orb].
  unfold rotation_verdict. destruct (t_RevokedAt old).
  - destruct (_ && _); [|apply wp_fail; by left].
    wp_step. apply wp_Now. wp_step. wp_step.
    eapply wp_exec; [apply rt_revoke_family_law|intros [] w3 _ _; apply wp_ret; by left|].
    intros e w3 _ He. by apply answered_failure, wrapped_failure.
  - wp_step. apply wp_Now. rewrite <- (sw_tick _ _ Hw2), <- (sw_tick _ _ Hw1).
    destruct (time_after _ _); [|apply wp_fail; by left]. cbn [negb]. cbv zeta.
    wp_step. wp_step.
    eapply wp_exec; [apply rt_create_law|intros n w3 _ _|].
    2:{ intros e w3 _ He. by apply answered_failure, wrapped_failure. }
    wp_step. apply wp_Now. wp_step. wp_step.
    eapply wp_exec; [apply rt_revoke_jti_law|intros [] w4 _ _; apply wp_ret; by left|].
    intros e w4 _ He. by apply answered_failure, wrapped_failure.
Qed.

(** * What the effects amount to *)

Lemma rotation_old_inactive w w' uid j h next :
  rotation_effect w w' uid j h next ->
  forall k, In k (tbl TRefreshTokens w') -> coll_eqb (t_JTI k) j = true -> is_active k = false.
Proof.
  intros (old & id & n1 & n2 & at_ & (Hin & Hj & _) & _ & _ & _ & Hf & Hset & _) k Hk Hjk.
  rewrite Hset in Hk. apply in_app_or in Hk as [Hk|[<-|[]]].
  - apply in_update_where in Hk as (x & Hx & ->). destruct (active_by_jti j x) eqn:Ha; [done|].
    unfold active_by_jti in Ha. by rewrite Hjk in Ha.
  - rewrite Forall_forall in Hf. specialize (Hf old (proj2 (list_elem_of_In _ _) Hin)).
    simpl in Hf, Hjk. bool_to_prop.
    by rewrite (coll_trans _ _ _ Hj (coll_sym _ _ Hjk)) in *.
Qed.

Lemma rotation_keeps_keys w w' uid j h next :
  keys_ok TRefreshTokens (tbl TRefreshTokens w) -> rotation_effect w w' uid j h next ->
  keys_ok TRefreshTokens (tbl TRefreshTokens w').
Proof.
  intros Hk (old & id & n1 & n2 & at_ & _ & _ & _ & _ & Hf & Hset & _). rewrite Hset.
  apply keys_ok_app.
  - apply keys_ok_map; [|done]. intros a b.
    by destruct (active_by_jti j a), (active_by_jti j b).
  - rewrite Forall_forall in Hf |- *. intros x Hx%list_elem_of_In.
    apply in_update_where in Hx as (y & Hy & ->). apply list_elem_of_In in Hy.
    specialize (Hf y Hy). by destruct (active_by_jti j y).
Qed.

(** The token a rotation issued is in the family of the one it replaced. *)
Lemma rotation_new_token w w' uid j h next :
  rotation_effect w w' uid j h next ->
  exists old new, presents w uid j h old /\ In new (tbl TRefreshTokens w') /\
    t_JTI new = t_JTI next /\ t_TokenHash new = t_TokenHash next /\ t_UserID new = uid /\
    t_FamilyID new = family_of old /\
    exists old', In old' (tbl TRefreshTokens w') /\ coll_eqb (t_JTI old') j = true /\
                 t_FamilyID old' = t_FamilyID old.
Proof.
  intros (old & id & n1 & n2 & at_ & Hp & _ & _ & _ & Hf & Hset & _).
  exists old. eexists. split; [done|]. split; [rewrite Hset; apply in_or_app; right; by left|].
  do 4 (split; [done|]). destruct Hp as (Hin & Hj & _).
  eexists. split; [rewrite Hset; apply in_or_app; left; apply in_update_where; by eexists|].
  by destruct (active_by_jti j old).
Qed.

(** After a replay no token of the family is active. *)
Lemma replay_family_inactive w w' uid j h :
  replay_effect w w' uid j h ->
  exists old, presents w uid j h old /\ t_FamilyID old <> "" /\
    forall k, In k (tbl TRefreshTokens w') -> t_UserID k = uid ->
              coll_eqb (t_FamilyID k) (t_FamilyID old) = true -> is_active k = false.
Proof.
  intros (old & now & at_ & Hp & _ & _ & Hf & Hset & _). exists old. split; [done|].
  split; [done|]. intros k Hk Hu Hfam. rewrite Hset in Hk.
  apply in_update_where in Hk as (x & Hx & ->).
  destruct (active_in_family uid (t_FamilyID old) x) eqn:Ha; [done|].
  unfold active_in_family in Ha. by rewrite Hu, Z.eqb_refl, Hfam in Ha.
Qed.

Lemma logout_inactive w w' uid j h :
  keys_ok TRefreshTokens (tbl TRefreshTokens w) -> logout_effect w w' uid j h ->
  forall k, In k (tbl TRefreshTokens w') -> coll_eqb (t_JTI k) j = true -> is_active k = false.
Proof.
  intros Hkeys (old & (Hin & Hj & _) & Heff) k Hk Hjk. destruct (is_active old) eqn:Ha.
  - destruct Heff as (now & at_ & Hset & _). rewrite Hset in Hk.
    apply in_update_where in Hk as (x & Hx & ->). destruct (active_by_jti j x) eqn:Hx2; [done|].
    unfold active_by_jti in Hx2. by rewrite Hjk in Hx2.
  - rewrite <- (Heff TRefreshTokens) in Hk.
    by rewrite (token_jti_unique w j k old).
Qed.

(** Where no token with the JTI is active, it cannot be rotated. *)
Lemma rotation_needs_active w w' uid j h next :
  (forall k, In k (tbl TRefreshTokens w) -> coll_eqb (t_JTI k) j = true -> is_active k = false) ->
  ~ rotation_effect w w' uid j h next.
Proof.
  intros Hin (old & id & n1 & n2 & at_ & (Ho & Hj & _) & Hrev & _).
  specialize (Hin old Ho Hj). unfold is_active in Hin. by rewrite Hrev in Hin.
Qed.
End theory.
