(* ===== verification/UserTheorems.v ===== *)
(** What the account service guarantees. *)
From S2P Require Import Prelude GoTime GoStrings GoErrors Model Gorm AuthState World.
From S2P Require Import Dao RefreshRepo RbacRepo UserService.

Section theory.
Context {STO : Storage} {G : Gorm} {GL : GormLaws} {SS : Store} {E : Env}.
Context {B : Bcrypt} {BL : BcryptLaws}.
Context {US : UserStore} {UL : UserStoreLaws}.
Context {RR : RefreshTokenRepository} {RL : RefreshTokenRepositoryLaws}.
Context {RB : RBACRepository} {RBL : RBACRepositoryLaws}.

(** * Vocabulary *)

(** The visible account with this name. *)
Definition account_named (w : World) (name : string) (u : User) : Prop :=
  In u (tbl TUsers w) /\ u_DeletedAt u = None /\ coll_eqb (u_Username u) name = true.

Definition account_with_id (w : World) (uid : Z) (u : User) : Prop :=
  In u (tbl TUsers w) /\ u_DeletedAt u = None /\ u_ID u = uid.

Definition valid_password (pw : string) : Prop :=
  MinPasswordCharacters <= RuneCountInString pw /\ len pw <= MaxPasswordBytes.

(** A new, active account of version 1, with a hash of the password. *)
Definition fresh_account (name pw : string) (u : User) : Prop :=
  0 < u_ID u /\ u_Username u = name /\ u_Nickname u = name /\ u_Status u = UserStatusActive /\
  u_AuthVersion u = 1 /\ u_LastLoginAt u = None /\ u_DeletedAt u = None /\
  bcrypt_matches (u_PasswordHash u) pw = true.

(** Rows that give the account [uid] roles with the codes, and no others. *)
Definition role_rows_for (w : World) (uid : Z) (codes : list string) (l : list UserRole) : Prop :=
  Forall (fun ur => ur_UserID ur = uid /\
            exists code role, In code codes /\ role_with_code w code role /\ ur_RoleID ur = r_ID role) l.

(** The account [u] is added, with exactly the roles of the codes. *)
Definition account_added (w w' : World) (u : User) (codes : list string) : Prop :=
  Forall (fun x => conflicts TUsers x u = false) (tbl TUsers w) /\
  tbl TUsers w' = tbl TUsers w ++ [u] /\
  (exists l, tbl TUserRoles w' = tbl TUserRoles w ++ l /\ role_rows_for w (u_ID u) codes l) /\
  (forall code, In code codes -> exists role, role_with_code w code role /\
     exists ur, In ur (tbl TUserRoles w') /\ ur_UserID ur = u_ID u /\ ur_RoleID ur = r_ID role) /\
  (forall t, t <> TUsers -> t <> TUserRoles -> tbl t w' = tbl t w).

(** * Lemmas *)

Lemma validatePassword_ok pw : validatePassword pw = Ok tt <-> valid_password pw.
Proof.
  unfold validatePassword, valid_password.
  destruct (Z.ltb_spec (RuneCountInString pw) MinPasswordCharacters);
    destruct (Z.ltb_spec MaxPasswordBytes (len pw)); simpl; split; (done || lia).
Qed.

Lemma validatePassword_cases pw :
  validatePassword pw = Ok tt /\ valid_password pw \/
  validatePassword pw = Err ErrPasswordTooShortOrTooLong.
Proof.
  pose proof (validatePassword_ok pw) as Hok. unfold validatePassword in *.
  destruct (_ || _); [by right|]. left. split; [done|by apply Hok].
Qed.

Lemma selects_username w name u :
  In u (tbl TUsers w) -> selects TUsers (fun u => coll_eqb (u_Username u) name) u = true ->
  account_named w name u.
Proof.
  unfold selects. simpl. intros Hin Hs. bool_to_prop. repeat split; try done.
  by destruct (u_DeletedAt u).
Qed.

Lemma selects_id w uid u :
  In u (tbl TUsers w) -> selects TUsers (fun u => u_ID u =? uid) u = true ->
  account_with_id w uid u.
Proof.
  unfold selects. simpl. intros Hin Hs. bool_to_prop. repeat split; try done.
  by destruct (u_DeletedAt u).
Qed.

Lemma selected_id w uid u :
  account_with_id w uid u -> selects TUsers (fun u => u_ID u =? uid) u = true.
Proof. intros (_ & Hd & <-). unfold selects. simpl. by rewrite Hd, Z.eqb_refl. Qed.

Lemma selected_username w name u :
  account_named w name u -> selects TUsers (fun u => coll_eqb (u_Username u) name) u = true.
Proof. intros (_ & Hd & Hn). unfold selects. simpl. by rewrite Hd. Qed.

Lemma wp_GenerateFromPassword pw (Q : res string -> World -> Prop) w :
  (forall h, bcrypt_matches h pw = true -> Q (Ok h) (reseed w)) ->
  (forall e, library_error e -> Q (Err e) (reseed w)) ->
  wp (GenerateFromPassword pw) Q w.
Proof.
  intros Hok Herr. unfold GenerateFromPassword. wp_step. apply wp_Rand, wp_of_res.
  pose proof (bcrypt_generate_law (w_seed w) pw). destruct (bcrypt_generate _ _); auto. done.
Qed.

(** The row that creating a new account adds. *)
Lemma created_account name hash pw id now :
  0 < id -> bcrypt_matches hash pw = true ->
  fresh_account name pw (stored TUsers (prepare TUsers id now (new_user name hash))).
Proof. intros Hid Hm. unfold fresh_account. simpl. by repeat split. Qed.

(** Accounts never share an id. *)
Lemma account_id_unique w uid u v :
  keys_ok TUsers (tbl TUsers w) -> account_with_id w uid u -> account_with_id w uid v -> u = v.
Proof.
  intros Hk (Hu & _ & Hiu) (Hv & _ & Hiv). apply (keys_ok_unique TUsers (tbl TUsers w)); try done.
  simpl. by rewrite Hiu, Hiv, Z.eqb_refl.
Qed.

(** Granting a role adds to the user's roles at most. *)
Lemma granted_role_adds w w' uid r :
  granted_role w w' uid r ->
  (exists l, tbl TUserRoles w' = tbl TUserRoles w ++ l /\
             Forall (fun ur => ur_UserID ur = uid /\ ur_RoleID ur = r_ID r) l) /\
  (exists ur, In ur (tbl TUserRoles w') /\ ur_UserID ur = uid /\ ur_RoleID ur = r_ID r) /\
  (forall t, t <> TUserRoles -> tbl t w' = tbl t w).
Proof.
  unfold granted_role. destruct (existsb _ _) eqn:He.
  - intros Ht. apply existsb_exists in He as (ur & Hin & Hp). bool_to_prop.
    split; [|split].
    + exists []. rewrite app_nil_r. by split; [symmetry; apply Ht|].
    + exists ur. by rewrite <- (Ht TUserRoles).
    + intros t _. symmetry. apply Ht.
  - intros (ur & Hu & Hr & Hset & Ho). split; [|split; [|done]].
    + exists [ur]. split; [done|by repeat constructor].
    + exists ur. split; [|done]. rewrite Hset. apply in_or_app. right. by left.
Qed.

Lemma role_with_code_mono w w' code r :
  tbl TRoles w' = tbl TRoles w -> role_with_code w' code r -> role_with_code w code r.
Proof. unfold role_with_code. by intros ->. Qed.

(** One more role for a new account. *)
Lemma account_added_role w w1 w2 u codes code role :
  account_added w w1 u codes -> role_with_code w1 code role -> granted_role w1 w2 (u_ID u) role ->
  account_added w w2 u (codes ++ [code]).
Proof.
  intros (Hf & Hu & (l & Hl & Hlu) & Hr & Ho) Hrole Hg.
  apply granted_role_adds in Hg as ((l' & Hl' & Hlu') & (ur & Hin & Hur) & Ho').
  apply (role_with_code_mono w) in Hrole; [|by apply Ho].
  split; [done|]. split; [by rewrite Ho'|]. split.
  { exists (l ++ l'). rewrite Hl', Hl, app_assoc. split; [done|]. apply Forall_app. split.
    - eapply Forall_impl; [exact Hlu|]. intros x (Hx & c & r & Hc & Hrest). split; [done|].
      exists c, r. split; [apply in_or_app; by left|done].
    - eapply Forall_impl; [exact Hlu'|]. intros x [Hx Hrx]. split; [done|].
      exists code, role. split; [apply in_or_app; right; by left|done]. }
  split.
  - intros c [Hc|[<-|[]]]%in_app_or.
    + destruct (Hr c Hc) as (r & Hrc & ur' & Hin' & Hur'). exists r. split; [done|].
      exists ur'. split; [|done]. rewrite Hl'. apply in_or_app. by left.
    + exists role. split; [done|by exists ur].
  - intros t H1 H2. rewrite Ho' by done. by apply Ho.
Qed.

Lemma account_added_base w w' u l :
  Forall (fun x => conflicts TUsers x u = false) (tbl TUsers w) ->
  changes_to (w_db w) (w_db w') TUsers l -> l = tbl TUsers w ++ [u] -> account_added w w' u [].
Proof.
  intros Hf [Hset Ho] ->. split; [done|]. split; [done|]. split.
  { exists []. split; [|by constructor]. rewrite app_nil_r. by apply Ho. }
  split; [done|]. intros t Ht _. by apply Ho.
Qed.

Lemma account_added_same w w0 w1 w2 u codes :
  same_tables w w0 -> same_tables w1 w2 -> account_added w0 w1 u codes ->
  account_added w w2 u codes.
Proof.
  unfold account_added, role_rows_for, role_with_code. intros H0 H2.
  rewrite <- !(H2 TUsers), <- !(H2 TUserRoles), !(H0 TUsers), !(H0 TUserRoles), !(H0 TRoles).
  intros (? & ? & ? & ? & Ho). do 4 (split; [done|]).
  intros t Ht Ht'. rewrite <- (H2 t), (H0 t). by apply Ho.
Qed.

(** * Registration *)

(** Why a registration is refused. *)
Inductive register_error (s : option UserService) (req : RegisterRequest) (w : World) : error -> Prop :=
| re_username : len (TrimSpace (reg_Username req)) < 3 -> register_error s req w ErrUsernameTooShort
| re_password : ~ valid_password (reg_Password req) ->
    register_error s req w ErrPasswordTooShortOrTooLong
| re_database : usr_ensureDB s = Err ErrDatabaseNotInitialized ->
    register_error s req w ErrDatabaseNotInitialized
| re_taken u : account_named w (TrimSpace (reg_Username req)) u ->
    register_error s req w ErrUsernameAlreadyExists
| re_internal cause : register_error s req w (registerFailed cause).

Definition register_post (s : option UserService) (req : RegisterRequest) (w : World)
    (r : res unit) (w' : World) : Prop :=
  let name := TrimSpace (reg_Username req) in
  later w w' /\
  match r with
  | Ok _ =>
      3 <= len name /\ valid_password (reg_Password req) /\
      (forall u, ~ account_named w name u) /\
      exists u, fresh_account name (reg_Password req) u /\
        account_added w w' u (if has_rbacRepo s then [RoleCodeUser] else [])
  | Err e => same_tables w w' /\ register_error s req w e
  | Panic => False
  end.

Lemma usr_ensureDB_cases s :
  usr_ensureDB s = Ok tt \/ usr_ensureDB s = Err ErrDatabaseNotInitialized.
Proof. destruct s as [[[|]]|]; auto. Qed.

Lemma no_account_named w name :
  (forall u, In u (tbl TUsers w) -> selects TUsers (fun u => coll_eqb (u_Username u) name) u = false) ->
  forall u, ~ account_named w name u.
Proof.
  intros Hnone u Hu. pose proof (selected_username _ _ _ Hu) as Hs.
  destruct Hu as [Hin _]. by rewrite Hnone in Hs.
Qed.

(** The transaction adds the account with the role, whatever the hash. *)
Definition created_with_role (name hash : string) (w w' : World) : Prop :=
  exists id now, 0 < id /\
    account_added w w' (stored TUsers (prepare TUsers id now (new_user name hash))) [RoleCodeUser].

Lemma createWithRole_adds name hash w :
  wp (createWithRole (new_user name hash)) (fun r w' =>
    later w w' /\
    match r with
    | Ok _ => created_with_role name hash w w'
    | Err _ => True
    | Panic => False
    end) w.
Proof.
  unfold createWithRole. wp_step.
  eapply wp_exec; [apply us_create_law|intros u w1 Hrest Hins|intros e w1 Hw He; split; [chain|done]].
  destruct Hins as (id & now & Hid & -> & Hf & Hc).
  wp_use (rb_assign_law (u_ID (prepare TUsers id now (new_user name hash))) RoleCodeUser w1).
  intros [[]|e|] w2 [Hl Hr]; [|split; [chain|done]|done].
  split; [chain|]. destruct Hr as (role & Hrole & Hg). exists id, now. split; [done|].
  eapply (account_added_role w w1 w2 _ []); [|exact Hrole|exact Hg].
  by eapply account_added_base.
Qed.

Lemma createWithRole_spec name pw hash w :
  bcrypt_matches hash pw = true ->
  wp (createWithRole (new_user name hash)) (fun r w' =>
    later w w' /\
    match r with
    | Ok _ => exists u, fresh_account name pw u /\ account_added w w' u [RoleCodeUser]
    | Err _ => True
    | Panic => False
    end) w.
Proof.
  intros Hm. wp_use (createWithRole_adds name hash w). intros [[]|e|] w' [Hl Hr]; try done.
  split; [done|]. destruct Hr as (id & now & Hid & Ha). eexists. split; [by apply created_account|done].
Qed.

Lemma Register_spec s req w : wp (Register s req) (register_post s req w) w.
Proof.
  unfold Register, register_post. set (name := TrimSpace (reg_Username req)).
  wp_step; bool_to_prop; [apply wp_fail; split; [chain|]; split; [chain|by constructor]|].
  wp_step. apply wp_of_res.
  destruct (validatePassword_cases (reg_Password req)) as [[-> Hpw]|Hbad].
  2:{ rewrite Hbad. split; [chain|]. split; [chain|]. constructor.
      rewrite <- validatePassword_ok, Hbad. done. }
  wp_step. apply wp_of_res. destruct (usr_ensureDB_cases s) as [->|Hdb].
  2:{ rewrite Hdb. split; [chain|]. split; [chain|by constructor]. }
  wp_step. wp_step.
  eapply (wp_first TUsers); [apply us_get_username_law|intros u w1 Hw1 Hin Hsel|intros e w1 Hw1 Hlib Hnone].
  { apply wp_fail. split; [chain|]. split; [chain|]. eapply re_taken. by apply selects_username. }
  cbn beta iota. wp_step; [apply wp_fail; split; [chain|]; split; [chain|constructor]|].
  bool_to_prop. wp_step. wp_step.
  apply wp_GenerateFromPassword;
    [intros hash Hm|intros e' _; split; [chain|]; split; [chain|constructor]].
  pose proof (no_account_named _ _ (Hnone ltac:(done))) as Hfree.
  destruct (has_rbacRepo s); simpl.
  - wp_step. eapply wp_mono; [apply (wp_Transaction_atomic _
      (fun w0 _ w1 => exists u, fresh_account name (reg_Password req) u /\
                                account_added w0 w1 u [RoleCodeUser]) (fun _ _ => True));
      intros w0 _; by apply createWithRole_spec|].
    intros [[]|e'|] w' [Hl Hr]; [| |done].
    2:{ split; [chain|]. split; [transitivity (reseed w1); [chain|apply Hr]|constructor]. }
    split; [chain|]. do 3 (split; [done|]).
    destruct Hr as (w0 & w2 & Hw0 & (u & Hfu & Hau) & _ & Ht). exists u. split; [done|].
    eapply account_added_same; [|exact Ht|exact Hau]. chain.
  - wp_step. wp_step. eapply wp_exec; [apply us_create_law|intros u w2 Hrest Hins|intros e' w2 Hw He].
    2:{ split; [chain|]. split; [chain|constructor]. }
    apply wp_ret. split; [chain|]. do 3 (split; [done|]).
    destruct Hins as (id & now & Hid & -> & Hf & Hc).
    eexists. split; [by apply created_account|].
    eapply (account_added_same w (reseed w1)); [chain|reflexivity|]. by eapply account_added_base.
Qed.

(** * Login *)

(** No visible account has the name, or the password is not its own, or the
    account is not active. *)
Definition bad_credentials (w : World) (req : LoginRequest) : Prop :=
  (forall u, ~ account_named w (TrimSpace (login_Username req)) u) \/
  exists u, account_named w (TrimSpace (login_Username req)) u /\
            (bcrypt_matches (u_PasswordHash u) (login_Password req) = false \/
             u_Status u <> UserStatusActive).

Inductive login_error (s : option UserService) (req : LoginRequest) (w : World) : error -> Prop :=
| le_credentials : bad_credentials w req -> login_error s req w ErrInvalidCredentials
| le_database : usr_ensureDB s = Err ErrDatabaseNotInitialized ->
    login_error s req w ErrDatabaseNotInitialized
| le_internal cause : sql_failure cause -> login_error s req w (loginFailed cause).

Definition login_post (s : option UserService) (req : LoginRequest) (w : World)
    (r : res User) (w' : World) : Prop :=
  later w w' /\
  match r with
  | Ok u' => exists u t now,
      account_named w (TrimSpace (login_Username req)) u /\
      bcrypt_matches (u_PasswordHash u) (login_Password req) = true /\
      u_Status u = UserStatusActive /\
      u' = set_last_login t u /\ read_between w w' t /\
      sets w w' TUsers (update_where (selects TUsers (fun x => u_ID x =? u_ID u))
                          (updated TUsers now (set_last_login t)) (tbl TUsers w))
  | Err e => same_tables w w' /\ login_error s req w e
  | Panic => False
  end.

Lemma Login_spec s req w : wp (Login s req) (login_post s req w) w.
Proof.
  unfold Login, login_post. wp_step. apply wp_of_res.
  destruct (usr_ensureDB_cases s) as [->|Hdb].
  2:{ rewrite Hdb. split; [chain|]. split; [chain|by constructor]. }
  wp_step. wp_step.
  eapply (wp_first TUsers); [apply us_get_username_law|intros u w1 Hw1 Hin Hsel|intros e w1 Hw1 Hlib Hnone].
  2:{ cbn beta iota. wp_step; apply wp_fail; (split; [chain|]; split; [chain|]); constructor;
        [left; apply no_account_named; auto|by split]. }
  eapply selects_username in Hsel; [|exact Hin]. cbn beta iota.
  wp_step; bool_to_prop.
  { apply wp_fail. split; [chain|]. split; [chain|]. constructor. right. eauto. }
  wp_step; bool_to_prop.
  { apply wp_fail. split; [chain|]. split; [chain|]. constructor. right. eauto. }
  wp_step. apply wp_Now. wp_step. wp_step.
  eapply wp_exec; [apply us_last_login_law|intros [] w2 Hrest Heff|intros e w2 Hw He].
  2:{ split; [chain|]. split; [chain|]. by constructor. }
  apply wp_ret. split; [chain|]. apply (sets_from w) in Heff as [now Hs]; [|chain].
  exists u, (clock (w_tick w1)), now. do 4 (split; [done|]). split.
  { apply read_between_tick; [chain|by apply same_rest_later]. }
  exact Hs.
Qed.

(** * Profile *)

Inductive profile_error (s : option UserService) (uid : Z) (w : World) : error -> Prop :=
| pe_id : uid <= 0 -> profile_error s uid w ErrInvalidUserID
| pe_database : usr_ensureDB s = Err ErrDatabaseNotInitialized ->
    profile_error s uid w ErrDatabaseNotInitialized
| pe_missing : (forall u, ~ account_with_id w uid u) -> profile_error s uid w ErrUserNotFound
| pe_disabled u : account_with_id w uid u -> u_Status u <> UserStatusActive ->
    profile_error s uid w ErrUserDisabled
| pe_internal cause : sql_failure cause ->
    profile_error s uid w (internalError CodeGetProfileFailed "获取用户信息失败" cause).

Definition profile_post (s : option UserService) (uid : Z) (w : World) (r : res User) (w' : World)
    : Prop :=
  same_world w w' /\
  match r with
  | Ok u => account_with_id w uid u /\ u_Status u = UserStatusActive
  | Err e => profile_error s uid w e
  | Panic => False
  end.

Lemma no_account_with_id w uid :
  (forall u, In u (tbl TUsers w) -> selects TUsers (fun u => u_ID u =? uid) u = false) ->
  forall u, ~ account_with_id w uid u.
Proof.
  intros Hnone u Hu. pose proof (selected_id _ _ _ Hu) as Hs.
  destruct Hu as [Hin _]. by rewrite Hnone in Hs.
Qed.

Lemma GetProfile_spec s uid w : wp (GetProfile s uid) (profile_post s uid w) w.
Proof.
  unfold GetProfile, profile_post.
  wp_step; bool_to_prop; [apply wp_fail; split; [done|by constructor]|].
  wp_step. apply wp_of_res. destruct (usr_ensureDB_cases s) as [->|Hdb].
  2:{ rewrite Hdb. split; [done|by constructor]. }
  wp_step. wp_step.
  eapply (wp_first TUsers); [apply us_get_law|intros u w1 Hw1 Hin Hsel|intros e w1 Hw1 Hlib Hnone].
  - eapply selects_id in Hsel; [|exact Hin]. cbn beta iota. wp_step; bool_to_prop.
    + apply wp_fail. split; [done|]. by econstructor.
    + by apply wp_ret.
  - cbn beta iota. wp_step; apply wp_fail; (split; [done|]); constructor;
      [apply no_account_with_id; auto|by split].
Qed.

(** * Nickname *)

Definition nickname_post (s : option UserService) (uid : Z) (nickname : string) (w : World)
    (r : res unit) (w' : World) : Prop :=
  let nickname := TrimSpace nickname in
  same_rest w w' /\
  match r with
  | Ok _ => exists u, account_with_id w uid u /\ nickname <> "" /\ len nickname <= 64 /\
      (u_Nickname u = nickname /\ same_tables w w' \/
       u_Status u = UserStatusActive /\
       exists now, sets w w' TUsers (update_where (selects TUsers (fun x => u_ID x =? uid))
                     (updated TUsers now (set_nickname nickname)) (tbl TUsers w)))
  | Err e => same_tables w w'
  | Panic => False
  end.

Lemma same_world_rest a b : same_world a b -> same_rest a b.
Proof. intros [? ? ? ?]. by split. Qed.

Lemma UpdateNickname_spec s uid nickname w :
  wp (UpdateNickname s uid nickname) (nickname_post s uid nickname w) w.
Proof.
  unfold UpdateNickname, nickname_post. set (n := TrimSpace nickname).
  assert (forall w1, same_world w w1 -> same_rest w w1 /\ same_tables w w1) as Hfail
    by (intros; split; [by apply same_world_rest|by apply same_world_tables]).
  wp_step; bool_to_prop; [by apply wp_fail|]. wp_step; bool_to_prop; [by apply wp_fail|].
  wp_step; bool_to_prop; [by apply wp_fail|].
  wp_step. apply wp_of_res. destruct (usr_ensureDB_cases s) as [->|Hdb]; [|by rewrite Hdb].
  wp_step. wp_step.
  eapply (wp_first TUsers); [apply us_get_law|intros u w1 Hw1 Hin Hsel|intros e w1 Hw1 Hlib Hnone].
  2:{ cbn beta iota. wp_step; by apply wp_fail, Hfail. }
  eapply selects_id in Hsel; [|exact Hin]. cbn beta iota. wp_step; bool_to_prop.
  { apply wp_ret. split; [by apply same_world_rest|]. exists u. do 3 (split; [done|]).
    left. split; [done|by apply same_world_tables]. }
  wp_step; bool_to_prop; [by apply wp_fail, Hfail|].
  wp_step. eapply wp_exec; [apply us_nickname_law|intros [] w2 Hrest Heff|intros e w2 Hw He].
  2:{ apply Hfail. by transitivity w1. }
  split; [transitivity w1; [by apply same_world_rest|done]|].
  exists u. do 3 (split; [done|]). right. split; [done|].
  apply (sets_from w) in Heff; [exact Heff|chain].
Qed.

(** * Password change *)

Definition mark_password_change (at_ : Z) : RefreshToken -> RefreshToken :=
  set_revoked at_ ReasonPasswordChange.

(** The account gets the new hash and the next authentication version; the
    active refresh tokens of the user are revoked. *)
Definition password_effect (revokes : bool) (w w' : World) (uid : Z) (hash : string) : Prop :=
  (exists now, tbl TUsers w' = update_where (selects TUsers (fun x => u_ID x =? uid))
                 (updated TUsers now (set_password hash)) (tbl TUsers w)) /\
  (if revokes
   then exists now at_, tbl TRefreshTokens w' = update_where (active_of_user uid)
          (updated TRefreshTokens now (mark_password_change at_)) (tbl TRefreshTokens w)
   else tbl TRefreshTokens w' = tbl TRefreshTokens w) /\
  (forall t, t <> TUsers -> t <> TRefreshTokens -> tbl t w' = tbl t w).

Definition password_changed (s : option UserService) (uid : Z) (req : UpdatePasswordRequest)
    (w w' : World) : Prop :=
  exists u hash,
    account_with_id w uid u /\
    bcrypt_matches (u_PasswordHash u) (OldPassword req) = true /\
    valid_password (NewPassword req) /\ bcrypt_matches hash (NewPassword req) = true /\
    password_effect (has_refreshRepo s) w w' uid hash.

(** Where an account has the id, the WHERE clause on id and hash is one on
    the id. *)
Lemma password_clause w uid u :
  keys_ok TUsers (tbl TUsers w) -> account_with_id w uid u ->
  forall x, In x (tbl TUsers w) ->
    selects TUsers (fun x => coll_eqb (u_PasswordHash x) (u_PasswordHash u) && (u_ID x =? uid)) x
    = selects TUsers (fun x => u_ID x =? uid) x.
Proof.
  intros Hk Hu x Hx. unfold selects. destruct (Z.eqb_spec (u_ID x) uid) as [Hid|Hid];
    [|by rewrite andb_false_r].
  assert (x = u) as ->; [|by rewrite coll_refl].
  destruct Hu as (Hin & _ & Hiu). apply (keys_ok_unique TUsers (tbl TUsers w)); try done.
  simpl. by rewrite Hid, Hiu, Z.eqb_refl.
Qed.

Lemma updatePasswordInTx_spec s uid req w :
  keys_ok TUsers (tbl TUsers w) ->
  wp (updatePasswordInTx s uid req) (fun r w' =>
    later w w' /\
    match r with Ok _ => password_changed s uid req w w' | Err _ => True | Panic => False end) w.
Proof.
  intros Hk. unfold updatePasswordInTx. wp_step. wp_step.
  eapply (wp_first TUsers); [apply us_get_for_update_law|intros u w1 Hw1 Hin Hsel|intros e w1 Hw1 _ _].
  2:{ split; [chain|done]. }
  eapply selects_id in Hsel; [|exact Hin].
  wp_step; bool_to_prop; [apply wp_fail; split; [chain|done]|].
  wp_step. apply wp_of_res.
  destruct (validatePassword_cases (NewPassword req)) as [[-> Hpw] | ->]; [|split; [chain|done]].
  wp_step. wp_step. apply wp_GenerateFromPassword; [intros hash Hm|intros e _; split; [chain|done]].
  wp_step. wp_step. eapply wp_on_db.
  { apply us_password_law. simpl. by rewrite <- (sw_rows _ _ Hw1 TUsers : _ = rows _ TUsers). }
  assert (same_tables w (reseed w1)) as Ht by chain.
  intros [[]|e|] w2 Hr Hrest; simpl in Hr; [|split; [chain|done]|done].
  destruct Hr as [_ Heff]. apply (sets_from w) in Heff as [now [Hset Ho]]; [|chain].
  rewrite (update_where_ext _ (selects TUsers (fun x => u_ID x =? uid))) in Hset
    by (by apply password_clause).
  wp_step; bool_to_prop.
  { apply wp_ret. split; [chain|]. exists u, hash. do 4 (split; [done|]).
    split; [by exists now|]. rewrite Heqb0. split; [by apply Ho|].
    intros t H1 _. by apply Ho. }
  wp_step. apply wp_Now. wp_step.
  eapply wp_exec; [apply rt_revoke_all_law|intros [] w3 Hrest3 Heff|intros e w3 Hw He].
  2:{ split; [chain|done]. }
  split; [chain|]. exists u, hash. do 4 (split; [done|]).
  apply (sets_from w2) in Heff as [now2 [Hset2 Ho2]]; [|chain].
  split; [exists now; by rewrite Ho2|]. rewrite Heqb0. split.
  { exists now2, (clock (w_tick w2)). rewrite Hset2. by rewrite Ho. }
  intros t H1 H2. rewrite Ho2, Ho by done. done.
Qed.

Lemma password_changed_same s uid req w w0 w1 w2 :
  same_tables w w0 -> same_tables w1 w2 -> password_changed s uid req w0 w1 ->
  password_changed s uid req w w2.
Proof.
  unfold password_changed, password_effect, account_with_id. intros H0 H2.
  rewrite <- !(H2 TUsers), <- !(H2 TRefreshTokens), !(H0 TUsers), !(H0 TRefreshTokens).
  intros (u & h & Hu & ? & ? & ? & ? & ? & Ho). exists u, h. do 4 (split; [done|]).
  split; [done|]. split; [done|]. intros t Hne Hne'. rewrite <- (H2 t), (H0 t). by apply Ho.
Qed.

Lemma keys_ok_same t w w' : same_tables w w' -> keys_ok t (tbl t w) -> keys_ok t (tbl t w').
Proof. intros Ht. by rewrite (Ht t). Qed.

(** Every outcome of [UpdateUserPassword]. *)
Definition password_post (s : option UserService) (uid : Z) (req : UpdatePasswordRequest)
    (w : World) (r : res unit) (w' : World) : Prop :=
  later w w' /\
  match r with
  | Ok _ => 0 < uid /\ OldPassword req <> NewPassword req /\ password_changed s uid req w w'
  | Err e => same_tables w w'
  | Panic => False
  end.

Lemma UpdateUserPassword_spec s uid req w :
  keys_ok TUsers (tbl TUsers w) ->
  wp (UpdateUserPassword s uid req) (password_post s uid req w) w.
Proof.
  intros Hk. unfold UpdateUserPassword, password_post.
  wp_step; bool_to_prop; [by apply wp_fail|]. wp_step. apply wp_of_res.
  destruct (usr_ensureDB_cases s) as [->|Hdb]; [|by rewrite Hdb].
  wp_step; bool_to_prop; [by apply wp_fail|].
  eapply wp_mono; [apply (wp_Transaction_atomic _
    (fun w0 _ w1 => password_changed s uid req w0 w1) (fun _ _ => True))|].
  { intros w0 Hw0. apply updatePasswordInTx_spec. eapply keys_ok_same; [|exact Hk]. chain. }
  intros [[]|e|] w' [Hl Hr]; [|split; [done|apply Hr]|done].
  destruct Hr as (w0 & w1 & Hw0 & Hp & _ & Ht). split; [done|]. split; [done|]. split; [done|].
  eapply password_changed_same; [|exact Ht|exact Hp]. chain.
Qed.

(** * The first administrator *)

(** Some user holds the role of administrators. *)
Definition administrator_exists (w : World) : Prop :=
  exists role ur, role_with_code w RoleCodeAdmin role /\ In ur (tbl TUserRoles w) /\
                  ur_RoleID ur = r_ID role.

Definition bootstrapped (w w' : World) (req : RegisterRequest) : Prop :=
  let name := TrimSpace (reg_Username req) in
  (exists role, role_with_code w RoleCodeAdmin role /\
     forall ur, In ur (tbl TUserRoles w) -> ur_RoleID ur <> r_ID role) /\
  (forall u, ~ account_named w name u) /\
  exists u, fresh_account name (reg_Password req) u /\
            account_added w w' u [RoleCodeUser; RoleCodeAdmin].

Definition bootstrap_post (s : option UserService) (req : RegisterRequest) (w : World)
    (r : res unit) (w' : World) : Prop :=
  later w w' /\
  match r with
  | Ok _ => 3 <= len (TrimSpace (reg_Username req)) /\ valid_password (reg_Password req) /\
            bootstrapped w w' req
  | Err e => same_tables w w' /\ (e = ErrAdminAlreadyBootstrapped -> administrator_exists w)
  | Panic => False
  end.

Definition bootstrap_err (w : World) (e : error) : Prop :=
  e = ErrAdminAlreadyBootstrapped -> administrator_exists w.

Lemma create_admin_spec username hash pw w :
  bcrypt_matches hash pw = true ->
  wp (let! user := map_err (Errorf "create administrator")
        (on_db (us_CreateUser (new_user username hash))) in
      do! map_err (fun err => if errors_Is err "repository.ErrRoleNotFound"
                              then ErrRBACNotInitialized else Errorf "assign user role" err)
        (rb_AssignRoleToUserByCode (u_ID user) RoleCodeUser) in
      map_err (Errorf "assign administrator role")
        (rb_AssignRoleToUserByCode (u_ID user) RoleCodeAdmin))
    (fun r w' => later w w' /\
       match r with
       | Ok _ => exists u, fresh_account username pw u /\
                   account_added w w' u [RoleCodeUser; RoleCodeAdmin]
       | Err e => e <> ErrAdminAlreadyBootstrapped
       | Panic => False
       end) w.
Proof.
  intros Hm. wp_step. wp_step.
  eapply wp_exec; [apply us_create_law|intros u w1 Hrest Hins|intros e w1 Hw He; split; [chain|done]].
  destruct Hins as (id & now & Hid & -> & Hf & Hc).
  set (u := prepare TUsers id now (new_user username hash)) in *.
  wp_step. wp_step. wp_use (rb_assign_law (u_ID u) RoleCodeUser w1).
  intros [[]|e|] w2 [Hl Hr]; [|split; [chain|by destruct (errors_Is _ _)]|done].
  destruct Hr as (role & Hrole & Hg).
  wp_step. wp_use (rb_assign_law (u_ID u) RoleCodeAdmin w2).
  intros [[]|e|] w3 [Hl3 Hr3]; [|split; [chain|done]|done].
  destruct Hr3 as (role' & Hrole' & Hg'). split; [chain|].
  eexists. split; [by apply created_account|].
  eapply (account_added_role w w2 w3 _ [RoleCodeUser]); [|exact Hrole'|exact Hg'].
  eapply (account_added_role w w1 w2 _ []); [|exact Hrole|exact Hg].
  by eapply account_added_base.
Qed.

Lemma bootstrapInTx_spec req hash w :
  bcrypt_matches hash (reg_Password req) = true ->
  wp (bootstrapInTx (TrimSpace (reg_Username req)) hash) (fun r w' =>
    later w w' /\
    match r with
    | Ok _ => bootstrapped w w' req
    | Err e => bootstrap_err w e
    | Panic => False
    end) w.
Proof.
  intros Hm. unfold bootstrapInTx, bootstrap_err. wp_step. wp_step.
  eapply (wp_first TRoles); [apply (first_law true TRoles)|intros role w1 Hw1 Hin Hsel|intros e w1 Hw1 _ _].
  2:{ split; [chain|]. by destruct (is_not_found e). }
  assert (role_with_code w RoleCodeAdmin role) as Hrole by done.
  wp_step. wp_step.
  eapply wp_query; [apply (count_law TUserRoles)|intros n w2 Hw2 Hn|intros e w2 Hw2 _].
  2:{ split; [chain|done]. }
  change (rows (w_db w1) TUserRoles) with (tbl TUserRoles w1) in Hn.
  rewrite <- (sw_rows _ _ Hw1 TUserRoles) in Hn.
  wp_step; bool_to_prop.
  { apply wp_fail. split; [chain|]. intros _. rewrite Hn in Heqb.
    apply (count_where_pos (A:=row TUserRoles)) in Heqb as (ur & Hur & Hid).
    unfold selects in Hid. simpl in Hid. bool_to_prop. by exists role, ur. }
  assert (forall ur, In ur (tbl TUserRoles w) -> ur_RoleID ur <> r_ID role) as Hnone.
  { intros ur Hur Heq. assert (0 < n); [|lia]. rewrite Hn.
    apply (count_where_pos (A:=row TUserRoles)). exists ur. split; [done|].
    unfold selects. simpl. by apply Z.eqb_eq. }
  wp_step. wp_step. assert (same_tables w w2) as Ht by chain.
  eapply (wp_first TUsers); [apply us_get_username_law|intros u w3 Hw3 Hi Hs|intros e w3 Hw3 Hlib Hfree].
  { apply wp_fail. split; [chain|done]. }
  cbn beta iota. wp_step; bool_to_prop; [apply wp_fail; split; [chain|done]|].
  eapply wp_mono; [by apply create_admin_spec|].
  intros [[]|e'|] w4 [Hl Hr]; [|by split; [chain|]|done].
  split; [chain|]. split; [by exists role|]. split.
  { apply no_account_named. rewrite (Ht TUsers). by apply Hfree. }
  destruct Hr as (u & Hu & Hadd). exists u. split; [done|].
  eapply account_added_same; [|reflexivity|exact Hadd]. chain.
Qed.

Lemma bootstrapped_same w w0 w1 w2 req :
  same_tables w w0 -> same_tables w1 w2 -> bootstrapped w0 w1 req -> bootstrapped w w2 req.
Proof.
  unfold bootstrapped, role_with_code, account_named. intros H0 H2.
  rewrite <- (H0 TRoles), <- (H0 TUserRoles), <- (H0 TUsers).
  intros (Hr & Hn & u & Hu & Hadd). split; [done|]. split; [done|]. exists u. split; [done|].
  by eapply account_added_same.
Qed.

Lemma BootstrapAdmin_spec s req w : wp (BootstrapAdmin s req) (bootstrap_post s req w) w.
Proof.
  unfold BootstrapAdmin, bootstrap_post.
  assert (forall e w1, later w w1 -> same_tables w w1 -> e <> ErrAdminAlreadyBootstrapped ->
            later w w1 /\ same_tables w w1 /\
            (e = ErrAdminAlreadyBootstrapped -> administrator_exists w)) as Hfail by done.
  wp_step; bool_to_prop; [by apply wp_fail, Hfail|].
  wp_step. apply wp_of_res.
  destruct (validatePassword_cases (reg_Password req)) as [[-> Hpw] | ->]; [|by apply Hfail].
  wp_step. apply wp_of_res. destruct (usr_ensureDB_cases s) as [-> | ->]; [|by apply Hfail].
  wp_step; [by apply wp_fail, Hfail|].
  wp_step. wp_step. apply wp_GenerateFromPassword; [intros hash Hm|intros e _; apply Hfail; (chain || done)].
  eapply wp_mono; [apply (wp_Transaction_atomic _
    (fun w0 _ w1 => bootstrapped w0 w1 req) bootstrap_err); intros w0 _; by apply bootstrapInTx_spec|].
  intros [[]|e|] w' [Hl Hr]; [| |done].
  - split; [chain|]. do 2 (split; [done|]).
    destruct Hr as (w0 & w1 & Hw0 & Hb & _ & Ht).
    eapply bootstrapped_same; [|exact Ht|exact Hb]. chain.
  - split; [chain|]. destruct Hr as [Ht Hr]. split; [transitivity (reseed w); [chain|done]|].
    intros ->. destruct Hr as [[Hlib _]|(w0 & Hw0 & He)].
    { pose proof (library_error_not_own _ "service.ErrAdminAlreadyBootstrapped" Hlib eq_refl). done. }
    specialize (He eq_refl). unfold administrator_exists, role_with_code in *.
    pose proof (sw_rows _ _ Hw0) as Hrows. change (same_tables (reseed w) w0) in Hrows.
    rewrite <- (Hrows TRoles), <- (Hrows TUserRoles) in He. exact He.
Qed.
End theory.
