(* ===== verification/RbacTheorems.v ===== *)
(** What the authorization service guarantees. *)
From S2P Require Import Prelude GoTime GoStrings GoErrors Model Gorm AuthState World.
From S2P Require Import RbacRepo RbacService.

(** * Role codes *)

(** The elements of [l] in the order of their first occurrences. *)
Fixpoint first_occurrences (l : list string) : list string :=
  match l with
  | [] => []
  | x :: l' => x :: List.filter (fun y => negb (String.eqb y x)) (first_occurrences l')
  end.

Lemma in_first_occurrences l x : In x (first_occurrences l) <-> In x l.
Proof.
  induction l as [|y l IH]; simpl; [done|]. rewrite filter_In, IH, negb_true_iff, String.eqb_neq.
  destruct (decide (x = y)) as [->|]; naive_solver.
Qed.

Lemma first_occurrences_NoDup l : List.NoDup (first_occurrences l).
Proof.
  induction l as [|y l IH]; simpl; constructor.
  - rewrite filter_In. intros [_ Hn]. by rewrite String.eqb_refl in Hn.
  - by apply List.NoDup_filter.
Qed.

Definition not_seen (seen : gset string) (x : string) : bool := negb (bool_decide (x ∈ seen)).

Lemma filter_not_seen x seen l :
  List.filter (not_seen ({[x]} ∪ seen)) l
  = List.filter (not_seen seen) (List.filter (fun y => negb (String.eqb y x)) l).
Proof.
  induction l as [|y l IH]; simpl; [done|].
  destruct (String.eqb_spec y x) as [->|Hne]; simpl.
  - assert (not_seen ({[x]} ∪ seen) x = false) as ->; [|done].
    unfold not_seen. by rewrite bool_decide_eq_true_2 by set_solver.
  - assert (not_seen ({[x]} ∪ seen) y = not_seen seen y) as ->; [|by rewrite IH].
    unfold not_seen. f_equal. apply bool_decide_ext. set_solver.
Qed.

Lemma filter_seen_head x seen l :
  x ∈ seen -> List.filter (not_seen seen) (List.filter (fun y => negb (String.eqb y x)) l)
              = List.filter (not_seen seen) l.
Proof.
  intros Hx. assert ({[x]} ∪ seen = seen) as Heq by (apply subseteq_union_1_L; set_solver).
  by rewrite <- filter_not_seen, Heq.
Qed.

Lemma normalizeRoleCodes_seen codes : forall seen,
  normalizeRoleCodes seen codes
  = if existsb (fun c => String.eqb (TrimSpace c) "") codes then Err ErrRoleNotFound
    else Ok (List.filter (not_seen seen) (first_occurrences (map TrimSpace codes))).
Proof.
  induction codes as [|code codes IH]; intros seen; [done|]. cbn [normalizeRoleCodes existsb map first_occurrences].
  cbv zeta. destruct (String.eqb (TrimSpace code) "") eqn:He; [done|]. cbn [orb].
  rewrite (IH seen), (IH ({[TrimSpace code]} ∪ seen)).
  cbn [List.filter]. unfold not_seen at 3.
  destruct (bool_decide_reflect (TrimSpace code ∈ seen)) as [Hin|Hnin]; cbn [negb].
  - destruct (existsb _ _); [done|]. by rewrite filter_seen_head.
  - destruct (existsb _ _); [done|]. by rewrite filter_not_seen.
Qed.

Lemma normalizeRoleCodes_run codes :
  normalizeRoleCodes ∅ codes
  = if existsb (fun c => String.eqb (TrimSpace c) "") codes then Err ErrRoleNotFound
    else Ok (first_occurrences (map TrimSpace codes)).
Proof.
  rewrite normalizeRoleCodes_seen. destruct (existsb _ _); [done|]. f_equal.
  induction (first_occurrences _) as [|x l IH]; simpl; [done|]. by rewrite IH.
Qed.

Section theory.
Context {STO : Storage} {G : Gorm} {GL : GormLaws} {SS : Store} {E : Env}.
Context {RB : RBACRepository} {RBL : RBACRepositoryLaws}.

Lemma rbs_ensureDB_cases s :
  rbs_ensureDB s = Ok tt \/ rbs_ensureDB s = Err ErrDatabaseNotInitialized.
Proof. destruct s as [[[|]]|]; auto. Qed.

(** * Assigning roles *)

Inductive assign_error (s : option RBACService) (uid : Z) (codes : list string) (w : World)
  : error -> Prop :=
| ae_id : uid <= 0 -> assign_error s uid codes w ErrInvalidUserID
| ae_empty : codes = [] \/ (exists c, In c codes /\ TrimSpace c = "") ->
    assign_error s uid codes w ErrRoleNotFound
| ae_unknown c : In c codes ->
    (forall r, In r (tbl TRoles w) -> coll_eqb (r_Code r) (TrimSpace c) = false) ->
    assign_error s uid codes w ErrRoleNotFound
| ae_database : rbs_ensureDB s = Err ErrDatabaseNotInitialized ->
    assign_error s uid codes w ErrDatabaseNotInitialized
| ae_internal cause : sql_failure cause ->
    assign_error s uid codes w (rbacFailed "分配用户角色失败" cause).

Definition assigned (w w' : World) (uid : Z) (codes : list string) : Prop :=
  (exists roles, Forall2 (role_with_code w) (first_occurrences (map TrimSpace codes)) roles /\
                 replaced_roles w w' uid roles) /\
  (keys_ok TUserRoles (tbl TUserRoles w) -> keys_ok TUserRoles (tbl TUserRoles w')).

Definition assign_post (s : option RBACService) (uid : Z) (codes : list string) (w : World)
    (r : res unit) (w' : World) : Prop :=
  later w w' /\
  match r with
  | Ok _ => 0 < uid /\ assigned w w' uid codes
  | Err e => same_tables w w' /\ assign_error s uid codes w e
  | Panic => False
  end.

Lemma assigned_same w w0 w1 w2 uid codes :
  same_tables w w0 -> same_tables w1 w2 -> assigned w0 w1 uid codes -> assigned w w2 uid codes.
Proof.
  unfold assigned, replaced_roles, role_with_code. intros H0 H2.
  rewrite <- (H0 TRoles), <- (H0 TUserRoles), <- (H2 TUserRoles).
  intros [(roles & Hr & l & Hl & Hset & Ho) Hk]. split; [|done].
  exists roles. split; [done|]. exists l. split; [done|]. split; [by rewrite <- (H2 TUserRoles)|].
  intros t Ht. rewrite <- (H2 t), (H0 t). by apply Ho.
Qed.

Lemma missing_role_assign s uid codes w w0 e :
  same_tables w w0 -> missing_role w0 (first_occurrences (map TrimSpace codes)) e ->
  assign_error s uid codes w ErrRoleNotFound.
Proof.
  intros Ht [_ (c & Hc & Hn)]. rewrite in_first_occurrences, in_map_iff in Hc.
  destruct Hc as (c0 & <- & Hc0). eapply ae_unknown; [exact Hc0|]. by rewrite (Ht TRoles).
Qed.

Lemma AssignRolesToUser_spec s uid codes w :
  wp (AssignRolesToUser s uid codes) (assign_post s uid codes w) w.
Proof.
  unfold AssignRolesToUser, assign_post.
  assert (forall e, assign_error s uid codes w e ->
            later w w /\ same_tables w w /\ assign_error s uid codes w e) as Hfail by done.
  wp_step; bool_to_prop; [apply wp_fail, Hfail; by constructor|].
  wp_step; bool_to_prop; [apply wp_fail, Hfail; constructor; by left|].
  wp_step. apply wp_of_res. destruct (rbs_ensureDB_cases s) as [->|Hdb].
  2:{ rewrite Hdb. apply Hfail. by constructor. }
  wp_step. apply wp_of_res. rewrite normalizeRoleCodes_run.
  destruct (existsb _ _) eqn:Hempty.
  { apply Hfail, ae_empty. right. apply existsb_exists in Hempty as (c & Hc & He).
    exists c. split; [done|]. by apply String.eqb_eq. }
  wp_step. eapply wp_mono; [apply (wp_Transaction_atomic _
    (fun w0 _ w1 => assigned w0 w1 uid codes)
    (fun w0 e => missing_role w0 (first_occurrences (map TrimSpace codes)) e \/ sql_failure e))|].
  { intros w0 Hw0. wp_use (rb_replace_law uid (first_occurrences (map TrimSpace codes)) w0).
    intros [[]|e|] w1 [Hl Hr]; done. }
  intros [[]|e|] w' [Hl Hr]; [| |done].
  - destruct Hr as (w0 & w1 & Hw0 & Ha & _ & Ht). split; [done|]. split; [done|].
    eapply assigned_same; [|exact Ht|exact Ha]. chain.
  - destruct Hr as [Ht Hr]. split; [done|]. split; [done|].
    assert (sql_failure e -> assign_error s uid codes w
              (if errors_Is e "repository.ErrRoleNotFound" then ErrRoleNotFound
               else rbacFailed "分配用户角色失败" e)) as Hsql.
    { intros He. rewrite library_error_not_own; [by apply ae_internal|apply He|done]. }
    destruct Hr as [He|(w0 & Hw0 & [Hm|He])]; [auto| |auto].
    assert (e = repository_ErrRoleNotFound) as -> by apply Hm. simpl.
    eapply missing_role_assign; [|exact Hm]. chain.
Qed.

(** The rows of an assignment stand for the roles. *)
Lemma user_role_rows_l uid roles l ur :
  user_role_rows uid roles l -> In ur l ->
  exists r, In r roles /\ ur_UserID ur = uid /\ ur_RoleID ur = r_ID r.
Proof. apply Forall2_In_r. Qed.

Lemma user_role_rows_r uid roles l r :
  user_role_rows uid roles l -> In r roles ->
  exists ur, In ur l /\ ur_UserID ur = uid /\ ur_RoleID ur = r_ID r.
Proof. apply Forall2_In_l. Qed.

Lemma holds_replaced w w' uid roles r :
  replaced_roles w w' uid roles ->
  holds_role (rows (w_db w')) uid r <->
  In r (tbl TRoles w) /\ exists r', In r' roles /\ r_ID r' = r_ID r.
Proof.
  intros (l & Hl & Hset & Ho). unfold holds_role.
  change (rows (w_db w') TRoles) with (tbl TRoles w'). rewrite Ho by done.
  change (rows (w_db w') TUserRoles) with (tbl TUserRoles w'). rewrite Hset.
  apply and_iff_compat_l. split.
  - intros (ur & [Hin|Hin]%in_app_or & Hu & Hr).
    { apply in_delete_where in Hin as [_ Hn]. by apply Z.eqb_neq in Hn. }
    destruct (user_role_rows_l _ _ _ _ Hl Hin) as (r' & ? & _ & ?). exists r'. split; [done|congruence].
  - intros (r' & Hin & Hid). destruct (user_role_rows_r _ _ _ _ Hl Hin) as (ur & Hur & Hu & Hr).
    exists ur. split; [apply in_or_app; by right|]. split; [done|congruence].
Qed.

(** Two different codes of one role would need two rows with one key. *)
Lemma duplicate_role_rows uid roles l i j r :
  user_role_rows uid roles l -> keys_ok TUserRoles l ->
  roles !! i = Some r -> roles !! j = Some r -> i = j.
Proof.
  intros Hl Hk Hi Hj. unfold user_role_rows in Hl.
  destruct (Forall2_lookup_l _ _ _ _ _ Hl Hi) as (a & Ha & Hua & Hra).
  destruct (Forall2_lookup_l _ _ _ _ _ Hl Hj) as (b & Hb & Hub & Hrb).
  assert (forall i j a b, (i < j)%nat -> l !! i = Some a -> l !! j = Some b ->
            conflicts TUserRoles a b = false) as Hpair.
  { clear - Hk. induction Hk as [|x l Hx Hl IH]; intros i j a b Hij Ha Hb; [done|].
    destruct j as [|j]; [lia|]. destruct i as [|i]; simpl in Ha, Hb.
    - injection Ha as ->. rewrite Forall_forall in Hx. apply Hx.
      by eapply list_elem_of_lookup_2.
    - eapply IH; [|exact Ha|exact Hb]. lia. }
  assert (forall x y, ur_UserID x = uid -> ur_RoleID x = r_ID r -> ur_UserID y = uid ->
            ur_RoleID y = r_ID r -> conflicts TUserRoles x y = true) as Hconf.
  { intros x y H1 H2 H3 H4. simpl. by rewrite H1, H2, H3, H4, !Z.eqb_refl. }
  destruct (lt_eq_lt_dec i j) as [[Hlt|]|Hlt]; [|done|].
  - pose proof (Hpair i j a b Hlt Ha Hb). by rewrite Hconf in *.
  - pose proof (Hpair j i b a Hlt Hb Ha). by rewrite Hconf in *.
Qed.

Lemma keys_ok_app_r t (l1 l2 : list (row t)) : keys_ok t (l1 ++ l2) -> keys_ok t l2.
Proof. unfold keys_ok. induction l1; simpl; [done|]. inversion 1; auto. Qed.

(** * Permissions *)

Definition has_permission_post (s : option RBACService) (uid : Z) (code : string) (w : World)
    (r : res bool) (w' : World) : Prop :=
  same_tables w w' /\
  match r with
  | Ok b => 0 < uid /\ TrimSpace code <> "" /\
            (b = true <-> exists p, holds_permission (rows (w_db w)) uid p /\
                                    coll_eqb (p_Code p) code = true)
  | Err e => e = ErrPermissionDenied /\ (uid <= 0 \/ TrimSpace code = "") \/
             e = ErrDatabaseNotInitialized /\ rbs_ensureDB s = Err e \/
             exists cause, sql_failure cause /\ e = rbacFailed "权限校验失败" cause
  | Panic => False
  end.

Lemma HasPermission_spec s uid code w :
  wp (HasPermission s uid code) (has_permission_post s uid code w) w.
Proof.
  unfold HasPermission, has_permission_post. wp_step; bool_to_prop.
  { apply wp_fail. split; [done|]. left. split; [done|].
    destruct Heqb as [?%Z.leb_le|?%String.eqb_eq]; [by left|by right]. }
  wp_step. apply wp_of_res. destruct (rbs_ensureDB_cases s) as [-> | ->].
  2:{ split; [done|]. right. by left. }
  wp_step. wp_use (rb_has_permission_law uid code w). intros [b|e|] w' (Hl & Ht & Hr); [| |done].
  - split; [done|]. bool_to_prop. done.
  - split; [done|]. right. right. by exists e.
Qed.

Definition authorization_post (uid : Z) (w : World) (r : res (list string * list string))
    (w' : World) : Prop :=
  same_tables w w' /\
  match r with
  | Ok (roles, perms) => 0 < uid /\
      lists_codes (holds_role (rows (w_db w)) uid) r_Code roles /\
      lists_codes (holds_permission (rows (w_db w)) uid) p_Code perms
  | Err _ => True
  | Panic => False
  end.

Lemma holds_permission_same w w' uid p :
  same_tables w w' -> holds_permission (rows (w_db w)) uid p <-> holds_permission (rows (w_db w')) uid p.
Proof.
  intros Ht. unfold holds_permission. pose proof (Ht TPermissions) as H1.
  pose proof (Ht TUserRoles) as H2. pose proof (Ht TRolePermissions) as H3. unfold tbl in *.
  by rewrite H1, H2, H3.
Qed.

Lemma lists_codes_iff {A} (P Q : A -> Prop) f l :
  (forall a, P a <-> Q a) -> lists_codes P f l -> lists_codes Q f l.
Proof.
  unfold lists_codes. intros HPQ (H1 & H2 & H3 & H4). split; [|split; [|done]].
  - intros c Hc. destruct (H1 c Hc) as (a & Ha & <-). exists a. by rewrite <- HPQ.
  - intros a Ha. apply H2. by rewrite HPQ.
Qed.

Lemma GetUserAuthorization_spec s uid w :
  wp (GetUserAuthorization s uid) (authorization_post uid w) w.
Proof.
  unfold GetUserAuthorization, authorization_post. wp_step; bool_to_prop; [by apply wp_fail|].
  wp_step. apply wp_of_res. destruct (rbs_ensureDB_cases s) as [-> | ->]; [|done].
  wp_step. wp_step. wp_use (rb_user_roles_law uid w).
  intros [roles|e|] w1 (Hl & Ht & Hr); [|done..].
  wp_step. wp_step. wp_use (rb_user_permissions_law uid w1).
  intros [perms|e|] w2 (Hl2 & Ht2 & Hp); [|split; [by transitivity w1|done]|done].
  apply wp_ret. split; [by transitivity w1|]. split; [done|]. split; [done|].
  eapply lists_codes_iff; [|exact Hp]. intros p. symmetry. by apply holds_permission_same.
Qed.
End theory.
