(* ===== verification/ErrorTheorems.v ===== *)
(** The errors the services end in, as a handler answers them: an application
    error names a client or server error status and a business code; any
    other error is answered with the handler's fallback. *)
From S2P Require Import Prelude GoTime GoStrings Sha256 GoErrors Model Gorm AuthState World.
From S2P Require Import Dao RefreshRepo RbacRepo TokenManager AuthService UserService RbacService.

(** What [handleError] makes of [e] is an error status with a business code. *)
Definition honest_error (e : error) : Prop :=
  match FromError e with
  | Some a => 400 <= HTTPStatus a < 600 /\ Code a <> CodeSuccess
  | None => True
  end.

Lemma library_error_honest e : library_error e -> honest_error e.
Proof. intros [He _]. unfold honest_error. by rewrite He. Qed.

Lemma sql_failure_honest e : sql_failure e -> honest_error e.
Proof. intros [He _]. by apply library_error_honest. Qed.

(** Every error value of the services is one. *)
Lemma service_errors_honest e : In e service_errors -> honest_error e.
Proof.
  intros He. unfold service_errors in He. simpl in He.
  repeat (destruct He as [<-|He]; [unfold honest_error; simpl; by split; [split|]|]). done.
Qed.

Section honest.
Context {STO : Storage} {G : Gorm} {GL : GormLaws} {SS : Store}.
Context {E : Env} {UT : UnicodeTables}.
Context {B : Bcrypt} {BL : BcryptLaws}.
Context {US : UserStore} {UL : UserStoreLaws} {AUS : AuthUserStore} {AUL : AuthUserStoreLaws}.
Context {RR : RefreshTokenRepository} {RL : RefreshTokenRepositoryLaws}.
Context {RB : RBACRepository} {RBL : RBACRepositoryLaws}.

Definition honest_outcome {A} (r : res A) (w : World) : Prop :=
  match r with Err e => honest_error e | _ => True end.

(** [m] ends in no other errors. *)
Definition honest {A} (m : M A) : Prop := forall w, wp m honest_outcome w.

Lemma honest_transaction {A} (body : M A) : honest body -> honest (Transaction body).
Proof.
  intros Hb w. apply wp_Transaction.
  { intros e w' He _. by apply sql_failure_honest. }
  intros w0 _. wp_use (Hb w0). intros [a|e|] w1 Hr; split; try done.
  intros w' _ _ e He. by apply sql_failure_honest.
Qed.

(** A specification of a call, with the kind of its errors. *)
Lemma wp_honest {A} (m : M A) (P : res A -> World -> Prop) w :
  honest m -> wp m P w -> wp m (fun r w' => P r w' /\ honest_outcome r w') w.
Proof. intros Hm HP. specialize (Hm w). unfold wp in *. by destruct (m w). Qed.

(** ** The rules, one per construct of the services *)

Lemma honest_bind {A C} (m : M A) (k : A -> M C) w :
  wp m honest_outcome w -> (forall a w', wp (k a) honest_outcome w') ->
  wp (bind m k) honest_outcome w.
Proof. intros Hm Hk. wp_step. wp_use Hm. intros [a|e|] w' Hr; [apply Hk|done|done]. Qed.

Lemma honest_attempt {A C} (m : M A) (k : error + A -> M C) w :
  (forall r w', wp (k r) honest_outcome w') -> wp (bind (attempt m) k) honest_outcome w.
Proof. intros Hk. wp_step. wp_step. apply wp_intro. intros [a|e|] w' _; [apply Hk|apply Hk|done]. Qed.

Lemma honest_map_err {A} f (m : M A) w :
  (forall e, honest_error (f e)) -> wp (map_err f m) honest_outcome w.
Proof. intros Hf. wp_step. apply wp_intro. intros [a|e|] w' _; [done|apply Hf|done]. Qed.

Lemma honest_of_res {A} (r : res A) w : honest_outcome r w -> wp (of_res r) honest_outcome w.
Proof. done. Qed.

Lemma honest_fail {A} e w : honest_error e -> wp (fail e : M A) honest_outcome w.
Proof. done. Qed.

Lemma honest_ensureDB s w : honest_outcome (ensureDB s) w.
Proof. destruct s as [[[|] ? ?]|]; done. Qed.
Lemma honest_usr_ensureDB s w : honest_outcome (usr_ensureDB s) w.
Proof. destruct s as [[[|] ? ?]|]; done. Qed.
Lemma honest_rbs_ensureDB s w : honest_outcome (rbs_ensureDB s) w.
Proof. destruct s as [[[|]]|]; done. Qed.
Lemma honest_rate_limiter s w : honest_outcome (ensureRateLimiter s) w.
Proof. destruct s as [[? [|] ?]|]; simpl; [case_match|..]; done. Qed.
Lemma honest_validatePassword pw w : honest_outcome (validatePassword pw) w.
Proof. unfold validatePassword. case_match; done. Qed.
Lemma honest_normalizeRoleCodes seen codes w : honest_outcome (normalizeRoleCodes seen codes) w.
Proof.
  revert seen. induction codes as [|c codes IH]; intros seen; simpl; [done|].
  case_match; [done|]. case_match; [apply IH|].
  specialize (IH ({[TrimSpace c]} ∪ seen)). by destruct (normalizeRoleCodes _ codes).
Qed.
End honest.

#[export] Hint Resolve honest_ensureDB honest_usr_ensureDB honest_rbs_ensureDB honest_rate_limiter
  honest_validatePassword honest_normalizeRoleCodes : honest.

(** An error of the services, or one made of a cause by [apperror.Wrap]. *)
Ltac honest_value :=
  solve [done | apply service_errors_honest; unfold service_errors; simpl; tauto
        | unfold honest_error; simpl; by split; [split|]].

(** Uses the specification [H] of a call together with the kind [K] of its errors. *)
Tactic Notation "wp_use_honest" constr(K) constr(H) :=
  eapply wp_mono; [apply wp_honest; [apply K|apply H]|cbv beta].

(** Steps through a service; the errors of the calls below it are wrapped. *)
Ltac honest_run :=
  repeat (cbn beta iota zeta;
          lazymatch goal with
          | |- honest _ => intro
          | |- forall _, _ => intro
          | |- honest_error (if ?b then _ else _) => destruct b
          | |- honest_error _ => honest_value
          | |- wp (bind (attempt _) _) _ _ => apply honest_attempt
          | |- wp (bind _ _) _ _ => apply honest_bind
          | |- wp (map_err _ _) _ _ => apply honest_map_err
          | |- wp (of_res _) _ _ => apply honest_of_res; solve [auto with honest]
          | |- wp (fail _) _ _ => apply honest_fail
          | |- wp (Transaction _) _ _ => apply honest_transaction
          | |- wp (ret _) _ _ => done
          | |- wp Now _ _ => done
          | |- wp panic _ _ => done
          | |- wp (if ?b then _ else _) _ _ => destruct b
          | |- wp (match ?x with _ => _ end) _ _ => destruct x
          end).

Section services.
Context {STO : Storage} {G : Gorm} {GL : GormLaws} {SS : Store}.
Context {E : Env} {UT : UnicodeTables} {J : JWT} {JL : JWTLaws}.
Context {B : Bcrypt} {BL : BcryptLaws}.
Context {US : UserStore} {AUS : AuthUserStore}.
Context {RR : RefreshTokenRepository} {RB : RBACRepository}.

Lemma Register_honest s req : honest (Register s req).
Proof. unfold Register, registerFailed. honest_run. Qed.
Lemma Login_honest s req : honest (Login s req).
Proof. unfold Login. honest_run. Qed.
Lemma GetProfile_honest s uid : honest (GetProfile s uid).
Proof. unfold GetProfile. honest_run. Qed.
Lemma UpdateNickname_honest s uid n : honest (UpdateNickname s uid n).
Proof. unfold UpdateNickname. honest_run. Qed.
Lemma UpdateUserPassword_honest s uid req : honest (UpdateUserPassword s uid req).
Proof. unfold UpdateUserPassword, updatePasswordInTx. honest_run. Qed.
Lemma ListRoles_honest s : honest (ListRoles s).
Proof. unfold ListRoles. honest_run. Qed.
Lemma ListPermissions_honest s : honest (ListPermissions s).
Proof. unfold ListPermissions. honest_run. Qed.
Lemma GetUserAuthorization_honest s uid : honest (GetUserAuthorization s uid).
Proof. unfold GetUserAuthorization. honest_run. Qed.
Lemma AssignRolesToUser_honest s uid codes : honest (AssignRolesToUser s uid codes).
Proof. unfold AssignRolesToUser. honest_run. Qed.
Lemma CheckLoginAllowed_honest s a ip : honest (CheckLoginAllowed s a ip).
Proof. unfold CheckLoginAllowed. honest_run. Qed.
Lemma RecordLoginFailure_honest s a ip : honest (RecordLoginFailure s a ip).
Proof. unfold RecordLoginFailure. honest_run. Qed.
Lemma ResetLoginFailures_honest s a : honest (ResetLoginFailures s a).
Proof. unfold ResetLoginFailures. honest_run. Qed.
Lemma StoreRefreshToken_honest s k : honest (StoreRefreshToken s k).
Proof. unfold StoreRefreshToken, requireDB. honest_run. Qed.
Lemma RotateRefreshToken_honest s uid ver j h k : honest (RotateRefreshToken s uid ver j h k).
Proof. unfold RotateRefreshToken, rotateInTx, requireDB. honest_run. Qed.
Lemma RevokeRefreshToken_honest s uid j h : honest (RevokeRefreshToken s uid j h).
Proof. unfold RevokeRefreshToken, revokeInTx, requireDB. honest_run. Qed.
Lemma RevokeAccessToken_honest s j exp : honest (RevokeAccessToken s j exp).
Proof. unfold RevokeAccessToken. honest_run. Qed.
Lemma ValidateAccessToken_honest s claims : honest (ValidateAccessToken s claims).
Proof.
  unfold ValidateAccessToken, requireDB, with_stateStore. honest_run.
Qed.
End services.

#[export] Hint Resolve Register_honest Login_honest GetProfile_honest UpdateNickname_honest
  UpdateUserPassword_honest ListRoles_honest ListPermissions_honest GetUserAuthorization_honest
  AssignRolesToUser_honest CheckLoginAllowed_honest RecordLoginFailure_honest
  ResetLoginFailures_honest StoreRefreshToken_honest RotateRefreshToken_honest
  RevokeRefreshToken_honest RevokeAccessToken_honest ValidateAccessToken_honest : honest.
