(* ===== verification/HttpTheorems.v ===== *)
(** What the HTTP layer guarantees: every request is answered exactly once,
    and what stands behind the middleware runs only for a caller whose
    session stands and who holds the permission of the route. *)
From S2P Require Import Prelude GoTime GoStrings Sha256 GoErrors Model Gorm AuthState World.
From S2P Require Import Dao RefreshRepo RbacRepo TokenManager AuthService UserService RbacService.
From S2P Require Import Web Metrics UserHandler RbacHandler Middleware.
From S2P Require Import TokenTheorems AuthTheorems RbacTheorems ErrorTheorems.

(** * Symbolic execution of handlers *)

Section rules.
Context {G : Gorm} {SS : Store}.

Lemma wp_call {A} (m : M A) (Q : outcome Empty_set (error + A) -> Context * World -> Prop) c w :
  wp m (fun r w' => match r with
                    | Ok a => Q (Ok (inr a)) (c, w')
                    | Err e => Q (Ok (inl e)) (c, w')
                    | Panic => Q Panic (c, w')
                    end) w ->
  wp (call m) Q (c, w).
Proof. unfold wp, call. destruct (m w) as [[a|e|] w']; done. Qed.

(** An answer is a success or an error, and says so twice: by its status and
    by its business code. *)
Definition envelope (x : Z * Response) : Prop :=
  fst x = StatusOK /\ resp_Code (snd x) = CodeSuccess /\ resp_Msg (snd x) = "success" \/
  400 <= fst x < 600 /\ resp_Code (snd x) <> CodeSuccess /\ resp_Data (snd x) = NoData.

Lemma wp_handleError e code msg (Q : outcome Empty_set unit -> Context * World -> Prop) c w :
  honest_error e -> code <> CodeSuccess ->
  (forall x, envelope x -> Q (Ok tt) (add_write x c, w)) -> wp (handleError e code msg) Q (c, w).
Proof.
  unfold honest_error, handleError, wp. intros He Hc HQ.
  destruct (FromError e) as [a|]; simpl; apply HQ; right; simpl.
  - by destruct He as [[? ?] ?].
  - by split.
Qed.

(** A call about which nothing needs to be known but its errors. *)
Lemma wp_call_honest {A} (m : M A) (Q : outcome Empty_set (error + A) -> Context * World -> Prop) c w :
  honest m -> (forall e w', honest_error e -> Q (Ok (inl e)) (c, w')) ->
  (forall a w', Q (Ok (inr a)) (c, w')) -> (forall w', Q Panic (c, w')) -> wp (call m) Q (c, w).
Proof.
  intros Hm He Ha Hp. apply wp_call. wp_use (Hm w). intros [a|e|] w' Hr; auto.
Qed.

(** A call about which nothing needs to be known. *)
Lemma wp_call_any {A} (m : M A) (Q : outcome Empty_set (error + A) -> Context * World -> Prop) c w :
  (forall a w', Q (Ok a) (c, w')) -> (forall w', Q Panic (c, w')) -> wp (call m) Q (c, w).
Proof. intros Hok Hp. apply wp_call, wp_intro. intros [a|e|] w' _; auto. Qed.

Lemma wp_on_context f (Q : outcome Empty_set unit -> Context * World -> Prop) c w :
  Q (Ok tt) (f c, w) -> wp (on_context f) Q (c, w).
Proof. done. Qed.

Lemma wp_request (Q : outcome Empty_set Request -> Context * World -> Prop) c w :
  Q (Ok (cx_Request c)) (c, w) -> wp request Q (c, w).
Proof. done. Qed.

Lemma wp_c_Get k (Q : outcome Empty_set (option value) -> Context * World -> Prop) c w :
  Q (Ok (cx_Keys c !! k)) (c, w) -> wp (c_Get k) Q (c, w).
Proof. done. Qed.
End rules.

(** One step of a handler. *)
Ltac h_step :=
  lazymatch goal with
  | |- wp (call _) _ _ => apply wp_call
  | |- wp (on_context _) _ _ => apply wp_on_context
  | |- wp request _ _ => apply wp_request
  | |- wp (c_Get _) _ _ => apply wp_c_Get
  | |- wp (c_JSON _ _) _ _ => apply wp_on_context
  | |- wp c_Abort _ _ => apply wp_on_context
  | |- wp (c_Set _ _) _ _ => apply wp_on_context
  | |- wp (c_Header _ _) _ _ => apply wp_on_context
  | |- wp (SetCookie _) _ _ => apply wp_on_context
  | |- wp (SetReady _) _ _ => apply wp_on_context
  | |- wp (Success _) _ _ => apply wp_on_context
  | |- wp (Fail _ _ _) _ _ => apply wp_on_context
  | |- _ => wp_step
  end; cbn beta iota.

(** The error a handler answers is one of a service, or made in place. *)
Ltac honest_answer :=
  first [assumption | done | unfold honest_error; simpl; by split; [split|]].

(** Steps through a handler without looking into the services. *)
Ltac h_run :=
  repeat (lazymatch goal with
          | |- wp (call _) _ _ =>
              first [apply wp_call_honest; [solve [eauto with honest typeclass_instances]|..] | apply wp_call_any]; intros
          | |- wp (handleError _ _ _) _ _ => apply wp_handleError; [honest_answer|done|intros ? ?]
          | |- forall _, _ => intros
          | |- _ => h_step
          end; cbn beta iota).

(** * One answer *)

Section answers.
Context {STO : Storage} {G : Gorm} {GL : GormLaws} {SS : Store}.
Context {E : Env} {UT : UnicodeTables} {J : JWT} {B : Bcrypt} {JB : JSONBinding}.
Context {US : UserStore} {AUS : AuthUserStore}.
Context {RR : RefreshTokenRepository} {RB : RBACRepository}.

(** [c'] is [c] with one answer more. *)
Definition answered (c c' : Context) : Prop :=
  exists x, envelope x /\ cx_Writes c' = cx_Writes c ++ [x].

(** [m] answers the request once, or panics without an answer, and does not
    abort the chain. *)
Definition answers (m : H unit) : Prop := forall c w,
  wp m (fun r '(c', _) => cx_Aborted c' = cx_Aborted c /\
          match r with Ok _ => answered c c' | _ => cx_Writes c' = cx_Writes c end) (c, w).

(** [m] either lets the request pass, or answers it once and aborts. *)
Definition guards (m : H unit) : Prop := forall c w,
  wp m (fun r '(c', _) =>
          match r with
          | Ok _ => cx_Aborted c' = cx_Aborted c /\ cx_Writes c' = cx_Writes c \/
                    cx_Aborted c' = true /\ answered c c'
          | _ => cx_Writes c' = cx_Writes c
          end) (c, w).

Lemma answered_by x c c' : envelope x -> cx_Writes c' = cx_Writes c ++ [x] -> answered c c'.
Proof. by exists x. Qed.

Lemma success_envelope d : envelope (StatusOK, mkResponse 0 "success" d).
Proof. by left. Qed.

Lemma failure_envelope st code msg :
  400 <= st < 600 -> code <> CodeSuccess -> envelope (st, mkResponse code msg NoData).
Proof. intros. by right. Qed.

Ltac envelope_tac :=
  first [assumption | apply success_envelope
        | apply failure_envelope; [first [done | split; done]|done]].

Ltac answered_tac := eapply answered_by; [|reflexivity]; envelope_tac.

Ltac answer_once :=
  intros; h_run; simpl;
  first [ done | split; [done|first [done | answered_tac]]
        | left; done | right; split; [done|answered_tac]].

Lemma Success_answers d : answers (Success d).
Proof. intros c w. answer_once. Qed.

Lemma RegisterHandler_answers h : answers (RegisterHandler h).
Proof. intros c w. unfold RegisterHandler, badRequest. answer_once. Qed.

Lemma LoginHandler_answers h : answers (LoginHandler h).
Proof.
  intros c w. unfold LoginHandler, issueLoginTokens, refuseLogin, respondLoginRateLimited,
    setRefreshTokenCookie, badRequest.
  answer_once.
Qed.

Lemma RefreshTokenHandler_answers h : answers (RefreshTokenHandler h).
Proof.
  intros c w. unfold RefreshTokenHandler, clearRefreshTokenCookie, setRefreshTokenCookie,
    handleRefreshTokenParseError, badRequest. answer_once.
Qed.

Lemma LogoutHandler_answers h : answers (LogoutHandler h).
Proof.
  intros c w. unfold LogoutHandler, optionalAccessToken, logoutRefreshToken,
    clearRefreshTokenCookie, handleRefreshTokenParseError, badRequest. answer_once.
Qed.

Lemma MeHandler_answers h : answers (MeHandler h).
Proof. intros c w. unfold MeHandler, callerID. answer_once. Qed.

Lemma UpdateProfileHandler_answers h : answers (UpdateProfileHandler h).
Proof. intros c w. unfold UpdateProfileHandler, callerID, badRequest. answer_once. Qed.

Lemma UpdateUserPasswordHandler_answers h : answers (UpdateUserPasswordHandler h).
Proof.
  intros c w. unfold UpdateUserPasswordHandler, callerID, clearRefreshTokenCookie,
    badRequest. answer_once.
Qed.

Lemma ListRolesHandler_answers h : answers (ListRolesHandler h).
Proof. intros c w. unfold ListRolesHandler. answer_once. Qed.

Lemma ListPermissionsHandler_answers h : answers (ListPermissionsHandler h).
Proof. intros c w. unfold ListPermissionsHandler. answer_once. Qed.

Lemma GetMyAuthorizationHandler_answers h : answers (GetMyAuthorizationHandler h).
Proof. intros c w. unfold GetMyAuthorizationHandler, authenticatedUser. answer_once. Qed.

Lemma AssignUserRolesHandler_answers h : answers (AssignUserRolesHandler h).
Proof. intros c w. unfold AssignUserRolesHandler. answer_once. Qed.

(** The checkers are pinged without touching the context. *)
Lemma pingCheckers_quiet checkers c w :
  wp (pingCheckers checkers) (fun r '(c', _) => c' = c) (c, w).
Proof.
  revert w. induction checkers as [|[checker|] rest IH]; intros w; simpl; [done| |apply IH].
  h_run; [done|apply IH|done].
Qed.

Lemma ReadyzHandler_answers h : answers (ReadyzHandler h).
Proof.
  intros c w. unfold ReadyzHandler, failReadiness, recordReadiness.
  destruct (hh_db h) as [db|]; [|answer_once].
  h_step; [answer_once|].
  h_step. apply wp_call_any; [|done]. intros [e|[]] w1; [answer_once|].
  h_step. apply wp_call_any; [|done]. intros [e|[]] w2; [answer_once|].
  h_step. wp_use (pingCheckers_quiet (hh_checkers h) c w2).
  intros [all|e|] [c' w3] ->; [|done..]. answer_once.
Qed.

(** ** Readiness *)

(** The checks of [ReadyzHandler], when the database is set up. *)
Definition readiness_checks (h : HealthHandler) : option (list (M unit)) :=
  match hh_db h with
  | Some db => if hd_Config db then Some (hd_DB db :: hd_Ping db :: omap id (hh_checkers h)) else None
  | None => None
  end.

(** Run in order, each succeeds. *)
Fixpoint all_answer (checks : list (M unit)) (w : World) : bool :=
  match checks with
  | [] => true
  | check :: rest => match check w with (Ok _, w') => all_answer rest w' | _ => false end
  end.

Definition dependencies_answer (h : HealthHandler) (w : World) : bool :=
  match readiness_checks h with Some checks => all_answer checks w | None => false end.

(** The context after the readiness [ready] was recorded and answered. *)
Definition readiness_answer (ready : bool) (c c' : Context) : Prop :=
  cx_Ready c' = cx_Ready c ++ [ready] /\
  exists x, cx_Writes c' = cx_Writes c ++ [x] /\
    fst x = (if ready then StatusOK else StatusServiceUnavailable) /\
    resp_Data (snd x) = (if ready then DataFields [("status", "ready")] else NoData).

Lemma pingCheckers_answer checkers c w :
  wp (pingCheckers checkers) (fun r '(c', _) => c' = c /\
    match r with Ok b => b = all_answer (omap id checkers) w | _ => True end) (c, w).
Proof.
  revert w. induction checkers as [|[checker|] rest IH]; intros w; simpl; [done| |apply IH].
  h_step. h_step. apply wp_intro. intros r w1 Hrun.
  change (all_answer (omap id (Some checker :: rest)) w)
    with (match checker w with (Ok _, w') => all_answer (omap id rest) w' | _ => false end).
  rewrite Hrun. destruct r as [[]|e|]; [apply IH|by apply wp_ret|done].
Qed.

Lemma ReadyzHandler_spec h c w :
  hh_recorder h = true ->
  wp (ReadyzHandler h) (fun r '(c', w') =>
    match r with
    | Ok _ => cx_Aborted c' = cx_Aborted c /\ readiness_answer (dependencies_answer h w) c c'
    | _ => r = Panic
    end) (c, w).
Proof.
  intros Hrec. unfold ReadyzHandler, failReadiness, recordReadiness, dependencies_answer, readiness_checks.
  rewrite Hrec.
  destruct (hh_db h) as [db|]; [|h_run; split; [done|]; split; [done|]; by eexists].
  destruct (hd_Config db); cbn [negb]; cbn iota; [|h_run; split; [done|]; split; [done|]; by eexists].
  cbn [all_answer].
  h_step. h_step. apply wp_intro. intros r1 w1 Hdb. rewrite Hdb. destruct r1 as [[]|e|];
    [|h_run; split; [done|]; split; [done|]; by eexists|done].
  h_step. h_step. apply wp_intro. intros r2 w2 Hping. rewrite Hping. destruct r2 as [[]|e|];
    [|h_run; split; [done|]; split; [done|]; by eexists|done].
  h_step. wp_use (pingCheckers_answer (hh_checkers h) c w2).
  intros [all|[]|] [c' w3] [-> Hall]; [|done]. subst all.
  destruct (all_answer _ _); h_run; split; try done; split; try done; by eexists.
Qed.

Lemma PingHandler_answers : answers PingHandler.
Proof. apply Success_answers. Qed.
Lemma LivezHandler_answers : answers LivezHandler.
Proof. apply Success_answers. Qed.
Lemma VersionHandler_answers h : answers (VersionHandler h).
Proof. apply Success_answers. Qed.

(** A refusal of a middleware. *)
Lemma abortWith_guards st code msg :
  400 <= st < 600 -> code <> CodeSuccess -> guards (abortWith st code msg).
Proof.
  intros Hst Hc c w. unfold abortWith. h_step. h_step. h_step. right. split; [done|].
  eapply answered_by; [|reflexivity]. by apply failure_envelope.
Qed.

Lemma accessTokenError_code e : fst (accessTokenError e) <> CodeSuccess.
Proof. unfold accessTokenError. by repeat case_match. Qed.

Lemma AuthMiddleware_guards m vs : guards (AuthMiddleware m vs).
Proof.
  intros c w. unfold AuthMiddleware. h_step. h_step. do 3 (h_step; [by apply abortWith_guards|]).
  h_step. apply wp_call_any; [|by intros]. intros [e|claims] w1.
  { pose proof (accessTokenError_code e) as He. destruct (accessTokenError e) as [code msg].
    by apply abortWith_guards. }
  assert (forall w2, wp (
      do! c_Set "user_id" (VInt64 (c_UserID claims)) in
      do! c_Set "username" (VString (c_Username claims)) in
      do! c_Set "access_token" (VString (TrimSpace (TrimPrefix
            (rq_Header (cx_Request c) "Authorization") "Bearer "))) in
      c_Set "access_jti" (VString (c_JTI claims)))
      (fun r '(c', _) =>
          match r with
          | Ok _ => cx_Aborted c' = cx_Aborted c /\ cx_Writes c' = cx_Writes c \/
                    cx_Aborted c' = true /\ answered c c'
          | _ => cx_Writes c' = cx_Writes c
          end) (c, w2)) as Hpass by (intros w2; answer_once).
  h_step. destruct (head vs) as [s|]; [|h_step; apply Hpass].
  apply wp_call_honest; [apply ValidateAccessToken_honest|intros e w2 He|intros [] w2; apply Hpass|done].
  unfold honest_error in He. destruct (FromError e) as [a|]; [|by apply abortWith_guards].
  destruct He as [Hst Hc]. h_step; by apply abortWith_guards.
Qed.

Lemma RequirePermission_guards checker p : guards (RequirePermission checker p).
Proof. intros c w. unfold RequirePermission, authenticatedUser, abortWith. answer_once. Qed.

(** ** Chains *)

(** A chain of guards that ends in a handler. *)
Inductive well_formed : list (H unit) -> Prop :=
| wf_handler m : answers m -> well_formed [m]
| wf_guard m rest : guards m -> well_formed rest -> well_formed (m :: rest).

Lemma chain_answers ms c w :
  well_formed ms -> cx_Aborted c = false ->
  wp (chain_of ms) (fun r '(c', _) =>
        match r with Ok _ => answered c c' | _ => cx_Writes c' = cx_Writes c end) (c, w).
Proof.
  intros Hwf. revert c w. induction Hwf as [m Hm|m rest Hm _ IH]; intros c w Ha; simpl.
  - wp_step. wp_use (Hm c w). intros [[]|e|] [c' w'] [Hab Hw]; [|done..].
    do 2 wp_step. by wp_step.
  - wp_step. wp_use (Hm c w). intros [[]|e|] [c' w'] Hw; [|done..].
    destruct Hw as [[Hab Hw]|[Hab Hw]].
    + wp_step. wp_step. rewrite Hab, Ha. wp_use (IH c' w' ltac:(congruence)).
      intros r [c2 w2]. unfold answered. by rewrite Hw.
    + wp_step. wp_step. rewrite Hab. by apply wp_ret.
Qed.

Lemma Recovery_answers ms c w :
  well_formed ms -> cx_Aborted c = false -> cx_Writes c = [] ->
  exists x c' w', Recovery (chain_of ms) (c, w) = (Ok tt, (c', w')) /\ cx_Writes c' = [x] /\ envelope x.
Proof.
  intros Hwf Ha Hw. pose proof (chain_answers ms c w Hwf Ha) as Hc. unfold wp in Hc.
  unfold Recovery. destruct (chain_of ms (c, w)) as [[[]|[]|] [c' w']].
  - destruct Hc as (x & He & Hx). exists x, c', w'. by rewrite Hx, Hw.
  - rewrite Hc, Hw. simpl. do 3 eexists. split; [reflexivity|]. simpl. rewrite Hc, Hw.
    split; [done|envelope_tac].
Qed.

Lemma routes_well_formed hs registration route :
  In route (routes hs registration) -> well_formed (ro_Handlers route).
Proof.
  intros Hin.
  assert (forall p m, answers m -> well_formed [authenticate hs; require hs p; m]) as Hp.
  { intros p m Hm. apply wf_guard; [apply AuthMiddleware_guards|].
    apply wf_guard; [apply RequirePermission_guards|]. by constructor. }
  apply in_app_or in Hin as [Hin|Hin].
  { simpl in Hin. destruct Hin as [<-|[<-|[<-|[<-|[]]]]]; constructor; simpl.
    - apply PingHandler_answers.
    - apply LivezHandler_answers.
    - apply ReadyzHandler_answers.
    - apply VersionHandler_answers. }
  unfold registerAPIRoutes, registerAuthRoutes in Hin. rewrite !in_app_iff in Hin.
  destruct Hin as [[Hin|Hin]|[Hin|Hin]].
  - destruct registration; [|done]. destruct Hin as [<-|[]]. constructor. apply RegisterHandler_answers.
  - simpl in Hin. destruct Hin as [<-|[<-|[<-|[]]]]; constructor.
    + apply LoginHandler_answers.
    + apply RefreshTokenHandler_answers.
    + apply LogoutHandler_answers.
  - simpl in Hin. destruct Hin as [<-|[<-|[<-|[<-|[]]]]]; try apply Hp.
    + apply MeHandler_answers.
    + apply wf_guard; [apply AuthMiddleware_guards|]. constructor. apply GetMyAuthorizationHandler_answers.
    + apply UpdateProfileHandler_answers.
    + apply UpdateUserPasswordHandler_answers.
  - simpl in Hin. destruct Hin as [<-|[<-|[<-|[]]]]; apply Hp.
    + apply ListRolesHandler_answers.
    + apply ListPermissionsHandler_answers.
    + apply AssignUserRolesHandler_answers.
Qed.
End answers.

(** * Who is let through *)

Section access.
Context {STO : Storage} {G : Gorm} {GL : GormLaws} {SS : Store} {SL : StoreLaws}.
Context {E : Env} {UT : UnicodeTables} {J : JWT} {JL : JWTLaws}.
Context {B : Bcrypt} {JB : JSONBinding}.
Context {US : UserStore} {AUS : AuthUserStore} {AUL : AuthUserStoreLaws}.
Context {RR : RefreshTokenRepository} {RB : RBACRepository} {RBL : RBACRepositoryLaws}.

(** The token of an [Authorization: Bearer] header. *)
Definition bearer (rq : Request) : option string :=
  let header := rq_Header rq "Authorization" in
  let token := TrimSpace (TrimPrefix header "Bearer ") in
  if negb (String.eqb (TrimSpace header) "") && HasPrefix header "Bearer " && negb (String.eqb token "")
  then Some token else None.

(** The request carries an access token that parses to [claims], and the
    session of the claims stands, at a reading of the clock that is no earlier
    than the request. *)
Definition authenticated (m : TokenManager) (w : World) (rq : Request) (claims : UserClaims) : Prop :=
  exists tok w0, bearer rq = Some tok /\ same_tables w w0 /\ w_store w0 = w_store w /\
    (w_tick w <= w_tick w0)%nat /\ ParseAccessToken m tok w0 = (Ok claims, tick w0) /\
    session_stands (tick w0) (clock (w_tick (tick w0))) claims.

Lemma authenticated_session m w rq claims :
  authenticated m w rq claims -> session_user w (c_UserID claims) (c_AuthVersion claims).
Proof.
  intros (tok & w0 & _ & Ht & _ & _ & _ & _ & Hs & _).
  exact (session_user_mono w (tick w0) _ _ Ht Hs).
Qed.

Definition permitted (w : World) (uid : Z) (code : string) : Prop :=
  exists p, holds_permission (rows (w_db w)) uid p /\ coll_eqb (p_Code p) code = true.

(** The request was answered with the refusal [status]. *)
Definition refused (status : list Z) (c c' : Context) : Prop :=
  exists st code msg, In st status /\ cx_Writes c' = cx_Writes c ++ [(st, mkResponse code msg NoData)].

Lemma same_tables_permitted w w' uid code : same_tables w w' -> permitted w' uid code -> permitted w uid code.
Proof.
  intros Ht (p & Hp & Hc). exists p. split; [|done]. by eapply holds_permission_same.
Qed.

Definition auth_passed (m : TokenManager) (c : Context) (w : World) (c' : Context) : Prop :=
  exists claims, authenticated m w (cx_Request c) claims /\
    cx_Keys c' !! "user_id" = Some (VInt64 (c_UserID claims)) /\
    cx_Request c' = cx_Request c /\ cx_Writes c' = cx_Writes c /\ cx_Aborted c' = cx_Aborted c.

Definition auth_post (m : TokenManager) (c : Context) (w : World)
    (r : outcome Empty_set unit) '((c', w') : Context * World) : Prop :=
  same_tables w w' /\
  match r with
  | Ok _ => cx_Aborted c' = true /\ refused [401; 503] c c' \/ auth_passed m c w c'
  | _ => False
  end.

Lemma AuthMiddleware_spec m s c w :
  has_store s -> keys_ok TUsers (tbl TUsers w) ->
  wp (AuthMiddleware m [s]) (auth_post m c w) (c, w).
Proof.
  intros Hs Hk. unfold AuthMiddleware.
  assert (forall st code msg w', same_tables w w' -> In st [401; 503] ->
            wp (abortWith st code msg) (auth_post m c w) (c, w')) as Hrefuse.
  { intros st code msg w' Ht Hst. unfold abortWith. h_step. h_step. h_step. split; [done|]. left.
    split; [done|]. exists st, code, msg. done. }
  h_step. h_step.
  h_step; [apply Hrefuse; [done|by left]|].
  h_step; [apply Hrefuse; [done|by left]|].
  h_step; [apply Hrefuse; [done|by left]|].
  assert (bearer (cx_Request c)
          = Some (TrimSpace (TrimPrefix (rq_Header (cx_Request c) "Authorization") "Bearer "))) as Hb.
  { unfold bearer. apply negb_false_iff in Heqb0. by rewrite Heqb, Heqb0, Heqb1. }
  set (tok := TrimSpace (TrimPrefix _ _)) in *. h_step. h_step. apply wp_intro. intros r1 w1 Hrun.
  pose proof (wp_run _ _ _ _ _ (ParseAccessToken_spec m tok w) Hrun) as [-> Hp].
  destruct r1 as [claims|e|]; [| |done].
  2:{ destruct (accessTokenError e) as [code msg]. apply Hrefuse; [done|by left]. }
  cbn [head]. h_step. h_step.
  wp_use (ValidateAccessToken_spec s (Some claims) (tick w) Hs Hk).
  intros [[]|e|] w2 [Ht Hv]; [| |done].
  - h_step. h_step. h_step. h_step. h_step. h_step. h_step. split; [done|]. right.
    destruct Hv as (c0 & [= <-] & Hstands). exists claims.
    split; [by exists tok, w|]. split; [|done].
    unfold set_key. cbn [cx_Keys]. rewrite 3!lookup_insert_ne by done. by rewrite lookup_insert_eq.
  - destruct (FromError e) as [a|]; [|apply Hrefuse; [done|by left]].
    h_step; [|apply Hrefuse; [done|by left]]. bool_to_prop.
    apply Hrefuse; [done|]. right. by left.
Qed.

Definition permission_post (c : Context) (w : World) (uid : Z) (code : string)
    (r : outcome Empty_set unit) '((c', w') : Context * World) : Prop :=
  same_tables w w' /\
  match r with
  | Ok _ => cx_Aborted c' = true /\ refused [401; 403; 500] c c' \/
            c' = c /\ permitted w uid code
  | _ => False
  end.

Lemma RequirePermission_spec s code c w uid :
  cx_Keys c !! "user_id" = Some (VInt64 uid) ->
  wp (RequirePermission (Some s) code) (permission_post c w uid code) (c, w).
Proof.
  intros Hkey. unfold RequirePermission, authenticatedUser.
  assert (forall st code0 msg w', same_tables w w' -> In st [401; 403; 500] ->
            wp (abortWith st code0 msg) (permission_post c w uid code) (c, w')) as Hrefuse.
  { intros st code0 msg w' Ht Hst. unfold abortWith. h_step. h_step. h_step. split; [done|]. left.
    split; [done|]. by exists st, code0, msg. }
  h_step; [apply Hrefuse; [done|simpl; tauto]|].
  h_step. h_step. h_step. rewrite Hkey. h_step.
  { h_step. h_step. h_step. h_step. split; [done|]. left. split; [done|].
    do 3 eexists. split; [|reflexivity]. by left. }
  h_step. h_step. h_step. wp_use (HasPermission_spec s uid code w).
  intros [[|]|e|] w' [Ht Hr]; [..|done].
  - h_step. split; [done|]. right. split; [done|]. by apply Hr.
  - apply Hrefuse; [done|simpl; tauto].
  - apply Hrefuse; [done|simpl; tauto].
Qed.

(** The caller of the request may use a route that needs [needs]. *)
Definition allowed (m : TokenManager) (needs : option string) (rq : Request) (w : World) : Prop :=
  exists claims, authenticated m w rq claims /\
    match needs with Some code => permitted w (c_UserID claims) code | None => True end.

(** The middleware in front of a protected handler. *)
Definition guarded (hs : Handlers) (needs : option string) (h : H unit) : list (H unit) :=
  authenticate hs :: match needs with Some p => [require hs p; h] | None => [h] end.

Lemma chain_last h x : chain_of [h] x = h x.
Proof.
  cbn [chain_of]. unfold bind, gets. destruct (h x) as [[[]|[]|] [c w]]; [|done]. cbn. by destruct (cx_Aborted c).
Qed.

Lemma refused_mono l l' c c' : incl l l' -> refused l c c' -> refused l' c c'.
Proof. intros Hi (st & code & msg & Hst & Hw). exists st, code, msg. auto. Qed.

(** A request that passed the middleware as that of the caller in [claims]:
    it reached the handler in [c1] and [w1]. *)
Definition passed (m : TokenManager) (needs : option string) (c : Context) (w : World)
    (claims : UserClaims) (c1 : Context) (w1 : World) : Prop :=
  authenticated m w (cx_Request c) claims /\
  match needs with Some code => permitted w (c_UserID claims) code | None => True end /\
  same_tables w w1 /\ cx_Keys c1 !! "user_id" = Some (VInt64 (c_UserID claims)) /\
  cx_Request c1 = cx_Request c /\ cx_Writes c1 = cx_Writes c.

(** The statuses with which the middleware refuses a request. *)
Definition refusals (needs : option string) : list Z :=
  match needs with Some _ => [401; 403; 500; 503] | None => [401; 503] end.

Lemma protected_chain hs needs h c w :
  has_store (hs_authService hs) -> keys_ok TUsers (tbl TUsers w) -> cx_Aborted c = false ->
  wp (chain_of (guarded hs needs h)) (fun r '(c', w') =>
      r = Ok tt /\ same_tables w w' /\ refused (refusals needs) c c' \/
      exists claims c1 w1, passed (hs_tokenManager hs) needs c w claims c1 w1 /\
                           h (c1, w1) = (r, (c', w'))) (c, w).
Proof.
  intros Hs Hk Ha. cbn [chain_of guarded]. unfold authenticate. wp_step.
  wp_use (AuthMiddleware_spec (hs_tokenManager hs) (hs_authService hs) c w Hs Hk).
  intros [[]|[]|] [c1 w1] [Ht1 Hr1]; [|done]. wp_step. wp_step.
  destruct Hr1 as [[Hab Href]|(claims & Hauth & Hkey & Hrq & Hwr & Hab)].
  { rewrite Hab. apply wp_ret. left. split; [done|]. split; [done|].
    eapply refused_mono; [|exact Href]. intros x [<-|[<-|[]]]; destruct needs; simpl; tauto. }
  rewrite Hab, Ha. destruct needs as [code|]; cbn [chain_of].
  2:{ apply (wp_intro (chain_of [h])). intros r [c' w'] Hrun. rewrite chain_last in Hrun. right. by exists claims, c1, w1. }
  unfold require. wp_step. wp_use (RequirePermission_spec (hs_rbacService hs) code c1 w1 _ Hkey).
  intros [[]|[]|] [c2 w2] [Ht2 Hr2]; [|done]. wp_step. wp_step.
  destruct Hr2 as [[Hab2 Href]|[-> Hperm]].
  { rewrite Hab2. apply wp_ret. left. split; [done|]. split; [by transitivity w1|].
    destruct Href as (st & co & msg & Hst & Hw). exists st, co, msg. rewrite Hw, Hwr. split; [|done].
    destruct Hst as [<-|[<-|[<-|[]]]]; simpl; tauto. }
  rewrite Hab, Ha. apply (wp_intro (chain_of [h])). intros r [c' w'] Hrun. rewrite chain_last in Hrun.
  right. exists claims, c1, w2.
  split; [|done]. split; [done|]. split; [by eapply same_tables_permitted|].
  split; [by transitivity w1|done].
Qed.

(** The identifier of a request: its header, or a new one. *)
Definition request_id (rq : Request) (w : World) : string :=
  if String.eqb (rq_Header rq RequestIDHeader) "" then uuid_at (w_seed w)
  else rq_Header rq RequestIDHeader.

(** Giving the request its identifier changes nothing else. *)
Lemma RequestID_run c w : exists id w',
  RequestID (c, w)
  = (Ok tt, (add_header (RequestIDHeader, id) (set_key RequestIDKey (VString id) c), w')) /\
  w_db w' = w_db w /\ w_store w' = w_store w /\ w_tick w' = w_tick w /\
  ((forall n, uuid_at n <> "") -> id = request_id (cx_Request c) w).
Proof.
  unfold request_id, RequestID, lift, ensureRequestID, request, bind, gets, call, NewUUID, Rand, ret.
  cbv beta iota zeta. destruct (String.eqb_spec (rq_Header (cx_Request c) RequestIDHeader) "") as [Hr|Hr].
  - cbn -[clock uuid_at]. destruct (String.eqb_spec (uuid_at (w_seed w)) "") as [Hu|Hu];
      (do 2 eexists; split; [reflexivity|]); (do 3 (split; [done|])); intros Hne; [|done].
    by destruct (Hne (w_seed w)).
  - rewrite (proj2 (String.eqb_neq _ _) Hr). do 2 eexists. split; [reflexivity|]. done.
Qed.

(** The line the access log gets for a request in [c0] that ended in [c]. *)
Definition log_line (fullPath : string) (start now : Z) (c0 c : Context) : LogEntry :=
  mkLogEntry (access_level (cx_Status c)) (GetRequestID c0) (rq_Method (cx_Request c0))
    (rq_Path (cx_Request c0)) fullPath (cx_Status c) (time_sub now start) (rq_ClientIP (cx_Request c0)).

Lemma AccessLog_run p next c w c' w' :
  next (c, tick w) = (Ok tt, (c', w')) ->
  AccessLog p next (c, w)
  = (Ok tt, (add_log (log_line p (clock (w_tick w)) (clock (w_tick w')) c c') c', tick w')).
Proof.
  intros Hn. unfold AccessLog, lift, call, Now, request, gets, bind. cbv beta iota zeta.
  rewrite Hn. reflexivity.
Qed.

(** What the middleware in front of the handlers makes of a new request. *)
Definition routed (p : string) (c : Context) : Context :=
  match cx_Route c with
  | Some _ => set_route (if String.eqb p "" then unmatchedRoute else p) c
  | None => c
  end.

Lemma RouteMiddleware_run p c w : RouteMiddleware p (c, w) = (Ok tt, (routed p c, w)).
Proof. unfold RouteMiddleware, routed. by destruct (cx_Route c). Qed.

Definition started (p id : string) (rq : Request) : Context :=
  routed p (add_header (RequestIDHeader, id) (set_key RequestIDKey (VString id) (new_context rq))).

Lemma started_fresh p id rq :
  cx_Aborted (started p id rq) = false /\ cx_Request (started p id rq) = rq /\
  cx_Writes (started p id rq) = [].
Proof. unfold started, routed. by destruct (cx_Route _). Qed.

(** The handlers of a route, with a panic caught, after the middleware. *)
Lemma serve_run route rq w : exists id w1,
  w_db w1 = w_db w /\ w_store w1 = w_store w /\ w_tick w1 = w_tick w /\
  ((forall n, uuid_at n <> "") -> id = request_id rq w) /\
  forall c' w',
    Recovery (chain_of (ro_Handlers route)) (started (ro_Path route) id rq, tick w1) = (Ok tt, (c', w')) ->
    serve route (new_context rq, w)
    = (Ok tt, (add_log (log_line (ro_Path route) (clock (w_tick w1)) (clock (w_tick w'))
                          (started (ro_Path route) id rq) c') c', tick w')).
Proof.
  destruct (RequestID_run (new_context rq) w) as (id & w1 & Hid & Hdb & Hst & Htk & Huu).
  exists id, w1. do 4 (split; [done|]). intros c' w' Hrec. unfold serve, bind at 1. rewrite Hid.
  unfold bind at 1. rewrite RouteMiddleware_run. by apply AccessLog_run.
Qed.

(** A panic behind [Recovery] does not come out. *)
Lemma Recovery_ok m (x : Context * World) : exists c' w', Recovery m x = (Ok tt, (c', w')) /\
  match m x with
  | (Panic, (c1, w1)) => w' = w1 /\ (cx_Writes c1 <> [] -> cx_Writes c' = cx_Writes c1) /\
      (cx_Writes c1 = [] ->
       cx_Writes c' = [(StatusInternalServerError, mkResponse CodeInternalError "server error" NoData)])
  | (_, (c1, w1)) => (c', w') = (c1, w1)
  end.
Proof.
  unfold Recovery. destruct (m x) as [[[]|[]|] [c1 w1]]; [by do 2 eexists|].
  case_bool_decide as Hw; (do 2 eexists; split; [reflexivity|]; split; [done|]); [|done].
  split; [done|]. intros _. simpl. by rewrite Hw.
Qed.

Lemma authenticated_later m w w1 rq claims :
  same_tables w w1 -> w_store w1 = w_store w -> (w_tick w <= w_tick w1)%nat ->
  authenticated m w1 rq claims -> authenticated m w rq claims.
Proof.
  intros Ht Hsto Htk (tok & w0 & Hb & Ht0 & Hsto0 & Htk0 & Hrest). exists tok, w0. split; [done|].
  split; [by transitivity w1|]. split; [congruence|]. split; [lia|done].
Qed.

(** A request to a protected route is refused, or it is the caller's, and then
    what it does is what the handler does: the answer is that of the handler,
    or, when the handler panics before it gave one, that of [Recovery]. *)
Lemma protected_serve_runs hs needs meth path h rq w r c' w' :
  has_store (hs_authService hs) -> keys_ok TUsers (tbl TUsers w) ->
  serve (mkRoute meth path (guarded hs needs h)) (new_context rq, w) = (r, (c', w')) ->
  same_tables w w' /\ refused (refusals needs) (new_context rq) c' \/
  exists claims c1 w1 r0 c0 w0,
    passed (hs_tokenManager hs) needs (new_context rq) w claims c1 w1 /\
    h (c1, w1) = (r0, (c0, w0)) /\ same_tables w0 w' /\
    (cx_Writes c' = cx_Writes c0 \/ r0 = Panic /\ refused [500] (new_context rq) c').
Proof.
  intros Hs Hk Hrun.
  destruct (serve_run (mkRoute meth path (guarded hs needs h)) rq w)
    as (id & w1 & Hdb & Hst & Htk & _ & Hserve).
  cbn [ro_Handlers ro_Path] in Hserve. set (c1 := started path id rq) in *.
  assert (same_tables w (tick w1)) as Ht by (intros t; unfold tbl; simpl; by rewrite Hdb).
  destruct (started_fresh path id rq) as (Hab & Hrq & Hwr). fold c1 in Hab, Hrq, Hwr.
  pose proof (protected_chain hs needs h c1 (tick w1) Hs ltac:(by rewrite <- (Ht TUsers)) Hab) as Hc.
  destruct (Recovery_ok (chain_of (guarded hs needs h)) (c1, tick w1)) as (c2 & w2 & Hrec & Hres).
  rewrite (Hserve _ _ Hrec) in Hrun. injection Hrun as <- <- <-.
  unfold wp in Hc. destruct (chain_of _ _) as [r0 [c0 w0]].
  destruct Hc as [(-> & Ht0 & st & code & msg & Hin & Hw)|(claims & c3 & w3 & Hp & Hh)].
  - left. injection Hres as -> ->. split; [by transitivity (tick w1)|].
    exists st, code, msg. split; [done|]. cbn [add_log cx_Writes]. by rewrite Hw, Hwr.
  - right. exists claims, c3, w3, r0, c0, w0.
    destruct Hp as (Ha & Hneeds & Ht3 & Hkey & Hrq3 & Hwr3). rewrite Hrq in Ha. split.
    { split; [apply (authenticated_later _ _ (tick w1)); [done|done|simpl; lia|done]|].
      split; [destruct needs; [by eapply same_tables_permitted|done]|].
      split; [by transitivity (tick w1)|]. split; [done|]. by rewrite Hrq3, Hrq, Hwr3, Hwr. }
    split; [done|]. cbn [add_log cx_Writes]. destruct r0 as [[]|[]|].
    + injection Hres as -> ->. split; [done|by left].
    + destruct Hres as (-> & Hsome & Hnone). split; [done|].
      destruct (decide (cx_Writes c0 = [])) as [He|He]; [right|left; auto].
      split; [done|]. exists StatusInternalServerError, CodeInternalError, "server error".
      split; [by left|]. simpl. by apply Hnone.
Qed.

Lemma protected_serve hs needs meth path h rq w r c' w' :
  has_store (hs_authService hs) -> keys_ok TUsers (tbl TUsers w) ->
  serve (mkRoute meth path (guarded hs needs h)) (new_context rq, w) = (r, (c', w')) ->
  same_tables w w' /\ refused [401; 403; 500; 503] (new_context rq) c' \/
  allowed (hs_tokenManager hs) needs rq w.
Proof.
  intros Hs Hk Hrun. destruct (protected_serve_runs _ _ _ _ _ _ _ _ _ _ Hs Hk Hrun)
    as [[Ht Href]|(claims & c1 & w1 & r0 & c0 & w0 & Hp & _)].
  { left. split; [done|]. eapply refused_mono; [|exact Href].
    intros x Hx. destruct needs; simpl in *; tauto. }
  right. exists claims. destruct Hp as (Ha & Hneeds & _). by split.
Qed.
End access.
