(* ===== verification/ServerTheorems.v ===== *)
(** What the handler that [SetupRouter] returns does with a request: the
    frame of the handlers behind the middleware, the status that is recorded
    and the one that is sent, and the runs of the engine, the timeout and the
    metrics. *)
From S2P Require Import Prelude GoTime GoStrings GoErrors Model Gorm AuthState World.
From S2P Require Import Dao RefreshRepo RbacRepo TokenManager AuthService UserService RbacService.
From S2P Require Import Web Metrics UserHandler RbacHandler Middleware Server HttpTheorems.

(** * The frame of a handler *)

(** What no handler behind the middleware changes: the request, the route, the
    log, the identifier of the request and the header that carries it. *)
Record kept (c c' : Context) : Prop := {
  kp_request : cx_Request c' = cx_Request c;
  kp_route : cx_Route c' = cx_Route c;
  kp_log : cx_Log c' = cx_Log c;
  kp_headers : exists l, cx_Headers c' = cx_Headers c ++ l /\ Forall (fun kv => kv.1 <> RequestIDHeader) l;
}.

#[export] Instance kept_preorder : PreOrder kept.
Proof.
  split.
  - intros c. split; [done..|]. exists []. by rewrite app_nil_r.
  - intros a b c [? ? ? (l1 & Hl1 & Hf1)] [? ? ? (l2 & Hl2 & Hf2)]. split; [congruence..|].
    exists (l1 ++ l2). rewrite Hl2, Hl1, <- app_assoc. split; [done|]. by apply Forall_app.
Qed.

Section keeps.
Context {G : Gorm} {SS : Store}.

Definition keeps {A} (m : H A) : Prop := forall c w, wp m (fun _ '(c', _) => kept c c') (c, w).

Lemma keeps_ret {A} (a : A) : keeps (ret a).
Proof. intros c w. apply wp_ret. reflexivity. Qed.
Lemma keeps_panic {A} : keeps (panic : H A).
Proof. intros c w. apply wp_panic. reflexivity. Qed.
Lemma keeps_gets {A} (f : Context * World -> A) : keeps (gets f).
Proof. intros c w. apply wp_gets. reflexivity. Qed.

Lemma keeps_on_context f : (forall c, kept c (f c)) -> keeps (on_context f).
Proof. intros Hf c w. apply Hf. Qed.

Lemma kept_simple f :
  (forall c, cx_Request (f c) = cx_Request c /\ cx_Route (f c) = cx_Route c /\
             cx_Log (f c) = cx_Log c /\ cx_Headers (f c) = cx_Headers c) ->
  keeps (on_context f).
Proof.
  intros Hf. apply keeps_on_context. intros c. destruct (Hf c) as (? & ? & ? & ?).
  split; [done..|]. exists []. by rewrite app_nil_r.
Qed.

Lemma keeps_header k v : k <> RequestIDHeader -> keeps (c_Header k v).
Proof.
  intros Hk. apply keeps_on_context. intros c. split; [done..|]. exists [(k, v)].
  split; [done|]. by constructor.
Qed.

Lemma keeps_bind {A C} (m : H A) (k : A -> H C) : keeps m -> (forall a, keeps (k a)) -> keeps (bind m k).
Proof.
  intros Hm Hk c w. apply wp_bind. wp_use (Hm c w). intros [a|[]|] [c1 w1] H1; [|done].
  wp_use (Hk a c1 w1). intros r [c2 w2] H2. by transitivity c1.
Qed.

(** No service sees the context. *)
Lemma keeps_call {A} (m : M A) : keeps (call m).
Proof. intros c w. apply wp_call, wp_intro. intros [a|e|] w' _; reflexivity. Qed.
End keeps.

Create HintDb keeps discriminated.
#[export] Hint Constants Opaque : keeps.
#[export] Hint Resolve keeps_ret keeps_panic keeps_gets keeps_call : keeps.
#[export] Hint Extern 1 (keeps (Success _)) => apply kept_simple; done : keeps.
#[export] Hint Extern 1 (keeps (Fail _ _ _)) => apply kept_simple; done : keeps.
#[export] Hint Extern 1 (keeps c_Abort) => apply kept_simple; done : keeps.
#[export] Hint Extern 1 (keeps (c_Set _ _)) => apply kept_simple; done : keeps.
#[export] Hint Extern 1 (keeps (SetCookie _)) => apply kept_simple; done : keeps.
#[export] Hint Extern 1 (keeps (SetReady _)) => apply kept_simple; done : keeps.
#[export] Hint Extern 1 (keeps (c_Header _ _)) => apply keeps_header; done : keeps.
#[export] Hint Extern 1 (keeps request) => apply keeps_gets : keeps.
#[export] Hint Extern 1 (keeps (c_Get _)) => apply keeps_gets : keeps.

(** Walks through a handler. *)
Ltac keeps_run :=
  cbv zeta;
  repeat first
    [ solve [eauto with keeps nocore]
    | lazymatch goal with
      | |- keeps (bind _ _) => apply keeps_bind; [|intros ?]
      | |- keeps (if ?b then _ else _) => destruct b
      | |- keeps (match ?x with _ => _ end) => destruct x
      end ].

Section handlers.
Context {STO : Storage} {G : Gorm} {SS : Store} {E : Env} {UT : UnicodeTables} {J : JWT}.
Context {B : Bcrypt} {JB : JSONBinding}.
Context {US : UserStore} {AUS : AuthUserStore}.
Context {RR : RefreshTokenRepository} {RB : RBACRepository}.

Lemma handleError_keeps e code msg : keeps (handleError e code msg).
Proof. unfold handleError. keeps_run. Qed.
Hint Resolve handleError_keeps : keeps.

Lemma pingCheckers_keeps l : keeps (pingCheckers l).
Proof. induction l as [|[m|] l IH]; simpl; keeps_run. Qed.
Hint Resolve pingCheckers_keeps : keeps.

Lemma chain_keeps ms : Forall keeps ms -> keeps (chain_of ms).
Proof. induction 1 as [|m ms Hm _ IH]; simpl; keeps_run; done. Qed.

Lemma Recovery_keeps m : keeps m -> keeps (Recovery m).
Proof.
  intros Hm c w. specialize (Hm c w). unfold Recovery, wp in *.
  destruct (m (c, w)) as [[a|[]|] [c' w']]; [done|].
  case_bool_decide; simpl; (etransitivity; [exact Hm|]; split; [done..|exists []; by rewrite app_nil_r]).
Qed.

Lemma routes_keep hs registration route :
  In route (routes hs registration) -> Forall keeps (ro_Handlers route).
Proof.
  intros Hin. unfold routes, registerAPIRoutes, registerAuthRoutes in Hin. rewrite !in_app_iff in Hin.
  destruct registration;
    repeat (destruct Hin as [Hin|Hin]); try done; subst route; cbn [ro_Handlers];
    unfold authenticate, require, AuthMiddleware, RequirePermission, abortWith, PingHandler,
      LivezHandler, ReadyzHandler, failReadiness, recordReadiness, VersionHandler, RegisterHandler,
      LoginHandler, refuseLogin, respondLoginRateLimited, issueLoginTokens, RefreshTokenHandler,
      setRefreshTokenCookie, LogoutHandler, optionalAccessToken, logoutRefreshToken,
      handleRefreshTokenParseError, MeHandler, UpdateProfileHandler, UpdateUserPasswordHandler,
      clearRefreshTokenCookie, ListRolesHandler, ListPermissionsHandler, GetMyAuthorizationHandler,
      AssignUserRolesHandler, authenticatedUser, callerID, badRequest;
    repeat first [apply Forall_cons_2|apply Forall_nil_2]; keeps_run.
Qed.
End handlers.

(** * The recorder *)

(** The calls after the first that reach the writer behind the recorder. *)
Definition is_write (c : rw_call) : bool := match c with Write _ => true | WriteHeader _ => false end.

Definition forwarded (calls : list rw_call) : list rw_call :=
  match calls with
  | [] => []
  | WriteHeader status :: rest => WriteHeader status :: List.filter is_write rest
  | Write body :: rest => WriteHeader StatusOK :: Write body :: List.filter is_write rest
  end.

Lemma recorder_after st fw calls :
  fold_left recorder_call calls (mkStatusRecorder st true fw)
  = mkStatusRecorder st true (fw ++ List.filter is_write calls).
Proof.
  revert fw. induction calls as [|[s|b] calls IH]; intros fw; simpl; [by rewrite app_nil_r|apply IH|].
  unfold recorder_Write. simpl. by rewrite IH, <- app_assoc.
Qed.

(** Whatever the calls, the recorder holds the code of the first one, and one
    header, in front, reaches the writer it wraps. *)
Lemma recorder_run_spec calls :
  recorder_run calls = mkStatusRecorder (tw_code calls) (bool_decide (calls <> [])) (forwarded calls).
Proof. unfold recorder_run. destruct calls as [|[s|b] calls]; [done|apply recorder_after..]. Qed.

Lemma sent_status_code calls : informational (tw_code calls) = false -> sent_status calls = tw_code calls.
Proof. destruct calls as [|[s|b] calls]; simpl; [done| |done]. by intros ->. Qed.

Lemma forwarded_code calls : tw_code (forwarded calls) = tw_code calls.
Proof. by destruct calls as [|[s|b] calls]. Qed.

(** * Headers *)

Lemma put_headers_other l m k :
  Forall (fun kv => kv.1 <> k) l -> put_headers l m !! k = m !! k.
Proof.
  revert m. induction l as [|[k' v] l IH]; intros m Hf; [done|]. inversion Hf; subst.
  simpl. rewrite IH by done. by rewrite lookup_insert_ne.
Qed.

(** * A request in the engine *)

Definition route_label (p : string) : string := if String.eqb p "" then unmatchedRoute else p.

(** The line of the log of a request to a route that was answered with [st]. *)
Definition logged (fullPath : string) (rq : Request) (id : string) (st : Z) (l : LogEntry) : Prop :=
  le_Level l = access_level st /\ le_RequestID l = id /\ le_Method l = rq_Method rq /\
  le_Path l = rq_Path rq /\ le_Router l = fullPath /\ le_Status l = st /\
  le_ClientIP l = rq_ClientIP rq.

Section engine.
Context {STO : Storage} {G : Gorm} {GL : GormLaws} {SS : Store} {E : Env} {UT : UnicodeTables}.
Context {J : JWT} {B : Bcrypt} {JB : JSONBinding}.
Context {US : UserStore} {UL : UserStoreLaws} {AUS : AuthUserStore} {AUL : AuthUserStoreLaws}.
Context {RR : RefreshTokenRepository} {RL : RefreshTokenRepositoryLaws}.
Context {RB : RBACRepository} {RBL : RBACRepositoryLaws}.

Definition uuids_named : Prop := forall n, uuid_at n <> "".

Lemma started_kept p id rq :
  GetRequestID (started p id rq) = id /\ cx_Log (started p id rq) = [] /\
  cx_Headers (started p id rq) = [(RequestIDHeader, id)] /\
  cx_Route (started p id rq) = if rq_RouteState rq then Some (route_label p) else None.
Proof.
  unfold started, routed, route_label. simpl. destruct (rq_RouteState rq) eqn:Hrs; simpl;
    unfold GetRequestID; simpl; by rewrite lookup_insert_eq, ?Hrs.
Qed.

Lemma serve_outcome hs registration route rq w :
  In route (routes hs registration) ->
  exists id x c w', serve route (new_context rq, w) = (Ok tt, (c, w')) /\
    (uuids_named -> id = request_id rq w) /\ cx_Writes c = [x] /\ envelope x /\
    cx_Route c = (if rq_RouteState rq then Some (route_label (ro_Path route)) else None) /\
    (exists l, cx_Log c = [l] /\ logged (ro_Path route) rq id (fst x) l) /\
    put_headers (cx_Headers c) ∅ !! RequestIDHeader = Some id.
Proof.
  intros Hin. destruct (serve_run route rq w) as (id & w1 & _ & _ & _ & Hid & Hserve).
  destruct (started_fresh (ro_Path route) id rq) as (Hab & Hrq & Hwr).
  destruct (started_kept (ro_Path route) id rq) as (Hgid & Hlog & Hh & Hrt).
  set (c0 := started _ id rq) in *.
  destruct (Recovery_answers (ro_Handlers route) c0 (tick w1) (routes_well_formed _ _ _ Hin) Hab Hwr)
    as (x & c' & w' & Hrec & Hx & He).
  pose proof (Recovery_keeps _ (chain_keeps _ (routes_keep _ _ _ Hin)) c0 (tick w1)) as Hk.
  unfold wp in Hk. rewrite Hrec in Hk. destruct Hk as [Hkr Hkt Hkl (l & Hl & Hf)].
  eexists id, x, _, _. split; [exact (Hserve _ _ Hrec)|]. split; [done|]. split; [done|]. split; [done|].
  split; [by rewrite <- Hrt|]. split.
  - eexists. cbn [add_log cx_Log]. rewrite Hkl, Hlog. split; [reflexivity|].
    assert (cx_Status c' = fst x) as Hst by (unfold cx_Status; rewrite Hx; by destruct x).
    unfold logged, log_line. cbn. by rewrite Hst, Hgid, Hrq.
  - cbn [add_log cx_Headers]. rewrite Hl, Hh. simpl. rewrite put_headers_other by done.
    apply lookup_insert_eq.
Qed.
End engine.

(** * The calls on the metrics *)

Section metrics.
Context {STO : Storage} {G : Gorm} {SS : Store} {E : Env} {UT : UnicodeTables} {J : JWT}.
Context {B : Bcrypt} {JB : JSONBinding}.
Context {US : UserStore} {AUS : AuthUserStore}.
Context {RR : RefreshTokenRepository} {RB : RBACRepository} {GIN : Gin}.

(** [h] only sets the readiness. *)
Definition sets_ready (h : http_Handler) : Prop := forall rq x w r x' w',
  h rq (x, w) = (r, (x', w')) -> exists ready, ex_Metrics x' = ex_Metrics x ++ map ready_call ready.

Lemma engine_sets_ready rs : sets_ready (engine rs).
Proof.
  intros rq x w r x' w'. unfold engine. destruct (gin_match _ _ _) as [route|].
  - destruct (serve _ _) as [r0 [c w0]]. intros [= <- <- <-]. by exists (cx_Ready c).
  - destruct (gin_other rq w) as [[y|[]|] w0]; intros [= <- <- <-]; exists []; by rewrite app_nil_r.
Qed.

Lemma http_TimeoutHandler_sets_ready v body h : sets_ready h -> sets_ready (http_TimeoutHandler v body h).
Proof.
  intros Hh rq x w r x' w'. unfold http_TimeoutHandler.
  destruct (h rq _) as [r0 [x1 w1]] eqn:Hrun. destruct (Hh _ _ _ _ _ _ Hrun) as [ready Hr].
  intros Heq. exists ready. etransitivity; [|exact Hr].
  destruct v as [|b|b]; [destruct r0|..]; by injection Heq as <- <- <-.
Qed.

Lemma http_ensureRequestID_run rq x w : exists r w', http_ensureRequestID rq (x, w) = (r, (x, w')).
Proof.
  unfold http_ensureRequestID. destruct (ensureRequestID rq w) as [[id|e|] w']; by do 2 eexists.
Qed.

Lemma TimeoutHandler_sets_ready v h t : sets_ready h -> sets_ready (TimeoutHandler v h t).
Proof.
  intros Hh. unfold TimeoutHandler. destruct (t <=? 0); [done|]. intros rq x w r x' w'.
  unfold bind at 1. destruct (http_ensureRequestID_run rq x w) as (r0 & w0 & ->).
  destruct r0 as [id|[]|]; [|intros [= <- <- <-]; exists []; by rewrite app_nil_r].
  intros Hrun. exact (http_TimeoutHandler_sets_ready v timeout_body h Hh rq _ _ _ _ _ Hrun).
Qed.

(** The exchange the next handler of [HTTPHandler] starts from. *)
Definition counted_start (rq : Request) (x : Exchange) : Exchange :=
  add_metric (InFlightInc (metricMethod (rq_Method rq)))
    (with_calls [] (with_route (Some unmatchedRoute) x)).

Lemma HTTPHandler_run next rq x w r x1 w1 :
  rq_Path rq <> "/metrics" ->
  next (with_route_state rq) (counted_start rq x, tick w) = (r, (x1, w1)) ->
  let m := metricMethod (rq_Method rq) in
  let calls := ex_Calls x ++ forwarded (ex_Calls x1) in
  match r, ex_Route x1 with
  | Ok _, Some route =>
    HTTPHandler next rq (x, w)
    = (Ok tt, (mkExchange (ex_Header x1) (ex_Cookies x1) calls (ex_Route x1)
                 (ex_Metrics x1 ++ [RequestsInc m route (format_int (tw_code (ex_Calls x1)));
                                    DurationObserve m route (time_sub (clock (w_tick w1)) (clock (w_tick w)));
                                    InFlightDec m]) (ex_Log x1), tick w1))
  | _, _ =>
    HTTPHandler next rq (x, w)
    = (Panic, (mkExchange (ex_Header x1) (ex_Cookies x1) calls (ex_Route x1)
                 (ex_Metrics x1 ++ [InFlightDec m]) (ex_Log x1), w1))
  end.
Proof.
  intros Hp Hn m calls. unfold HTTPHandler. rewrite (proj2 (String.eqb_neq _ _) Hp).
  unfold bind, on_exchange, modify, http_Now, metric, defer, recording. cbv beta iota zeta.
  unfold counted_start, add_metric, with_calls, with_route in *. cbn in Hn |- *.
  rewrite Hn, recorder_run_spec.
  destruct r as [[]|[]|]; cbn; [|done]. destruct (ex_Route x1); cbn; [|done].
  by rewrite <- !app_assoc.
Qed.

(** Every request outside /metrics is counted in and out. *)
Definition bracketed (method : string) (calls : list metric_call) : Prop :=
  exists ready ended,
    calls = InFlightInc method :: map ready_call ready ++ ended ++ [InFlightDec method] /\
    (ended = [] \/ exists route status d,
       ended = [RequestsInc method route status; DurationObserve method route d]).

Lemma HTTPHandler_bracketed next rq w r x' w' :
  sets_ready next -> HTTPHandler next rq (new_exchange, w) = (r, (x', w')) ->
  if String.eqb (rq_Path rq) "/metrics" then exists ready, ex_Metrics x' = map ready_call ready
  else bracketed (metricMethod (rq_Method rq)) (ex_Metrics x').
Proof.
  intros Hs Hrun. destruct (String.eqb_spec (rq_Path rq) "/metrics") as [Hp|Hp].
  { unfold HTTPHandler in Hrun. rewrite Hp in Hrun. exact (Hs _ _ _ _ _ _ Hrun). }
  destruct (next (with_route_state rq) (counted_start rq new_exchange, tick w)) as [r1 [x1 w1]] eqn:Hn.
  destruct (Hs _ _ _ _ _ _ Hn) as [ready Hr]. simpl in Hr.
  pose proof (HTTPHandler_run next rq new_exchange w _ _ _ Hp Hn) as Hh. cbv zeta in Hh.
  unfold bracketed. exists ready.
  destruct r1 as [[]|[]|]; [destruct (ex_Route x1) as [route|]|];
    rewrite Hh in Hrun; injection Hrun as <- <- <-; cbn [ex_Metrics]; rewrite Hr.
  - eexists [_; _]. split; [reflexivity|]. right. by do 3 eexists.
  - exists []. split; [done|by left].
  - exists []. split; [done|by left].
Qed.
End metrics.

(** * Requests in flight *)

(** What the calls make of the gauge requests_in_flight of a method. *)
Fixpoint in_flight (m : string) (calls : list metric_call) : Z :=
  match calls with
  | [] => 0
  | InFlightInc m' :: rest => (if String.eqb m' m then 1 else 0) + in_flight m rest
  | InFlightDec m' :: rest => (if String.eqb m' m then -1 else 0) + in_flight m rest
  | _ :: rest => in_flight m rest
  end.

Definition neutral (c : metric_call) : Prop :=
  match c with InFlightInc _ | InFlightDec _ => False | _ => True end.

Lemma in_flight_app m l k : in_flight m (l ++ k) = in_flight m l + in_flight m k.
Proof. induction l as [|[]]; simpl; lia. Qed.

Lemma in_flight_neutral m l : Forall neutral l -> in_flight m l = 0.
Proof. induction 1 as [|[] l Hc Hl IH]; simpl; done. Qed.

Lemma ready_neutral ready : Forall neutral (map ready_call ready).
Proof. apply Forall_forall. intros c Hc. apply list_elem_of_In, in_map_iff in Hc as (b & <- & _). done. Qed.

(** Requests run side by side: [calls] is an order in which the calls of the
    requests [threads] came so far, and [todo] is what remains of each. *)
Inductive interleaved {A} (threads : list (list A)) : list A -> list (list A) -> Prop :=
| interleaved_start : interleaved threads [] threads
| interleaved_call calls todo i c rest :
    interleaved threads calls todo -> todo !! i = Some (c :: rest) ->
    interleaved threads (calls ++ [c]) (<[i := rest]> todo).

(** Of a request with the calls [tl.1], of which [tl.2] remain: it came with
    the method [m], made its first call and not its last. *)
Definition in_progress (m : string) (tl : list metric_call * list metric_call) : bool :=
  match tl with
  | (InFlightInc m' :: rest, todo) =>
    String.eqb m' m && negb (bool_decide (todo = [])) && (length todo <=? length rest)%nat
  | _ => false
  end.

Definition total {A} (f : A -> Z) (l : list A) : Z := fold_right (fun x z => f x + z) 0 l.

Lemma total_insert {A} (f : A -> Z) l i x y :
  l !! i = Some x -> total f (<[i := y]> l) = total f l - f x + f y.
Proof.
  revert i. induction l as [|z l IH]; intros [|i] Hl; simpl in *; simplify_eq; [lia|].
  rewrite (IH i Hl). lia.
Qed.

(** A request that is counted in and out, or not counted at all. *)
Definition well_counted (calls : list metric_call) : Prop :=
  (exists m, bracketed m calls) \/ Forall neutral calls.

Lemma well_counted_in_flight m calls : well_counted calls -> in_flight m calls = 0.
Proof.
  intros [(m' & ready & ended & -> & He)|Hn]; [|by apply in_flight_neutral].
  assert (in_flight m ended = 0) as Hend by (destruct He as [->|(? & ? & ? & ->)]; done).
  simpl. rewrite !in_flight_app, Hend, (in_flight_neutral _ _ (ready_neutral ready)). simpl.
  destruct (String.eqb m' m); lia.
Qed.

(** What remains of a request weighs one exactly while it is in progress. *)
Lemma remaining_in_flight m k l :
  well_counted (k ++ l) -> - in_flight m l = if in_progress m (k ++ l, l) then 1 else 0.
Proof.
  intros [(m' & ready & ended & Hkl & He)|Hn].
  2:{ rewrite in_flight_neutral by (by apply Forall_app in Hn as [_ ?]).
      destruct (k ++ l) as [|[] ?]; try done. by inversion Hn. }
  assert (Forall neutral (map ready_call ready ++ ended)) as Hmid.
  { apply Forall_app. split; [apply ready_neutral|].
    destruct He as [->|(? & ? & ? & ->)]; repeat constructor. }
  rewrite app_assoc in Hkl. set (mid := map ready_call ready ++ ended) in *.
  destruct k as [|c k].
  - simpl in Hkl. subst l. cbn [app in_progress].
    rewrite (proj2 (Nat.leb_gt _ _)), andb_false_r by (cbn [length]; lia).
    cbn [in_flight]. rewrite in_flight_app, (in_flight_neutral _ _ Hmid). simpl.
    destruct (String.eqb m' m); lia.
  - injection Hkl as -> Hkl. destruct (decide (l = [])) as [->|Hl].
    { simpl. by rewrite andb_false_r. }
    destruct (exists_last Hl) as (l' & d & ->). rewrite app_assoc in Hkl.
    apply app_inj_tail in Hkl as [Hkl ->]. rewrite <- Hkl in Hmid. apply Forall_app in Hmid as [_ Hl'].
    rewrite in_flight_app, (in_flight_neutral _ _ Hl'). cbn [app in_progress in_flight].
    rewrite bool_decide_false by done. rewrite (proj2 (Nat.leb_le _ _)) by (rewrite !length_app; lia).
    rewrite !andb_true_r. destruct (String.eqb m' m); lia.
Qed.

Lemma interleaved_suffixes {A} (threads : list (list A)) calls todo :
  interleaved threads calls todo -> Forall2 (fun t l => exists k, t = k ++ l) threads todo.
Proof.
  induction 1 as [|calls todo i c rest _ IH Hi].
  - induction threads; constructor; [by exists []|done].
  - apply Forall2_lookup. intros j. pose proof (proj1 (Forall2_lookup _ _ _) IH j) as Hj.
    destruct (decide (i = j)) as [<-|Hne]; [|by rewrite list_lookup_insert_ne].
    rewrite Hi in Hj. inversion Hj as [t ? [k ->] Ht|]. subst.
    rewrite list_lookup_insert_eq by (by eapply lookup_lt_Some). constructor.
    exists (k ++ [c]). by rewrite <- app_assoc.
Qed.

Lemma interleaved_total threads calls todo m :
  interleaved threads calls todo ->
  in_flight m calls + total (in_flight m) todo = total (in_flight m) threads.
Proof.
  induction 1 as [|calls todo i c rest _ IH Hi]; [done|].
  rewrite in_flight_app, (total_insert _ _ _ _ _ Hi), <- IH. simpl. destruct c; simpl; lia.
Qed.

Lemma in_flight_in_progress threads calls todo m :
  Forall well_counted threads -> interleaved threads calls todo ->
  in_flight m calls = count_where (in_progress m) (zip threads todo).
Proof.
  intros Hw Hi. pose proof (interleaved_total _ _ _ m Hi) as Ht.
  pose proof (interleaved_suffixes _ _ _ Hi) as Hs. clear Hi. unfold count_where.
  assert (total (in_flight m) threads = 0) as Hz.
  { clear -Hw. induction Hw; simpl; [done|]. by rewrite well_counted_in_flight. }
  rewrite Hz in Ht. clear Hz.
  assert (- total (in_flight m) todo
          = Z.of_nat (length (List.filter (in_progress m) (zip threads todo)))) as Hc; [|lia].
  clear Ht. induction Hs as [|t l threads todo [k ->] Hs IH]; [done|].
  inversion Hw as [|? ? Ht Hw']; subst. specialize (IH Hw'). pose proof (remaining_in_flight m k l Ht).
  cbn [total fold_right zip zip_with List.filter] in *. fold (total (in_flight m) todo).
  destruct (in_progress m (k ++ l, l)); cbn [length]; lia.
Qed.

(** * A request to a route *)

Section runs.
Context {STO : Storage} {G : Gorm} {GL : GormLaws} {SS : Store} {E : Env} {UT : UnicodeTables}.
Context {J : JWT} {B : Bcrypt} {JB : JSONBinding}.
Context {US : UserStore} {UL : UserStoreLaws} {AUS : AuthUserStore} {AUL : AuthUserStoreLaws}.
Context {RR : RefreshTokenRepository} {RL : RefreshTokenRepositoryLaws}.
Context {RB : RBACRepository} {RBL : RBACRepositoryLaws} {GIN : Gin} {GNL : GinLaws}.

(** Between [w] and [w'] only the clock and the random source moved. *)
Definition calm (w w' : World) : Prop :=
  same_tables w w' /\ w_store w' = w_store w /\ (w_tick w <= w_tick w')%nat.

#[export] Instance calm_preorder : PreOrder calm.
Proof.
  split.
  - by intros w.
  - intros a b c (? & ? & ?) (? & ? & ?). split; [by transitivity b|]. split; [congruence|lia].
Qed.

Lemma calm_tick w : calm w (tick w).
Proof. split; [done|]. split; [done|simpl; lia]. Qed.

(** The handlers of [route] ran on the request, from [w] to [w'] but for such
    moves, and ended with the status [st]. *)
Definition ran (route : Route) (rq : Request) (w w' : World) (st : Z) : Prop :=
  exists w1 c w2, calm w w1 /\ serve route (new_context rq, w1) = (Ok tt, (c, w2)) /\
    cx_Status c = st /\ calm w2 w'.

Lemma ran_calm route rq w0 w w' w1 st : calm w0 w -> calm w' w1 -> ran route rq w w' st -> ran route rq w0 w1 st.
Proof.
  intros H0 H1 (wa & c & wb & Ha & Hrun & Hst & Hb). exists wa, c, wb.
  split; [by transitivity w|]. split; [done|]. split; [done|by transitivity w'].
Qed.

(** What a run of the engine adds to an exchange without headers. *)
Record engine_post (p : string) (rq : Request) (w : World) (x x' : Exchange) (id : string) (st : Z) : Prop := {
  ep_id : uuids_named -> id = request_id rq w;
  ep_status : st = StatusOK \/ 400 <= st < 600;
  ep_header : ex_Header x' !! RequestIDHeader = Some id;
  ep_calls : exists body rest, ex_Calls x' = ex_Calls x ++ WriteHeader st :: Write body :: map Write rest;
  ep_route : ex_Route x' = if rq_RouteState rq then Some (route_label p) else ex_Route x;
  ep_metrics : exists ready, ex_Metrics x' = ex_Metrics x ++ map ready_call ready;
  ep_log : exists l, ex_Log x' = ex_Log x ++ [l] /\ logged p rq id st l;
}.

Lemma engine_run hs registration route rq x w :
  gin_match (routes hs registration) (rq_Method rq) (rq_Path rq) = Some route -> ex_Header x = ∅ ->
  exists x' w' id st, engine (routes hs registration) rq (x, w) = (Ok tt, (x', w')) /\
                      ran route rq w w' st /\ engine_post (ro_Path route) rq w x x' id st.
Proof.
  intros Hm Hx. destruct (match_law _ _ _ _ Hm) as [Hin _].
  destruct (serve_outcome hs registration route rq w Hin)
    as (id & y & c & w' & Hs & Hid & Hw & He & Hrt & (l & Hl & Hlog) & Hh).
  assert (cx_Status c = fst y) as Hst by (unfold cx_Status; rewrite Hw; by destruct y).
  assert (cx_Writes c <> []) as Hne by (by rewrite Hw).
  destruct (render_law c Hne) as (body & rest & Hr).
  exists (render x c), w', id, (fst y). split; [unfold engine; by rewrite Hm, Hs|].
  split; [by exists w, c, w'|].
  split; cbn [render ex_Header ex_Calls ex_Route ex_Metrics ex_Log].
  - done.
  - destruct He as [[? _]|[? _]]; [by left|by right].
  - by rewrite Hx.
  - exists body, rest. by rewrite Hr, Hst.
  - rewrite Hrt. by destruct (rq_RouteState rq).
  - by exists (cx_Ready c).
  - exists l. by rewrite Hl.
Qed.

(** How the client is answered: what the handler wrote, or one of the two
    answers of [http.TimeoutHandler]. *)
Inductive outcome_kind := Answered | TimedOut | Gone.

Definition kind_of (v : verdict) (timeout : Z) : outcome_kind :=
  if timeout <=? 0 then Answered
  else match v with Finished => Answered | DeadlineExceeded _ => TimedOut | Canceled _ => Gone end.

Definition inner_world (rq : Request) (w : World) : World :=
  if String.eqb (rq_Header rq RequestIDHeader) "" then reseed w else w.

Lemma ensureRequestID_eq rq w : ensureRequestID rq w = (Ok (request_id rq w), inner_world rq w).
Proof.
  unfold ensureRequestID, request_id, inner_world.
  by destruct (String.eqb (rq_Header rq RequestIDHeader) "").
Qed.

Lemma inner_calm rq w : calm w (inner_world rq w).
Proof. unfold inner_world. by destruct (String.eqb _ _). Qed.

Lemma TimeoutHandler_run v next t rq x w :
  0 < t ->
  TimeoutHandler v next t rq (x, w)
  = http_TimeoutHandler v timeout_body next rq
      (put_header "Content-Type" "application/json;charset=utf-8"
         (put_header RequestIDHeader (request_id rq w) x), inner_world rq w).
Proof.
  intros Ht. unfold TimeoutHandler. rewrite (proj2 (Z.leb_gt _ _)) by lia.
  unfold bind, http_ensureRequestID. by rewrite ensureRequestID_eq.
Qed.

Lemma late_header rq w x :
  ex_Header (put_header "Content-Type" "application/json;charset=utf-8"
               (put_header RequestIDHeader (request_id rq w) x)) !! RequestIDHeader
  = Some (request_id rq w).
Proof. simpl. rewrite lookup_insert_ne by done. apply lookup_insert_eq. Qed.

(** What stands between the metrics and the engine. *)
Record timed (v : verdict) (t : Z) (p : string) (rq : Request) (w : World)
    (x x' : Exchange) (id lid : string) (st : Z) : Prop := {
  ti_status : st = StatusOK \/ 400 <= st < 600;
  ti_header : ex_Header x' !! RequestIDHeader = Some id;
  ti_calls : match kind_of v t with
             | Answered => exists body rest, ex_Calls x' = WriteHeader st :: Write body :: map Write rest
             | TimedOut => ex_Calls x' = [WriteHeader StatusServiceUnavailable; Write timeout_body]
             | Gone => ex_Calls x' = [WriteHeader StatusServiceUnavailable]
             end;
  ti_ids : uuids_named ->
    match kind_of v t with
    | Answered => id = lid
    | _ => id = request_id rq w /\ lid = request_id rq (inner_world rq w)
    end;
  ti_route : ex_Route x' = Some (route_label p) \/ kind_of v t <> Answered /\ ex_Route x' = ex_Route x;
  ti_metrics : exists ready, ex_Metrics x' = ex_Metrics x ++ map ready_call ready;
  ti_log : exists l, ex_Log x' = ex_Log x ++ [l] /\ logged p rq lid st l;
}.

Lemma timed_run v t hs registration route rq x w :
  gin_match (routes hs registration) (rq_Method rq) (rq_Path rq) = Some route ->
  rq_RouteState rq = true -> ex_Header x = ∅ -> ex_Calls x = [] ->
  exists x' w' id lid st,
    TimeoutHandler v (engine (routes hs registration)) t rq (x, w) = (Ok tt, (x', w')) /\
    ran route rq w w' st /\ timed v t (ro_Path route) rq w x x' id lid st.
Proof.
  intros Hm Hrs Hh Hc. destruct (Z.leb_spec t 0) as [Ht|Ht].
  - destruct (engine_run hs registration route rq x w Hm Hh) as (x' & w' & id & st & Hrun & Hran & [Hid Hst Hhd Hca Hrt Hme Hlo]).
    exists x', w', id, id, st. split; [unfold TimeoutHandler; by rewrite (proj2 (Z.leb_le _ _) Ht)|].
    split; [done|].
    assert (kind_of v t = Answered) as Hk by (unfold kind_of; by rewrite (proj2 (Z.leb_le _ _) Ht)).
    split; rewrite ?Hk; try done; [by rewrite Hc in Hca|by rewrite Hrs in Hrt; left].
  - rewrite TimeoutHandler_run by done. unfold http_TimeoutHandler. cbv beta iota zeta.
    set (x0 := put_header "Content-Type" _ _).
    set (w0 := inner_world rq w).
    destruct (engine_run hs registration route rq (mkExchange ∅ [] [] (ex_Route x0) (ex_Metrics x0) (ex_Log x0))
                w0 Hm eq_refl) as (x1 & w1 & lid & st & Hrun & Hran & [Hid Hst Hhd Hca Hrt Hme Hlo]).
    match goal with |- context [engine ?rs ?q ?s] =>
      replace (engine rs q s) with (Ok tt : outcome Empty_set unit, (x1, w1)) by (symmetry; exact Hrun) end.
    assert (ran route rq w w1 st) as Hranw by (by apply (ran_calm _ _ _ w0 w1); [apply inner_calm| |]).
    rewrite Hrs in Hrt. destruct Hca as (body & rest & Hca). simpl in Hca.
    assert (kind_of v t = match v with Finished => Answered | DeadlineExceeded _ => TimedOut | Canceled _ => Gone end)
      as Hk by (unfold kind_of; by rewrite (proj2 (Z.leb_gt _ _) Ht)).
    destruct v as [|routed|routed].
    + exists (answer_buffered x0 x1), w1, lid, lid, st. do 2 (split; [done|]).
      split; rewrite ?Hk; cbn [answer_buffered ex_Header ex_Calls ex_Route ex_Metrics ex_Log]; try done.
      * by rewrite lookup_union, Hhd, union_Some_l.
      * rewrite Hca. simpl. rewrite Hc. by exists (body +:+ tw_body (map Write rest)), [].
      * by left.
    + exists (answer_late routed [WriteHeader StatusServiceUnavailable; Write timeout_body] x0 x1), w1,
        (request_id rq w), lid, st. do 2 (split; [done|]).
      split; rewrite ?Hk; cbn [answer_late ex_Header ex_Calls ex_Route ex_Metrics ex_Log]; try done.
      * apply late_header.
      * simpl. by rewrite Hc.
      * intros Hu. split; [done|by apply Hid].
      * destruct routed; [by left|right; done].
    + exists (answer_late routed [WriteHeader StatusServiceUnavailable] x0 x1), w1,
        (request_id rq w), lid, st. do 2 (split; [done|]).
      split; rewrite ?Hk; cbn [answer_late ex_Header ex_Calls ex_Route ex_Metrics ex_Log]; try done.
      * apply late_header.
      * simpl. by rewrite Hc.
      * intros Hu. split; [done|by apply Hid].
      * destruct routed; [by left|right; done].
Qed.
(** [id] is the identifier the client gets, [lid] the one in the log; [st] is
    the status of the handler. *)
Record handled (v : verdict) (timeout : Z) (p : string) (rq : Request) (w : World)
    (x : Exchange) (id lid : string) (st : Z) : Prop := {
  hd_status : st = StatusOK \/ 400 <= st < 600;
  hd_header : ex_Header x !! RequestIDHeader = Some id;
  hd_calls : match kind_of v timeout with
             | Answered => exists body rest, ex_Calls x = WriteHeader st :: Write body :: map Write rest
             | TimedOut => ex_Calls x = [WriteHeader StatusServiceUnavailable; Write timeout_body]
             | Gone => ex_Calls x = [WriteHeader StatusServiceUnavailable]
             end;
  hd_ids : uuids_named ->
    match kind_of v timeout with
    | Answered => id = lid
    | _ => id = request_id rq w /\
           lid = request_id rq (inner_world rq w)
    end;
  hd_metrics : exists ready route d,
    ex_Metrics x = InFlightInc (metricMethod (rq_Method rq)) :: map ready_call ready ++
      [RequestsInc (metricMethod (rq_Method rq)) route (format_int (sent_status (ex_Calls x)));
       DurationObserve (metricMethod (rq_Method rq)) route d; InFlightDec (metricMethod (rq_Method rq))] /\
    (route = route_label p \/ kind_of v timeout <> Answered /\ route = unmatchedRoute);
  hd_log : exists l, ex_Log x = [l] /\ logged p rq lid st l;
}.

Lemma forwarded_header st body rest :
  forwarded (WriteHeader st :: Write body :: map Write rest) = WriteHeader st :: Write body :: map Write rest.
Proof. simpl. do 2 f_equal. induction rest as [|b rest IH]; simpl; congruence. Qed.

Lemma router_run v t hs registration route rq w :
  gin_match (routes hs registration) (rq_Method rq) (rq_Path rq) = Some route ->
  rq_Path rq <> "/metrics" ->
  exists x w' id lid st,
    HTTPHandler (TimeoutHandler v (engine (routes hs registration)) t) rq (new_exchange, w)
    = (Ok tt, (x, w')) /\ ran route (with_route_state rq) w w' st /\
    handled v t (ro_Path route) rq w x id lid st.
Proof.
  intros Hm Hp.
  destruct (timed_run v t hs registration route (with_route_state rq) (counted_start rq new_exchange)
              (tick w) Hm eq_refl eq_refl eq_refl)
    as (x1 & w1 & id & lid & st & Hrun & Hran & [Hst Hh Hc Hi Hr (ready & Hme) (l & Hl & Hlog)]).
  pose proof (HTTPHandler_run _ rq new_exchange w _ _ _ Hp Hrun) as Hfin. cbv zeta in Hfin.
  assert (exists route', ex_Route x1 = Some route' /\
            (route' = route_label (ro_Path route) \/ kind_of v t <> Answered /\ route' = unmatchedRoute))
    as (route' & Hr' & Hrl) by (destruct Hr as [Hr|[? Hr]]; eexists; split; [exact Hr|by left|exact Hr|by right]).
  rewrite Hr' in Hfin. clear Hr.
  assert (forwarded (ex_Calls x1) = ex_Calls x1 /\ sent_status (ex_Calls x1) = tw_code (ex_Calls x1)) as [Hf Hs].
  { revert Hc. clear -Hst. destruct (kind_of v t); intros Hc; [destruct Hc as (b & rest & ->)|by rewrite Hc..].
    split; [apply forwarded_header|]. apply sent_status_code. unfold informational. cbn [tw_code].
    destruct Hst as [->|Hst]; [done|]. by rewrite (proj2 (Z.leb_gt st 199)), andb_false_r by lia. }
  rewrite Hf in Hfin. change (ex_Calls new_exchange) with (@nil rw_call) in Hfin. cbn [app] in Hfin.
  eexists _, _, id, lid, st. split; [exact Hfin|].
  split; [eapply ran_calm; [apply calm_tick|apply calm_tick|exact Hran]|].
  split; cbn [ex_Header ex_Calls ex_Metrics ex_Log]; try done.
  - intros Hu. specialize (Hi Hu). destruct (kind_of v t); [done|..];
      (destruct Hi as [Hid Hlid]; split; [exact Hid|]; rewrite Hlid; unfold request_id, inner_world;
       simpl; by destruct (String.eqb _ _)).
  - exists ready, route', (time_sub (clock (w_tick w1)) (clock (w_tick w))).
    split; [|done]. rewrite Hme. cbn [app]. by rewrite Hs, <- app_assoc.
  - by exists l.
Qed.
End runs.

(** * What [SetupRouter] returns *)

Section setup.
Context {STO : Storage} {G : Gorm} {SS : Store} {E : Env} {UT : UnicodeTables}.
Context {J : JWT} {B : Bcrypt} {JB : JSONBinding}.
Context {US : UserStore} {AUS : AuthUserStore} {RR : RefreshTokenRepository} {RB : RBACRepository}.
Context {GIN : Gin}.

(** The routes [SetupRouter] registers. *)
Definition setup_routes (db : bool) (healthDB : option HealthDB) (m : TokenManager) (build : Info)
    (runtime : AuthRuntime) : list Route :=
  routes (SetupHandlers db healthDB m (ar_StateStore runtime) (ar_LoginRateLimit runtime)
            (ar_SecureCookies runtime) build) (default true (ar_RegistrationEnabled runtime)).

Lemma SetupRouter_inv db hdb m build runtime h :
  SetupRouter db hdb m build [runtime] = inr h ->
  forall v, h v = HTTPHandler (TimeoutHandler v (engine (setup_routes db hdb m build runtime))
                                 (ar_RequestTimeout runtime)).
Proof. unfold SetupRouter. simpl. destruct (gin_SetTrustedProxies _); [done|]. by intros [= <-]. Qed.

Lemma SetupRouter_accepts db hdb m build runtime :
  gin_SetTrustedProxies (ar_TrustedProxies runtime) = None ->
  exists h, SetupRouter db hdb m build [runtime] = inr h.
Proof. unfold SetupRouter. simpl. intros ->. by eexists. Qed.
End setup.
