(* ===== verification/EndpointTheorems.v ===== *)
(** What the session endpoints guarantee: which logins, refreshes and logouts
    succeed, and what they leave behind. *)
From S2P Require Import Prelude GoTime GoStrings Sha256 GoErrors Model Gorm AuthState World.
From S2P Require Import Dao RefreshRepo RbacRepo TokenManager AuthService UserService RbacService.
From S2P Require Import Web UserHandler.
From S2P Require Import TokenTheorems AuthTheorems UserTheorems ErrorTheorems HttpTheorems.

Section theory.
Context {STO : Storage} {G : Gorm} {GL : GormLaws} {SS : Store} {SL : StoreLaws}.
Context {E : Env} {UT : UnicodeTables} {J : JWT} {JL : JWTLaws}.
Context {B : Bcrypt} {BL : BcryptLaws} {JB : JSONBinding}.
Context {US : UserStore} {UL : UserStoreLaws} {AUS : AuthUserStore} {AUL : AuthUserStoreLaws}.
Context {RR : RefreshTokenRepository} {RL : RefreshTokenRepositoryLaws}.
Context {RB : RBACRepository}.

(** * Calls that leave the tables alone *)

(** Between [w] and [w'] only the clock, the random source and the shared
    store may have moved. *)
Definition same_db (w w' : World) : Prop :=
  same_tables w w' /\ (w_tick w <= w_tick w')%nat.

#[export] Instance same_db_preorder : PreOrder same_db.
Proof.
  split.
  - by intros w.
  - intros a b c [H1 T1] [H2 T2]. split; [by transitivity b|lia].
Qed.

Lemma on_store_same_db {A} (m : ST error St A) w :
  wp m (fun r _ => r <> Panic) (w_store w) ->
  wp (on_store m) (fun r w' => same_db w w' /\ r <> Panic) w.
Proof.
  intros Hm. eapply wp_on_store; [exact Hm|]. intros r s Hr. split; [|done]. split; [done|simpl; lia].
Qed.

Lemma CheckLoginAllowed_same_db s a ip w :
  wp (CheckLoginAllowed s a ip) (fun r w' => same_db w w' /\ r <> Panic) w.
Proof.
  unfold CheckLoginAllowed. wp_step. apply wp_of_res.
  destruct (ensureRateLimiter s) as [l|e|] eqn:Hl; [|done|].
  2:{ by destruct s as [[db [] []]|]; simpl in Hl; try case_match. }
  wp_step. apply wp_Now. wp_step. eapply wp_mono.
  { apply on_store_same_db. eapply wp_mono; [apply check_law|]. intros r s' Hr. apply Hr. }
  intros r w' [Hw Hp]. assert (same_db w w') by (transitivity (tick w); [by split; [|simpl; lia]|done]).
  by destruct r.
Qed.

Lemma RecordLoginFailure_same_db s a ip w :
  wp (RecordLoginFailure s a ip) (fun r w' => same_db w w' /\ r <> Panic) w.
Proof.
  unfold RecordLoginFailure. wp_step. apply wp_of_res.
  destruct (ensureRateLimiter s) as [l|e|] eqn:Hl; [|done|].
  2:{ by destruct s as [[db [] []]|]; simpl in Hl; try case_match. }
  wp_step. apply wp_Now. wp_step. eapply wp_mono.
  { apply on_store_same_db. eapply wp_mono; [apply record_law|]. intros r s' Hr. apply Hr. }
  intros r w' [Hw Hp]. assert (same_db w w') by (transitivity (tick w); [by split; [|simpl; lia]|done]).
  by destruct r.
Qed.

Lemma ResetLoginFailures_same_db s a w :
  wp (ResetLoginFailures s a) (fun r w' => same_db w w' /\ r <> Panic) w.
Proof.
  unfold ResetLoginFailures. wp_step. apply wp_of_res.
  destruct (ensureRateLimiter s) as [l|e|] eqn:Hl; [|done|].
  2:{ by destruct s as [[db [] []]|]; simpl in Hl; try case_match. }
  wp_step. eapply wp_mono.
  { apply on_store_same_db. eapply wp_mono; [apply reset_law|]. intros r s' Hr. apply Hr. }
  intros r w' [Hw Hp]. by destruct r.
Qed.

(** The limiter does not touch the database. *)
Lemma CheckLoginAllowed_db s a ip w : w_db (snd (CheckLoginAllowed s a ip w)) = w_db w.
Proof.
  unfold CheckLoginAllowed, bind, of_res, Now, map_err, on_store, zoom.
  destruct (ensureRateLimiter s); [|done..]. cbn beta iota.
  by destruct (st_CheckLoginLimit _ _ _ _ _ _ _) as [[] ?].
Qed.

(** The wait in whole seconds, rounded up. *)
Lemma retryAfterSeconds_ceiling d :
  0 < d -> in_int64 (d + Second) ->
  (retryAfterSeconds d - 1) * Second < d <= retryAfterSeconds d * Second.
Proof.
  intros Hd Hmax. unfold retryAfterSeconds, quot64, sub64. rewrite add64_id by done.
  assert (0 < Second) as HS by done.
  assert (in_int64 (d + Second - 1)) as H1 by (unfold in_int64, MinInt64 in *; lia).
  rewrite (wrap64_id _ H1). rewrite Z.quot_div_nonneg by lia.
  pose proof (Z.div_mod (d + Second - 1) Second ltac:(lia)) as Hdm.
  pose proof (Z.mod_pos_bound (d + Second - 1) Second HS) as Hmb.
  assert (in_int64 ((d + Second - 1) / Second)) as H2.
  { unfold in_int64, MinInt64, MaxInt64 in *. unfold Second in *. lia. }
  rewrite (wrap64_id _ H2). set (q := (d + Second - 1) / Second) in *. cbv zeta.
  destruct (Z.ltb_spec q 1); nia.
Qed.

(** * Issued tokens *)

Definition issue_post (m : TokenManager) (uid : Z) (un : string) (ver : Z) (ty : string) (ttl : Z)
    (w : World) (r : res IssuedToken) (w' : World) : Prop :=
  same_db w w' /\
  match r with
  | Ok it => 0 < ver /\ issued m w uid un ver ty ttl it
  | Err _ => True
  | Panic => False
  end.

Lemma generateToken_issue m uid un ver ty ttl w :
  wp (generateToken m uid un ver ty ttl) (issue_post m uid un ver ty ttl w) w.
Proof.
  apply wp_intro. intros r w' Hrun.
  pose proof (wp_run _ _ _ _ _ (generateToken_spec m uid un ver ty ttl w) Hrun) as Hr.
  assert (same_db w w') as Hdb.
  { clear Hr. revert Hrun. unfold generateToken, bind, fail, Now, NewUUID, Rand, of_res, ret.
    destruct (ver <=? 0); [by intros [= _ <-]|]. unfold bind.
    destruct (jwt_sign _ _); intros [= _ <-]; by split; [|simpl; lia]. }
  split; [done|]. destruct r; [|done..]. tauto.
Qed.

Lemma GenerateAccessToken_issue m uid un ver w :
  wp (GenerateAccessToken m uid un ver) (fun r w' => same_db w w' /\
    match r with
    | Ok tok => exists it, it_Token it = tok /\ issued m w uid un ver TokenTypeAccess (tm_accessTTL m) it
    | Err _ => True
    | Panic => False
    end) w.
Proof.
  unfold GenerateAccessToken. wp_step. wp_use (generateToken_issue m uid un ver TokenTypeAccess
    (tm_accessTTL m) w). intros [it|e|] w' [Hw Hr]; [|done..].
  apply wp_ret. split; [done|]. exists it. split; [done|apply Hr].
Qed.

(** * Login *)

(** The cookie that carries the refresh token [it]. *)
Definition refresh_cookie (h : UserHandler) (it : IssuedToken) : Cookie :=
  mkCookie "refresh_token" (it_Token it) "/api/v1/auth" (it_ExpiresAt it) (it_ExpiresIn it) true
    (h_secureCookies h) SameSiteLaxMode.

(** The row that is stored for it. *)
Definition refresh_row (uid : Z) (it : IssuedToken) (k : RefreshToken) : Prop :=
  t_UserID k = uid /\ t_JTI k = it_JTI it /\ t_TokenHash k = HashToken (it_Token it) /\
  t_ExpiresAt k = datetime (it_ExpiresAt it) /\ t_RevokedAt k = None /\ t_FamilyID k <> "".

(** The caller knew name and password of the active account [u], and got a
    token of each kind for it; the refresh token is stored and in the cookie. *)
Definition logged_in (h : UserHandler) (w w' : World) (req : LoginRequest)
    (t : TokenAndUserInfoResponse) (cookies : list Cookie) : Prop :=
  exists u access refresh wa wr k,
    account_named w (TrimSpace (login_Username req)) u /\
    bcrypt_matches (u_PasswordHash u) (login_Password req) = true /\
    u_Status u = UserStatusActive /\
    ui_ID (tu_User t) = u_ID u /\
    issued (h_tokenManager h) wa (u_ID u) (u_Username u) (u_AuthVersion u) TokenTypeAccess
      (tm_accessTTL (h_tokenManager h)) access /\
    tu_AccessToken t = it_Token access /\
    issued (h_tokenManager h) wr (u_ID u) (u_Username u) (u_AuthVersion u) TokenTypeRefresh
      (tm_refreshTTL (h_tokenManager h)) refresh /\
    cookies = [refresh_cookie h refresh] /\
    refresh_row (u_ID u) refresh k /\
    tbl TRefreshTokens w' = tbl TRefreshTokens w ++ [k].

(** ** One answer, and what it says

    [responds P]: the handler ended with one answer, whose status, data and
    cookies satisfy [P] in the world it left. *)
Definition responds (P : Z -> data -> list Cookie -> World -> Prop)
    (r : outcome Empty_set unit) '((c', w') : Context * World) : Prop :=
  r = Ok tt /\ exists st rsp, cx_Writes c' = [(st, rsp)] /\ P st (resp_Data rsp) (cx_Cookies c') w'.

Lemma wp_Success_responds P d c w :
  cx_Writes c = [] -> P StatusOK d (cx_Cookies c) w -> wp (Success d) (responds P) (c, w).
Proof.
  intros Hc HP. h_step. split; [done|]. exists StatusOK, (mkResponse 0 "success" d).
  simpl. by rewrite Hc.
Qed.

Lemma wp_Fail_responds P st code msg c w :
  cx_Writes c = [] -> P st NoData (cx_Cookies c) w -> wp (Fail st code msg) (responds P) (c, w).
Proof.
  intros Hc HP. h_step. split; [done|]. exists st, (mkResponse code msg NoData).
  simpl. by rewrite Hc.
Qed.

Lemma wp_handleError_responds P e code msg c w :
  cx_Writes c = [] -> honest_error e ->
  (forall st, 400 <= st < 600 -> P st NoData (cx_Cookies c) w) ->
  wp (handleError e code msg) (responds P) (c, w).
Proof.
  unfold honest_error, handleError. intros Hc He HP.
  destruct (FromError e); apply wp_Fail_responds; try done; apply HP; [apply He|by split].
Qed.

(** Without a session nothing is stored and no cookie is set. *)
Definition login_result (h : UserHandler) (rq : Request) (w : World)
    (st : Z) (d : data) (cookies : list Cookie) (w' : World) : Prop :=
  match d with
  | DataLogin t => st = StatusOK /\ exists req, bind_login (rq_Body rq) = inr req /\
                   logged_in h w w' req t cookies
  | NoData => 400 <= st < 600 /\ tbl TRefreshTokens w' = tbl TRefreshTokens w /\ cookies = []
  | _ => False
  end.

Lemma stored_refresh_row uid it id now :
  it_JTI it <> "" ->
  refresh_row uid it (stored TRefreshTokens (prepare TRefreshTokens id now
                        (refreshTokenModel uid it (HashToken (it_Token it))))).
Proof. intros Hj. by repeat split. Qed.

Definition tokens_issued (h : UserHandler) (u : User) (w : World)
    (st : Z) (d : data) (cookies : list Cookie) (w' : World) : Prop :=
  match d with
  | DataLogin t => st = StatusOK /\ exists access refresh wa wr k,
      tu_User t = userInfo u /\ tu_AccessToken t = it_Token access /\
      issued (h_tokenManager h) wa (u_ID u) (u_Username u) (u_AuthVersion u) TokenTypeAccess
        (tm_accessTTL (h_tokenManager h)) access /\
      issued (h_tokenManager h) wr (u_ID u) (u_Username u) (u_AuthVersion u) TokenTypeRefresh
        (tm_refreshTTL (h_tokenManager h)) refresh /\
      cookies = [refresh_cookie h refresh] /\ refresh_row (u_ID u) refresh k /\
      tbl TRefreshTokens w' = tbl TRefreshTokens w ++ [k]
  | NoData => 400 <= st < 600 /\ tbl TRefreshTokens w' = tbl TRefreshTokens w /\ cookies = []
  | _ => False
  end.

Lemma same_db_tokens w w' : same_db w w' -> tbl TRefreshTokens w' = tbl TRefreshTokens w.
Proof. intros [Ht _]. by rewrite (Ht TRefreshTokens). Qed.

Lemma issueLoginTokens_spec h s u c w :
  h_authSessionService h = Some s -> cx_Writes c = [] -> cx_Cookies c = [] ->
  wp (issueLoginTokens h u) (responds (tokens_issued h u w)) (c, w).
Proof.
  intros Hs Hcw Hcc. unfold issueLoginTokens. h_step. h_step.
  wp_use (GenerateAccessToken_issue (h_tokenManager h) (u_ID u) (u_Username u) (u_AuthVersion u) w).
  intros [access|e|] w1 [Hw1 Hr1]; [|apply wp_handleError_responds; [done|honest_value|]|done].
  2:{ intros st Hst. split; [done|]. split; [by apply same_db_tokens|done]. }
  h_step. h_step. wp_use (generateToken_issue (h_tokenManager h) (u_ID u) (u_Username u)
    (u_AuthVersion u) TokenTypeRefresh (tm_refreshTTL (h_tokenManager h)) w1).
  intros [refresh|e|] w2 [Hw2 Hr2]; [|apply wp_handleError_responds; [done|honest_value|]|done].
  2:{ intros st Hst. split; [done|]. split; [|done]. apply same_db_tokens. by transitivity w1. }
  assert (tbl TRefreshTokens w2 = tbl TRefreshTokens w) as Htok
    by (apply same_db_tokens; by transitivity w1).
  rewrite Hs. h_step. h_step.
  wp_use_honest StoreRefreshToken_honest (StoreRefreshToken_spec s (Some (refreshTokenModel (u_ID u) refresh
            (HashToken (it_Token refresh)))) w2).
  intros [[]|e|] w3 [[_ Hst] He]; [|apply wp_handleError_responds; [done|done|]|done].
  2:{ intros st Hs4. split; [done|]. split; [|done]. by rewrite <- (Hst TRefreshTokens). }
  destruct Hst as (k & id & now & [= <-] & _ & Hj & _ & _ & _ & Hset & _).
  unfold setRefreshTokenCookie. h_step. h_step. apply wp_Success_responds; [done|].
  destruct Hr1 as (itA & Htok1 & Hi1). destruct Hr2 as [_ Hi2].
  split; [done|]. exists itA, refresh, w, w1. eexists.
  do 4 (split; [done|]). split; [simpl; by rewrite Hcc|]. split; [by apply stored_refresh_row|].
  by rewrite Hset, Htok.
Qed.

(** An error answered before the rest [k] of a handler is skipped. *)
Lemma wp_answered_error P e code msg (k : H unit) c w :
  cx_Writes c = [] -> honest_error e ->
  (forall st, 400 <= st < 600 -> P st NoData (cx_Cookies c) w) ->
  wp (do! handleError e code msg in ret true) (fun r cw =>
    match r with
    | Ok answered => wp (if answered then ret tt else k) (responds P) cw
    | Err e => responds P (Err e) cw
    | Panic => responds P Panic cw
    end) (c, w).
Proof.
  intros Hc He HP. wp_step. wp_use (wp_handleError_responds P e code msg c w Hc He HP).
  intros r [c' w'] [-> Hr]. by apply wp_ret, wp_ret.
Qed.

(** The context after a login was answered as rate limited. *)
Definition limited (d : Z) (c : Context) : Context :=
  add_write (StatusTooManyRequests, mkResponse CodeLoginRateLimited "too many login attempts" NoData)
    (add_header ("Retry-After", format_int (retryAfterSeconds d)) c).

Lemma wp_respondLoginRateLimited d (Q : outcome Empty_set bool -> Context * World -> Prop) c w :
  (d <= 0 -> Q (Ok false) (c, w)) -> (0 < d -> Q (Ok true) (limited d c, w)) ->
  wp (respondLoginRateLimited d) Q (c, w).
Proof.
  intros H1 H2. unfold respondLoginRateLimited. h_step; bool_to_prop; [by apply wp_ret, H1|].
  h_step. h_step. h_step. apply (wp_intro (handleError _ _ _)). intros r cw [= <- <-].
  cbn beta iota. by apply wp_ret, H2.
Qed.

Lemma limited_responds P d c w :
  cx_Writes c = [] -> P StatusTooManyRequests NoData (cx_Cookies c) w ->
  responds P (Ok tt) (limited d c, w).
Proof. intros Hc HP. split; [done|]. do 2 eexists. simpl. by rewrite Hc. Qed.

Lemma refuseLogin_spec h rq req ip e c w0 w :
  cx_Writes c = [] -> cx_Cookies c = [] -> tbl TRefreshTokens w = tbl TRefreshTokens w0 ->
  honest_error e -> wp (refuseLogin h req ip e) (responds (login_result h rq w0)) (c, w).
Proof.
  intros Hcw Hcc Ht He. unfold refuseLogin. h_step.
  assert (forall w', tbl TRefreshTokens w' = tbl TRefreshTokens w0 -> forall code msg,
            wp (handleError e code msg) (responds (login_result h rq w0)) (c, w')) as Herr.
  { intros w' Ht' code msg. by apply wp_handleError_responds. }
  destruct (h_authSessionService h) as [s|]; [|by apply wp_ret, Herr].
  destruct (errors_Is _ _); [|by apply wp_ret, Herr].
  h_step. h_step. wp_use_honest RecordLoginFailure_honest (RecordLoginFailure_same_db s (login_Username req) ip w).
  intros [retry|re|] w1 [[Hw1 Hp] Hre]; [| |done];
    (assert (tbl TRefreshTokens w1 = tbl TRefreshTokens w0) as Ht1
       by (by rewrite (same_db_tokens _ _ Hw1))).
  - apply wp_respondLoginRateLimited; intros _; [by apply Herr|].
    apply wp_ret. by apply limited_responds.
  - by apply wp_answered_error.
Qed.

Lemma LoginHandler_spec h s rq w :
  h_authSessionService h = Some s ->
  wp (LoginHandler h) (responds (login_result h rq w)) (new_context rq, w).
Proof.
  intros Hs. unfold LoginHandler. h_step. h_step.
  destruct (bind_login (rq_Body (cx_Request (new_context rq)))) as [be|req] eqn:Hbind;
    [by apply wp_Fail_responds|]. simpl in Hbind. cbv zeta. set (ip := if String.eqb _ _ then _ else _).
  rewrite Hs. h_step. h_step. h_step. wp_use_honest CheckLoginAllowed_honest (CheckLoginAllowed_same_db s (login_Username req) ip w).
  intros [d|e|] w1 [[Hw1 Hp] He]; [| |done];
    (assert (tbl TRefreshTokens w1 = tbl TRefreshTokens w) as Ht1 by (by apply same_db_tokens)).
  2:{ by apply wp_answered_error. }
  apply wp_respondLoginRateLimited; intros _; [|apply wp_ret; by apply limited_responds].
  h_step. h_step. wp_use_honest Login_honest (Login_spec (h_userService h) req w1).
  intros [u|e|] w2 [[Hl2 Hr2] He2]; [| |done].
  2:{ apply refuseLogin_spec; [done..| |done]. destruct Hr2 as [Ht2 _].
      by rewrite <- (Ht2 TRefreshTokens). }
  destruct Hr2 as (u0 & t & now & Hn & Hm & Hact & -> & _ & _ & Ho).
  assert (tbl TRefreshTokens w2 = tbl TRefreshTokens w) as Ht2 by (by rewrite Ho).
  h_step. h_step. wp_use_honest ResetLoginFailures_honest (ResetLoginFailures_same_db s (login_Username req) w2).
  intros [[]|e|] w3 [[Hw3 Hp3] He3]; [| |done];
    (assert (tbl TRefreshTokens w3 = tbl TRefreshTokens w) as Ht3
       by (by rewrite (same_db_tokens _ _ Hw3))).
  2:{ by apply wp_handleError_responds. }
  wp_use (issueLoginTokens_spec h s (set_last_login t u0) (new_context rq) w3 Hs eq_refl eq_refl).
  intros r [c' w'] (-> & st & rsp & Hwr & Hd). split; [done|]. exists st, rsp. split; [done|].
  destruct (resp_Data rsp) as [| |tl| | | | | |]; simpl in Hd |- *; try done.
  { by rewrite <- Ht3. }
  destruct Hd as (-> & access & refresh & wa & wr & k & Hu & Hta & Hia & Hir & Hc & Hrow & Htab).
  split; [done|]. exists req. split; [done|]. exists u0, access, refresh, wa, wr, k.
  split; [|by rewrite Hu, <- Ht3].
  unfold account_named in *. by rewrite ((proj1 Hw1) TUsers).
Qed.

(** * Refresh *)

(** The refresh token of a request, from its body or from the cookie. *)
Definition refresh_presented (rq : Request) (tok : string) : Prop :=
  exists req, bindOptionalJSON (mkRefreshTokenRequest "") (bind_refresh (rq_Body rq)) = inr req /\
              tok = requestRefreshToken rq (rtr_RefreshToken req) /\ tok <> "".

Lemma rotation_effect_same_db w w1 w' uid j h k :
  same_db w w1 -> rotation_effect w1 w' uid j h k -> rotation_effect w w' uid j h k.
Proof.
  intros [Ht Hl] (old & id & n1 & n2 & at_ & Hp & Hrev & (t & (i & Hi & ->) & Hexp) & Hid & Hf & Hs).
  exists old, id, n1, n2, at_. unfold presents in *. rewrite !(Ht TRefreshTokens).
  do 2 (split; [done|]). split.
  { exists (clock i). split; [|done]. exists i. split; [lia|done]. }
  do 2 (split; [done|]). by eapply sets_same_tables.
Qed.

(** The cookies never carry another token than the one that was issued. *)
Definition no_token (cookies : list Cookie) : Prop := Forall (fun ck => ck_Value ck = "") cookies.

(** What a refresh that is answered with tokens did: the presented token was
    rotated into the one in the cookie. *)
Definition refreshed (h : UserHandler) (rq : Request) (w w' : World) (t : TokenPairResponse)
    (cookies : list Cookie) : Prop :=
  exists tok claims access refresh wa wr,
    refresh_presented rq tok /\
    ParseRefreshToken (h_tokenManager h) tok w = (Ok claims, tick w) /\
    session_user w (c_UserID claims) (c_AuthVersion claims) /\
    issued (h_tokenManager h) wa (c_UserID claims) (c_Username claims) (c_AuthVersion claims)
      TokenTypeAccess (tm_accessTTL (h_tokenManager h)) access /\
    tp_AccessToken t = it_Token access /\
    issued (h_tokenManager h) wr (c_UserID claims) (c_Username claims) (c_AuthVersion claims)
      TokenTypeRefresh (tm_refreshTTL (h_tokenManager h)) refresh /\
    cookies = [refresh_cookie h refresh] /\
    rotation_effect w w' (c_UserID claims) (c_JTI claims) (HashToken tok)
      (refreshTokenModel (c_UserID claims) refresh (HashToken (it_Token refresh))).

(** What a refused refresh did: nothing, or a replay ended the family. *)
Definition refresh_refused (h : UserHandler) (rq : Request) (w w' : World) : Prop :=
  same_tables w w' \/
  exists tok claims, refresh_presented rq tok /\
    ParseRefreshToken (h_tokenManager h) tok w = (Ok claims, tick w) /\
    session_user w (c_UserID claims) (c_AuthVersion claims) /\
    replay_effect w w' (c_UserID claims) (c_JTI claims) (HashToken tok).

Definition refresh_result (h : UserHandler) (rq : Request) (w : World)
    (st : Z) (d : data) (cookies : list Cookie) (w' : World) : Prop :=
  match d with
  | DataTokens t => st = StatusOK /\ refreshed h rq w w' t cookies
  | NoData => 400 <= st < 600 /\ no_token cookies /\ refresh_refused h rq w w'
  | _ => False
  end.

Lemma handleRefreshTokenParseError_responds P e c w :
  cx_Writes c = [] -> P StatusUnauthorized NoData (cx_Cookies c) w ->
  wp (handleRefreshTokenParseError e) (responds P) (c, w).
Proof.
  intros Hc HP. unfold handleRefreshTokenParseError. repeat case_match; by apply wp_Fail_responds.
Qed.

Lemma RefreshTokenHandler_spec h s rq w :
  h_authSessionService h = Some s ->
  wp (RefreshTokenHandler h) (responds (refresh_result h rq w)) (new_context rq, w).
Proof.
  intros Hs. unfold RefreshTokenHandler, clearRefreshTokenCookie, setRefreshTokenCookie.
  assert (forall st w' cookies, 400 <= st < 600 -> no_token cookies -> same_tables w w' ->
            refresh_result h rq w st NoData cookies w') as Hno by (intros; split; [done|]; by split; [|left]).
  h_step. h_step.
  destruct (bindOptionalJSON _ _) as [be|req] eqn:Hbind;
    [apply wp_Fail_responds; [done|]; apply Hno; [by split|constructor|done]|].
  simpl in Hbind. cbv zeta.
  set (tok := requestRefreshToken _ _). destruct (String.eqb_spec tok "") as [Htok|Htok].
  { h_step. h_step. apply wp_Fail_responds; [done|]. apply Hno; [by split| |done].
    by apply Forall_singleton. }
  assert (refresh_presented rq tok) as Hpres by (by exists req).
  h_step. h_step. apply wp_intro. intros r1 w1 Hparse.
  pose proof (wp_run _ _ _ _ _ (ParseRefreshToken_spec (h_tokenManager h) tok w) Hparse) as [-> Hr1].
  destruct r1 as [claims|e|]; [| |done].
  2:{ h_step. h_step. apply handleRefreshTokenParseError_responds; [done|].
      apply Hno; [by split| |done]. by apply Forall_singleton. }
  h_step. h_step. wp_use (GenerateAccessToken_issue (h_tokenManager h) (c_UserID claims)
    (c_Username claims) (c_AuthVersion claims) (tick w)).
  assert (same_db w (tick w)) as Hw1 by (by split; [|simpl; lia]).
  intros [access|e|] w2 [Hw2 Hr2]; [|apply wp_handleError_responds; [done|honest_value|]|done].
  2:{ intros st Hst. apply Hno; [done| |]; [constructor|]. transitivity (tick w); [apply Hw1|apply Hw2]. }
  h_step. h_step. wp_use (generateToken_issue (h_tokenManager h) (c_UserID claims)
    (c_Username claims) (c_AuthVersion claims) TokenTypeRefresh (tm_refreshTTL (h_tokenManager h)) w2).
  intros [refresh|e|] w3 [Hw3 Hr3]; [|apply wp_handleError_responds; [done|honest_value|]|done].
  2:{ intros st Hst. apply Hno; [done|constructor|]. transitivity w2; [|apply Hw3]. transitivity (tick w); [apply Hw1|apply Hw2]. }
  assert (same_db w w3) as Hww by (transitivity (tick w); [done|]; by transitivity w2).
  rewrite Hs. h_step. h_step. wp_use_honest RotateRefreshToken_honest
    (RotateRefreshToken_spec s (c_UserID claims) (c_AuthVersion claims) (c_JTI claims) (HashToken tok)
       (Some (refreshTokenModel (c_UserID claims) refresh (HashToken (it_Token refresh)))) w3).
  intros [[]|e|] w4 [[_ Hr4] He]; [|apply wp_handleError_responds; [done|done|]|done].
  - destruct Hr4 as (k & [= <-] & Hu & Heff). h_step. h_step. apply wp_Success_responds; [done|].
    destruct Hr2 as (itA & HtokA & HiA). destruct Hr3 as [_ HiR].
    split; [done|]. exists tok, claims, itA, refresh, (tick w), w2.
    do 2 (split; [done|]). split; [eapply session_user_mono; [apply Hww|exact Hu]|].
    do 3 (split; [done|]). split; [done|]. by eapply rotation_effect_same_db.
  - intros st Hst. destruct (errors_Is e "service.ErrRefreshTokenReplay").
    + destruct Hr4 as [Hu Heff]. split; [done|]. split; [constructor|]. right.
      exists tok, claims. do 2 (split; [done|]). split; [eapply session_user_mono; [apply Hww|exact Hu]|].
      eapply replay_effect_mono; [apply Hww| |exact Heff]. done.
    + apply Hno; [done|constructor|]. transitivity w3; [apply Hww|done].
Qed.

(** * Logout *)

Lemma RevokeAccessToken_same_db s jti exp w :
  wp (RevokeAccessToken s jti exp) (fun r w' => same_db w w' /\ r <> Panic) w.
Proof.
  unfold RevokeAccessToken. wp_step; [by apply wp_fail|].
  destruct s as [[db [|] l]|]; [|by apply wp_fail..].
  wp_step. apply wp_Now. cbv zeta. wp_step; [apply wp_ret; split; [|done]; split; [done|simpl; lia]|].
  wp_step. apply wp_Now. wp_step. eapply wp_mono.
  { apply on_store_same_db. eapply wp_mono; [apply revoke_law|]. intros r s' Hr.
    by destruct Hr as [Hr _]; destruct r. }
  intros r w' [[Ht Hl] Hp]. assert (same_db w w') by (split; [done|simpl in *; lia]). by destruct r.
Qed.

Definition logout_presented (rq : Request) (tok : string) : Prop :=
  exists req, bindOptionalJSON (mkLogoutRequest "") (bind_logout (rq_Body rq)) = inr req /\
              tok = requestRefreshToken rq (lor_RefreshToken req) /\ tok <> "".

(** The access token that may come with a logout. *)
Definition optional_bearer (rq : Request) : option string :=
  let header := TrimSpace (rq_Header rq "Authorization") in
  let token := TrimSpace (TrimPrefix header "Bearer ") in
  if negb (String.eqb header "") && HasPrefix header "Bearer " && negb (String.eqb token "")
  then Some token else None.

(** The access token that came along, if it is one, is the same user's, and
    was revoked until it expires. *)
Definition access_revoked (m : TokenManager) (rq : Request) (uid : Z) (w w' : World) : Prop :=
  forall atok ac, optional_bearer rq = Some atok ->
    ParseAccessToken m atok (tick w) = (Ok ac, tick (tick w)) ->
    c_UserID ac = uid /\
    forall exp, c_ExpiresAt ac = Some exp -> monotone_clock ->
      in_int64 (exp - clock (S (S (w_tick w)))) ->
      forall t, clock (w_tick w') <= t -> t < exp - granularity -> live (w_store w') t (c_JTI ac) = true.

Definition logged_out (h : UserHandler) (rq : Request) (w w' : World) : Prop :=
  exists tok claims, logout_presented rq tok /\
    ParseRefreshToken (h_tokenManager h) tok w = (Ok claims, tick w) /\
    logout_effect w w' (c_UserID claims) (c_JTI claims) (HashToken tok) /\
    access_revoked (h_tokenManager h) rq (c_UserID claims) w w'.

(** Either way the answer carries no data; a cookie it sets is empty. *)
Definition logout_result (h : UserHandler) (rq : Request) (w : World)
    (st : Z) (d : data) (cookies : list Cookie) (w' : World) : Prop :=
  d = NoData /\ no_token cookies /\
  (st = StatusOK /\ cookies <> [] /\ logged_out h rq w w' \/ 400 <= st < 600 /\ same_tables w w').

Lemma logout_effect_same_db w w1 w' uid j h :
  same_db w w1 -> logout_effect w1 w' uid j h -> logout_effect w w' uid j h.
Proof.
  intros [Ht _] (k & Hp & Heff). exists k. unfold presents in *. rewrite (Ht TRefreshTokens).
  split; [done|]. destruct (is_active k).
  - destruct Heff as (now & at_ & Hs). exists now, at_. by eapply sets_same_tables.
  - by transitivity w1.
Qed.

(** The optional access token of a logout: what is used is what parses. *)
Lemma optionalAccessToken_spec h rq c w :
  wp (optionalAccessToken h rq) (fun r '(c', w') =>
    c' = c /\ same_db w w' /\
    match r with
    | Ok (Some ac) => exists atok, optional_bearer rq = Some atok /\
        ParseAccessToken (h_tokenManager h) atok w = (Ok ac, tick w) /\ w' = tick w /\
        exists exp, c_ExpiresAt ac = Some exp
    | Ok None => forall atok ac, optional_bearer rq = Some atok ->
        ParseAccessToken (h_tokenManager h) atok w <> (Ok ac, tick w)
    | _ => False
    end) (c, w).
Proof.
  unfold optionalAccessToken, optional_bearer.
  set (header := TrimSpace (rq_Header rq "Authorization")).
  set (tok := TrimSpace (TrimPrefix header "Bearer ")). cbv zeta.
  destruct (String.eqb header ""); [by h_step|].
  destruct (HasPrefix header "Bearer "); cbn [negb andb]; [|by h_step].
  destruct (String.eqb tok "") eqn:Htok; [by h_step|]. cbn [negb].
  h_step. h_step. apply wp_intro. intros r w1 Hrun.
  pose proof (wp_run _ _ _ _ _ (ParseAccessToken_spec (h_tokenManager h) tok w) Hrun) as [-> Hr].
  assert (same_db w (tick w)) as Hdb by (split; [done|simpl; lia]).
  destruct r as [ac|e|]; [| |done]; h_step; (split; [done|]); (split; [done|]).
  - exists tok. do 3 (split; [done|]). destruct Hr as [(_ & _ & iat & exp & _ & Hexp & _) _].
    by exists exp.
  - intros atok ac [= <-]. by rewrite Hrun.
Qed.

Lemma logoutRefreshToken_spec h s rq claims tok c w0 w :
  cx_Writes c = [] -> cx_Cookies c = [] -> same_db w0 w -> logout_presented rq tok ->
  ParseRefreshToken (h_tokenManager h) tok w0 = (Ok claims, tick w0) ->
  (forall w', later w w' -> access_revoked (h_tokenManager h) rq (c_UserID claims) w0 w') ->
  wp (logoutRefreshToken h s claims tok) (responds (logout_result h rq w0)) (c, w).
Proof.
  intros Hcw Hcc Hdb Hpres Hparse Hacc. unfold logoutRefreshToken, clearRefreshTokenCookie. h_step. h_step.
  wp_use_honest RevokeRefreshToken_honest
    (RevokeRefreshToken_spec s (c_UserID claims) (c_JTI claims) (HashToken tok) w).
  intros [[]|e|] w1 [[Hl Hr] He]; [| |done].
  - h_step. h_step. apply wp_Success_responds; [done|]. simpl. rewrite Hcc. split; [done|].
    split; [by apply Forall_singleton|]. left. split; [done|]. split; [done|].
    exists tok, claims. do 2 (split; [done|]). split; [by eapply logout_effect_same_db|by apply Hacc].
  - apply wp_handleError_responds; [done|done|]. intros st Hst. rewrite Hcc. split; [done|].
    split; [constructor|]. right. split; [done|]. transitivity w; [apply Hdb|done].
Qed.

Lemma LogoutHandler_spec h s rq w :
  h_authSessionService h = Some s -> has_store s ->
  wp (LogoutHandler h) (responds (logout_result h rq w)) (new_context rq, w).
Proof.
  intros Hs Hstore. unfold LogoutHandler, clearRefreshTokenCookie.
  assert (forall st w' cookies, 400 <= st < 600 -> no_token cookies -> same_tables w w' ->
            logout_result h rq w st NoData cookies w') as Hno by (intros; split; [done|]; split; [done|]; by right).
  h_step. h_step.
  destruct (bindOptionalJSON _ _) as [be|req] eqn:Hbind;
    [apply wp_Fail_responds; [done|]; apply Hno; [by split|constructor|done]|].
  simpl in Hbind. cbv zeta.
  set (tok := requestRefreshToken _ _). destruct (String.eqb_spec tok "") as [Htok|Htok].
  { h_step. h_step. apply wp_Fail_responds; [done|]. apply Hno; [by split| |done].
    by apply Forall_singleton. }
  assert (logout_presented rq tok) as Hpres by (by exists req).
  h_step. h_step. apply wp_intro. intros r1 w1 Hparse.
  pose proof (wp_run _ _ _ _ _ (ParseRefreshToken_spec (h_tokenManager h) tok w) Hparse) as [-> Hr1].
  destruct r1 as [claims|e|]; [| |done].
  2:{ h_step. h_step. apply handleRefreshTokenParseError_responds; [done|].
      apply Hno; [by split| |done]. by apply Forall_singleton. }
  rewrite Hs. h_step. simpl (cx_Request _).
  wp_use (optionalAccessToken_spec h rq (new_context rq) (tick w)).
  assert (same_db w (tick w)) as Hw1 by (by split; [|simpl; lia]).
  intros [[ac|]|[]|] [c' w2] (-> & Hw2 & Ho); [| |done].
  2:{ apply logoutRefreshToken_spec; try done; [by transitivity (tick w)|].
      intros w' _ atok ac Hb Hp. by destruct (Ho atok ac Hb). }
  destruct Ho as (atok & Hb & Hpa & -> & exp & Hexp).
  destruct (Z.eqb_spec (c_UserID ac) (c_UserID claims)) as [Huid|Huid]; simpl negb; cbn iota.
  2:{ apply wp_Fail_responds; [done|]. apply Hno; [by split|constructor|done]. }
  rewrite Hexp. h_step. h_step. apply wp_intro. intros r3 w3 Hrev.
  pose proof (wp_run _ _ _ _ _ (RevokeAccessToken_same_db s (c_JTI ac) exp (tick (tick w))) Hrev) as [Hw3 Hnp].
  pose proof (wp_run _ _ _ _ _ (RevokeAccessToken_honest s (c_JTI ac) exp (tick (tick w))) Hrev) as Hhon.
  destruct r3 as [[]|e|]; [| |done].
  - apply logoutRefreshToken_spec; try done.
    { transitivity (tick w); [done|]. by transitivity (tick (tick w)). }
    intros w' Hl atok' ac' Hb' Hpa'. rewrite Hb in Hb'. injection Hb' as <-.
    rewrite Hpa in Hpa'. injection Hpa' as <-. split; [done|].
    intros exp' Hexp' Hmono Hbound t Ht Hlt. rewrite Hexp in Hexp'. injection Hexp' as <-.
    pose proof (wp_run _ _ _ _ _ (RevokeAccessToken_spec s (c_JTI ac) exp (tick (tick w)) Hstore Hmono Hbound)
      Hrev) as (_ & _ & _ & Hlive).
    destruct Hl as [Hsto Htk _]. rewrite Hsto. apply Hlive; [|done].
    specialize (Hmono _ _ Htk). lia.
  - apply wp_handleError_responds; [done|done|]. intros st Hst. apply Hno; [done|constructor|].
    transitivity (tick (tick w)); [done|apply Hw3].
Qed.
End theory.
