(* ===== verification/ApiTheorems.v ===== *)
(** With which statuses the services fail and the handlers answer: an analysis
    of their code, one rule per construct, against what the documentation of
    the API lists. *)
From S2P Require Import Prelude GoTime GoStrings Sha256 GoErrors Model Gorm AuthState World.
From S2P Require Import Dao RefreshRepo RbacRepo TokenManager AuthService UserService RbacService.
From S2P Require Import Web Metrics UserHandler RbacHandler ApiDocs Middleware.
From S2P Require Import TokenTheorems AuthTheorems UserTheorems RbacTheorems HttpTheorems.

(** The status [handleError] answers an error with. *)
Definition status_of (e : error) : Z :=
  match FromError e with Some appErr => HTTPStatus appErr | None => StatusInternalServerError end.

(** * Services *)

Section services.
Context {STO : Storage} {G : Gorm} {GL : GormLaws} {SS : Store}.

(** An error of [m] has one of the statuses. *)
Definition fails_with (l : list Z) {A} (m : M A) : Prop := forall w,
  wp m (fun r _ => match r with Err e => In (status_of e) l | _ => True end) w.

Lemma fails_ret l {A} (a : A) : fails_with l (ret a).
Proof. by intros w. Qed.
Lemma fails_fail l {A} e : In (status_of e) l -> fails_with l (fail e : M A).
Proof. by intros H w. Qed.
Lemma fails_panic l {A} : fails_with l (panic : M A).
Proof. by intros w. Qed.
Lemma fails_of_res l {A} (r : res A) :
  match r with Err e => In (status_of e) l | _ => True end -> fails_with l (of_res r).
Proof. by intros H w. Qed.
Lemma fails_attempt l {A} (m : M A) : fails_with l (attempt m).
Proof. intros w. unfold wp, attempt. by destruct (m w) as [[] ?]. Qed.

Lemma fails_map_err l {A} f (m : M A) : (forall e, In (status_of (f e)) l) -> fails_with l (map_err f m).
Proof. intros Hf w. unfold wp, map_err. destruct (m w) as [[] ?]; auto. Qed.

Lemma fails_bind l {A C} (m : M A) (k : A -> M C) :
  fails_with l m -> (forall a, fails_with l (k a)) -> fails_with l (bind m k).
Proof. intros Hm Hk w. wp_step. wp_use (Hm w). intros [a|e|] w1 H1; [apply Hk|done..]. Qed.

Lemma fails_Transaction l {A} (m : M A) :
  In StatusInternalServerError l -> fails_with l m -> fails_with l (Transaction m).
Proof.
  intros H5 Hm w.
  assert (forall e, sql_failure e -> In (status_of e) l) as Hsql.
  { intros e [[Hn _] _]. unfold status_of. by rewrite Hn. }
  apply wp_Transaction; [auto|]. intros w0 _. wp_use (Hm w0). intros [a|e|] w1 H1; split; auto.
Qed.
End services.

Create HintDb fails discriminated.
#[export] Hint Constants Opaque : fails.
#[export] Hint Resolve fails_ret fails_panic fails_attempt : fails.

(** A status that is computed, in a list of numbers. *)
Ltac listed := repeat match goal with |- context [if ?b then _ else _] => destruct b end;
  vm_compute; tauto.

(** Walks through a service call. *)
Ltac fails_run :=
  repeat first
    [ solve [eauto with fails nocore]
    | lazymatch goal with
      | |- fails_with _ (bind _ _) => apply fails_bind; [|intros ?]
      | |- fails_with _ (fail _) => apply fails_fail; listed
      | |- fails_with _ (map_err _ _) => apply fails_map_err; intros ?; listed
      | |- fails_with _ (Transaction _) => apply fails_Transaction; [listed|]
      | |- fails_with _ (if ?b then _ else _) => destruct b
      | |- fails_with _ (match ?x with _ => _ end) => destruct x
      end ].

Section calls.
Context {STO : Storage} {G : Gorm} {GL : GormLaws} {SS : Store}.
Context {E : Env} {UT : UnicodeTables} {B : Bcrypt} {JB : JSONBinding}.
Context {US : UserStore} {AUS : AuthUserStore}.
Context {RR : RefreshTokenRepository} {RB : RBACRepository}.

Lemma fails_validatePassword l pw : In 400 l -> fails_with l (of_res (validatePassword pw)).
Proof. intros H. apply fails_of_res. unfold validatePassword. by destruct (_ || _). Qed.

Lemma fails_usr_ensureDB l s : In 500 l -> fails_with l (of_res (usr_ensureDB s)).
Proof. intros H. apply fails_of_res. by destruct (usr_ensureDB_cases s) as [-> | ->]. Qed.

Lemma fails_rbs_ensureDB l s : In 500 l -> fails_with l (of_res (rbs_ensureDB s)).
Proof. intros H. apply fails_of_res. by destruct (rbs_ensureDB_cases s) as [-> | ->]. Qed.

Lemma fails_requireDB l s : In 500 l -> fails_with l (requireDB s).
Proof. intros H. apply fails_of_res. by destruct (auth_ensureDB_cases s) as [-> | ->]. Qed.

Lemma fails_ensureRateLimiter l s : In 503 l -> fails_with l (of_res (ensureRateLimiter s)).
Proof.
  intros H. apply fails_of_res. destruct s as [[db [|] lim]|]; simpl; try done. by destruct (_ || _).
Qed.

Lemma fails_normalizeRoleCodes l codes : In 404 l -> fails_with l (of_res (normalizeRoleCodes ∅ codes)).
Proof. intros H. apply fails_of_res. rewrite normalizeRoleCodes_run. by destruct (existsb _ _). Qed.

Lemma fails_Now l : fails_with l Now.
Proof. by intros w. Qed.
End calls.

#[export] Hint Resolve fails_Now : fails.
#[export] Hint Extern 1 (fails_with _ (of_res (validatePassword _))) =>
  apply fails_validatePassword; listed : fails.
#[export] Hint Extern 1 (fails_with _ (of_res (usr_ensureDB _))) => apply fails_usr_ensureDB; listed : fails.
#[export] Hint Extern 1 (fails_with _ (of_res (rbs_ensureDB _))) => apply fails_rbs_ensureDB; listed : fails.
#[export] Hint Extern 1 (fails_with _ (requireDB _)) => apply fails_requireDB; listed : fails.
#[export] Hint Extern 1 (fails_with _ (of_res (ensureRateLimiter _))) =>
  apply fails_ensureRateLimiter; listed : fails.
#[export] Hint Extern 1 (fails_with _ (of_res (normalizeRoleCodes _ _))) =>
  apply fails_normalizeRoleCodes; listed : fails.

Section statuses.
Context {STO : Storage} {G : Gorm} {GL : GormLaws} {SS : Store}.
Context {E : Env} {UT : UnicodeTables} {B : Bcrypt} {JB : JSONBinding}.
Context {US : UserStore} {AUS : AuthUserStore}.
Context {RR : RefreshTokenRepository} {RB : RBACRepository}.

Lemma Register_fails s req : fails_with [400; 409; 500] (Register s req).
Proof. unfold Register. cbv zeta. fails_run. Qed.

Lemma Login_fails s req : fails_with [401; 500] (Login s req).
Proof. unfold Login. cbv zeta. fails_run. Qed.

(** A positive id is no bad request. *)
Lemma GetProfile_fails s uid : 0 < uid -> fails_with [403; 404; 500] (GetProfile s uid).
Proof. intros H. unfold GetProfile. rewrite (proj2 (Z.leb_gt _ _) H). fails_run. Qed.

Lemma UpdateNickname_fails s uid name : fails_with [400; 403; 404; 500] (UpdateNickname s uid name).
Proof. unfold UpdateNickname. cbv zeta. fails_run. Qed.

Lemma updatePasswordInTx_fails s uid req : fails_with [400; 401; 404; 409; 500] (updatePasswordInTx s uid req).
Proof. unfold updatePasswordInTx. fails_run. Qed.

Lemma UpdateUserPassword_fails s uid req : fails_with [400; 401; 404; 409; 500] (UpdateUserPassword s uid req).
Proof. unfold UpdateUserPassword. fails_run. apply updatePasswordInTx_fails. Qed.

Lemma ListRoles_fails s : fails_with [500] (ListRoles s).
Proof. unfold ListRoles. fails_run. Qed.

Lemma ListPermissions_fails s : fails_with [500] (ListPermissions s).
Proof. unfold ListPermissions. fails_run. Qed.

Lemma GetUserAuthorization_fails s uid : 0 < uid -> fails_with [500] (GetUserAuthorization s uid).
Proof. intros H. unfold GetUserAuthorization. rewrite (proj2 (Z.leb_gt _ _) H). fails_run. Qed.

Lemma AssignRolesToUser_fails s uid codes : fails_with [400; 404; 500] (AssignRolesToUser s uid codes).
Proof. unfold AssignRolesToUser. fails_run. Qed.

Lemma StoreRefreshToken_fails s k : fails_with [401; 500] (StoreRefreshToken s k).
Proof. unfold StoreRefreshToken. fails_run. Qed.

Lemma rotateInTx_fails uid ver j h next : fails_with [401; 500; 503] (rotateInTx uid ver j h next).
Proof. unfold rotateInTx. cbv zeta. fails_run. Qed.

Lemma RotateRefreshToken_fails s uid ver j h next :
  fails_with [401; 500; 503] (RotateRefreshToken s uid ver j h next).
Proof. unfold RotateRefreshToken. fails_run. apply rotateInTx_fails. Qed.

Lemma revokeInTx_fails uid j h : fails_with [401; 500] (revokeInTx uid j h).
Proof. unfold revokeInTx. fails_run. Qed.

Lemma RevokeRefreshToken_fails s uid j h : fails_with [401; 500] (RevokeRefreshToken s uid j h).
Proof. unfold RevokeRefreshToken. fails_run. apply revokeInTx_fails. Qed.

Lemma RevokeAccessToken_fails s j exp : fails_with [401; 503] (RevokeAccessToken s j exp).
Proof. unfold RevokeAccessToken. cbv zeta. fails_run. Qed.

Lemma CheckLoginAllowed_fails s a ip : fails_with [503] (CheckLoginAllowed s a ip).
Proof. unfold CheckLoginAllowed. fails_run. Qed.

Lemma RecordLoginFailure_fails s a ip : fails_with [503] (RecordLoginFailure s a ip).
Proof. unfold RecordLoginFailure. fails_run. Qed.

Lemma ResetLoginFailures_fails s a : fails_with [503] (ResetLoginFailures s a).
Proof. unfold ResetLoginFailures. fails_run. Qed.
End statuses.

(** * Handlers *)

Section handlers.
Context {STO : Storage} {G : Gorm} {GL : GormLaws} {SS : Store}.

(** Whatever [m] writes satisfies [P], for a caller that the context has under
    [user_id] as [key]. *)
Definition says (key : option value) (P : Z -> Response -> Prop) {A} (m : H A) : Prop := forall c w,
  cx_Keys c !! "user_id" = key -> Forall (fun x => P x.1 x.2) (cx_Writes c) ->
  wp m (fun _ '(c', _) => cx_Keys c' !! "user_id" = key /\ Forall (fun x => P x.1 x.2) (cx_Writes c')) (c, w).

Section rules.
Context (key : option value) (P : Z -> Response -> Prop).

Lemma says_ret {A} (a : A) : says key P (ret a).
Proof. by intros c w. Qed.
Lemma says_panic {A} : says key P (panic : H A).
Proof. by intros c w. Qed.
Lemma says_request : says key P request.
Proof. by intros c w. Qed.

Lemma says_on_context f :
  (forall c, cx_Keys (f c) !! "user_id" = cx_Keys c !! "user_id" /\ cx_Writes (f c) = cx_Writes c) ->
  says key P (on_context f).
Proof. intros Hf c w Hk Hw. unfold wp, on_context, modify. destruct (Hf c) as [-> ->]. done. Qed.

Lemma says_header k v : says key P (c_Header k v).
Proof. by apply says_on_context. Qed.
Lemma says_cookie ck : says key P (SetCookie ck).
Proof. by apply says_on_context. Qed.
Lemma says_ready b : says key P (SetReady b).
Proof. by apply says_on_context. Qed.

Lemma says_JSON st r : P st r -> says key P (c_JSON st r).
Proof.
  intros HP c w Hk Hw. unfold wp, c_JSON, on_context, modify. simpl. split; [done|].
  apply Forall_app. by split; [|constructor].
Qed.

Lemma says_Fail st code msg : P st (mkResponse code msg NoData) -> says key P (Fail st code msg).
Proof. apply says_JSON. Qed.

Lemma says_Success d : P StatusOK (mkResponse 0 "success" d) -> says key P (Success d).
Proof. apply says_JSON. Qed.

Lemma says_bind {A C} (m : H A) (k : A -> H C) :
  says key P m -> (forall a, says key P (k a)) -> says key P (bind m k).
Proof.
  intros Hm Hk c w Hc Hw. wp_step. wp_use (Hm c w Hc Hw). intros [a|[]|] [c1 w1] [H1 H2]; [by apply Hk|done].
Qed.

Lemma says_bind_ret {A C} (a : A) (k : A -> H C) : says key P (k a) -> says key P (bind (ret a) k).
Proof. intros Hk c w. apply Hk. Qed.

(** The caller as the handlers take it. *)
Lemma says_caller {C} uid code msg (k : option Z -> H C) :
  key = Some (VInt64 uid) -> says key P (k (Some uid)) -> says key P (bind (callerID code msg) k).
Proof.
  intros Hkey Hk c w Hc Hw. assert (callerID code msg (c, w) = (Ok (Some uid), (c, w))) as Hrun.
  { unfold callerID, bind, c_Get, gets. cbv beta iota. by rewrite Hc, Hkey. }
  unfold wp, bind. rewrite Hrun. by apply Hk.
Qed.

Lemma says_authenticatedUser {C} uid (k : option Z -> H C) :
  key = Some (VInt64 uid) -> 0 < uid -> says key P (k (Some uid)) -> says key P (bind authenticatedUser k).
Proof.
  intros Hkey Hu Hk c w Hc Hw. assert (authenticatedUser (c, w) = (Ok (Some uid), (c, w))) as Hrun.
  { unfold authenticatedUser, bind, c_Get, gets. cbv beta iota.
    by rewrite Hc, Hkey, (proj2 (Z.leb_gt _ _) Hu). }
  unfold wp, bind. rewrite Hrun. by apply Hk.
Qed.

(** A call of a service that fails with some statuses. *)
Lemma says_call {A C} l (m : M A) (k : error + A -> H C) :
  fails_with l m ->
  (forall e, In (status_of e) l -> says key P (k (inl e))) -> (forall a, says key P (k (inr a))) ->
  says key P (bind (call m) k).
Proof.
  intros Hm He Ha c w Hc Hw. unfold wp, bind, call. specialize (Hm w). unfold wp in Hm.
  destruct (m w) as [[a|e|] w1]; [by apply Ha|by apply He|done].
Qed.

Lemma says_call_any {A} (m : M A) : says key P (call m).
Proof. intros c w Hc Hw. unfold wp, call. by destruct (m w) as [[] ?]. Qed.

Lemma says_handleError e fallback msg :
  (forall code msg, P (status_of e) (mkResponse code msg NoData)) -> says key P (handleError e fallback msg).
Proof.
  intros HP. unfold handleError. unfold status_of in HP. destruct (FromError e); apply says_Fail, HP.
Qed.
End rules.
End handlers.

Create HintDb says discriminated.
#[export] Hint Constants Opaque : says.
#[export] Hint Resolve says_ret says_panic says_request says_header says_cookie says_ready says_call_any
  Register_fails Login_fails GetProfile_fails UpdateNickname_fails UpdateUserPassword_fails
  ListRoles_fails ListPermissions_fails GetUserAuthorization_fails AssignRolesToUser_fails
  StoreRefreshToken_fails RotateRefreshToken_fails RevokeRefreshToken_fails RevokeAccessToken_fails
  CheckLoginAllowed_fails RecordLoginFailure_fails ResetLoginFailures_fails : says.

(** ** Documented or left out *)

(** The statuses the documentation of an operation leaves out. *)
Definition undocumented (path : string) : list Z :=
  if String.eqb path "/api/v1/users/me" then [404; 503]
  else if String.eqb path "/api/v1/users/me/profile" then [404; 503]
  else if String.eqb path "/api/v1/users/me/update/password" then [404; 409; 503]
  else if String.eqb path "/readyz" then [500]
  else if HasPrefix path "/api/v1/" && negb (String.eqb path "/api/v1/auth/register") then [503]
  else [].

Section documented.
Variable format : Z -> string.

(** The documentation lists the answer, or leaves out its status. *)
Definition answer_listed (operation : json) (left_out : list Z) (st : Z) (r : Response) : Prop :=
  documented format operation st r = true \/ In st left_out /\ resp_Data r = NoData.

(** An error of one of the statuses [l] is answered as listed. *)
Definition errors_listed (operation : json) (left_out l : list Z) : Prop :=
  forall st code msg, In st l -> answer_listed operation left_out st (mkResponse code msg NoData).
End documented.

(** An answer whose status is known: it is listed, or left out. *)
Ltac answer_by_computation :=
  first [ left; vm_compute; reflexivity | right; split; [vm_compute; tauto|reflexivity] ].

(** The error [e] has one of a few statuses. *)
Ltac error_by_status :=
  let st := fresh "st" in let code := fresh in let msg := fresh in
  match goal with
  | H : In (status_of ?e) _ |- forall code msg, _ (status_of ?e) _ =>
    revert H; generalize (status_of e); intros st H code msg;
    simpl in H; repeat (destruct H as [<-|H]; [answer_by_computation|]); destruct H
  | |- forall code msg, _ (status_of ?e) _ =>
    tryif is_var e then fail else (intros code msg; answer_by_computation)
  end.

(** Walks through a handler. *)
Ltac says_run :=
  cbv zeta;
  repeat first
    [ solve [eauto with says nocore]
    | lazymatch goal with
      | |- says _ _ (bind (call _) _) =>
        first [ eapply says_call; [solve [eauto with says nocore]|intros ? ?|intros ?]
              | apply says_bind; [apply says_call_any|intros [?|?]] ]
      | |- says _ _ (bind (callerID _ _) _) => eapply says_caller; [eassumption|]
      | |- says _ _ (bind authenticatedUser _) => eapply says_authenticatedUser; [eassumption..|]
      | |- says _ _ (bind (ret _) _) => apply says_bind_ret
      | |- says _ _ (bind (match ?x with _ => _ end) _) => destruct x
      | |- says _ _ (bind _ _) => apply says_bind; [|intros ?]
      | |- says _ _ (handleError _ _ _) => apply says_handleError; error_by_status
      | |- says _ _ (Fail _ _ _) => apply says_Fail; answer_by_computation
      | |- says _ _ (Success _) => apply says_Success; first [solve [eauto with says nocore]|answer_by_computation]
      | |- says _ _ (if ?b then _ else _) => destruct b
      | |- says _ _ (match ?x with _ => _ end) => destruct x
      end ].

Section answers.
Context {STO : Storage} {G : Gorm} {GL : GormLaws} {SS : Store}.
Context {E : Env} {UT : UnicodeTables} {J : JWT} {B : Bcrypt} {JB : JSONBinding}.
Context {US : UserStore} {AUS : AuthUserStore}.
Context {RR : RefreshTokenRepository} {RB : RBACRepository}.
Variable format : Z -> string.

(** The operations the documentation has under the paths of the routes. *)
Definition listed_answers (method path : string) : Z -> Response -> Prop :=
  answer_listed format (default JNull (doc_operation method path)) (undocumented path).

Lemma user_listed u : listed_answers "GET" "/api/v1/users/me" StatusOK (mkResponse 0 "success" (DataUser u)).
Proof. left. destruct u as [i n nn st [t|]]; vm_compute; reflexivity. Qed.

Lemma login_listed t :
  listed_answers "POST" "/api/v1/auth/login" StatusOK (mkResponse 0 "success" (DataLogin t)).
Proof. left. destruct t as [a e r [i n nn st [t|]]]; vm_compute; reflexivity. Qed.

(** ** Lists in an answer *)

Lemma forallb_map {A C} (f : C -> bool) (g : A -> C) l :
  (forall a, f (g a) = true) -> forallb f (map g l) = true.
Proof. intros H. induction l as [|a l IH]; simpl; [done|]. by rewrite H. Qed.

Lemma roles_listed l :
  listed_answers "GET" "/api/v1/admin/roles" StatusOK (mkResponse 0 "success" (DataRoles l)).
Proof.
  left. pose (items := JObj [("$ref", JStr "#/definitions/response.RoleResponse")]).
  transitivity ((forallb (has_schema 5 items) (map encode_role l) && true) && true).
  - vm_compute. reflexivity.
  - by rewrite forallb_map.
Qed.

Lemma permissions_listed l :
  listed_answers "GET" "/api/v1/admin/permissions" StatusOK (mkResponse 0 "success" (DataPermissions l)).
Proof.
  left. pose (items := JObj [("$ref", JStr "#/definitions/response.PermissionResponse")]).
  transitivity ((forallb (has_schema 5 items) (map encode_permission l) && true) && true).
  - vm_compute. reflexivity.
  - by rewrite forallb_map.
Qed.

Lemma authorization_listed a :
  listed_answers "GET" "/api/v1/users/me/authorization" StatusOK
    (mkResponse 0 "success" (DataAuthorization a)).
Proof.
  left. pose (items := JObj [("type", JStr "string")]).
  transitivity ((forallb (has_schema 3 items) (map JStr (ai_PermissionCodes a)) &&
                 (forallb (has_schema 3 items) (map JStr (ai_RoleCodes a)) && true) && true) && true).
  - vm_compute. reflexivity.
  - by rewrite !forallb_map.
Qed.

#[local] Hint Resolve user_listed login_listed roles_listed permissions_listed authorization_listed : says.

Lemma RegisterHandler_says key h : says key (listed_answers "POST" "/api/v1/auth/register") (RegisterHandler h).
Proof. unfold RegisterHandler, badRequest. says_run. Qed.

Lemma issueLoginTokens_says key h u :
  says key (listed_answers "POST" "/api/v1/auth/login") (issueLoginTokens h u).
Proof. unfold issueLoginTokens, setRefreshTokenCookie. says_run. Qed.

Lemma refuseLogin_says key h req ip e :
  In (status_of e) [401; 500] ->
  says key (listed_answers "POST" "/api/v1/auth/login") (refuseLogin h req ip e).
Proof. intros He. unfold refuseLogin, respondLoginRateLimited. says_run. Qed.

Lemma LoginHandler_says key h : says key (listed_answers "POST" "/api/v1/auth/login") (LoginHandler h).
Proof.
  unfold LoginHandler, badRequest, respondLoginRateLimited.
  says_run; first [by apply refuseLogin_says|apply issueLoginTokens_says].
Qed.

Lemma RefreshTokenHandler_says key h :
  says key (listed_answers "POST" "/api/v1/auth/refresh") (RefreshTokenHandler h).
Proof.
  unfold RefreshTokenHandler, clearRefreshTokenCookie, setRefreshTokenCookie,
    handleRefreshTokenParseError, badRequest. says_run.
Qed.

Lemma LogoutHandler_says key h :
  says key (listed_answers "POST" "/api/v1/auth/logout") (LogoutHandler h).
Proof.
  unfold LogoutHandler, optionalAccessToken, logoutRefreshToken, clearRefreshTokenCookie,
    handleRefreshTokenParseError, badRequest. says_run.
Qed.

(** ** The caller's own account *)

Section caller.
Context (key : option value) (uid : Z) (Hkey : key = Some (VInt64 uid)) (Huid : 0 < uid).

Lemma MeHandler_says h : says key (listed_answers "GET" "/api/v1/users/me") (MeHandler h).
Proof. unfold MeHandler. says_run. Qed.

Lemma UpdateProfileHandler_says h :
  says key (listed_answers "PUT" "/api/v1/users/me/profile") (UpdateProfileHandler h).
Proof. unfold UpdateProfileHandler, badRequest. says_run. Qed.

Lemma UpdateUserPasswordHandler_says h :
  says key (listed_answers "PATCH" "/api/v1/users/me/update/password") (UpdateUserPasswordHandler h).
Proof. unfold UpdateUserPasswordHandler, clearRefreshTokenCookie, badRequest. says_run. Qed.

Lemma GetMyAuthorizationHandler_says h :
  says key (listed_answers "GET" "/api/v1/users/me/authorization") (GetMyAuthorizationHandler h).
Proof. unfold GetMyAuthorizationHandler. says_run. Qed.
End caller.

(** ** Administration *)

Lemma ListRolesHandler_says key h :
  says key (listed_answers "GET" "/api/v1/admin/roles") (ListRolesHandler h).
Proof. unfold ListRolesHandler. says_run. Qed.

Lemma ListPermissionsHandler_says key h :
  says key (listed_answers "GET" "/api/v1/admin/permissions") (ListPermissionsHandler h).
Proof. unfold ListPermissionsHandler. says_run. Qed.

Lemma AssignUserRolesHandler_says key h :
  says key (listed_answers "PUT" "/api/v1/admin/users/:id/roles") (AssignUserRolesHandler h).
Proof. unfold AssignUserRolesHandler. says_run. Qed.

(** ** The system *)

Lemma PingHandler_says key : says key (listed_answers "GET" "/ping") PingHandler.
Proof. unfold PingHandler. says_run. Qed.

Lemma LivezHandler_says key : says key (listed_answers "GET" "/livez") LivezHandler.
Proof. unfold LivezHandler. says_run. Qed.

Lemma VersionHandler_says key h : says key (listed_answers "GET" "/version") (VersionHandler h).
Proof. unfold VersionHandler. says_run. Qed.

Lemma pingCheckers_says key P checkers : says key P (pingCheckers checkers).
Proof. induction checkers as [|[m|] l IH]; cbn [pingCheckers]; says_run. all: apply IH. Qed.

Lemma ReadyzHandler_says key h : says key (listed_answers "GET" "/readyz") (ReadyzHandler h).
Proof.
  unfold ReadyzHandler, failReadiness, recordReadiness. pose proof (pingCheckers_says key) as Hp. says_run.
Qed.
End answers.

(** * Routes *)

Section routes.
Context {STO : Storage} {G : Gorm} {GL : GormLaws} {SS : Store} {SL : StoreLaws}.
Context {E : Env} {UT : UnicodeTables} {J : JWT} {JL : JWTLaws}.
Context {B : Bcrypt} {JB : JSONBinding}.
Context {US : UserStore} {AUS : AuthUserStore} {AUL : AuthUserStoreLaws}.
Context {RR : RefreshTokenRepository} {RB : RBACRepository} {RBL : RBACRepositoryLaws}.
Variable format : Z -> string.

(** Every answer to a request to the route is listed. *)
Definition route_listed (w : World) (route : Route) : Prop := forall rq r c' w',
  serve route (new_context rq, w) = (r, (c', w')) ->
  Forall (fun x => listed_answers format (ro_Method route) (ro_Path route) x.1 x.2) (cx_Writes c').

(** A panic is answered by [Recovery]. *)
Definition panic_listed (meth path : string) : Prop :=
  listed_answers format meth path StatusInternalServerError (mkResponse CodeInternalError "server error" NoData).

Lemma open_listed w meth path h :
  (forall key, says key (listed_answers format meth path) h) ->
  (forall x, fst (h x) <> Panic) \/ panic_listed meth path ->
  route_listed w (mkRoute meth path [h]).
Proof.
  intros Hsays Hpanic rq r c' w' Hrun.
  destruct (serve_run (mkRoute meth path [h]) rq w) as (id & w1 & _ & _ & _ & _ & Hserve).
  cbn [ro_Handlers ro_Path ro_Method] in *. set (c1 := started path id rq) in *.
  destruct (started_fresh path id rq) as (_ & _ & Hwr). fold c1 in Hwr.
  destruct (Recovery_ok (chain_of [h]) (c1, tick w1)) as (c2 & w2 & Hrec & Hres).
  rewrite (Hserve _ _ Hrec) in Hrun. injection Hrun as <- <- <-. cbn [add_log cx_Writes].
  rewrite chain_last in Hres. pose proof (Hsays _ c1 (tick w1) eq_refl ltac:(by rewrite Hwr)) as Hs.
  unfold wp in Hs.
  destruct (h (c1, tick w1)) as [[[]|[]|] [c0 w0]] eqn:Hh; destruct Hs as [_ Hs].
  - by injection Hres as -> ->.
  - destruct Hres as (_ & Hsome & Hnone). destruct (decide (cx_Writes c0 = [])) as [He|He].
    + rewrite (Hnone He). constructor; [|done]. destruct Hpanic as [Hp|Hp]; [|exact Hp].
      specialize (Hp (c1, tick w1)). by rewrite Hh in Hp.
    + by rewrite (Hsome He).
Qed.

Lemma guarded_listed hs w meth path needs h :
  has_store (hs_authService hs) -> keys_ok TUsers (tbl TUsers w) ->
  (forall uid, 0 < uid -> says (Some (VInt64 uid)) (listed_answers format meth path) h) ->
  errors_listed format (default JNull (doc_operation meth path)) (undocumented path) (500 :: refusals needs) ->
  route_listed w (mkRoute meth path (guarded hs needs h)).
Proof.
  intros Hst Hk Hsays Href rq r c' w' Hrun. cbn [ro_Method ro_Path].
  assert (forall l, incl l (500 :: refusals needs) -> refused l (new_context rq) c' ->
    Forall (fun x => listed_answers format meth path x.1 x.2) (cx_Writes c')) as Hrefused.
  { intros l Hl (st & code & msg & Hin & ->). constructor; [|done]. apply Href, Hl, Hin. }
  destruct (protected_serve_runs _ _ _ _ _ _ _ _ _ _ Hst Hk Hrun)
    as [[_ Hr]|(claims & c1 & w1 & r0 & c0 & w0 & Hpass & Hh & _ & Hans)].
  { eapply Hrefused; [|exact Hr]. intros x Hx. by right. }
  destruct Hans as [Hans|[_ Hr]].
  2:{ eapply Hrefused; [|exact Hr]. intros x [<-|[]]. by left. }
  destruct Hpass as ((tok & w2 & _ & _ & _ & _ & _ & (Huid & _) & _) & _ & _ & Hkey & _ & Hw1).
  pose proof (Hsays _ Huid c1 w1 Hkey ltac:(by rewrite Hw1)) as Hs. unfold wp in Hs. rewrite Hh in Hs.
  rewrite Hans. apply Hs.
Qed.
End routes.
