(* ===== verification/ConfigTheorems.v ===== *)
(** What the configuration guarantees: what [Validate] accepts, and that the
    search for a file ends. *)
From S2P Require Import Prelude GoTime GoStrings GoNet GoPath GoErrors AuthService Config.

(** * Validation *)

Record sound_config (c : Config) : Prop := {
  sv_environment : Environment c ∈ ["development"; "test"; "production"];
  sv_port : 0 < sc_Port (Server c);
  sv_jwt : 0 < jc_ExpireHours (cfg_JWT c) /\ 0 < jc_AccessTokenExpireMinutes (cfg_JWT c) /\
           0 < jc_RefreshTokenExpireHours (cfg_JWT c) /\ jc_Algorithm (cfg_JWT c) = "HS256" /\
           32 <= len (jc_Secret (cfg_JWT c));
  sv_mysql : my_Host (MySQL c) <> "" /\ my_Database (MySQL c) <> "" /\ my_User (MySQL c) <> "" /\
             exists port, Atoi (my_Port (MySQL c)) = Some port /\ 1 <= port <= 65535;
  sv_pool : 0 < my_MaxOpenConns (MySQL c) /\
            0 <= my_MaxIdleConns (MySQL c) <= my_MaxOpenConns (MySQL c) /\
            0 < my_ConnMaxIdleTime (MySQL c) /\ 0 < my_ConnMaxLifetime (MySQL c) /\
            0 < my_PingTimeout (MySQL c);
  sv_http : let h := hs_Server (cfg_HttpServer c) in
            0 < hc_ReadTimeOut h /\ 0 < hc_WriteTimeout h /\ 0 < hc_IdleTimeout h /\
            0 < hc_ReadHeaderTimeout h /\ 0 < hc_MaxHeaderBytesKib h /\ 0 < hc_Timeout h;
  sv_redis : rc_Enabled (Redis c) = true ->
             rc_Address (Redis c) <> "" /\ 0 <= rc_DB (Redis c) /\ 0 < rc_DialTimeout (Redis c) /\
             0 < rc_ReadTimeout (Redis c) /\ 0 < rc_WriteTimeout (Redis c) /\
             0 < rc_PingTimeout (Redis c);
  sv_limits : let l := ac_LoginRateLimit (cfg_Auth c) in
              0 < rl_AccountLimit l /\ 0 < rl_IPLimit l /\ 0 < rl_Window l;
  sv_proxies : forall p, In p (hs_TrustedProxies (cfg_HttpServer c)) ->
               ParseIP p = true \/ ParseCIDR p = true;
  sv_production : Environment c = "production" ->
                  rc_Enabled (Redis c) = true /\ rk_Secure (ac_RefreshCookie (cfg_Auth c)) = true;
}.

Lemma guard_ok (b : bool) (e : error) (k : res unit) :
  (if b then Err e else k) = Ok tt <-> b = false /\ k = Ok tt.
Proof. destruct b; naive_solver. Qed.

Lemma invalid_proxy_none l :
  invalid_proxy l = None <-> forall p, In p l -> ParseIP p = true \/ ParseCIDR p = true.
Proof.
  induction l as [|p l IH]; simpl; [done|].
  destruct (ParseIP p) eqn:H1; [|destruct (ParseCIDR p) eqn:H2].
  - rewrite IH. naive_solver.
  - rewrite IH. naive_solver.
  - split; [done|]. intros Hall. destruct (Hall p (or_introl eq_refl)); congruence.
Qed.

Lemma validate_redis_ok r :
  validate_redis r = Ok tt <->
  rc_Address r <> "" /\ 0 <= rc_DB r /\ 0 < rc_DialTimeout r /\ 0 < rc_ReadTimeout r /\
  0 < rc_WriteTimeout r /\ 0 < rc_PingTimeout r.
Proof.
  unfold validate_redis. rewrite !guard_ok, !orb_false_iff, !Z.leb_gt, Z.ltb_ge, String.eqb_neq.
  naive_solver.
Qed.

Lemma redis_ok (b : bool) r (k : res unit) :
  match (if b then validate_redis r else Ok tt) with Ok _ => k | r => r end = Ok tt <->
  (b = true -> validate_redis r = Ok tt) /\ k = Ok tt.
Proof.
  destruct b; [|naive_solver]. destruct (validate_redis r) as [[]|e|]; naive_solver.
Qed.

Lemma mysql_port_ok port :
  match Atoi port with None => true | Some p => (p <=? 0) || (65535 <? p) end = false <->
  exists p, Atoi port = Some p /\ 1 <= p <= 65535.
Proof.
  destruct (Atoi port) as [p|]; [|naive_solver].
  rewrite orb_false_iff, Z.leb_gt, Z.ltb_ge. split.
  - intros [? ?]. exists p. split; [done|lia].
  - intros (q & [= <-] & ?). lia.
Qed.

Lemma production_ok (env : string) (redis secure : bool) :
  (if String.eqb env "production"
   then when! negb redis return! Err ErrProductionRedisRequired in
        when! negb secure return! Err ErrProductionSecureCookieRequired in Ok tt
   else Ok tt) = Ok tt <->
  (env = "production" -> redis = true /\ secure = true).
Proof.
  destruct (String.eqb_spec env "production") as [->|Hne]; [|naive_solver].
  rewrite !guard_ok, !negb_false_iff. naive_solver.
Qed.

(** [Validate] accepts exactly the sound configurations. *)
Lemma Validate_ok c : Validate c = Ok tt <-> sound_config c.
Proof.
  unfold Validate. cbv zeta.
  rewrite !guard_ok, redis_ok, guard_ok, validate_redis_ok, mysql_port_ok.
  assert (forall o (k : res unit), match o with Some _ => Err (wrapping [ErrTrustedProxyInvalid]) | None => k end = Ok tt
            <-> o = @None string /\ k = Ok tt) as Hproxy by (intros [p|] k; naive_solver).
  rewrite Hproxy, invalid_proxy_none, production_ok.
  rewrite !orb_false_iff, negb_false_iff, bool_decide_eq_true, !Z.leb_gt, !Z.ltb_ge, !String.eqb_neq,
    negb_false_iff, String.eqb_eq.
  split; [intros H; destruct_and! H; split; (done || intuition lia)|].
  intros [? ? ? ? ? ? ? ? ? ?]. cbv zeta in *. intuition.
Qed.

Lemma and_then_ok {A B} (r : res A) (k : A -> res B) b :
  and_then r k = Ok b <-> exists a, r = Ok a /\ k a = Ok b.
Proof. destruct r; naive_solver. Qed.

Section load.
Context {UT : UnicodeTables} {SYS : System}.

(** * Loading *)

Lemma load_from_ok p cfg :
  load_from p = Ok cfg ->
  sound_config cfg /\
  (os_Getenv "JWT_SECRET" <> "" -> jc_Secret (cfg_JWT cfg) = os_Getenv "JWT_SECRET").
Proof.
  unfold load_from. destruct (os_ReadFile p) as [|data]; [done|].
  destruct (yaml_Unmarshal data) as [|cfg0]; [done|].
  intros (cfg1 & Henv & ([] & Hval & [= <-])%and_then_ok)%and_then_ok.
  split; [by apply Validate_ok|]. intros Hne. simpl. clear Hval. unfold applyEnvOverrides in Henv.
  repeat (apply and_then_ok in Henv as (? & _ & Henv)). injection Henv as <-. simpl.
  unfold env_string. by rewrite (proj2 (String.eqb_neq _ _) Hne).
Qed.

Lemma Load_ok path cfg :
  Load path = Some (Ok cfg) ->
  sound_config cfg /\
  (os_Getenv "JWT_SECRET" <> "" -> jc_Secret (cfg_JWT cfg) = os_Getenv "JWT_SECRET").
Proof.
  intros Hload. assert (exists p, load_from p = Ok cfg) as [p Hp]; [|by eapply load_from_ok].
  unfold Load in Hload. destruct (os_Stat path); [by injection Hload; eauto|].
  destruct (findFileUpward path) as [found|]; [|done]. simpl in Hload. injection Hload as Hl. eauto.
Qed.

(** * The search for a file *)

(** [d] is [dir] or above it, as [filepath.Dir] climbs. *)
Inductive above : string -> string -> Prop :=
| above_here dir : above dir dir
| above_up dir d : Dir dir <> dir -> above (Dir dir) d -> above dir d.

(** What the climb finds: the file in the first directory that has it. *)
Lemma findFileUpwardFrom_spec fuel : forall dir name,
  IsAbs dir = true -> (String.length dir < fuel)%nat ->
  exists r, findFileUpwardFrom fuel dir name = Some r /\
    (forall p, r = Some p -> is_file p = true /\ exists d, above dir d /\ p = Join d name) /\
    (r = None -> forall d, above dir d -> is_file (Join d name) = false).
Proof.
  induction fuel as [|fuel IH]; intros dir name Habs Hlen; [lia|]. simpl.
  destruct (is_file (Join dir name)) eqn:Hf.
  { eexists. split; [done|]. split; [|done]. intros p [= <-]. split; [done|].
    exists dir. split; [constructor|done]. }
  destruct (String.eqb_spec (Dir dir) dir) as [Hd|Hd].
  { eexists. split; [done|]. split; [done|]. intros _ d Hup. inversion Hup; subst; [done|congruence]. }
  destruct (Dir_rooted dir Habs) as [Habs' [?|Hlt]]; [done|].
  destruct (IH (Dir dir) name Habs' ltac:(lia)) as (r & Hr & Hsome & Hnone).
  exists r. split; [done|]. split.
  - intros p Hp. destruct (Hsome p Hp) as (Hp1 & d & Hup & Hj). split; [done|].
    exists d. split; [by constructor|done].
  - intros Hn d Hup. inversion Hup; subst; [done|by apply Hnone].
Qed.

(** [os.Getwd] returns an absolute path. *)
Definition absolute_cwd : Prop := forall wd, os_Getwd = Some wd -> IsAbs wd = true.

Lemma Abs_absolute path p : absolute_cwd -> Abs path = Some p -> IsAbs p = true.
Proof.
  intros Hwd. unfold Abs. destruct (IsAbs path) eqn:Hp.
  - intros [= <-]. by apply Clean_rooted.
  - destruct os_Getwd as [wd|] eqn:Hg; [|done]. intros [= <-].
    destruct (IsAbs_rooted wd (Hwd wd Hg)) as [rest ->]. unfold Join.
    apply Clean_rooted, rooted_IsAbs.
Qed.

Lemma addDir_absolute dirs dir :
  absolute_cwd -> Forall (fun d => IsAbs d = true) dirs ->
  Forall (fun d => IsAbs d = true) (addDir dirs dir).
Proof.
  intros Hwd Hdirs. unfold addDir. destruct (String.eqb dir ""); [done|].
  destruct (Abs dir) as [p|] eqn:Hp; [|done]. destruct (bool_decide _); [done|].
  apply Forall_app. split; [done|]. apply Forall_singleton. by eapply Abs_absolute.
Qed.

Lemma searchStartDirs_absolute :
  absolute_cwd -> Forall (fun d => IsAbs d = true) searchStartDirs.
Proof.
  intros Hwd. unfold searchStartDirs.
  repeat (case_match; try (apply addDir_absolute; [done|]); try constructor).
Qed.

Lemma search_dirs_spec dirs name :
  Forall (fun d => IsAbs d = true) dirs ->
  exists r, search_dirs dirs name = Some r /\
    (forall p, r = Some p -> is_file p = true /\ exists dir d, In dir dirs /\ above dir d /\ p = Join d name) /\
    (r = None -> forall dir d, In dir dirs -> above dir d -> is_file (Join d name) = false).
Proof.
  induction 1 as [|dir dirs Habs _ IH]; cbn [search_dirs In]; [by eexists|].
  destruct (findFileUpwardFrom_spec (upward_fuel dir) dir name Habs ltac:(unfold upward_fuel; lia))
    as (r & -> & Hsome & Hnone).
  destruct r as [p|].
  - eexists. split; [done|]. split; [|done]. intros q [= <-].
    destruct (Hsome p eq_refl) as (Hf & d & Hup & Hj). split; [done|]. exists dir, d. auto.
  - destruct IH as (r & Hr & Hs & Hn). exists r. split; [done|]. split.
    + intros p Hp. destruct (Hs p Hp) as (Hf & dir' & d & Hin & Hup & Hj). split; [done|].
      exists dir', d. auto.
    + intros Hr' dir' d [<-|Hin] Hup; eauto.
Qed.

(** * Nothing panics *)

Lemma findFileUpward_total name : absolute_cwd -> exists found, findFileUpward name = Some found.
Proof.
  intros Hwd. unfold findFileUpward. destruct (IsAbs name); [by eexists|].
  destruct (search_dirs_spec searchStartDirs name (searchStartDirs_absolute Hwd)) as (r & Hr & _).
  by exists r.
Qed.

Lemma and_then_no_panic {A B} (r : res A) (k : A -> res B) :
  r <> Panic -> (forall a, k a <> Panic) -> and_then r k <> Panic.
Proof. destruct r; simpl; auto. Qed.

Lemma env_int_no_panic gv name old : env_int gv name old <> Panic.
Proof. unfold env_int. destruct (String.eqb _ _); [done|]. by destruct (Atoi _). Qed.

Lemma env_bool_no_panic {A} gv name (old : A) set : env_bool gv name old set <> Panic.
Proof. unfold env_bool. destruct (String.eqb _ _); [done|]. by destruct (ParseBool _). Qed.

Lemma Validate_no_panic c : Validate c <> Panic.
Proof.
  assert (forall (b : bool) (e : error) (k : res unit), k <> Panic -> (if b then Err e else k) <> Panic)
    as Hg by (by intros []).
  unfold Validate. cbv zeta. repeat (apply Hg).
  assert ((if rc_Enabled (Redis c) then validate_redis (Redis c) else Ok tt) <> Panic) as Hr.
  { destruct (rc_Enabled _); [|done]. unfold validate_redis. by repeat (apply Hg). }
  destruct (if rc_Enabled _ then _ else _); [|done|done]. apply Hg.
  destruct (invalid_proxy _); [done|]. destruct (String.eqb _ _); [|done]. by repeat (apply Hg).
Qed.

Lemma load_from_no_panic p : load_from p <> Panic.
Proof.
  unfold load_from. destruct (os_ReadFile p) as [|data]; [done|].
  destruct (yaml_Unmarshal data) as [|cfg]; [done|]. apply and_then_no_panic.
  - unfold applyEnvOverrides. cbv zeta.
    repeat (apply and_then_no_panic; [apply env_int_no_panic || apply env_bool_no_panic|intros ?]). done.
  - intros cfg'. apply and_then_no_panic; [apply Validate_no_panic|done].
Qed.

Lemma Load_total path : absolute_cwd -> exists r, Load path = Some r /\ r <> Panic.
Proof.
  intros Hwd. unfold Load. destruct (os_Stat path).
  - eexists. split; [done|]. apply load_from_no_panic.
  - destruct (findFileUpward_total path Hwd) as [found ->]. eexists. split; [done|]. apply load_from_no_panic.
Qed.

Lemma LoadEnv_total : absolute_cwd -> exists r, LoadEnv = Some r.
Proof.
  intros Hwd. unfold LoadEnv, loadEnvFile. destruct (findFileUpward_total ".env" Hwd) as [found ->].
  by eexists.
Qed.
End load.
