(* ===== verification/MainTheorems.v ===== *)
(** What the commands of the process do to its connections, what the server
    runs on, and the end of serving. *)
From S2P Require Import Prelude GoTime GoStrings GoNet GoErrors Model Gorm AuthState World.
From S2P Require Import Dao RefreshRepo RbacRepo TokenManager AuthService UserService RbacService.
From S2P Require Import Web Metrics UserHandler RbacHandler Middleware Server Config Database Main.
From S2P Require Import ConfigTheorems ServerTheorems.

(** * Serving *)

(** The value in the channel is the one the server sent, until [run] took it. *)
Definition life_inv (l : Life) : Prop :=
  match lf_server l with
  | Sent e =>
    match lf_main l with
    | Finished_run r => lf_serverErr l = [] /\ r = finish_served e \/
                        lf_serverErr l = [e] /\ exists e', r = finish_shutdown e'
    | _ => lf_serverErr l = [e]
    end /\ forall x, e = Some x -> errors_Is x http_ErrServerClosed = false
  | _ => lf_serverErr l = [] /\
         forall r, lf_main l = Finished_run r -> exists e, r = finish_shutdown e
  end.

Lemma server_failure_real err x : server_failure err = Some x -> errors_Is x http_ErrServerClosed = false.
Proof.
  unfold server_failure. destruct err as [e|]; [|done].
  destruct (errors_Is e http_ErrServerClosed) eqn:He; [done|]. by intros [= <-].
Qed.

Lemma life_step_inv l l' : life_inv l -> life_step l l' -> life_inv l'.
Proof.
  intros Hi Hs. destruct Hs; unfold life_inv in *; simpl in *.
  - done.
  - done.
  - destruct Hi as [_ Hf]. split; [|intros x; apply server_failure_real].
    destruct main as [| | |r]; try done. right. split; [done|by apply Hf].
  - destruct server; destruct Hi as [Hi1 Hi2]; (split; [done|]); done.
  - done.
  - destruct server; destruct Hi as [Hi1 Hi2]; (split; [done|]); done.
  - destruct server; [by destruct Hi..|]. destruct Hi as [Heq He].
    injection Heq as -> ->. split; [by left|done].
  - destruct server; [destruct Hi as [Hi _]; split; [done|]; intros r [= <-]; by eexists..|].
    destruct Hi as [Hi He]. split; [|done]. right. split; [done|by eexists].
Qed.

Lemma life_reachable l : rtc life_step initial_life l -> life_inv l.
Proof.
  intros Hr. assert (life_inv initial_life) as Hi by done. revert Hi.
  induction Hr as [|l1 l2 l3 Hs _ IH]; [done|]. intros Hi. apply IH. by eapply life_step_inv.
Qed.

(** How far [run] is from its end; only its own steps bring it closer. *)
Definition life_rank (l : Life) : nat :=
  match lf_main l with Notifying => 3 | Selecting => 2 | ShuttingDown => 1 | Finished_run _ => 0 end.

Lemma life_rank_step l l' : life_step l l' ->
  (life_rank l' < life_rank l)%nat \/ lf_main l' = lf_main l /\ (lf_quit l <> [] -> lf_quit l' <> []) /\
                                       (lf_serverErr l <> [] -> lf_serverErr l' <> []).
Proof.
  destruct 1; unfold life_rank; simpl; try (left; lia); right;
    (split; [done|]); (split; [|done]); by destruct quit.
Qed.

(** * Connections *)

Section drivers.
Context {D : Drivers} {DL : DriversLaws}.

(** A call that opens a connection, hands it out under [id], and leaves none
    behind when it fails, unless the error says that one was lost. *)
Definition hands_out {A} (id : A -> nat) (lost : error -> Prop) (r : outcome error A) (s s' : OS) : Prop :=
  match r with
  | Ok a => id a ∉ opened s /\ opened s' = {[id a]} ∪ opened s
  | Err e => opened s' = opened s \/ lost e
  | Panic => False
  end.

Definition handle_failed (e : error) : Prop := exists c, e = Errorf "get mysql db failed" c.

Lemma reopened (n : nat) (X : gset nat) : n ∉ X -> ({[n]} ∪ X) ∖ {[n]} = X.
Proof. set_solver. Qed.

Lemma ignoring_spec {A} (m : ST error OS A) X s :
  wp m (fun r s' => opened s' = X /\ r <> Panic) s ->
  wp (ignoring m) (fun r s' => opened s' = X /\ r = Ok tt) s.
Proof.
  intros Hm. unfold ignoring. wp_step. wp_step. wp_use Hm. by intros [a|e|] s' [Ho Hr].
Qed.

Lemma openMySQL_spec cfg dsn s :
  wp (openMySQL cfg dsn) (fun r s' => hands_out gorm_id handle_failed r s s') s.
Proof.
  unfold openMySQL. wp_step. wp_step. wp_use (gorm_Open_law dsn s).
  intros [g|e|] s1; [intros [Hf Ho1]|by left|done].
  wp_step. wp_step. wp_use (gorm_DB_law g s1).
  intros [d|e|] s2 [Ho2 Hd]; [|right; by eexists|done].
  do 4 (wp_step; wp_use sql_Set_law; intros ? ? [? ->]).
  wp_step. wp_step. wp_use sql_Ping_law. intros [[]|e|] s3 [Ho3 Hp]; [..|done].
  - apply wp_ret. split; [done|]. congruence.
  - wp_step. wp_use (ignoring_spec (sql_Close d) (opened s3 ∖ {[sql_id d]})); [apply sql_Close_law|].
    intros r s4 [Ho4 ->]. apply wp_fail. left. rewrite Ho4, Hd.
    assert (opened s3 = opened s1) as -> by congruence. rewrite Ho1. by apply reopened.
Qed.

Lemma InitDB_spec gv cfg s :
  wp (InitDB gv cfg) (fun r s' => hands_out gorm_id handle_failed r s s') s.
Proof.
  unfold InitDB. destruct (buildDSN cfg (gv "DB_PASSWORD")) as [dsn|e|] eqn:Hb.
  - destruct (String.eqb dsn ""); [by left|apply openMySQL_spec].
  - by left.
  - unfold buildDSN in Hb. by destruct (_ || _).
Qed.

Lemma redisclient_New_spec cfg s :
  wp (redisclient_New cfg) (fun r s' => hands_out redis_id (fun _ => False) r s s') s.
Proof.
  unfold redisclient_New. wp_step. wp_use redis_NewClient_law. intros [c|e|] s1; [|done..].
  intros [Hf Ho1]. wp_step. wp_step. wp_use redis_Ping_law. intros [[]|e|] s2 [Ho2 Hp]; [..|done].
  - apply wp_ret. split; [done|]. congruence.
  - wp_step. wp_use (ignoring_spec (redis_Close c) (opened s2 ∖ {[redis_id c]})); [apply redis_Close_law|].
    intros r s3 [Ho3 ->]. apply wp_fail. left. rewrite Ho3, Ho2, Ho1. by apply reopened.
Qed.

Lemma MigrationConfigFromEnv_no_panic gv : MigrationConfigFromEnv gv <> Panic.
Proof. unfold MigrationConfigFromEnv. cbv zeta. by destruct (_ <? _)%nat. Qed.

Lemma OpenMigrationDBFromEnv_spec gv s :
  wp (OpenMigrationDBFromEnv gv) (fun r s' => hands_out sql_id (fun _ => False) r s s') s.
Proof.
  unfold OpenMigrationDBFromEnv. pose proof (MigrationConfigFromEnv_no_panic gv) as Hn.
  destruct (MigrationConfigFromEnv gv) as [cfg|e|]; [|by left|done]. clear Hn.
  unfold OpenMigrationDB. wp_step. wp_step. wp_use sql_Open_law.
  intros [d|e|] s1; [intros [Hf Ho1]|by left|done].
  wp_step. wp_step. wp_use sql_Ping_law. intros [[]|e|] s2 [Ho2 Hp]; [..|done].
  - apply wp_ret. split; [done|]. congruence.
  - wp_step. wp_use (ignoring_spec (sql_Close d) (opened s2 ∖ {[sql_id d]})); [apply sql_Close_law|].
    intros r s3 [Ho3 ->]. apply wp_fail. left. rewrite Ho3, Ho2, Ho1. by apply reopened.
Qed.
End drivers.

(** * The commands *)

Section commands.
Context {STO : Storage} {G : Gorm} {SS : Store} {E : Env} {UT : UnicodeTables} {J : JWT}.
Context {B : Bcrypt} {JB : JSONBinding}.
Context {US : UserStore} {AUS : AuthUserStore}.
Context {RR : RefreshTokenRepository} {RB : RBACRepository} {GIN : Gin} {GNL : GinLaws}.
Context {SYS : System} {D : Drivers} {DL : DriversLaws}.

(** The connections of the process. *)
Definition conn (p : Proc) : gset nat := opened (pr_outside p).

Definition store_conns (s : AppStore) : gset nat :=
  match s with AppMemory => ∅ | AppRedis c => {[redis_id c]} end.

(** The one path that leaves a connection open: gorm has opened the database
    and does not give its handle. *)
Definition handle_lost (e : error) : Prop := exists c,
  e = Errorf "failed to connect database" (Errorf "get mysql db failed" c) \/
  e = Errorf "get database handle failed" c.

Lemma wp_outside {A} (m : ST error OS A) (Q : outcome error A -> Proc -> Prop) p :
  wp m (fun r o => Q r (mkProc (pr_world p) o)) (pr_outside p) -> wp (outside m) Q p.
Proof. exact (wp_zoom pr_outside (fun o q => mkProc (pr_world q) o) m Q p). Qed.

Lemma wp_pure_result {A} (r : res A) (Q : outcome error A -> Proc -> Prop) p :
  Q r p -> wp (pure_result r) Q p.
Proof. done. Qed.

Lemma closing_spec m X p :
  wp m (fun r s' => opened s' = X /\ r <> Panic) (pr_outside p) ->
  wp (closing m) (fun r p' => conn p' = X /\ r = Ok tt) p.
Proof. intros Hm. unfold closing. apply wp_outside. by wp_use (ignoring_spec m X _ Hm). Qed.

(** What runs under a deferred closing of a connection leaves it open, and the
    closing takes it away. *)
Lemma defer_close {A} (id : nat) (close : ST error OS unit) (m : P A) X Q p :
  id ∉ X ->
  (forall s, wp close (fun r s' => opened s' = opened s ∖ {[id]} /\ r <> Panic) s) ->
  wp m (fun r p1 => conn p1 = {[id]} ∪ X /\ Q r) p ->
  wp (defer (closing close) m) (fun r p' => conn p' = X /\ Q r) p.
Proof.
  intros Hid Hc Hm. wp_step. wp_use Hm. intros r p1 [Hp1 HQ].
  wp_use (closing_spec close (conn p1 ∖ {[id]}) p1); [apply Hc|].
  intros r' p2 [Hp2 ->]. split; [|done]. rewrite Hp2, Hp1. by apply reopened.
Qed.

Lemma defer_store {A} s (m : P A) X Q p :
  store_conns s ## X ->
  wp m (fun r p1 => conn p1 = store_conns s ∪ X /\ Q r) p ->
  wp (defer (closing (store_Close s)) m) (fun r p' => conn p' = X /\ Q r) p.
Proof.
  intros Hd Hm. destruct s as [|c]; simpl in *.
  - wp_step. wp_use Hm. intros r p1 [Hp1 HQ]. cbn. split; [|done].
    change (conn p1 = X). rewrite Hp1. set_solver.
  - eapply (defer_close (redis_id c)); [set_solver|intros s; apply redis_Close_law|done].
Qed.

Section run.
Variables (serving : http_Server -> Z -> P unit) (health : GormDB -> HealthDB) (build : Info).
Abbreviation deps := (defaultAppDeps health build).
Hypothesis serving_keeps : forall server timeout p,
  wp (serving server timeout) (fun _ p' => conn p' = conn p) p.

(** The server of a configuration. *)
Definition server_of (cfg : Config) (h : verdict -> http_Handler) : http_Server :=
  default_newServer (":" +:+ format_int (sc_Port (Server cfg))) h (hs_Server (cfg_HttpServer cfg)).

Definition config_manager (cfg : Config) : res TokenManager :=
  NewTokenManagerWithTTL (jc_Secret (cfg_JWT cfg)) "go-user-system"
    (mul64 (jc_AccessTokenExpireMinutes (cfg_JWT cfg)) Minute)
    (mul64 (jc_RefreshTokenExpireHours (cfg_JWT cfg)) Hour).

(** The server ran: on a loaded configuration, the router built for it, the
    store it asks for and with its connections open, and [r] is how it ended. *)
Definition served (X : gset nat) (r : outcome error unit) : Prop :=
  exists cfg db tm store h p1 p2,
    Load "config.yml" = Some (Ok cfg) /\ config_manager cfg = Ok tm /\
    SetupRouter true (Some (health db)) tm build [auth_runtime cfg] = inr h /\
    (store = AppMemory <-> rc_Enabled (Redis cfg) = false) /\
    conn p1 = store_conns store ∪ ({[gorm_id db]} ∪ X) /\
    serving (server_of cfg h) (10 * Second) p1 = (r, p2).

Definition startup_messages : list string :=
  ["load config failed"; "failed to connect database"; "get database handle failed";
   "new token manager failed"; "initialize authentication state store failed"].

(** The process ended before it served anything. *)
Definition refused_to_start (r : outcome error unit) : Prop :=
  exists e, r = Err e /\
    (LoadEnv = Some (Some e) \/ exists msg c, In msg startup_messages /\ e = Errorf msg c).

Lemma refused_by msg c : In msg startup_messages -> refused_to_start (Err (Errorf msg c)).
Proof. intros Hm. eexists. split; [done|]. right. by exists msg, c. Qed.

Lemma NewTokenManagerWithTTL_no_panic s i a r : NewTokenManagerWithTTL s i a r <> Panic.
Proof.
  unfold NewTokenManagerWithTTL. cbv zeta.
  repeat match goal with |- (if ?b then _ else _) <> _ => destruct b; [done|] end. done.
Qed.

Lemma newAuthStateStore_spec cfg p :
  wp (default_newAuthStateStore cfg) (fun r p' =>
    match r with
    | Ok s => store_conns s ## conn p /\ conn p' = store_conns s ∪ conn p /\
              (s = AppMemory <-> rc_Enabled cfg = false)
    | Err _ => conn p' = conn p
    | Panic => False
    end) p.
Proof.
  unfold default_newAuthStateStore. destruct (rc_Enabled cfg) eqn:Hen; simpl.
  - wp_step. apply wp_outside. wp_use redisclient_New_spec. intros [c|e|] s' Hr; simpl in Hr; [| |done].
    + apply wp_ret. destruct Hr as [Hf Ho]. simpl. split; [unfold conn; set_solver|]. by split.
    + by destruct Hr.
  - apply wp_ret. simpl. split; [set_solver|]. split; [set_solver|]. by split.
Qed.

(** The part of [run] under the closing of the database. *)
Lemma serve_spec cfg db p X :
  Load "config.yml" = Some (Ok cfg) -> conn p = {[gorm_id db]} ∪ X ->
  wp (let! tokenManager := map_err (Errorf "new token manager failed") (pure_result (config_manager cfg)) in
      let! authStateStore := map_err (Errorf "initialize authentication state store failed")
        (default_newAuthStateStore (Redis cfg)) in
      defer (closing (store_Close authStateStore))
        (let! r := setupRouter deps db tokenManager (auth_runtime cfg) in
         serving (server_of cfg r) (10 * Second)))
     (fun r p' => conn p' = {[gorm_id db]} ∪ X /\ (served X r \/ refused_to_start r)) p.
Proof.
  intros Hload Hp. destruct (Load_ok _ _ Hload) as [Hsound _].
  wp_step. wp_step. apply wp_pure_result. unfold config_manager.
  pose proof (NewTokenManagerWithTTL_no_panic (jc_Secret (cfg_JWT cfg)) "go-user-system"
    (mul64 (jc_AccessTokenExpireMinutes (cfg_JWT cfg)) Minute)
    (mul64 (jc_RefreshTokenExpireHours (cfg_JWT cfg)) Hour)) as Hn.
  destruct (NewTokenManagerWithTTL _ _ _ _) as [tm|e|] eqn:Htm; [|split; [done|right; apply refused_by; simpl; tauto]|done].
  wp_step. wp_step. wp_use newAuthStateStore_spec.
  intros [store|e|] p1; [|intros Hp1; split; [congruence|right; apply refused_by; simpl; tauto]|done].
  intros (Hdis & Hp1 & Hs). rewrite Hp in Hdis, Hp1. apply defer_store; [done|].
  assert (gin_SetTrustedProxies (ar_TrustedProxies (auth_runtime cfg)) = None) as Hproxies.
  { apply proxies_law, Forall_forall. intros q Hq. apply orb_true_iff, (sv_proxies _ Hsound).
    by apply list_elem_of_In. }
  wp_step. cbn [defaultAppDeps setupRouter].
  destruct (SetupRouter_accepts true (Some (health db)) tm build _ Hproxies) as [h Hset].
  rewrite Hset.
  apply wp_ret. apply wp_intro. intros r p2 Hrun.
  pose proof (wp_run _ _ _ _ _ (serving_keeps _ _ p1) Hrun) as Hk. simpl in Hk. rewrite Hk, Hp1.
  split; [done|]. left. by exists cfg, db, tm, store, h, p1, p2.
Qed.

(** ** The preamble of the commands *)

Hypothesis cwd : absolute_cwd.

Lemma wp_loadEnv (Q : outcome error unit -> Proc -> Prop) p :
  Q (Ok tt) p -> (forall e, LoadEnv = Some (Some e) -> Q (Err e) p) -> wp (loadEnv deps) Q p.
Proof.
  intros Hok Herr. cbn [defaultAppDeps loadEnv]. unfold searched. apply wp_pure_result.
  destruct (LoadEnv_total cwd) as [[e|] He]; rewrite He; simpl; [by apply Herr|done].
Qed.

Lemma wp_loadConfig path (Q : outcome error Config -> Proc -> Prop) p :
  (forall cfg, Load path = Some (Ok cfg) -> Q (Ok cfg) p) -> (forall e, Q (Err e) p) ->
  wp (loadConfig deps path) Q p.
Proof.
  intros Hok Herr. cbn [defaultAppDeps loadConfig]. unfold searched. apply wp_pure_result.
  destruct (Load_total path cwd) as ([cfg|e|] & Hl & Hn); rewrite Hl; simpl; [by apply Hok|done|done].
Qed.

(** Opening the database and getting its handle. *)
Lemma wp_open_db {A} cfg (k : GormDB -> SqlDB -> P A) (Q : outcome error A -> Proc -> Prop) p :
  (forall db d p1, gorm_id db ∉ conn p -> sql_id d = gorm_id db ->
     conn p1 = {[gorm_id db]} ∪ conn p -> wp (k db d) Q p1) ->
  (forall msg c p1, In msg startup_messages ->
     conn p1 = conn p \/ handle_lost (Errorf msg c) -> Q (Err (Errorf msg c)) p1) ->
  wp (let! db := map_err (Errorf "failed to connect database") (initDB deps cfg) in
      let! sqlDB := map_err (Errorf "get database handle failed") (outside (gorm_DB db)) in
      k db sqlDB) Q p.
Proof.
  intros Hk Herr. wp_step. wp_step. cbn [defaultAppDeps initDB]. apply wp_outside.
  wp_use InitDB_spec. intros [db|e|] o1 Hdb; [|apply Herr; [simpl; tauto|]|done].
  - destruct Hdb as [Hf Ho]. wp_step. wp_step. apply wp_outside. wp_use gorm_DB_law.
    intros [d|e|] o2 [Ho2 Hd]; [|apply Herr; [simpl; tauto|right; exists e; by right]|done].
    apply Hk; [done|done|]. unfold conn. simpl in *. congruence.
  - destruct Hdb as [Ho|[c ->]]; [by left|]. right. exists c. by left.
Qed.

Lemma run_spec p :
  wp (run serving deps) (fun r p' =>
    (conn p' = conn p \/ exists e, r = Err e /\ handle_lost e) /\
    (served (conn p) r \/ refused_to_start r)) p.
Proof.
  unfold run. wp_step. apply wp_loadEnv.
  2:{ intros e He. split; [by left|]. right. exists e. split; [done|by left]. }
  wp_step. wp_step. apply wp_loadConfig; [intros cfg Hload|intros e; split; [by left|right; apply refused_by; simpl; tauto]].
  apply wp_open_db.
  - intros db d p1 Hf Hd Hp1. rewrite <- Hd in Hf, Hp1.
    eapply wp_mono; [apply (defer_close (sql_id d) (sql_Close d) _ (conn p)
      (fun r => served (conn p) r \/ refused_to_start r)); [done|intros s; apply sql_Close_law|]|].
    + rewrite Hd in Hp1 |- *. exact (serve_spec cfg db p1 (conn p) Hload Hp1).
    + intros r p2 [Hp2 Hr]. split; [by left|done].
  - intros msg c p1 Hm Hc. split; [|right; by apply refused_by].
    destruct Hc as [Hc|Hc]; [by left|]. right. by eexists.
Qed.

(** Services hold no connection. *)
Lemma wp_on_world {A} (m : M A) (Q : outcome error A -> Proc -> Prop) p :
  (forall r p', conn p' = conn p -> Q r p') -> wp (on_world m) Q p.
Proof.
  intros HQ. unfold on_world. apply wp_zoom, wp_intro. intros r w _. by apply HQ.
Qed.

Lemma runBootstrapAdmin_spec p :
  wp (runBootstrapAdmin deps) (fun r p' =>
    conn p' = conn p \/ exists e, r = Err e /\ handle_lost e) p.
Proof.
  unfold runBootstrapAdmin. wp_step. apply wp_loadEnv; [|by left].
  destruct (_ || _); [by left|]. wp_step. wp_step. apply wp_loadConfig; [intros cfg Hload|by left].
  apply wp_open_db.
  - intros db d p1 Hf Hd Hp1. rewrite <- Hd in Hf, Hp1.
    eapply wp_mono; [apply (defer_close (sql_id d) (sql_Close d) _ (conn p) (fun _ => True));
                     [done|intros s; apply sql_Close_law|]|].
    + wp_step. cbn [defaultAppDeps bootstrapAdmin]. apply wp_on_world. intros [[]|e|] p2 Hp2; by rewrite Hp2.
    + intros r p2 [Hp2 _]. by left.
  - intros msg c p1 _ [Hc|Hc]; [by left|]. right. by eexists.
Qed.

Lemma runMigrateUp_spec p : wp (runMigrateUp deps) (fun _ p' => conn p' = conn p) p.
Proof.
  unfold runMigrateUp. wp_step. apply wp_loadEnv; [|done]. wp_step. wp_step.
  cbn [defaultAppDeps openMigrationDB]. apply wp_outside. wp_use OpenMigrationDBFromEnv_spec.
  intros [d|e|] o1 Hd; [|by destruct Hd|done]. destruct Hd as [Hf Ho].
  eapply wp_mono; [apply (defer_close (sql_id d) (sql_Close d) _ (conn p) (fun _ => True));
                   [done|intros s; apply sql_Close_law|]|by intros r p2 [Hp2 _]].
  wp_step. cbn [defaultAppDeps migrateUp]. wp_step. apply wp_outside. wp_use goose_SetDialect_law.
  intros [[]|e|] o2 [Ho2 _]; [|split; [unfold conn in *; simpl in *; congruence|done]..].
  apply wp_outside. wp_use goose_Up_law.
  intros [[]|e|] o3 [Ho3 _]; split; try done; unfold conn in *; simpl in *; congruence.
Qed.
End run.
End commands.
