(* ===== verification/System.v ===== *)
(** The running system: any number of requests in progress at once, each of
    them a sequence of service calls, over one database.

    A step is one call of a service that may write, with any arguments; or the
    one statement or transaction with which such a call writes, where other
    statements of the call come before it; or anything that leaves the tables
    alone: a call that only reads, the clock, the shared store, a restart. What
    the HTTP layer does is a path of such steps ([serve_steps]), and so is what
    requests do that run at the same time (Threads). *)
From S2P Require Import Prelude GoTime GoStrings Sha256 GoErrors Model Gorm AuthState World.
From S2P Require Import Dao RefreshRepo RbacRepo TokenManager AuthService UserService RbacService.
From S2P Require Import Web Metrics UserHandler RbacHandler Middleware.
From S2P Require Import TokenTheorems AuthTheorems UserTheorems RbacTheorems HttpTheorems.
From S2P Require Import EndpointTheorems.

Section system.
Context {STO : Storage} {G : Gorm} {SS : Store}.
Context {E : Env} {UT : UnicodeTables} {J : JWT} {B : Bcrypt} {JB : JSONBinding}.
Context {US : UserStore} {AUS : AuthUserStore}.
Context {RR : RefreshTokenRepository} {RB : RBACRepository}.

(** * Steps *)

Inductive service_step : World -> World -> Prop :=
| step_quiet w w' : same_tables w w' -> service_step w w'
| step_register s req w r w' : Register s req w = (r, w') -> service_step w w'
| step_login s req w r w' : Login s req w = (r, w') -> service_step w w'
| step_nickname s uid name w r w' : UpdateNickname s uid name w = (r, w') -> service_step w w'
| step_password s uid req w r w' : UpdateUserPassword s uid req w = (r, w') -> service_step w w'
| step_bootstrap s req w r w' : BootstrapAdmin s req w = (r, w') -> service_step w w'
| step_roles s uid codes w r w' : AssignRolesToUser s uid codes w = (r, w') -> service_step w w'
| step_store s uid it hash w r w' :
    (** a login stores the token it issued *)
    StoreRefreshToken s (Some (refreshTokenModel uid it hash)) w = (r, w') -> service_step w w'
| step_rotate s uid ver jti hash next w r w' :
    RotateRefreshToken s uid ver jti hash next w = (r, w') -> service_step w w'
| step_revoke s uid jti hash w r w' :
    RevokeRefreshToken s uid jti hash w = (r, w') -> service_step w w'
| step_revoke_all s uid w r w' : RevokeAllRefreshTokens s uid w = (r, w') -> service_step w w'
(** the writes of [Register], [Login] and [UpdateNickname], which have read
    the account before *)
| step_create_user name hash w r w' :
    on_db (us_CreateUser (new_user name hash)) w = (r, w') -> service_step w w'
| step_create_with_role name hash w r w' :
    Transaction (createWithRole (new_user name hash)) w = (r, w') -> service_step w w'
| step_last_login uid t w r w' :
    on_db (us_UpdateLastLoginAtByID uid t) w = (r, w') -> service_step w w'
| step_set_nickname uid name w r w' :
    on_db (us_UpdateNicknameByID uid name) w = (r, w') -> service_step w w'.

(** A history of the system. *)
Definition history : World -> World -> Prop := rtc service_step.

(** * Calls that leave the tables alone *)

Definition quiet {A} (m : M A) : Prop := forall w, wp m (fun _ w' => same_tables w w') w.

Lemma quiet_ret {A} (a : A) : quiet (ret a).
Proof. by intros w. Qed.
Lemma quiet_fail {A} e : quiet (fail e : M A).
Proof. by intros w. Qed.
Lemma quiet_panic {A} : quiet (panic : M A).
Proof. by intros w. Qed.
Lemma quiet_of_res {A} (r : res A) : quiet (of_res r).
Proof. by intros w. Qed.
Lemma quiet_Now : quiet Now.
Proof. by intros w. Qed.
Lemma quiet_NewUUID : quiet NewUUID.
Proof. by intros w. Qed.

Lemma quiet_on_store {A} (m : ST error St A) : quiet (on_store m).
Proof. intros w. unfold wp, on_store, zoom. by destruct (m (w_store w)). Qed.

Lemma quiet_bind {A C} (m : M A) (k : A -> M C) :
  quiet m -> (forall a, quiet (k a)) -> quiet (bind m k).
Proof.
  intros Hm Hk w. wp_step. wp_use (Hm w). intros [a|e|] w1 H1; [|done..].
  wp_use (Hk a w1). intros r w2 H2. by transitivity w1.
Qed.

Lemma quiet_attempt {A} (m : M A) : quiet m -> quiet (attempt m).
Proof. intros Hm w. wp_step. wp_use (Hm w). by intros []. Qed.

Lemma quiet_map_err {A} f (m : M A) : quiet m -> quiet (map_err f m).
Proof. intros Hm w. wp_step. wp_use (Hm w). by intros []. Qed.

(** A call whose specification says so. *)
Lemma quiet_spec {A} (m : M A) (P : World -> res A -> World -> Prop) :
  (forall w, wp m (P w) w) -> (forall w r w', P w r w' -> same_tables w w') -> quiet m.
Proof. intros Hm HP w. wp_use (Hm w). apply HP. Qed.
End system.

Create HintDb quiet discriminated.
#[export] Hint Constants Opaque : quiet.
#[export] Hint Resolve quiet_ret quiet_fail quiet_panic quiet_of_res quiet_Now quiet_NewUUID
  quiet_on_store quiet_attempt quiet_map_err : quiet.

(** Shows that a service call written in the monad is quiet. *)
Ltac quiet_run :=
  repeat first
    [ solve [eauto with quiet typeclass_instances nocore]
    | lazymatch goal with
      | |- quiet (bind _ _) => apply quiet_bind; [|intros ?]
      | |- quiet (attempt _) => apply quiet_attempt
      | |- quiet (map_err _ _) => apply quiet_map_err
      | |- quiet (if ?b then _ else _) => destruct b
      | |- quiet (match ?x with _ => _ end) => destruct x
      end ].

Section calls.
Context {STO : Storage} {G : Gorm} {GL : GormLaws} {SS : Store}.
Context {E : Env} {UT : UnicodeTables} {J : JWT} {JL : JWTLaws}.
Context {B : Bcrypt} {JB : JSONBinding}.
Context {US : UserStore} {UL : UserStoreLaws} {AUS : AuthUserStore} {AUL : AuthUserStoreLaws}.
Context {RR : RefreshTokenRepository} {RB : RBACRepository} {RBL : RBACRepositoryLaws}.

Lemma generateToken_quiet m uid un ver ty ttl : quiet (generateToken m uid un ver ty ttl).
Proof. unfold generateToken. quiet_run. Qed.

Lemma GenerateAccessToken_quiet m uid un ver : quiet (GenerateAccessToken m uid un ver).
Proof. unfold GenerateAccessToken. quiet_run. apply generateToken_quiet. Qed.

Lemma GenerateRefreshToken_quiet m uid un ver : quiet (GenerateRefreshToken m uid un ver).
Proof. apply generateToken_quiet. Qed.

Lemma ParseAccessToken_quiet m tok : quiet (ParseAccessToken m tok).
Proof. eapply quiet_spec; [intros w; apply ParseAccessToken_spec|]. by intros w r w' [-> _]. Qed.

Lemma ParseRefreshToken_quiet m tok : quiet (ParseRefreshToken m tok).
Proof. eapply quiet_spec; [intros w; apply ParseRefreshToken_spec|]. by intros w r w' [-> _]. Qed.

Lemma find_user_quiet uid : quiet (on_db (aus_GetUserByID uid)).
Proof.
  intros w. eapply (wp_first TUsers); [apply aus_get_law|intros u w' Hw _ _|intros e w' Hw _ _];
    by apply same_world_tables.
Qed.

Lemma ValidateAccessToken_quiet s claims : quiet (ValidateAccessToken s claims).
Proof.
  unfold ValidateAccessToken, requireDB, with_stateStore. quiet_run. apply find_user_quiet.
Qed.

Lemma RevokeAccessToken_quiet s jti exp : quiet (RevokeAccessToken s jti exp).
Proof. unfold RevokeAccessToken. cbv zeta. quiet_run. Qed.

Lemma CheckLoginAllowed_quiet s a ip : quiet (CheckLoginAllowed s a ip).
Proof. unfold CheckLoginAllowed. quiet_run. Qed.

Lemma RecordLoginFailure_quiet s a ip : quiet (RecordLoginFailure s a ip).
Proof. unfold RecordLoginFailure. quiet_run. Qed.

Lemma ResetLoginFailures_quiet s a : quiet (ResetLoginFailures s a).
Proof. unfold ResetLoginFailures. quiet_run. Qed.

Lemma GetProfile_quiet s uid : quiet (GetProfile s uid).
Proof.
  eapply quiet_spec; [intros w; apply GetProfile_spec|]. intros w r w' [Hw _].
  by apply same_world_tables.
Qed.

Lemma read_quiet {A} (m : M A) ok : (forall w, wp m (read_post (ok w) w) w) -> quiet m.
Proof. intros Hm. eapply quiet_spec; [apply Hm|]. by intros w r w' (_ & Ht & _). Qed.

Lemma ListRoles_quiet s : quiet (ListRoles s).
Proof. unfold ListRoles. quiet_run. eapply read_quiet, rb_list_roles_law. Qed.

Lemma ListPermissions_quiet s : quiet (ListPermissions s).
Proof. unfold ListPermissions. quiet_run. eapply read_quiet, rb_list_permissions_law. Qed.

Lemma HasPermission_quiet s uid code : quiet (HasPermission s uid code).
Proof. unfold HasPermission. quiet_run. eapply read_quiet. intros w. apply rb_has_permission_law. Qed.

Lemma GetUserAuthorization_quiet s uid : quiet (GetUserAuthorization s uid).
Proof.
  unfold GetUserAuthorization. quiet_run; eapply read_quiet; intros w;
    [apply rb_user_roles_law|apply rb_user_permissions_law].
Qed.

Lemma ensureRequestID_quiet rq : quiet (ensureRequestID rq).
Proof. unfold ensureRequestID. quiet_run. Qed.
End calls.

#[export] Hint Resolve GenerateAccessToken_quiet GenerateRefreshToken_quiet ParseAccessToken_quiet
  ParseRefreshToken_quiet ValidateAccessToken_quiet RevokeAccessToken_quiet CheckLoginAllowed_quiet
  RecordLoginFailure_quiet ResetLoginFailures_quiet GetProfile_quiet ListRoles_quiet
  ListPermissions_quiet HasPermission_quiet GetUserAuthorization_quiet ensureRequestID_quiet : quiet.

(** * Requests are histories *)

Section requests.
Context {STO : Storage} {G : Gorm} {GL : GormLaws} {SS : Store}.
Context {E : Env} {UT : UnicodeTables} {J : JWT} {JL : JWTLaws}.
Context {B : Bcrypt} {JB : JSONBinding}.
Context {US : UserStore} {UL : UserStoreLaws} {AUS : AuthUserStore} {AUL : AuthUserStoreLaws}.
Context {RR : RefreshTokenRepository} {RB : RBACRepository} {RBL : RBACRepositoryLaws}.

(** However it ends, [m] took the world along a history. *)
Definition steps {A} (m : H A) : Prop := forall c w,
  wp m (fun _ '(_, w') => history w w') (c, w).

Lemma steps_ret {A} (a : A) : steps (ret a).
Proof. intros c w. apply rtc_refl. Qed.
Lemma steps_panic {A} : steps (panic : H A).
Proof. intros c w. apply rtc_refl. Qed.
Lemma steps_on_context f : steps (on_context f).
Proof. intros c w. apply rtc_refl. Qed.
Lemma steps_gets {A} (f : Context * World -> A) : steps (gets f).
Proof. intros c w. apply rtc_refl. Qed.

Lemma steps_bind {A C} (m : H A) (k : A -> H C) :
  steps m -> (forall a, steps (k a)) -> steps (bind m k).
Proof.
  intros Hm Hk c w. wp_step. wp_use (Hm c w). intros [a|[]|] [c1 w1] H1; [|done].
  wp_use (Hk a c1 w1). intros r [c2 w2] H2. by transitivity w1.
Qed.

Lemma steps_call {A} (m : M A) : (forall w r w', m w = (r, w') -> service_step w w') -> steps (call m).
Proof.
  intros Hm c w. h_step. apply wp_intro. intros r w' Hrun.
  destruct r; apply rtc_once; by eapply Hm.
Qed.

Lemma steps_quiet {A} (m : M A) : quiet m -> steps (call m).
Proof.
  intros Hm. apply steps_call. intros w r w' Hrun. apply step_quiet.
  exact (wp_run _ _ _ _ _ (Hm w) Hrun).
Qed.

Lemma steps_handleError e code msg : steps (handleError e code msg).
Proof. unfold handleError. destruct (FromError e); apply steps_on_context. Qed.

Lemma steps_lift {A} (m : M A) (k : A -> H unit) : quiet m -> (forall a, steps (k a)) -> steps (lift m k).
Proof.
  intros Hm Hk. unfold lift. apply steps_bind; [by apply steps_quiet|].
  intros [e|a]; [apply steps_panic|apply Hk].
Qed.
End requests.

Create HintDb steps discriminated.
#[export] Hint Constants Opaque : steps.
#[export] Hint Resolve steps_ret steps_panic steps_on_context steps_gets steps_handleError : steps.
#[export] Hint Extern 1 (steps (call _)) =>
  apply steps_call; intros ? ? ? ?; econstructor; eassumption : steps.
#[export] Hint Extern 2 (steps (call _)) => apply steps_quiet; solve [eauto with quiet typeclass_instances nocore] : steps.
#[export] Hint Extern 1 (steps (Success _)) => apply steps_on_context : steps.
#[export] Hint Extern 1 (steps (Fail _ _ _)) => apply steps_on_context : steps.
#[export] Hint Extern 1 (steps c_Abort) => apply steps_on_context : steps.
#[export] Hint Extern 1 (steps (c_Set _ _)) => apply steps_on_context : steps.
#[export] Hint Extern 1 (steps (c_Header _ _)) => apply steps_on_context : steps.
#[export] Hint Extern 1 (steps (SetCookie _)) => apply steps_on_context : steps.
#[export] Hint Extern 1 (steps (SetReady _)) => apply steps_on_context : steps.
#[export] Hint Extern 1 (steps request) => apply steps_gets : steps.
#[export] Hint Extern 1 (steps (c_Get _)) => apply steps_gets : steps.

(** Walks through a handler. *)
Ltac steps_run :=
  cbv zeta;
  repeat first
    [ solve [eauto with steps typeclass_instances nocore]
    | lazymatch goal with
      | |- steps (bind _ _) => apply steps_bind; [|intros ?]
      | |- steps (if ?b then _ else _) => destruct b
      | |- steps (match ?x with _ => _ end) => destruct x
      end ].

Section handlers.
Context {STO : Storage} {G : Gorm} {GL : GormLaws} {SS : Store}.
Context {E : Env} {UT : UnicodeTables} {J : JWT} {JL : JWTLaws}.
Context {B : Bcrypt} {JB : JSONBinding}.
Context {US : UserStore} {UL : UserStoreLaws} {AUS : AuthUserStore} {AUL : AuthUserStoreLaws}.
Context {RR : RefreshTokenRepository} {RB : RBACRepository} {RBL : RBACRepositoryLaws}.

Lemma RegisterHandler_steps h : steps (RegisterHandler h).
Proof. unfold RegisterHandler, badRequest. steps_run. Qed.

Lemma issueLoginTokens_steps h u : steps (issueLoginTokens h u).
Proof. unfold issueLoginTokens, setRefreshTokenCookie. steps_run. Qed.

Lemma respondLoginRateLimited_steps d : steps (respondLoginRateLimited d).
Proof. unfold respondLoginRateLimited. steps_run. Qed.

Lemma refuseLogin_steps h req ip e : steps (refuseLogin h req ip e).
Proof. unfold refuseLogin, respondLoginRateLimited. steps_run. Qed.

Lemma LoginHandler_steps h : steps (LoginHandler h).
Proof.
  unfold LoginHandler, respondLoginRateLimited, badRequest. steps_run;
    [apply refuseLogin_steps|apply issueLoginTokens_steps..].
Qed.

Lemma RefreshTokenHandler_steps h : steps (RefreshTokenHandler h).
Proof.
  unfold RefreshTokenHandler, clearRefreshTokenCookie, setRefreshTokenCookie,
    handleRefreshTokenParseError, badRequest. steps_run.
Qed.

Lemma LogoutHandler_steps h : steps (LogoutHandler h).
Proof.
  unfold LogoutHandler, optionalAccessToken, logoutRefreshToken, clearRefreshTokenCookie,
    handleRefreshTokenParseError, badRequest. steps_run.
Qed.

Lemma MeHandler_steps h : steps (MeHandler h).
Proof. unfold MeHandler, callerID. steps_run. Qed.

Lemma UpdateProfileHandler_steps h : steps (UpdateProfileHandler h).
Proof. unfold UpdateProfileHandler, callerID, badRequest. steps_run. Qed.

Lemma UpdateUserPasswordHandler_steps h : steps (UpdateUserPasswordHandler h).
Proof.
  unfold UpdateUserPasswordHandler, callerID, clearRefreshTokenCookie, badRequest. steps_run.
Qed.

Lemma ListRolesHandler_steps h : steps (ListRolesHandler h).
Proof. unfold ListRolesHandler. steps_run. Qed.

Lemma ListPermissionsHandler_steps h : steps (ListPermissionsHandler h).
Proof. unfold ListPermissionsHandler. steps_run. Qed.

Lemma GetMyAuthorizationHandler_steps h : steps (GetMyAuthorizationHandler h).
Proof. unfold GetMyAuthorizationHandler, authenticatedUser. steps_run. Qed.

Lemma AssignUserRolesHandler_steps h : steps (AssignUserRolesHandler h).
Proof. unfold AssignUserRolesHandler. steps_run. Qed.

(** The pings of the readiness check leave the tables alone. *)
Definition quiet_health (h : HealthHandler) : Prop :=
  match hh_db h with Some db => quiet (hd_DB db) /\ quiet (hd_Ping db) | None => True end /\
  forall m, In (Some m) (hh_checkers h) -> quiet m.

Lemma pingCheckers_steps l : (forall m, In (Some m) l -> quiet m) -> steps (pingCheckers l).
Proof.
  induction l as [|[m|] l IH]; intros Hl; simpl; [steps_run|..].
  - apply steps_bind; [apply steps_quiet, Hl; by left|].
    intros [e|[]]; [steps_run|]. apply IH. intros m' Hm'. apply Hl. by right.
  - apply IH. intros m' Hm'. apply Hl. by right.
Qed.

Lemma ReadyzHandler_steps h : quiet_health h -> steps (ReadyzHandler h).
Proof.
  unfold quiet_health. intros [Hdb Hl]. unfold ReadyzHandler, failReadiness, recordReadiness.
  destruct (hh_db h) as [db|]; [|steps_run]. destruct Hdb as [H1 H2].
  steps_run; [by apply steps_quiet..|by apply pingCheckers_steps].
Qed.

Lemma AuthMiddleware_steps m vs : steps (AuthMiddleware m vs).
Proof. unfold AuthMiddleware, abortWith. steps_run. Qed.

Lemma RequirePermission_steps checker p : steps (RequirePermission checker p).
Proof. unfold RequirePermission, authenticatedUser, abortWith. steps_run. Qed.

Lemma RequestID_steps : steps RequestID.
Proof.
  unfold RequestID. steps_run. apply steps_lift; [quiet_run|intros id].
  apply steps_lift; [quiet_run|intros id'; steps_run].
Qed.

Lemma Recovery_steps m : steps m -> steps (Recovery m).
Proof.
  intros Hm c w. specialize (Hm c w). unfold Recovery, wp in *.
  destruct (m (c, w)) as [[a|[]|] [c' w']]; [done|]. by case_bool_decide.
Qed.

Lemma RouteMiddleware_steps p : steps (RouteMiddleware p).
Proof. intros c w. unfold wp, RouteMiddleware. destruct (cx_Route c); reflexivity. Qed.

Lemma AccessLog_steps p m : steps m -> steps (AccessLog p m).
Proof.
  intros Hm. unfold AccessLog. apply steps_lift; [quiet_run|intros start].
  apply steps_bind; [steps_run|intros rq]. apply steps_bind; [steps_run|intros id].
  apply steps_bind; [done|intros _]. apply steps_bind; [steps_run|intros st].
  apply steps_lift; [quiet_run|intros now; steps_run].
Qed.

Lemma chain_steps ms : Forall steps ms -> steps (chain_of ms).
Proof.
  induction 1 as [|m ms Hm _ IH]; simpl; [steps_run|].
  apply steps_bind; [done|intros _]. apply steps_bind; [apply steps_gets|].
  intros []; [apply steps_ret|done].
Qed.

Hint Resolve RegisterHandler_steps LoginHandler_steps RefreshTokenHandler_steps LogoutHandler_steps
  MeHandler_steps UpdateProfileHandler_steps UpdateUserPasswordHandler_steps ListRolesHandler_steps
  ListPermissionsHandler_steps GetMyAuthorizationHandler_steps AssignUserRolesHandler_steps
  ReadyzHandler_steps AuthMiddleware_steps RequirePermission_steps : steps.

Lemma routes_steps hs registration route :
  quiet_health (hs_health hs) -> In route (routes hs registration) -> Forall steps (ro_Handlers route).
Proof.
  intros Hq Hin. unfold routes, registerAPIRoutes, registerAuthRoutes in Hin.
  rewrite !in_app_iff in Hin.
  destruct registration;
    repeat (destruct Hin as [Hin|Hin]); try done; subst route; cbn [ro_Handlers];
    unfold authenticate, require, PingHandler, LivezHandler, VersionHandler;
    repeat constructor; eauto with steps typeclass_instances nocore.
Qed.

Lemma serve_steps hs registration route rq w r c' w' :
  quiet_health (hs_health hs) -> In route (routes hs registration) ->
  serve route (new_context rq, w) = (r, (c', w')) -> history w w'.
Proof.
  intros Hq Hin Hrun.
  assert (steps (serve route)) as Hs.
  { unfold serve. apply steps_bind; [apply RequestID_steps|intros _].
    apply steps_bind; [apply RouteMiddleware_steps|intros _].
    by eapply AccessLog_steps, Recovery_steps, chain_steps, routes_steps. }
  specialize (Hs (new_context rq) w). unfold wp in Hs. by rewrite Hrun in Hs.
Qed.
End handlers.
