(* ===== verification/SystemTheorems.v ===== *)
(** What holds along every history of the system: the shape of the token
    table, and how accounts and tokens may change. *)
From S2P Require Import Prelude GoTime GoStrings Sha256 GoErrors Model Gorm AuthState World.
From S2P Require Import Dao RefreshRepo RbacRepo TokenManager AuthService UserService RbacService.
From S2P Require Import UserHandler AuthTheorems UserTheorems RbacTheorems System.

(** * Vocabulary *)

Section vocabulary.
Context {STO : Storage} {G : Gorm} {SS : Store}.

Definition same_family (a b : RefreshToken) : Prop := coll_eqb (t_FamilyID a) (t_FamilyID b) = true.

(** What a token is never changes. *)
Definition same_token (a b : RefreshToken) : Prop :=
  t_ID a = t_ID b /\ t_UserID a = t_UserID b /\ t_JTI a = t_JTI b /\
  t_FamilyID a = t_FamilyID b /\ t_TokenHash a = t_TokenHash b.

(** The invariant of the token table. Keys are unique; a family has a name,
    which is the identifier of a stored token; it belongs to one user; and at
    most one of its tokens is active. *)
Record sound_tokens (l : list RefreshToken) : Prop := {
  so_keys : keys_ok TRefreshTokens l;
  so_named : forall k, In k l -> t_FamilyID k <> "";
  so_root : forall k, In k l -> exists root, In root l /\ coll_eqb (t_JTI root) (t_FamilyID k) = true;
  so_owner : forall a b, In a l -> In b l -> same_family a b -> t_UserID a = t_UserID b;
  so_single : forall a b, In a l -> In b l -> same_family a b ->
    is_active a = true -> is_active b = true -> a = b;
}.

Definition sound_tables (w : World) : Prop :=
  keys_ok TUsers (tbl TUsers w) /\ sound_tokens (tbl TRefreshTokens w).

(** What a history may do to the accounts: none disappears, and the
    authentication version of each only grows. *)
Definition accounts_grow (w w' : World) : Prop :=
  forall u, In u (tbl TUsers w) -> exists u', In u' (tbl TUsers w') /\
    u_ID u' = u_ID u /\ u_Username u' = u_Username u /\ u_AuthVersion u <= u_AuthVersion u'.

(** And to the tokens: none disappears or changes its identity, and a revoked
    one does not change at all; *)
Definition tokens_kept (l l' : list RefreshToken) : Prop :=
  forall k, In k l -> exists k', In k' l' /\ same_token k k' /\ (is_active k = false -> k' = k).

(** an active one continues a family that was active, or is of a family that
    was not there. *)
Definition families_continue (l l' : list RefreshToken) : Prop :=
  forall k', In k' l' -> is_active k' = true ->
    (exists k, In k l /\ is_active k = true /\ same_family k k') \/
    (forall k, In k l -> ~ same_family k k').

Definition tokens_grow (l l' : list RefreshToken) : Prop := tokens_kept l l' /\ families_continue l l'.

(** Only active rows are touched, and they are revoked. *)
Definition revoking (p : RefreshToken -> bool) (f : RefreshToken -> RefreshToken) : Prop :=
  forall k, p k = true ->
    is_active k = true /\ same_token k (f k) /\ is_active (f k) = false.
End vocabulary.

#[export] Instance same_token_equivalence : Equivalence same_token.
Proof.
  split.
  - by intros a.
  - intros a b (? & ? & ? & ? & ?). by repeat split.
  - intros a b c (? & ? & ? & ? & ?) (? & ? & ? & ? & ?). repeat split; congruence.
Qed.

Section families.
Context {STO : Storage}.

#[export] Instance same_family_equivalence : Equivalence same_family.
Proof.
  unfold same_family. split.
  - intros a. apply coll_refl.
  - intros a b. apply coll_sym.
  - intros a b c. apply coll_trans.
Qed.

Lemma same_token_family a b c : same_token a b -> same_family a c <-> same_family b c.
Proof. unfold same_family. intros (_ & _ & _ & -> & _). done. Qed.

Lemma same_token_conflicts a b c :
  same_token a b -> conflicts TRefreshTokens a c = conflicts TRefreshTokens b c.
Proof. intros (Hi & _ & Hj & _ & Hh). simpl. by rewrite Hi, Hj, Hh. Qed.

Lemma same_token_sym_family a b : same_token a b -> same_family a b.
Proof. unfold same_family. intros (_ & _ & _ & -> & _). apply coll_refl. Qed.
End families.

Section growth.
Context {STO : Storage} {G : Gorm} {SS : Store}.

#[export] Instance accounts_grow_preorder : PreOrder accounts_grow.
Proof.
  split.
  - intros w u Hu. exists u. by split_and!; try lia.
  - intros a b c Hab Hbc u Hu. destruct (Hab u Hu) as (v & Hv & Hi & Hn & Hle).
    destruct (Hbc v Hv) as (x & Hx & Hi' & Hn' & Hle'). exists x.
    split; [done|]. split; [congruence|]. split; [congruence|lia].
Qed.

#[export] Instance tokens_kept_preorder : PreOrder tokens_kept.
Proof.
  split.
  - intros l k Hk. by exists k.
  - intros a b c Kab Kbc k Hk. destruct (Kab k Hk) as (k1 & Hk1 & Hs1 & Hr1).
    destruct (Kbc k1 Hk1) as (k2 & Hk2 & Hs2 & Hr2). exists k2. split; [done|].
    split; [by transitivity k1|]. intros Hi. specialize (Hr1 Hi) as ->. auto.
Qed.

#[export] Instance tokens_grow_preorder : PreOrder tokens_grow.
Proof.
  split.
  - intros l. split; [done|]. intros k Hk Ha. left. exists k. done.
  - intros a b c [Kab Aab] [Kbc Abc]. split; [by transitivity b|].
    intros k2 Hk2 Ha2. destruct (Abc k2 Hk2 Ha2) as [(k1 & Hk1 & Ha1 & Hf1)|Hnew].
    + destruct (Aab k1 Hk1 Ha1) as [(k & Hk & Ha & Hf)|Hnew].
      { left. exists k. split; [done|]. split; [done|]. by transitivity k1. }
      right. intros k Hk Hf. apply (Hnew k Hk). transitivity k2; [done|by symmetry].
    + right. intros k Hk Hf. destruct (Kab k Hk) as (k1 & Hk1 & Hs1 & _).
      apply (Hnew k1 Hk1). by apply (same_token_family k k1).
Qed.

Lemma same_accounts w w' : tbl TUsers w' = tbl TUsers w -> accounts_grow w w'.
Proof. intros Ht. unfold accounts_grow. rewrite Ht. apply (reflexivity (R:=accounts_grow) w). Qed.

(** ** Accounts *)

(** An UPDATE that keeps keys and does not lower versions. *)
Lemma update_accounts w w' p now f :
  tbl TUsers w' = update_where p (updated TUsers now f) (tbl TUsers w) ->
  (forall u, u_ID (f u) = u_ID u /\ u_Username (f u) = u_Username u /\
             u_AuthVersion u <= u_AuthVersion (f u)) ->
  accounts_grow w w' /\ (keys_ok TUsers (tbl TUsers w) -> keys_ok TUsers (tbl TUsers w')).
Proof.
  intros Hset Hf. split.
  - intros u Hu. exists (if p u then updated TUsers now f u else u).
    split; [rewrite Hset; apply in_update_where; by exists u|].
    destruct (Hf u) as (? & ? & ?). destruct (p u); [done|]. by split_and!; try lia.
  - intros Hk. rewrite Hset. apply (keys_ok_map TUsers); [|done]. intros a b.
    destruct (Hf a) as (Ha & Ha' & _), (Hf b) as (Hb & Hb' & _).
    destruct (p a), (p b); simpl; by rewrite ?Ha, ?Ha', ?Hb, ?Hb'.
Qed.

Lemma account_added_grow w w' u codes :
  account_added w w' u codes ->
  accounts_grow w w' /\ (keys_ok TUsers (tbl TUsers w) -> keys_ok TUsers (tbl TUsers w')).
Proof.
  intros (Hf & Hset & _). rewrite Hset. split.
  - intros x Hx. exists x. rewrite Hset. split; [apply in_or_app; by left|]. by split_and!; try lia.
  - intros Hk. by apply keys_ok_app.
Qed.

(** ** Tokens *)

(** Revoking rows keeps all that holds of the token table. *)
Lemma revoking_row p f k : revoking p f -> same_token k (if p k then f k else k).
Proof. intros Hr. destruct (p k) eqn:Hp; [by apply Hr|done]. Qed.

Lemma revoking_active p f k :
  revoking p f -> is_active (if p k then f k else k) = true -> p k = false.
Proof. intros Hr. destruct (p k) eqn:Hp; [|done]. apply Hr in Hp as (_ & _ & ->). done. Qed.

Lemma in_revoked p f l k' :
  revoking p f -> In k' (update_where p f l) -> exists k, In k l /\ same_token k k' /\
    (is_active k' = true -> k' = k /\ p k = false).
Proof.
  intros Hr Hk'. apply in_update_where in Hk' as (k & Hk & ->). exists k. split; [done|].
  split; [by apply revoking_row|]. intros Ha.
  pose proof (revoking_active _ _ _ Hr Ha) as Hp. by rewrite Hp.
Qed.

Lemma revoking_kept p f l : revoking p f -> tokens_kept l (update_where p f l).
Proof.
  intros Hr k Hk. exists (if p k then f k else k).
  split; [apply in_update_where; by exists k|]. split; [by apply revoking_row|].
  intros Hi. destruct (p k) eqn:Hp; [|done]. apply Hr in Hp as (Ha & _). congruence.
Qed.

Lemma revoking_grow p f l : revoking p f -> tokens_grow l (update_where p f l).
Proof.
  intros Hr. split; [by apply revoking_kept|]. intros k' Hk' Ha.
  destruct (in_revoked _ _ _ _ Hr Hk') as (k & Hk & _ & Hact). destruct (Hact Ha) as [-> _].
  left. by exists k.
Qed.

Lemma revoking_sound p f l : revoking p f -> sound_tokens l -> sound_tokens (update_where p f l).
Proof.
  intros Hr [Hk Hn Hroot Ho Hs]. split.
  - apply (keys_ok_map TRefreshTokens); [|done]. intros a b.
    rewrite <- (same_token_conflicts a) by (by apply revoking_row).
    rewrite !(conflicts_sym TRefreshTokens a).
    by rewrite <- (same_token_conflicts b) by (by apply revoking_row).
  - intros k' (k & Hk1 & (_ & _ & _ & <- & _) & _)%in_revoked; [|done]. by apply Hn.
  - intros k' (k & Hk1 & (_ & _ & _ & <- & _) & _)%in_revoked; [|done].
    destruct (Hroot k Hk1) as (r & Hr1 & Hj).
    destruct (revoking_kept _ _ _ Hr r Hr1) as (r' & Hr' & (_ & _ & Hjr & _) & _).
    exists r'. split; [done|]. by rewrite <- Hjr.
  - intros a' b' Ha Hb Hf.
    destruct (in_revoked _ _ _ _ Hr Ha) as (a & Ha1 & (_ & <- & _ & Hfa & _) & _).
    destruct (in_revoked _ _ _ _ Hr Hb) as (b & Hb1 & (_ & <- & _ & Hfb & _) & _).
    apply Ho; try done. unfold same_family. by rewrite Hfa, Hfb.
  - intros a' b' Ha Hb Hf Haa Hab.
    destruct (in_revoked _ _ _ _ Hr Ha) as (a & Ha1 & _ & Ea).
    destruct (in_revoked _ _ _ _ Hr Hb) as (b & Hb1 & _ & Eb).
    destruct (Ea Haa) as [-> _], (Eb Hab) as [-> _]. auto.
Qed.

(** A new row: no key of it is taken, its family has a root and its user owns
    it, and no other token of the family is active. *)
Lemma appended_sound l new :
  sound_tokens l -> Forall (fun k => conflicts TRefreshTokens k new = false) l ->
  t_FamilyID new <> "" ->
  (exists root, In root (l ++ [new]) /\ coll_eqb (t_JTI root) (t_FamilyID new) = true) ->
  (forall k, In k l -> same_family k new -> t_UserID k = t_UserID new /\ is_active k = false) ->
  sound_tokens (l ++ [new]).
Proof.
  intros [Hk Hn Hroot Ho Hs] Hf Hne Hrn Hfam. split.
  - by apply (keys_ok_app TRefreshTokens).
  - intros k [Hin|[<-|[]]]%in_app_or; auto.
  - intros k [Hin|[<-|[]]]%in_app_or; [|done]. destruct (Hroot k Hin) as (r & Hr & Hj).
    exists r. split; [apply in_or_app; by left|done].
  - intros a b [Ha|[<-|[]]]%in_app_or [Hb|[<-|[]]]%in_app_or Hab; [by apply Ho|..|done].
    + by apply Hfam.
    + symmetry. apply Hfam; [done|by symmetry].
  - intros a b [Ha|[<-|[]]]%in_app_or [Hb|[<-|[]]]%in_app_or Hab Haa Hba; [by apply Hs|..|done].
    + destruct (Hfam a Ha Hab) as [_ Hna]. congruence.
    + destruct (Hfam b Hb ltac:(by symmetry)) as [_ Hnb]. congruence.
Qed.

Lemma appended_kept l new : tokens_kept l (l ++ [new]).
Proof. intros k Hk. exists k. split; [apply in_or_app; by left|done]. Qed.

(** A login starts a family: the new token is its own root. *)
Lemma login_tokens l new :
  sound_tokens l -> Forall (fun k => conflicts TRefreshTokens k new = false) l ->
  t_FamilyID new = t_JTI new -> t_FamilyID new <> "" ->
  sound_tokens (l ++ [new]) /\ tokens_grow l (l ++ [new]).
Proof.
  intros Hl Hf Hroot Hne.
  assert (forall k, In k l -> ~ same_family k new) as Hfresh.
  { intros k Hk Hs. destruct (so_root l Hl k Hk) as (r & Hr & Hj).
    rewrite Forall_forall in Hf. specialize (Hf r (proj2 (list_elem_of_In _ _) Hr)).
    simpl in Hf. bool_to_prop. unfold same_family in Hs. rewrite Hroot in Hs.
    by rewrite (coll_trans _ _ _ Hj Hs) in *. }
  split.
  - apply appended_sound; try done.
    + exists new. split; [apply in_or_app; right; by left|]. rewrite Hroot. apply coll_refl.
    + intros k Hk Hs. by destruct (Hfresh k Hk).
  - split; [apply appended_kept|]. intros k [Hk|[<-|[]]]%in_app_or Ha; [left; by exists k|by right].
Qed.

(** A rotation hands the family on: [old], the active one, is revoked, and
    [new] takes its place. *)
Lemma rotation_tokens p f l old new :
  sound_tokens l -> revoking p f -> In old l -> is_active old = true -> p old = true ->
  Forall (fun k => conflicts TRefreshTokens k new = false) l ->
  t_FamilyID new = t_FamilyID old -> t_UserID new = t_UserID old ->
  sound_tokens (update_where p f l ++ [new]) /\ tokens_grow l (update_where p f l ++ [new]).
Proof.
  intros Hl Hr Hold Ha Hp Hf Hfam Hu.
  pose proof (revoking_sound p f l Hr Hl) as Hl1.
  assert (same_family old new) as Hon by (unfold same_family; rewrite Hfam; apply coll_refl).
  destruct (revoking_kept p f l Hr old Hold) as (old' & Hin' & Hs' & _).
  split.
  - apply appended_sound; [done|..].
    + rewrite Forall_forall in Hf |- *. intros k' Hk'%list_elem_of_In.
      destruct (in_revoked _ _ _ _ Hr Hk') as (k & Hk & Hs & _).
      rewrite <- (same_token_conflicts k k' new Hs). by apply Hf, list_elem_of_In.
    + rewrite Hfam. by apply (so_named l Hl).
    + rewrite Hfam. destruct Hs' as (_ & _ & _ & -> & _).
      destruct (so_root _ Hl1 old' Hin') as (r & Hr' & Hj). exists r.
      split; [apply in_or_app; by left|done].
    + intros k' Hk' Hs. destruct (in_revoked _ _ _ _ Hr Hk') as (k & Hk & Hsk & Hact).
      assert (same_family k old) as Hko.
      { apply (same_token_family k k'); [done|]. transitivity new; [done|by symmetry]. }
      destruct Hsk as (_ & <- & _). rewrite Hu. split; [by apply (so_owner l Hl)|].
      destruct (is_active k') eqn:Hak; [|done]. destruct (Hact eq_refl) as [-> Hpk].
      rewrite (so_single l Hl k old) in Hpk by done. congruence.
  - split; [transitivity (update_where p f l); [by apply revoking_kept|apply appended_kept]|].
    intros k [Hk|[<-|[]]]%in_app_or Hak; [|left; by exists old].
    by apply (revoking_grow p f l Hr).
Qed.
End growth.

(** * Every step *)

Section histories.
Context {STO : Storage} {G : Gorm} {GL : GormLaws} {SS : Store}.
Context {E : Env} {B : Bcrypt} {BL : BcryptLaws}.
Context {US : UserStore} {UL : UserStoreLaws} {AUS : AuthUserStore} {AUL : AuthUserStoreLaws}.
Context {RR : RefreshTokenRepository} {RL : RefreshTokenRepositoryLaws}.
Context {RB : RBACRepository} {RBL : RBACRepositoryLaws}.

(** What a step does in a sound world. *)
Definition progress (w w' : World) : Prop :=
  sound_tables w' /\ accounts_grow w w' /\ tokens_grow (tbl TRefreshTokens w) (tbl TRefreshTokens w').

Lemma progress_quiet w w' : sound_tables w -> same_tables w w' -> progress w w'.
Proof.
  intros Hs Ht. unfold progress, sound_tables, accounts_grow.
  rewrite <- (Ht TUsers), <- (Ht TRefreshTokens). split; [done|].
  split; [by apply same_accounts|done].
Qed.

(** A step that does not touch the tokens. *)
Lemma progress_accounts w w' :
  sound_tables w -> tbl TRefreshTokens w' = tbl TRefreshTokens w ->
  accounts_grow w w' /\ (keys_ok TUsers (tbl TUsers w) -> keys_ok TUsers (tbl TUsers w')) ->
  progress w w'.
Proof. intros [Hu Ht] Hset [Ha Hk]. unfold progress, sound_tables. rewrite Hset. by split_and!; auto. Qed.

(** A step that does not touch the accounts. *)
Lemma progress_tokens w w' l :
  sound_tables w -> sets w w' TRefreshTokens l -> sound_tokens l /\ tokens_grow (tbl TRefreshTokens w) l ->
  progress w w'.
Proof.
  intros [Hu Ht] [Hset Ho] [Hs Hg]. unfold progress, sound_tables, accounts_grow.
  rewrite Hset, (Ho TUsers) by done. split; [done|].
  split; [apply (reflexivity (R:=accounts_grow))|done].
Qed.

Lemma progress_revoking w w' p f :
  sound_tables w -> sets w w' TRefreshTokens (update_where p f (tbl TRefreshTokens w)) ->
  revoking p f -> progress w w'.
Proof.
  intros Hs Hset Hr. eapply progress_tokens; [done|exact Hset|].
  split; [apply revoking_sound; [done|apply Hs]|by apply revoking_grow].
Qed.

Lemma register_progress s req w r w' :
  sound_tables w -> Register s req w = (r, w') -> progress w w'.
Proof.
  intros Hs Hrun. apply (wp_run _ _ _ _ _ (Register_spec s req w)) in Hrun as [_ Hr].
  destruct r as [[]|e|]; [|by apply progress_quiet, Hr|done].
  destruct Hr as (_ & _ & _ & u & _ & Ha). apply progress_accounts; [done|by apply Ha|].
  by eapply account_added_grow.
Qed.

Lemma bootstrap_progress s req w r w' :
  sound_tables w -> BootstrapAdmin s req w = (r, w') -> progress w w'.
Proof.
  intros Hs Hrun. apply (wp_run _ _ _ _ _ (BootstrapAdmin_spec s req w)) in Hrun as [_ Hr].
  destruct r as [[]|e|]; [|by apply progress_quiet, Hr|done].
  destruct Hr as (_ & _ & _ & _ & u & _ & Ha). apply progress_accounts; [done|by apply Ha|].
  by eapply account_added_grow.
Qed.

Lemma login_progress s req w r w' : sound_tables w -> Login s req w = (r, w') -> progress w w'.
Proof.
  intros Hs Hrun. apply (wp_run _ _ _ _ _ (Login_spec s req w)) in Hrun as [_ Hr].
  destruct r as [u'|e|]; [|by apply progress_quiet, Hr|done].
  destruct Hr as (u & t & now & _ & _ & _ & _ & _ & Hset & Ho).
  apply progress_accounts; [done|by apply Ho|]. eapply update_accounts; [exact Hset|].
  intros x. by split_and!; try lia.
Qed.

Lemma nickname_progress s uid name w r w' :
  sound_tables w -> UpdateNickname s uid name w = (r, w') -> progress w w'.
Proof.
  intros Hs Hrun. apply (wp_run _ _ _ _ _ (UpdateNickname_spec s uid name w)) in Hrun as [_ Hr].
  destruct r as [[]|e|]; [|by apply progress_quiet|done].
  destruct Hr as (u & _ & _ & _ & [[_ Ht]|(_ & now & Hset & Ho)]); [by apply progress_quiet|].
  apply progress_accounts; [done|by apply Ho|]. eapply update_accounts; [exact Hset|].
  intros x. by split_and!; try lia.
Qed.

(** A revocation of rows that a clause on active ones selects. *)
Lemma revoking_updated p now f :
  (forall k, p k = true -> is_active k = true) ->
  (forall k, same_token k (f k) /\ is_active (f k) = false) ->
  revoking p (updated TRefreshTokens now f).
Proof.
  intros Hp Hf k Hk. split; [by apply Hp|]. destruct (Hf k) as [Hs Ha]. split.
  - transitivity (f k); [done|]. by repeat split.
  - unfold is_active in *. simpl. by destruct (t_RevokedAt (f k)).
Qed.

Lemma revoking_user uid now at_ reason :
  revoking (active_of_user uid) (updated TRefreshTokens now (set_revoked at_ reason)).
Proof. apply revoking_updated; [by intros k [_ ?]%andb_true_iff|by split]. Qed.

Lemma revoking_family uid fam now at_ reason :
  revoking (active_in_family uid fam) (updated TRefreshTokens now (set_revoked at_ reason)).
Proof. apply revoking_updated; [by intros k [_ ?]%andb_true_iff|by split]. Qed.

Lemma revoking_jti jti now by_ at_ reason :
  revoking (active_by_jti jti)
    (updated TRefreshTokens now (fun k => set_replaced_by by_ (set_revoked at_ reason k))).
Proof. apply revoking_updated; [by intros k [_ ?]%andb_true_iff|by split]. Qed.

Lemma password_progress s uid req w r w' :
  sound_tables w -> UpdateUserPassword s uid req w = (r, w') -> progress w w'.
Proof.
  intros [Hu Ht] Hrun. apply (wp_run _ _ _ _ _ (UpdateUserPassword_spec s uid req w Hu)) in Hrun as [_ Hr].
  destruct r as [[]|e|]; [|by apply progress_quiet|done].
  destruct Hr as (_ & _ & u & hash & _ & _ & _ & _ & (now & Hset) & Htok & _).
  apply (update_accounts w w') in Hset as [Ha Hk];
    [|intros x; split_and!; [done|done|simpl; lia]].
  unfold progress, sound_tables. destruct (has_refreshRepo s).
  - destruct Htok as (now' & at_ & ->). split_and!; auto.
    + apply revoking_sound; [apply revoking_user|done].
    + apply revoking_grow, revoking_user.
  - rewrite Htok. by split_and!; auto.
Qed.

Lemma roles_progress s uid codes w r w' :
  sound_tables w -> AssignRolesToUser s uid codes w = (r, w') -> progress w w'.
Proof.
  intros Hs Hrun. apply (wp_run _ _ _ _ _ (AssignRolesToUser_spec s uid codes w)) in Hrun as [_ Hr].
  destruct r as [[]|e|]; [|by apply progress_quiet, Hr|done].
  destruct Hr as (_ & (roles & _ & l & _ & _ & Ho) & _).
  apply progress_accounts; [done|by apply Ho|]. rewrite Ho by done.
  split; [by apply same_accounts, Ho|done].
Qed.

Lemma store_progress s uid it hash w r w' :
  sound_tables w -> StoreRefreshToken s (Some (refreshTokenModel uid it hash)) w = (r, w') ->
  progress w w'.
Proof.
  intros Hs Hrun. apply (wp_run _ _ _ _ _ (StoreRefreshToken_spec s _ w)) in Hrun as [_ Hr].
  destruct r as [[]|e|]; [|by apply progress_quiet|done].
  destruct Hr as (k & id & now & [= <-] & _ & _ & Hne & _ & Hf & Hset).
  eapply progress_tokens; [done|exact Hset|]. apply login_tokens; [apply Hs|done|done|done].
Qed.

Lemma rotate_progress s uid ver jti hash next w r w' :
  sound_tables w -> RotateRefreshToken s uid ver jti hash next w = (r, w') -> progress w w'.
Proof.
  intros Hs Hrun. apply (wp_run _ _ _ _ _ (RotateRefreshToken_spec s uid ver jti hash next w)) in Hrun
    as [_ Hr].
  destruct r as [[]|e|]; [| |done].
  - destruct Hr as (k & _ & _ & old & id & n1 & n2 & at_ & (Hin & Hj & Hu & _) & Ha & _ & _ & Hf & Hset).
    apply is_active_None in Ha. eapply progress_tokens; [done|exact Hset|].
    apply (rotation_tokens _ _ _ old); try done; [apply Hs|apply revoking_jti|..].
    + unfold active_by_jti. by rewrite Hj.
    + simpl. unfold family_of. destruct (String.eqb_spec (t_FamilyID old) ""); [|done].
      by destruct (so_named _ (proj2 Hs) old Hin).
  - destruct (errors_Is e "service.ErrRefreshTokenReplay"); [|by apply progress_quiet].
    destruct Hr as (_ & old & now & at_ & _ & _ & _ & _ & Hset).
    eapply progress_revoking; [done|exact Hset|apply revoking_family].
Qed.

Lemma revoke_progress s uid jti hash w r w' :
  sound_tables w -> RevokeRefreshToken s uid jti hash w = (r, w') -> progress w w'.
Proof.
  intros Hs Hrun. apply (wp_run _ _ _ _ _ (RevokeRefreshToken_spec s uid jti hash w)) in Hrun as [_ Hr].
  destruct r as [[]|e|]; [|by apply progress_quiet|done].
  destruct Hr as (k & _ & Heff). destruct (is_active k); [|by apply progress_quiet].
  destruct Heff as (now & at_ & Hset). eapply progress_revoking; [done|exact Hset|apply revoking_jti].
Qed.

Lemma revoke_all_progress s uid w r w' :
  sound_tables w -> RevokeAllRefreshTokens s uid w = (r, w') -> progress w w'.
Proof.
  intros Hs Hrun. apply (wp_run _ _ _ _ _ (RevokeAllRefreshTokens_spec s uid w)) in Hrun as [_ Hr].
  destruct r as [[]|e|]; [|by apply progress_quiet|done].
  destruct Hr as (now & at_ & Hset). eapply progress_revoking; [done|exact Hset|apply revoking_user].
Qed.

Lemma create_user_progress name hash w r w' :
  sound_tables w -> on_db (us_CreateUser (new_user name hash)) w = (r, w') -> progress w w'.
Proof.
  intros Hs. apply (wp_run _ (fun _ w' => progress w w')).
  eapply wp_exec; [apply us_create_law|intros u w1 Hrest Hins|intros e w1 Hw He].
  - destruct Hins as (id & now & Hid & -> & Hf & Hc). apply progress_accounts; [done|by apply (proj2 Hc)|].
    by eapply account_added_grow, account_added_base.
  - by apply progress_quiet, same_world_tables.
Qed.

Lemma create_with_role_progress name hash w r w' :
  sound_tables w -> Transaction (createWithRole (new_user name hash)) w = (r, w') -> progress w w'.
Proof.
  intros Hs. apply (wp_run _ (fun _ w' => progress w w')).
  eapply wp_mono; [apply (wp_Transaction_atomic _ (fun w0 _ w1 => created_with_role name hash w0 w1)
    (fun _ _ => True)); intros w0 _; apply createWithRole_adds|].
  intros [[]|e|] w1 [_ Hr]; [|by apply progress_quiet, Hr|done].
  destruct Hr as (w0 & w2 & Hw0 & (id & now & _ & Ha) & _ & Ht).
  apply (account_added_same w w0 w2 w1) in Ha; [|by apply same_world_tables|done].
  apply progress_accounts; [done|by apply Ha|by eapply account_added_grow].
Qed.

(** An UPDATE of the accounts in one statement. *)
Lemma update_progress (m : ST error DB unit) p f w r w' :
  (forall db, wp m (exec_post (fun _ => update_effect TUsers p f db) db) db) ->
  (forall u, u_ID (f u) = u_ID u /\ u_Username (f u) = u_Username u /\
             u_AuthVersion u <= u_AuthVersion (f u)) ->
  sound_tables w -> on_db m w = (r, w') -> progress w w'.
Proof.
  intros Hm Hf Hs. apply (wp_run _ (fun _ w' => progress w w')).
  eapply wp_exec; [apply Hm|intros [] w1 Hrest Heff|intros e w1 Hw He].
  - apply (sets_from w) in Heff as (now & Hset & Ho); [|done].
    apply progress_accounts; [done|by apply Ho|]. by eapply update_accounts.
  - by apply progress_quiet, same_world_tables.
Qed.

Lemma last_login_progress uid t w r w' :
  sound_tables w -> on_db (us_UpdateLastLoginAtByID uid t) w = (r, w') -> progress w w'.
Proof.
  apply (update_progress _ (fun u => u_ID u =? uid) (set_last_login t)); [intros db; apply us_last_login_law|].
  intros u. by split_and!; try lia.
Qed.

Lemma set_nickname_progress uid name w r w' :
  sound_tables w -> on_db (us_UpdateNicknameByID uid name) w = (r, w') -> progress w w'.
Proof.
  apply (update_progress _ (fun u => u_ID u =? uid) (set_nickname name)); [intros db; apply us_nickname_law|].
  intros u. by split_and!; try lia.
Qed.

Lemma step_progress w w' : sound_tables w -> service_step w w' -> progress w w'.
Proof.
  intros Hs Hstep. revert Hs. destruct Hstep; intros Hs; eauto 3 using progress_quiet, register_progress, login_progress, nickname_progress,
    password_progress, bootstrap_progress, roles_progress, store_progress, rotate_progress,
    revoke_progress, revoke_all_progress, create_user_progress, create_with_role_progress,
    last_login_progress, set_nickname_progress.
Qed.

(** ** Histories *)

Lemma history_progress w w' : history w w' -> sound_tables w -> progress w w'.
Proof.
  induction 1 as [w|w w1 w' Hstep _ IH]; intros Hs; [by apply progress_quiet|].
  destruct (step_progress w w1 Hs Hstep) as (Hs1 & Ha1 & Ht1).
  destruct (IH Hs1) as (Hs2 & Ha2 & Ht2). split; [done|]. split; [by transitivity w1|].
  by transitivity (tbl TRefreshTokens w1).
Qed.

(** A database without accounts and tokens, as the migrations leave it. *)
Definition initial (w : World) : Prop := tbl TUsers w = [] /\ tbl TRefreshTokens w = [].

Lemma initial_sound w : initial w -> sound_tables w.
Proof.
  intros [Hu Ht]. unfold sound_tables. rewrite Hu, Ht. split; [constructor|].
  split; [constructor|intros; simpl in *; tauto..].
Qed.

(** A session of an earlier version is over for good. *)
Lemma version_passed w w' uid ver u :
  sound_tables w' -> accounts_grow w w' -> In u (tbl TUsers w) -> u_ID u = uid ->
  ver < u_AuthVersion u -> ~ session_user w' uid ver.
Proof.
  intros [Hk _] Hg Hu Hid Hlt (v & Hv & _ & Hvid & _ & Hver).
  destruct (Hg u Hu) as (u' & Hu' & Hid' & _ & Hle).
  assert (v = u') as ->; [|lia]. apply (keys_ok_unique TUsers (tbl TUsers w')); try done.
  simpl. apply orb_true_iff. left. apply Z.eqb_eq. congruence.
Qed.

(** A changed password ends the sessions of the version before it for good. *)
Lemma password_passes s uid req w w1 w2 ver ver' :
  sound_tables w -> session_user w uid ver ->
  UpdateUserPassword s uid req w = (Ok tt, w1) -> history w1 w2 -> ver' <= ver ->
  ~ session_user w2 uid ver'.
Proof.
  intros Hs (u & Hu & Hd & Hid & _ & <-) Hrun Hh Hver.
  destruct (password_progress _ _ _ _ _ _ Hs Hrun) as (Hs1 & _ & _).
  pose proof (wp_run _ _ _ _ _ (UpdateUserPassword_spec s uid req w (proj1 Hs)) Hrun)
    as (_ & _ & _ & x & hash & _ & _ & _ & _ & (now & Hset) & _).
  destruct (history_progress w1 w2 Hh Hs1) as (Hs2 & Hg & _).
  set (u1 := updated TUsers now (set_password hash) u).
  assert (In u1 (tbl TUsers w1)) as Hu1.
  { rewrite Hset. apply in_update_where. exists u. split; [done|].
    by rewrite (selected_id w uid u). }
  apply (version_passed w1 w2 uid ver' u1); try done. simpl. lia.
Qed.

(** A token that is revoked stays so, under each of its spellings. *)
Lemma revoked_later w w' k j :
  sound_tables w' -> tokens_kept (tbl TRefreshTokens w) (tbl TRefreshTokens w') ->
  In k (tbl TRefreshTokens w) -> is_active k = false -> coll_eqb (t_JTI k) j = true ->
  In k (tbl TRefreshTokens w') /\
  forall k', In k' (tbl TRefreshTokens w') -> coll_eqb (t_JTI k') j = true -> is_active k' = false.
Proof.
  intros [_ Hs] Hkept Hk Ha Hj. destruct (Hkept k Hk) as (k1 & Hk1 & _ & Heq).
  specialize (Heq Ha) as ->. split; [done|]. intros k' Hk' Hj'.
  by rewrite (token_jti_unique w' j k' k (so_keys _ Hs) Hk' Hk1 Hj' Hj).
Qed.

(** A family without an active token stays without one. *)
Lemma family_closed_later l l' fam :
  tokens_grow l l' -> (exists k, In k l /\ coll_eqb (t_FamilyID k) fam = true) ->
  (forall k, In k l -> coll_eqb (t_FamilyID k) fam = true -> is_active k = false) ->
  forall k', In k' l' -> coll_eqb (t_FamilyID k') fam = true -> is_active k' = false.
Proof.
  intros [_ Hc] (k0 & Hk0 & Hf0) Hclosed k' Hk' Hf'.
  destruct (is_active k') eqn:Ha; [|done]. destruct (Hc k' Hk' Ha) as [(k & Hk & Hak & Hkk)|Hnew].
  - rewrite <- Hak. apply Hclosed; [done|]. eapply coll_trans; [exact Hkk|done].
  - destruct (Hnew k0 Hk0). unfold same_family. eapply coll_trans; [exact Hf0|by apply coll_sym].
Qed.
End histories.
