(* ===== verification/TestUtil.v ===== *)
(** The helpers of the integration tests (src/internal/testutil/mysql.go): a
    test database, its schema, and the statements that prepare it.

    A [testing.TB] ends a test with [Skipf] or [Fatalf], which run the deferred
    calls and nothing else of the test: the result of a helper that does so is
    an [Err] with a [stop]. The driver is a library; of the state only the
    statements sent by [db.Exec] are the model's own. *)
From S2P Require Import Prelude GoTime GoStrings Sha256 GoErrors AuthService.

Definition TestDatabaseDSNEnv : string := "TEST_DATABASE_DSN".
Definition mysqlIntegrationLockName : string := "go_user_system_integration_tests".

(** * The schema of the tests *)

Definition createUsersTableSQL : string :=
  "CREATE TABLE users (
	id BIGINT NOT NULL AUTO_INCREMENT,
	username VARCHAR(64) NOT NULL,
	password_hash VARCHAR(255) NOT NULL,
	nickname VARCHAR(64) NOT NULL DEFAULT '',
	status TINYINT NOT NULL DEFAULT 1,
	auth_version BIGINT NOT NULL DEFAULT 1,
	created_at DATETIME(3) NULL DEFAULT NULL,
	updated_at DATETIME(3) NULL DEFAULT NULL,
	last_login_at DATETIME(3) NULL DEFAULT NULL,
	deleted_at DATETIME(3) NULL DEFAULT NULL,
	PRIMARY KEY (id),
	UNIQUE KEY idx_username (username),
	KEY idx_users_deleted_at (deleted_at)
) ENGINE=InnoDB DEFAULT CHARSET=utf8mb4 COLLATE=utf8mb4_0900_ai_ci".

Definition createRefreshTokensTableSQL : string :=
  "CREATE TABLE refresh_tokens (
	id BIGINT NOT NULL AUTO_INCREMENT,
	user_id BIGINT NOT NULL,
	jti VARCHAR(64) NOT NULL,
	family_id VARCHAR(64) NOT NULL,
	token_hash CHAR(64) NOT NULL,
	expires_at DATETIME(3) NOT NULL,
	revoked_at DATETIME(3) NULL DEFAULT NULL,
	revoked_reason VARCHAR(32) NULL DEFAULT NULL,
	replaced_by_jti VARCHAR(64) NULL DEFAULT NULL,
	created_at DATETIME(3) NULL DEFAULT NULL,
	updated_at DATETIME(3) NULL DEFAULT NULL,
	PRIMARY KEY (id),
	UNIQUE KEY uk_refresh_tokens_jti (jti),
	UNIQUE KEY uk_refresh_tokens_hash (token_hash),
	KEY idx_refresh_tokens_user_id (user_id),
	KEY idx_refresh_tokens_family_id (family_id),
	KEY idx_refresh_tokens_expires_at (expires_at)
) ENGINE=InnoDB DEFAULT CHARSET=utf8mb4 COLLATE=utf8mb4_0900_ai_ci".

Definition createRolesTableSQL : string :=
  "CREATE TABLE roles (
	id BIGINT NOT NULL AUTO_INCREMENT,
	code VARCHAR(64) NOT NULL,
	name VARCHAR(64) NOT NULL,
	created_at DATETIME(3) NULL DEFAULT NULL,
	updated_at DATETIME(3) NULL DEFAULT NULL,
	PRIMARY KEY (id),
	UNIQUE KEY uk_roles_code (code)
) ENGINE=InnoDB DEFAULT CHARSET=utf8mb4 COLLATE=utf8mb4_0900_ai_ci".

Definition createUserRolesTableSQL : string :=
  "CREATE TABLE user_roles (
	user_id BIGINT NOT NULL,
	role_id BIGINT NOT NULL,
	created_at DATETIME(3) NULL DEFAULT NULL,
	PRIMARY KEY (user_id, role_id),
	KEY idx_user_roles_role_id (role_id)
) ENGINE=InnoDB DEFAULT CHARSET=utf8mb4 COLLATE=utf8mb4_0900_ai_ci".

Definition seedRolesSQL : string :=
  "INSERT INTO roles (code, name, created_at, updated_at)
VALUES
	('admin', 'admin', NOW(3), NOW(3)),
	('user', 'user', NOW(3), NOW(3))".

(** * Ends of a test *)

Inductive stop :=
| Skipped (msg : string)
| Failed (msg : string) (cause : option error).

(** What the helpers use of gorm, database/sql and crypto/rand. *)
Class TestDriver := {
  TS : Type;
  TestGorm : Type;
  TestSql : Type;
  (** [gorm.Open(mysql.Open(dsn), &gorm.Config{...})] and [db.DB()] *)
  t_Open : string -> ST error TS TestGorm;
  t_DB : TestGorm -> ST error TS TestSql;
  t_SetMaxOpenConns : TestSql -> Z -> ST error TS unit;
  t_SetMaxIdleConns : TestSql -> Z -> ST error TS unit;
  t_Close : TestSql -> ST error TS unit;
  (** [db.Exec(sql).Error] *)
  t_Exec : TestGorm -> string -> ST error TS unit;
  (** [db.Raw(sql, args...).Scan(&x).Error], for a string and for an int *)
  t_ScanString : TestGorm -> string -> list string -> ST error TS string;
  t_ScanInt : TestGorm -> string -> list string -> ST error TS Z;
  (** [rand.Read(b)] on [n] bytes *)
  t_RandRead : nat -> ST error TS (list Z);
}.

(** [unicode.IsLetter] and [unicode.IsDigit] beyond Latin-1. *)
Class UnicodeClasses := {
  letter_table : Z -> bool;
  digit_table : Z -> bool;
}.

Definition IsLetter `{UnicodeClasses} (r : Z) : bool :=
  if r <=? 0xFF
  then in_range 65 90 r || in_range 97 122 r || (r =? 0xAA) || (r =? 0xB5) || (r =? 0xBA)
       || in_range 0xC0 0xD6 r || in_range 0xD8 0xF6 r || in_range 0xF8 0xFF r
  else letter_table r.

Definition IsDigit `{UnicodeClasses} (r : Z) : bool :=
  if r <=? 0xFF then in_range 48 57 r else digit_table r.

(** [strings.Contains] *)
Definition Contains (s substr : string) : bool :=
  existsb (fun n => HasPrefix (drop n s) substr) (seq 0 (S (String.length s))).

Section helpers.
Context {D : TestDriver} {UC : UnicodeClasses} {UT : UnicodeTables}.

Record TestState := mkTestState {
  ts_driver : TS;
  ts_sent : list string;
}.

(** A helper: it returns, or the test ends. *)
Definition Test (A : Type) : Type := ST stop TestState A.

(** A call of the driver that the helper checks with
    [if err != nil { t.Fatalf(msg + ": %v", err) }]. *)
Definition or_fatal {A} (msg : string) (m : ST error TS A) : Test A := fun s =>
  match m (ts_driver s) with
  | (Ok a, d) => (Ok a, mkTestState d (ts_sent s))
  | (Err err, d) => (Err (Failed msg (Some err)), mkTestState d (ts_sent s))
  | (Panic, d) => (Panic, mkTestState d (ts_sent s))
  end.

Definition Fatal {A} (msg : string) : Test A := fail (Failed msg None).

Definition of_outcome {A} (r : outcome stop A) : Test A := fun s => (r, s).

Definition Exec (msg : string) (db : TestGorm) (sql : string) : Test unit :=
  do! modify (fun s => mkTestState (ts_driver s) (ts_sent s ++ [sql])) in
  or_fatal msg (t_Exec db sql).

(** [defer d(); m]: a [Fatalf] in [d] ends the test, also when [m] returned. *)
Definition deferred {A} (d : Test unit) (m : Test A) : Test A := fun s =>
  let '(r, s1) := m s in
  let '(r', s2) := d s1 in
  (match r' with
   | Ok _ => r
   | Err e => Err e
   | Panic => Panic
   end, s2).

(** * OpenMySQL *)

Definition assertTestDatabase (db : TestGorm) : Test unit :=
  let! databaseName := or_fatal "read current database failed"
                         (t_ScanString db "SELECT DATABASE()" []) in
  when! negb (Contains (ToLower unicode_to_lower databaseName) "test") return!
    Fatal "refusing to run integration tests on non-test database" in
  ret tt.

Definition acquireIntegrationLock (db : TestGorm) : Test unit :=
  let! lockResult := or_fatal "acquire mysql integration lock failed"
                       (t_ScanInt db "SELECT GET_LOCK(?, 30)" [mysqlIntegrationLockName]) in
  when! negb (lockResult =? 1) return! Fatal "acquire mysql integration lock timed out" in
  ret tt.

Definition openMySQLDB (dsn : string) : ST error TS TestGorm := t_Open dsn.

Definition OpenMySQL (Getenv : string -> string) : Test TestGorm :=
  let dsn := TrimSpace (Getenv TestDatabaseDSNEnv) in
  when! String.eqb dsn "" return!
    fail (Skipped ("set " +:+ TestDatabaseDSNEnv +:+ " to run MySQL integration tests")) in
  let! db := or_fatal "open test mysql failed" (openMySQLDB dsn) in
  let! sqlDB := or_fatal "get sql db failed" (t_DB db) in
  do! or_fatal "" (t_SetMaxOpenConns sqlDB 1) in
  do! or_fatal "" (t_SetMaxIdleConns sqlDB 1) in
  do! assertTestDatabase db in
  do! acquireIntegrationLock db in
  ret db.

(** [None] is a nil pointer. *)
Definition CloseMySQL (db : option TestGorm) : Test unit :=
  match db with
  | None => ret tt
  | Some db =>
    let! sqlDB := or_fatal "get sql db failed" (t_DB db) in
    or_fatal "close sql db failed" (t_Close sqlDB)
  end.

(** * Tables *)

Definition identifier_rune (character : Z) : bool :=
  (character =? 95) || IsLetter character || IsDigit character.

Fixpoint check_identifier (characters : list Z) : outcome stop unit :=
  match characters with
  | [] => Ok tt
  | character :: rest =>
    if identifier_rune character then check_identifier rest
    else Err (Failed "invalid sql identifier" None)
  end.

Definition quoteIdentifier (identifier : string) : outcome stop string :=
  when! String.eqb identifier "" return! Err (Failed "empty sql identifier" None) in
  match check_identifier (runes identifier) with
  | Ok _ => Ok ("`" +:+ identifier +:+ "`")
  | Err e => Err e
  | Panic => Panic
  end.

Fixpoint dropTables (db : TestGorm) (tableNames : list string) : Test unit :=
  match tableNames with
  | [] => ret tt
  | tableName :: rest =>
    let! quoted := of_outcome (quoteIdentifier tableName) in
    do! Exec ("drop table " +:+ tableName +:+ " failed") db ("DROP TABLE IF EXISTS " +:+ quoted) in
    dropTables db rest
  end.

Definition ResetTables (db : TestGorm) (tableNames : list string) : Test unit :=
  when! (length tableNames =? 0)%nat return! ret tt in
  do! Exec "disable foreign key checks failed" db "SET FOREIGN_KEY_CHECKS = 0" in
  deferred (Exec "enable foreign key checks failed" db "SET FOREIGN_KEY_CHECKS = 1")
    (dropTables db tableNames).

Definition CreateUsersTable (db : TestGorm) : Test unit :=
  Exec "create users table failed" db createUsersTableSQL.

Definition CreateRefreshTokensTable (db : TestGorm) : Test unit :=
  Exec "create refresh tokens table failed" db createRefreshTokensTableSQL.

Fixpoint run_statements (db : TestGorm) (statements : list (string * string)) : Test unit :=
  match statements with
  | [] => ret tt
  | (name, sql) :: rest =>
    do! Exec ("create " +:+ name +:+ " failed") db sql in
    run_statements db rest
  end.

Definition CreateRoleAssignmentTables (db : TestGorm) : Test unit :=
  run_statements db [("roles", createRolesTableSQL); ("user_roles", createUserRolesTableSQL);
                     ("role seeds", seedRolesSQL)].

Definition UniqueName (prefix : string) : Test string :=
  let! randomBytes := or_fatal "generate random bytes failed" (t_RandRead 4) in
  ret (prefix +:+ "_" +:+ EncodeToString randomBytes).
End helpers.
