(* ===== verification/Schema.v ===== *)
(** The schema of the database: what the migrations (src/migrations) say in
    SQL, what the tags of the structs of src/internal/model say to gorm, and
    what a statement of SQL does to a schema.

    goose splits a migration into statements at the semicolons, and runs those
    of all migrations up in order, or those of one down. The statements are
    here as they are in the files, without their comments; which SQL they use
    is [apply_statement], with the errors MySQL has for it. What they do to
    the rows is Migrations. *)
From S2P Require Import Prelude GoTime GoStrings Model Gorm.

(** * A schema *)

(** The columns with their definitions, the primary and unique keys with their
    columns, and the other indexes. The order of columns and indexes does not
    matter. *)
Record TableSchema := mkTableSchema {
  sc_Columns : gmap string string;
  sc_Keys : list (string * list string);
  sc_Indexes : gmap string (list string);
  sc_Options : list string;
}.

#[export] Instance TableSchema_eq_dec : EqDecision TableSchema.
Proof. solve_decision. Defined.

Definition Schema : Type := gmap string TableSchema.

Definition set_columns (c : gmap string string) (t : TableSchema) : TableSchema :=
  mkTableSchema c (sc_Keys t) (sc_Indexes t) (sc_Options t).
Definition set_keys (k : list (string * list string)) (t : TableSchema) : TableSchema :=
  mkTableSchema (sc_Columns t) k (sc_Indexes t) (sc_Options t).
Definition set_indexes (i : gmap string (list string)) (t : TableSchema) : TableSchema :=
  mkTableSchema (sc_Columns t) (sc_Keys t) i (sc_Options t).

(** * Statements *)

Definition words (line : string) : list string :=
  List.filter (fun word => negb (String.eqb word "")) (split_byte " " line).

(** The lines of a statement, without indentation. *)
Definition sql_lines (sql : string) : list string := map TrimSpace (split_byte "010" sql).

Definition without_comma (line : string) : string :=
  let n := pred (String.length line) in
  if String.eqb (drop n line) "," then String.substring 0 n line else line.

(** What is between the first pair of parentheses, split at commas. *)
Definition in_parentheses (line : string) : list string :=
  match split_byte "(" line with
  | _ :: inner :: _ => map TrimSpace (split_byte "," (default "" (head (split_byte ")" inner))))
  | _ => []
  end.

(** What follows the words [prefix]. *)
Fixpoint after_words (prefix l : list string) : option (list string) :=
  match prefix, l with
  | [], _ => Some l
  | p :: prefix, w :: l => if String.eqb p w then after_words prefix l else None
  | _ :: _, [] => None
  end.

Fixpoint before_word (w : string) (l : list string) : list string :=
  match l with
  | [] => []
  | x :: l => if String.eqb x w then [] else x :: before_word w l
  end.

(** A change of a table. *)
Inductive clause :=
| AddColumn (name definition : string)
| ModifyColumn (name definition : string)
| DropColumn (name : string)
| AddKey (name : string) (columns : list string)
| AddIndex (name : string) (columns : list string)
| DropIndex (name : string).

(** The first of the readings that reads the words. *)
Fixpoint first_of (readings : list (list string * (list string -> option clause))) (l : list string)
    : option clause :=
  match readings with
  | [] => None
  | (prefix, read) :: rest =>
    match after_words prefix l with Some l' => read l' | None => first_of rest l end
  end.

Definition named (make : string -> option clause) (l : list string) : option clause :=
  match l with name :: _ => make name | [] => None end.

Definition defined (make : string -> string -> clause) (l : list string) : option clause :=
  match l with
  | name :: definition => Some (make name (String.concat " " (before_word "AFTER" definition)))
  | [] => None
  end.

(** A line of a CREATE TABLE. *)
Definition parse_definition (line : string) : option clause :=
  first_of
    [(["PRIMARY"; "KEY"], fun _ => Some (AddKey "PRIMARY" (in_parentheses line)));
     (["UNIQUE"; "KEY"], named (fun name => Some (AddKey name (in_parentheses line))));
     (["KEY"], named (fun name => Some (AddIndex name (in_parentheses line))));
     ([], defined AddColumn)] (words line).

(** A line of an ALTER TABLE. *)
Definition parse_alteration (line : string) : option clause :=
  first_of
    [(["ADD"; "COLUMN"], defined AddColumn);
     (["ADD"; "INDEX"], named (fun name => Some (AddIndex name (in_parentheses line))));
     (["ADD"; "KEY"], named (fun name => Some (AddIndex name (in_parentheses line))));
     (["MODIFY"; "COLUMN"], defined ModifyColumn);
     (["DROP"; "COLUMN"], named (fun name => Some (DropColumn name)));
     (["DROP"; "INDEX"], named (fun name => Some (DropIndex name)));
     (["DROP"; "KEY"], named (fun name => Some (DropIndex name)))] (words line).

Definition index_name_free (t : TableSchema) (name : string) : bool :=
  negb (existsb (fun k => String.eqb (fst k) name) (sc_Keys t)) &&
  match sc_Indexes t !! name with Some _ => false | None => true end.

Definition has_column (t : TableSchema) (name : string) : bool :=
  match sc_Columns t !! name with Some _ => true | None => false end.

(** MySQL refuses a name that is taken and one that there is not. *)
Definition apply_clause (t : TableSchema) (c : clause) : option TableSchema :=
  match c with
  | AddColumn name definition =>
    when! has_column t name return! None in
    Some (set_columns (<[name := definition]> (sc_Columns t)) t)
  | ModifyColumn name definition =>
    when! negb (has_column t name) return! None in
    Some (set_columns (<[name := definition]> (sc_Columns t)) t)
  | DropColumn name =>
    when! negb (has_column t name) return! None in
    Some (set_columns (delete name (sc_Columns t)) t)
  | AddKey name columns =>
    when! negb (index_name_free t name && forallb (has_column t) columns) return! None in
    Some (set_keys (sc_Keys t ++ [(name, columns)]) t)
  | AddIndex name columns =>
    when! negb (index_name_free t name && forallb (has_column t) columns) return! None in
    Some (set_indexes (<[name := columns]> (sc_Indexes t)) t)
  | DropIndex name =>
    match sc_Indexes t !! name with
    | Some _ => Some (set_indexes (delete name (sc_Indexes t)) t)
    | None => None
    end
  end.

Fixpoint apply_clauses (t : TableSchema) (l : list (option clause)) : option TableSchema :=
  match l with
  | [] => Some t
  | Some c :: l => match apply_clause t c with Some t => apply_clauses t l | None => None end
  | None :: _ => None
  end.

(** [) ENGINE = InnoDB ...]: the options, with or without blanks around [=]. *)
Definition options (line : string) : list string :=
  flat_map (fun word => List.filter (fun w => negb (String.eqb w "")) (split_byte "=" word)) (words line).

Definition create_table (name : string) (body : list string) (s : Schema) : option Schema :=
  match rev body with
  | last :: definitions =>
    match apply_clauses (mkTableSchema ∅ [] ∅ (options last))
            (map (fun line => parse_definition (without_comma line)) (rev definitions)) with
    | Some t => Some (<[name := t]> s)
    | None => None
    end
  | [] => None
  end.

Definition alter_table (name : string) (body : list string) (s : Schema) : option Schema :=
  match s !! name with
  | Some t =>
    match apply_clauses t (map (fun line => parse_alteration (without_comma line)) body) with
    | Some t => Some (<[name := t]> s)
    | None => None
    end
  | None => None
  end.

(** Statements on rows leave the schema alone. *)
Definition row_statement (l : list string) : bool :=
  existsb (fun w => match after_words [w] l with Some _ => true | None => false end)
    ["INSERT"; "UPDATE"; "SELECT"].

Definition apply_statement (s : Schema) (sql : string) : option Schema :=
  match sql_lines sql with
  | [] => None
  | first :: body =>
    let l := words first in
    when! row_statement l return! Some s in
    match after_words ["CREATE"; "TABLE"; "IF"; "NOT"; "EXISTS"] l, after_words ["CREATE"; "TABLE"] l,
          after_words ["ALTER"; "TABLE"] l, after_words ["DROP"; "TABLE"; "IF"; "EXISTS"] l with
    | Some (name :: _), _, _, _ =>
      match s !! name with Some _ => Some s | None => create_table name body s end
    | None, Some (name :: _), _, _ =>
      match s !! name with Some _ => None | None => create_table name body s end
    | _, _, Some (name :: _), _ => alter_table name body s
    | _, _, _, Some (name :: _) => Some (delete name s)
    | _, _, _, _ => None
    end
  end.

Fixpoint apply_statements (s : Schema) (l : list string) : option Schema :=
  match l with
  | [] => Some s
  | sql :: l => match apply_statement s sql with Some s => apply_statements s l | None => None end
  end.

(** * src/migrations *)

Record Migration := mkMigration {
  mg_Version : Z;
  mg_Up : list string;
  mg_Down : list string;
}.

(** * 00001_create_users.sql *)

Definition migration_create_users : Migration := mkMigration 1
  ["CREATE TABLE IF NOT EXISTS users (
    id BIGINT NOT NULL AUTO_INCREMENT,
    username VARCHAR(64) NOT NULL,
    password_hash VARCHAR(255) NOT NULL,
    nickname VARCHAR(64) NOT NULL DEFAULT '',
    status TINYINT NOT NULL DEFAULT 1,
    created_at DATETIME(3) NULL DEFAULT NULL,
    updated_at DATETIME(3) NULL DEFAULT NULL,
    PRIMARY KEY (id),
    UNIQUE KEY idx_username (username)
) ENGINE = InnoDB DEFAULT CHARSET = utf8mb4 COLLATE = utf8mb4_0900_ai_ci"]
  ["DROP TABLE IF EXISTS users"].

(** * 00002_add_user_audit_fields.sql *)

Definition migration_add_user_audit_fields : Migration := mkMigration 2
  ["ALTER TABLE users
ADD COLUMN last_login_at DATETIME(3) NULL DEFAULT NULL,
ADD COLUMN deleted_at DATETIME(3) NULL DEFAULT NULL,
ADD INDEX idx_users_deleted_at (deleted_at)"]
  ["ALTER TABLE users
DROP INDEX idx_users_deleted_at,
DROP COLUMN deleted_at,
DROP COLUMN last_login_at"].

(** * 00003_create_refresh_tokens.sql *)

Definition migration_create_refresh_tokens : Migration := mkMigration 3
  ["CREATE TABLE IF NOT EXISTS refresh_tokens (
    id BIGINT NOT NULL AUTO_INCREMENT,
    user_id BIGINT NOT NULL,
    jti VARCHAR(64) NOT NULL,
    token_hash CHAR(64) NOT NULL,
    expires_at DATETIME(3) NOT NULL,
    revoked_at DATETIME(3) NULL DEFAULT NULL,
    replaced_by_jti VARCHAR(64) NULL DEFAULT NULL,
    created_at DATETIME(3) NULL DEFAULT NULL,
    updated_at DATETIME(3) NULL DEFAULT NULL,
    PRIMARY KEY (id),
    UNIQUE KEY uk_refresh_tokens_jti (jti),
    UNIQUE KEY uk_refresh_tokens_hash (token_hash),
    KEY idx_refresh_tokens_user_id (user_id),
    KEY idx_refresh_tokens_expires_at (expires_at)
) ENGINE = InnoDB DEFAULT CHARSET = utf8mb4 COLLATE = utf8mb4_0900_ai_ci"]
  ["DROP TABLE IF EXISTS refresh_tokens"].

(** * 00004_create_rbac_tables.sql *)

Definition migration_create_rbac_tables : Migration := mkMigration 4
  ["CREATE TABLE IF NOT EXISTS roles (
    id BIGINT NOT NULL AUTO_INCREMENT,
    code VARCHAR(64) NOT NULL,
    name VARCHAR(64) NOT NULL,
    created_at DATETIME(3) NULL DEFAULT NULL,
    updated_at DATETIME(3) NULL DEFAULT NULL,
    PRIMARY KEY (id),
    UNIQUE KEY uk_roles_code (code)
) ENGINE = InnoDB DEFAULT CHARSET = utf8mb4 COLLATE = utf8mb4_0900_ai_ci";
   "CREATE TABLE IF NOT EXISTS permissions (
    id BIGINT NOT NULL AUTO_INCREMENT,
    code VARCHAR(128) NOT NULL,
    name VARCHAR(64) NOT NULL,
    method VARCHAR(16) NOT NULL,
    path VARCHAR(255) NOT NULL,
    created_at DATETIME(3) NULL DEFAULT NULL,
    updated_at DATETIME(3) NULL DEFAULT NULL,
    PRIMARY KEY (id),
    UNIQUE KEY uk_permissions_code (code),
    UNIQUE KEY uk_permissions_method_path (method, path)
) ENGINE = InnoDB DEFAULT CHARSET = utf8mb4 COLLATE = utf8mb4_0900_ai_ci";
   "CREATE TABLE IF NOT EXISTS user_roles (
    user_id BIGINT NOT NULL,
    role_id BIGINT NOT NULL,
    created_at DATETIME(3) NULL DEFAULT NULL,
    PRIMARY KEY (user_id, role_id),
    KEY idx_user_roles_role_id (role_id)
) ENGINE = InnoDB DEFAULT CHARSET = utf8mb4 COLLATE = utf8mb4_0900_ai_ci";
   "CREATE TABLE IF NOT EXISTS role_permissions (
    role_id BIGINT NOT NULL,
    permission_id BIGINT NOT NULL,
    created_at DATETIME(3) NULL DEFAULT NULL,
    PRIMARY KEY (role_id, permission_id),
    KEY idx_role_permissions_permission_id (permission_id)
) ENGINE = InnoDB DEFAULT CHARSET = utf8mb4 COLLATE = utf8mb4_0900_ai_ci";
   "INSERT INTO roles (code, name, created_at, updated_at)
VALUES
    ('admin', '管理员', NOW(3), NOW(3)),
    ('user', '普通用户', NOW(3), NOW(3))
ON DUPLICATE KEY UPDATE
    name = VALUES(name),
    updated_at = VALUES(updated_at)";
   "INSERT INTO permissions (code, name, method, path, created_at, updated_at)
VALUES
    ('profile:read', '读取个人资料', 'GET', '/api/v1/users/me', NOW(3), NOW(3)),
    ('profile:update', '更新个人资料', 'PUT', '/api/v1/users/me/profile', NOW(3), NOW(3)),
    ('password:update', '修改登录密码', 'PATCH', '/api/v1/users/me/update/password', NOW(3), NOW(3)),
    ('admin:roles:read', '读取角色列表', 'GET', '/api/v1/admin/roles', NOW(3), NOW(3)),
    ('admin:permissions:read', '读取权限列表', 'GET', '/api/v1/admin/permissions', NOW(3), NOW(3)),
    ('admin:user_roles:update', '分配用户角色', 'PUT', '/api/v1/admin/users/:id/roles', NOW(3), NOW(3))
ON DUPLICATE KEY UPDATE
    name = VALUES(name),
    method = VALUES(method),
    path = VALUES(path),
    updated_at = VALUES(updated_at)";
   "INSERT IGNORE INTO role_permissions (role_id, permission_id, created_at)
SELECT r.id, p.id, NOW(3)
FROM roles r
JOIN permissions p
WHERE r.code = 'user'
  AND p.code IN ('profile:read', 'profile:update', 'password:update')";
   "INSERT IGNORE INTO role_permissions (role_id, permission_id, created_at)
SELECT r.id, p.id, NOW(3)
FROM roles r
JOIN permissions p
WHERE r.code = 'admin'"]
  ["DROP TABLE IF EXISTS role_permissions";
   "DROP TABLE IF EXISTS user_roles";
   "DROP TABLE IF EXISTS permissions";
   "DROP TABLE IF EXISTS roles"].

(** * 00005_backfill_user_roles.sql *)

Definition migration_backfill_user_roles : Migration := mkMigration 5
  ["INSERT IGNORE INTO user_roles (user_id, role_id, created_at)
SELECT u.id, r.id, NOW(3)
FROM users u
JOIN roles r ON r.code = 'user'";
   "INSERT IGNORE INTO user_roles (user_id, role_id, created_at)
SELECT first_user.id, r.id, NOW(3)
FROM (
    SELECT MIN(id) AS id
    FROM users
) AS first_user
JOIN roles r ON r.code = 'admin'
WHERE first_user.id IS NOT NULL"]
  ["SELECT 1"].

(** * 00006_harden_auth_sessions.sql *)

Definition migration_harden_auth_sessions : Migration := mkMigration 6
  ["ALTER TABLE users
    ADD COLUMN auth_version BIGINT NOT NULL DEFAULT 1 AFTER status";
   "ALTER TABLE refresh_tokens
    ADD COLUMN family_id VARCHAR(64) NULL DEFAULT NULL AFTER jti,
    ADD COLUMN revoked_reason VARCHAR(32) NULL DEFAULT NULL AFTER revoked_at";
   "UPDATE refresh_tokens
SET family_id = jti
WHERE family_id IS NULL";
   "ALTER TABLE refresh_tokens
    MODIFY COLUMN family_id VARCHAR(64) NOT NULL,
    ADD KEY idx_refresh_tokens_family_id (family_id)"]
  ["ALTER TABLE refresh_tokens
    DROP KEY idx_refresh_tokens_family_id,
    DROP COLUMN revoked_reason,
    DROP COLUMN family_id";
   "ALTER TABLE users
    DROP COLUMN auth_version"].

(** In the order of their versions. *)
Definition migrations : list Migration :=
  [migration_create_users; migration_add_user_audit_fields; migration_create_refresh_tokens;
   migration_create_rbac_tables; migration_backfill_user_roles; migration_harden_auth_sessions].

(** The first [n] migrations on an empty database. *)
Definition schema_after (n : nat) : option Schema :=
  apply_statements ∅ (flat_map mg_Up (firstn n migrations)).

(** * src/internal/model *)

Inductive go_type := GoInt64 | GoInt8 | GoString | GoTime | GoTimePtr | GoStringPtr | GormDeletedAt.

(** The keys of a gorm tag. *)
Inductive tag :=
| tag_primaryKey
| tag_autoIncrement
| tag_size (n : Z)
| tag_not_null
| tag_default (v : string)
| tag_uniqueIndex (name : string)
| tag_index (name : string)
| tag_autoCreateTime
| tag_autoUpdateTime
| tag_column (name : string).

(** A field under the name gorm gives its column. *)
Record Field := mkField { f_Column : string; f_Type : go_type; f_Tags : list tag }.

Definition struct_User : list Field :=
  [mkField "id" GoInt64 [tag_primaryKey; tag_autoIncrement];
   mkField "username" GoString [tag_size 64; tag_not_null; tag_uniqueIndex "idx_username"];
   mkField "password_hash" GoString [tag_size 255; tag_not_null];
   mkField "nickname" GoString [tag_size 64; tag_not_null; tag_default "''"];
   mkField "status" GoInt8 [tag_not_null; tag_default "1"];
   mkField "auth_version" GoInt64 [tag_not_null; tag_default "1"];
   mkField "created_at" GoTime [tag_autoCreateTime];
   mkField "updated_at" GoTime [tag_autoUpdateTime];
   mkField "last_login_at" GoTimePtr [tag_column "last_login_at"];
   mkField "deleted_at" GormDeletedAt [tag_index "idx_users_deleted_at"]].

Definition struct_RefreshToken : list Field :=
  [mkField "id" GoInt64 [tag_primaryKey; tag_autoIncrement];
   mkField "user_id" GoInt64 [tag_not_null; tag_index "idx_refresh_tokens_user_id"];
   mkField "jti" GoString [tag_size 64; tag_not_null; tag_uniqueIndex "uk_refresh_tokens_jti"];
   mkField "family_id" GoString [tag_size 64; tag_not_null; tag_index "idx_refresh_tokens_family_id"];
   mkField "token_hash" GoString [tag_size 64; tag_not_null; tag_uniqueIndex "uk_refresh_tokens_hash"];
   mkField "expires_at" GoTime [tag_not_null; tag_index "idx_refresh_tokens_expires_at"];
   mkField "revoked_at" GoTimePtr [tag_column "revoked_at"];
   mkField "revoked_reason" GoStringPtr [tag_size 32; tag_column "revoked_reason"];
   mkField "replaced_by_jti" GoStringPtr [tag_size 64; tag_column "replaced_by_jti"];
   mkField "created_at" GoTime [tag_autoCreateTime];
   mkField "updated_at" GoTime [tag_autoUpdateTime]].

Definition struct_Role : list Field :=
  [mkField "id" GoInt64 [tag_primaryKey; tag_autoIncrement];
   mkField "code" GoString [tag_size 64; tag_not_null; tag_uniqueIndex "uk_roles_code"];
   mkField "name" GoString [tag_size 64; tag_not_null];
   mkField "created_at" GoTime [tag_autoCreateTime];
   mkField "updated_at" GoTime [tag_autoUpdateTime]].

Definition struct_Permission : list Field :=
  [mkField "id" GoInt64 [tag_primaryKey; tag_autoIncrement];
   mkField "code" GoString [tag_size 128; tag_not_null; tag_uniqueIndex "uk_permissions_code"];
   mkField "name" GoString [tag_size 64; tag_not_null];
   mkField "method" GoString [tag_size 16; tag_not_null; tag_uniqueIndex "uk_permissions_method_path"];
   mkField "path" GoString [tag_size 255; tag_not_null; tag_uniqueIndex "uk_permissions_method_path"];
   mkField "created_at" GoTime [tag_autoCreateTime];
   mkField "updated_at" GoTime [tag_autoUpdateTime]].

Definition struct_UserRole : list Field :=
  [mkField "user_id" GoInt64 [tag_primaryKey; tag_not_null];
   mkField "role_id" GoInt64 [tag_primaryKey; tag_not_null];
   mkField "created_at" GoTime [tag_autoCreateTime]].

Definition struct_RolePermission : list Field :=
  [mkField "role_id" GoInt64 [tag_primaryKey; tag_not_null];
   mkField "permission_id" GoInt64 [tag_primaryKey; tag_not_null];
   mkField "created_at" GoTime [tag_autoCreateTime]].

Definition struct_fields (t : table) : list Field :=
  match t with
  | TUsers => struct_User
  | TRefreshTokens => struct_RefreshToken
  | TRoles => struct_Role
  | TPermissions => struct_Permission
  | TUserRoles => struct_UserRole
  | TRolePermissions => struct_RolePermission
  end.

(** The methods [TableName] of the six structs. *)
Definition TableName (t : table) : string :=
  match t with
  | TUsers => "users"
  | TRefreshTokens => "refresh_tokens"
  | TRoles => "roles"
  | TPermissions => "permissions"
  | TUserRoles => "user_roles"
  | TRolePermissions => "role_permissions"
  end.

(** * What a tag asks of a column *)

Definition field_size (f : Field) : option Z :=
  head (flat_map (fun t => match t with tag_size n => [n] | _ => [] end) (f_Tags f)).

(** The types of MySQL a field is kept in; a string of fixed size may be CHAR. *)
Definition sql_types (f : Field) : list string :=
  match f_Type f with
  | GoInt64 => ["BIGINT"]
  | GoInt8 => ["TINYINT"]
  | GoString | GoStringPtr =>
    match field_size f with
    | Some n => let size := "(" +:+ format_int n +:+ ")" in ["VARCHAR" +:+ size; "CHAR" +:+ size]
    | None => []
    end
  | GoTime | GoTimePtr | GormDeletedAt => ["DATETIME(3)"]
  end.

(** [NOT NULL] among the words of a definition. *)
Fixpoint says_words (l ws : list string) : bool :=
  match after_words l ws, ws with
  | Some _, _ => true
  | None, _ :: ws => says_words l ws
  | None, [] => false
  end.

Definition nullable (f : Field) : bool :=
  match f_Type f with GoTimePtr | GoStringPtr | GormDeletedAt => true | _ => false end.

Definition tag_kept (t : TableSchema) (f : Field) (definition : list string) (tg : tag) : bool :=
  match tg with
  | tag_autoIncrement => says_words ["AUTO_INCREMENT"] definition
  | tag_not_null => says_words ["NOT"; "NULL"] definition
  | tag_default v => says_words ["DEFAULT"; v] definition
  | tag_index name =>
    match sc_Indexes t !! name with Some columns => bool_decide (columns = [f_Column f]) | None => false end
  | tag_column name => String.eqb name (f_Column f)
  | tag_primaryKey | tag_uniqueIndex _ | tag_size _ | tag_autoCreateTime | tag_autoUpdateTime => true
  end.

(** The column has a type of the field and what its tags ask for; one that may
    be nil may be NULL, and a column that needs a value has one. *)
Definition field_kept (t : TableSchema) (f : Field) : bool :=
  match sc_Columns t !! f_Column f with
  | Some definition =>
    let ws := words definition in
    existsb (fun ty => String.eqb ty (default "" (head ws))) (sql_types f) &&
    forallb (tag_kept t f ws) (f_Tags f) &&
    negb (nullable f && says_words ["NOT"; "NULL"] ws)
  | None => false
  end.

(** The keys of the tags: the primary key, then the unique ones by name. *)
Fixpoint add_to_key (name column : string) (keys : list (string * list string)) : list (string * list string) :=
  match keys with
  | [] => [(name, [column])]
  | (n, columns) :: keys =>
    if String.eqb n name then (n, columns ++ [column]) :: keys else (n, columns) :: add_to_key name column keys
  end.

Definition tagged_keys (fields : list Field) : list (string * list string) :=
  fold_left (fun keys f =>
    fold_left (fun keys tg =>
      match tg with
      | tag_primaryKey => add_to_key "PRIMARY" (f_Column f) keys
      | tag_uniqueIndex name => add_to_key name (f_Column f) keys
      | _ => keys
      end) (f_Tags f) keys) fields [].
