(* ===== verification/Migrations.v ===== *)
(** The migrations (src/migrations), as goose applies them in order: what each
    statement does to the rows. DDL shows as the rows that appear with a new
    table, and as the values a new column gets.

    The numbers an AUTO_INCREMENT column hands out, and what NOW(3) reads, are
    MySQL's. *)
From S2P Require Import Prelude GoTime Model Gorm.

(** A number AUTO_INCREMENT may give to a new row of a table. *)
Class AutoIncrement := {
  auto_id : forall t, list (row t) -> Z;
  auto_id_positive : forall t l, 0 < auto_id t l;
  auto_id_fresh : forall t l r, In r l -> row_id t r < auto_id t l;
}.

Section statements.
Context {STO : Storage} {AI : AutoIncrement}.

(** [INSERT IGNORE INTO t ...]: a row whose key is taken is skipped. *)
Definition insert_ignore (t : table) (now : Z) (l : list (row t)) (r : row t) : list (row t) :=
  let r' := stored t (prepare t (auto_id t l) now r) in
  if existsb (fun x => conflicts t x r') l then l else l ++ [r'].

(** [INSERT INTO t ... ON DUPLICATE KEY UPDATE ...]: a row whose key is taken
    makes the row that has it take over the columns [set] names. *)
Fixpoint overwrite (t : table) (set : row t -> row t -> row t) (l : list (row t)) (r : row t)
    : list (row t) :=
  match l with
  | [] => []
  | x :: l' => if conflicts t x r then set r x :: l' else x :: overwrite t set l' r
  end.

Definition insert_or_update (t : table) (set : row t -> row t -> row t) (now : Z)
    (l : list (row t)) (r : row t) : list (row t) :=
  let r' := stored t (prepare t (auto_id t l) now r) in
  if existsb (fun x => conflicts t x r') l then overwrite t set l r' else l ++ [r'].

(** [INSERT ... VALUES (...), (...)]: the rows one after the other. *)
Definition insert_all {A} (ins : list A -> A -> list A) (l rs : list A) : list A :=
  fold_left ins rs l.

(** * 00004_create_rbac_tables.sql *)

Definition new_role (code name : string) : Role := mkRole 0 code name ZeroTime ZeroTime.

Definition new_permission (code name method path : string) : Permission :=
  mkPermission 0 code name method path ZeroTime ZeroTime.

Definition seed_roles : list Role :=
  [new_role "admin" "管理员"; new_role "user" "普通用户"].

Definition seed_permissions : list Permission :=
  [new_permission "profile:read" "读取个人资料" "GET" "/api/v1/users/me";
   new_permission "profile:update" "更新个人资料" "PUT" "/api/v1/users/me/profile";
   new_permission "password:update" "修改登录密码" "PATCH" "/api/v1/users/me/update/password";
   new_permission "admin:roles:read" "读取角色列表" "GET" "/api/v1/admin/roles";
   new_permission "admin:permissions:read" "读取权限列表" "GET" "/api/v1/admin/permissions";
   new_permission "admin:user_roles:update" "分配用户角色" "PUT" "/api/v1/admin/users/:id/roles"].

(** [name = VALUES(name), updated_at = VALUES(updated_at)] *)
Definition update_role (r x : Role) : Role :=
  mkRole (r_ID x) (r_Code x) (r_Name r) (r_CreatedAt x) (r_UpdatedAt r).

(** [name, method, path, updated_at = VALUES(...)] *)
Definition update_permission (p x : Permission) : Permission :=
  mkPermission (p_ID x) (p_Code x) (p_Name p) (p_Method p) (p_Path p) (p_CreatedAt x) (p_UpdatedAt p).

Definition insert_roles (now : Z) (l : list Role) : list Role :=
  insert_all (insert_or_update TRoles update_role now) l seed_roles.

Definition insert_permissions (now : Z) (l : list Permission) : list Permission :=
  insert_all (insert_or_update TPermissions update_permission now) l seed_permissions.

(** [INSERT IGNORE INTO role_permissions SELECT r.id, p.id FROM roles r JOIN
    permissions p WHERE ...] *)
Definition grant_permissions (now : Z) (roles : list Role) (perms : list Permission)
    (cond : Role -> Permission -> bool) (l : list RolePermission) : list RolePermission :=
  insert_all (insert_ignore TRolePermissions now) l
    (flat_map (fun r => map (fun p => mkRolePermission (r_ID r) (p_ID p) ZeroTime)
                          (List.filter (cond r) perms)) roles).

(** [WHERE r.code = 'user' AND p.code IN (...)] *)
Definition user_grant (r : Role) (p : Permission) : bool :=
  coll_eqb (r_Code r) "user" &&
  existsb (coll_eqb (p_Code p)) ["profile:read"; "profile:update"; "password:update"].

(** [WHERE r.code = 'admin'] *)
Definition admin_grant (r : Role) (p : Permission) : bool := coll_eqb (r_Code r) "admin".

(** [now i] is what NOW(3) reads in the [i]th statement. *)
Definition create_rbac_tables (now : nat -> Z) (ts : tables) : tables := fun t =>
  let roles := insert_roles (now 0%nat) (ts TRoles) in
  let perms := insert_permissions (now 1%nat) (ts TPermissions) in
  match t with
  | TRoles => roles
  | TPermissions => perms
  | TRolePermissions =>
      grant_permissions (now 3%nat) roles perms admin_grant
        (grant_permissions (now 2%nat) roles perms user_grant (ts TRolePermissions))
  | TUsers => ts TUsers
  | TRefreshTokens => ts TRefreshTokens
  | TUserRoles => ts TUserRoles
  end.

(** * 00005_backfill_user_roles.sql *)

(** [SELECT MIN(id) FROM users]: no value when there is no row. *)
Definition min_id (l : list User) : option Z :=
  match l with [] => None | u :: l' => Some (fold_left Z.min (map u_ID l') (u_ID u)) end.

Definition give_role (now : Z) (code : string) (uids : list Z) (roles : list Role)
    (l : list UserRole) : list UserRole :=
  insert_all (insert_ignore TUserRoles now) l
    (flat_map (fun uid => map (fun r => mkUserRole uid (r_ID r) ZeroTime)
                            (List.filter (fun r => coll_eqb (r_Code r) code) roles)) uids).

Definition backfill_user_roles (now : nat -> Z) (ts : tables) : tables := fun t =>
  match t with
  | TUserRoles =>
      give_role (now 5%nat) "admin" (option_list (min_id (ts TUsers))) (ts TRoles)
        (give_role (now 4%nat) "user" (map u_ID (ts TUsers)) (ts TRoles) (ts TUserRoles))
  | TUsers => ts TUsers
  | TRefreshTokens => ts TRefreshTokens
  | TRoles => ts TRoles
  | TPermissions => ts TPermissions
  | TRolePermissions => ts TRolePermissions
  end.

(** * 00006_harden_auth_sessions.sql *)

(** The rows of the tables of 00001 to 00003. *)
Record LegacyUser := mkLegacyUser {
  lu_ID : Z;
  lu_Username : string;
  lu_PasswordHash : string;
  lu_Nickname : string;
  lu_Status : Z;
  lu_CreatedAt : Z;
  lu_UpdatedAt : Z;
  lu_LastLoginAt : option Z;
  lu_DeletedAt : option Z;
}.

Record LegacyToken := mkLegacyToken {
  lt_ID : Z;
  lt_UserID : Z;
  lt_JTI : string;
  lt_TokenHash : string;
  lt_ExpiresAt : Z;
  lt_RevokedAt : option Z;
  lt_ReplacedByJTI : option string;
  lt_CreatedAt : Z;
  lt_UpdatedAt : Z;
}.

(** [ADD COLUMN auth_version BIGINT NOT NULL DEFAULT 1] *)
Definition add_auth_version (u : LegacyUser) : User :=
  mkUser (lu_ID u) (lu_Username u) (lu_PasswordHash u) (lu_Nickname u) (lu_Status u) 1
    (lu_CreatedAt u) (lu_UpdatedAt u) (lu_LastLoginAt u) (lu_DeletedAt u).

(** [ADD COLUMN family_id ..., ADD COLUMN revoked_reason ... DEFAULT NULL],
    then [SET family_id = jti WHERE family_id IS NULL]. *)
Definition add_family (k : LegacyToken) : RefreshToken :=
  mkRefreshToken (lt_ID k) (lt_UserID k) (lt_JTI k) (lt_JTI k) (lt_TokenHash k) (lt_ExpiresAt k)
    (lt_RevokedAt k) None (lt_ReplacedByJTI k) (lt_CreatedAt k) (lt_UpdatedAt k).

(** * All of them, on accounts and tokens there may be already *)

(** The backfill reads the ids of the accounts only, which 00006 keeps. *)
Definition legacy_tables (users : list LegacyUser) (tokens : list LegacyToken) : tables := fun t =>
  match t with
  | TUsers => map add_auth_version users
  | TRefreshTokens => map add_family tokens
  | TRoles | TPermissions | TUserRoles | TRolePermissions => []
  end.

Definition migrated_tables (now : nat -> Z) (users : list LegacyUser) (tokens : list LegacyToken)
    : tables :=
  backfill_user_roles now (create_rbac_tables now (legacy_tables users tokens)).
End statements.
