(* ===== verification/MigrationTheorems.v ===== *)
(** What the migrations leave in the tables: the two roles, the six
    permissions, who grants what to whom, and rows that satisfy the invariants
    of the running system. *)
From S2P Require Import Prelude GoTime GoStrings Model Gorm AuthState World.
From S2P Require Import RbacRepo AuthTheorems UserTheorems SystemTheorems Migrations.

(** * Insertions *)

Section insertions.
Context {STO : Storage} {AI : AutoIncrement}.

(** ** Rows with a generated id

    The keys of such a table are its id and [tc], which the generated columns
    do not touch. *)
Section generated.
Context (t : table) (set : row t -> row t -> row t) (tc : row t -> row t -> bool).
Context (Hconf : forall a b, conflicts t a b = (row_id t a =? row_id t b) || tc a b).
Context (Htc_l : forall id now a b, tc (stored t (prepare t id now a)) b = tc a b).
Context (Htc_r : forall id now a b, tc a (stored t (prepare t id now b)) = tc a b).
Context (Hid : forall id now a, row_id t a = 0 -> row_id t (stored t (prepare t id now a)) = id).

(** The row [r'] stands for the inserted [r]. *)
Definition inserted_as (now : Z) (r r' : row t) : Prop :=
  exists id, 0 < id /\ r' = stored t (prepare t id now r).

Lemma insert_new now l r :
  row_id t r = 0 -> Forall (fun x => tc x r = false) l ->
  insert_or_update t set now l r = l ++ [stored t (prepare t (auto_id t l) now r)] /\
  Forall (fun x => conflicts t x (stored t (prepare t (auto_id t l) now r)) = false) l.
Proof.
  intros Hr Hf.
  assert (Forall (fun x => conflicts t x (stored t (prepare t (auto_id t l) now r)) = false) l) as Hc.
  { rewrite List.Forall_forall in Hf |- *. intros x Hx.
    rewrite Hconf, Htc_r, Hf, orb_false_r, Hid by done. apply Z.eqb_neq.
    pose proof (auto_id_fresh t l x Hx). lia. }
  split; [|done]. unfold insert_or_update. destruct (existsb _ _) eqn:He; [|done].
  apply existsb_exists in He as (x & Hx & He). rewrite List.Forall_forall in Hc.
  by rewrite Hc in He.
Qed.

Lemma insert_all_new now rs : forall l,
  keys_ok t l -> Forall (fun r => row_id t r = 0) rs ->
  ForallOrdPairs (fun a b => tc a b = false) rs ->
  (forall x r, In x l -> In r rs -> tc x r = false) ->
  exists new, insert_all (insert_or_update t set now) l rs = l ++ new /\
              Forall2 (inserted_as now) rs new /\ keys_ok t (l ++ new).
Proof.
  induction rs as [|r rs IH]; intros l Hk H0 Hp Hl; simpl.
  - exists []. by rewrite app_nil_r.
  - inversion H0; subst. inversion Hp as [|? ? Hr Hp']; subst.
    destruct (insert_new now l r) as [Hi Hc]; [done| |].
    { apply List.Forall_forall. intros x Hx. apply Hl; [done|by left]. }
    unfold insert_all in *. rewrite Hi.
    destruct (IH (l ++ [stored t (prepare t (auto_id t l) now r)])) as (new & -> & Hnew & Hk'); try done.
    + by apply keys_ok_app.
    + intros x y [Hx|[<-|[]]]%in_app_or Hy; [apply Hl; [done|by right]|].
      rewrite Htc_l. rewrite List.Forall_forall in Hr. by apply Hr.
    + eexists. rewrite <- app_assoc in Hk' |- *. split; [done|]. split; [|exact Hk'].
      constructor; [|done]. exists (auto_id t l). split; [apply auto_id_positive|done].
Qed.
End generated.

(** ** Rows of the join tables

    Their key is the pair of ids; a row is skipped when its pair is there. *)
Section joined.
Context (t : table) (key : row t -> Z * Z).
Context (Hconf : forall a b, conflicts t a b = true <-> key a = key b).
Context (Hkey : forall id now a, key (stored t (prepare t id now a)) = key a).

Lemma insert_ignore_keys now l r k :
  In k (map key (insert_ignore t now l r)) <-> In k (map key l) \/ key r = k.
Proof.
  unfold insert_ignore. destruct (existsb _ _) eqn:He.
  - split; [by left|]. intros [?|<-]; [done|].
    apply existsb_exists in He as (x & Hx & Hc%Hconf). rewrite Hkey in Hc. rewrite <- Hc.
    by apply in_map.
  - rewrite map_app, in_app_iff. simpl. rewrite Hkey. tauto.
Qed.

Lemma insert_ignore_unique now l r : keys_ok t l -> keys_ok t (insert_ignore t now l r).
Proof.
  intros Hk. unfold insert_ignore. destruct (existsb _ _) eqn:He; [done|].
  apply keys_ok_app; [done|]. apply List.Forall_forall. intros x Hx.
  destruct (conflicts _ _ _) eqn:Hc; [|done]. rewrite <- He. symmetry.
  apply existsb_exists. by exists x.
Qed.

Lemma insert_ignored now rs : forall l,
  (forall k, In k (map key (insert_all (insert_ignore t now) l rs)) <->
             In k (map key l) \/ In k (map key rs)) /\
  (keys_ok t l -> keys_ok t (insert_all (insert_ignore t now) l rs)).
Proof.
  unfold insert_all. induction rs as [|r rs IH]; intros l; simpl; [split; [tauto|done]|].
  destruct (IH (insert_ignore t now l r)) as [Hi Hk]. split.
  - intros k. rewrite Hi, insert_ignore_keys. tauto.
  - intros Hl. by apply Hk, insert_ignore_unique.
Qed.
End joined.

Definition ur_key (r : UserRole) : Z * Z := (ur_UserID r, ur_RoleID r).
Definition rp_key (r : RolePermission) : Z * Z := (rp_RoleID r, rp_PermissionID r).

Lemma pair_eqb_true a b c d : (a =? c) && (b =? d) = true <-> (a, b) = (c, d).
Proof. rewrite andb_true_iff, !Z.eqb_eq. split; [by intros [-> ->]|by intros [= -> ->]]. Qed.

Lemma insert_ignored_user_roles now rs l :
  (forall k, In k (map ur_key (insert_all (insert_ignore TUserRoles now) l rs)) <->
             In k (map ur_key l) \/ In k (map ur_key rs)) /\
  (keys_ok TUserRoles l -> keys_ok TUserRoles (insert_all (insert_ignore TUserRoles now) l rs)).
Proof. apply (insert_ignored TUserRoles ur_key); [|done]. intros a b. apply pair_eqb_true. Qed.

Lemma insert_ignored_role_permissions now rs l :
  (forall k, In k (map rp_key (insert_all (insert_ignore TRolePermissions now) l rs)) <->
             In k (map rp_key l) \/ In k (map rp_key rs)) /\
  (keys_ok TRolePermissions l ->
   keys_ok TRolePermissions (insert_all (insert_ignore TRolePermissions now) l rs)).
Proof. apply (insert_ignored TRolePermissions rp_key); [|done]. intros a b. apply pair_eqb_true. Qed.
End insertions.

(** * The policy the migrations leave *)

Section policy.
Context {STO : Storage} {AI : AutoIncrement}.

Definition role_text (a b : Role) : bool := coll_eqb (r_Code a) (r_Code b).
Definition permission_text (a b : Permission) : bool :=
  coll_eqb (p_Code a) (p_Code b) || (coll_eqb (p_Method a) (p_Method b) && coll_eqb (p_Path a) (p_Path b)).

(** The collation tells the seeds apart, which differ in letters. *)
Record distinct_seeds : Prop := {
  ds_roles : coll_eqb "admin" "user" = false;
  ds_permissions : ForallOrdPairs (fun a b => permission_text a b = false) seed_permissions;
}.

(** The permission [p] is the seed [s] with an id. *)
Definition seeded_as (s p : Permission) : Prop :=
  p_Code p = p_Code s /\ p_Method p = p_Method s /\ p_Path p = p_Path s.

(** The administrators may do everything, the users what [user_grant] says. *)
Definition grants (r : Role) (p : Permission) : bool := user_grant r p || admin_grant r p.

Record seeded_policy (ts : tables) : Prop := {
  sp_roles : exists admin user, ts TRoles = [admin; user] /\
    r_Code admin = "admin" /\ r_Code user = "user";
  sp_role_keys : keys_ok TRoles (ts TRoles);
  sp_permissions : Forall2 seeded_as seed_permissions (ts TPermissions);
  sp_permission_keys : keys_ok TPermissions (ts TPermissions);
  sp_grants : forall rid pid,
    In (rid, pid) (map rp_key (ts TRolePermissions)) <->
    exists r p, In r (ts TRoles) /\ In p (ts TPermissions) /\ grants r p = true /\
                r_ID r = rid /\ p_ID p = pid;
}.

Lemma insert_roles_new now :
  distinct_seeds ->
  exists admin user, insert_roles now [] = [admin; user] /\
    r_Code admin = "admin" /\ r_Code user = "user" /\ keys_ok TRoles [admin; user].
Proof.
  intros Hd. destruct (insert_all_new TRoles update_role role_text) with (now := now) (rs := seed_roles)
    (l := @nil Role) as (new & Hi & Hnew & Hk); try done.
  - intros id n a Ha. simpl in *. unfold or_if_zero. by rewrite Ha.
  - constructor.
  - by repeat constructor.
  - repeat constructor. apply (ds_roles Hd).
  - unfold insert_roles. rewrite Hi. inversion Hnew as [|? a ? ? (? & _ & ->) Hnew']; subst.
    inversion Hnew' as [|? u ? ? (? & _ & ->) Hnil]; subst. inversion Hnil; subst.
    eexists _, _. by split_and!.
Qed.

Lemma insert_permissions_new now :
  distinct_seeds ->
  Forall2 seeded_as seed_permissions (insert_permissions now []) /\
  keys_ok TPermissions (insert_permissions now []).
Proof.
  intros Hd. destruct (insert_all_new TPermissions update_permission permission_text)
    with (now := now) (rs := seed_permissions) (l := @nil Permission) as (new & Hi & Hnew & Hk); try done.
  - intros a b. unfold permission_text. simpl. by rewrite orb_assoc.
  - intros id n a Ha. simpl in *. unfold or_if_zero. by rewrite Ha.
  - constructor.
  - by repeat constructor.
  - apply (ds_permissions Hd).
  - unfold insert_permissions. rewrite Hi. split; [|done].
    eapply Forall2_impl; [exact Hnew|]. by intros s p (id & _ & ->).
Qed.

Lemma in_granted now roles perms cond l rid pid :
  In (rid, pid) (map rp_key (grant_permissions now roles perms cond l)) <->
  In (rid, pid) (map rp_key l) \/
  exists r p, In r roles /\ In p perms /\ cond r p = true /\ r_ID r = rid /\ p_ID p = pid.
Proof.
  unfold grant_permissions. rewrite (proj1 (insert_ignored_role_permissions now _ l)).
  apply or_iff_compat_l. rewrite in_map_iff. setoid_rewrite in_flat_map.
  setoid_rewrite in_map_iff. setoid_rewrite filter_In. split.
  - intros (rp & [= <- <-] & r & Hr & p & <- & Hp & Hc). by exists r, p.
  - intros (r & p & Hr & Hp & Hc & <- & <-). eexists. split; [|exists r; split; [done|];
      exists p; split; [reflexivity|done]]. done.
Qed.

Lemma create_rbac_tables_policy now ts :
  distinct_seeds -> ts TRoles = [] -> ts TPermissions = [] -> ts TRolePermissions = [] ->
  seeded_policy (create_rbac_tables now ts).
Proof.
  intros Hd H1 H2 H3. simpl in H1, H2, H3.
  destruct (insert_roles_new (now 0%nat) Hd) as (a & u & Hi & Ha & Hu & Hk).
  destruct (insert_permissions_new (now 1%nat) Hd) as [Hp Hpk].
  split; simpl; rewrite ?H1, ?H2, ?H3; try done.
  - by exists a, u.
  - by rewrite Hi.
  - intros rid pid. rewrite !in_granted. unfold grants. split.
    + intros [[[]|(r & p & Hr & Hp' & Hc & H)]|(r & p & Hr & Hp' & Hc & H)];
        exists r, p; (split; [done|]); (split; [done|]); (split; [|done]); rewrite Hc; by rewrite ?orb_true_r.
    + intros (r & p & Hr & Hp' & [Hc|Hc]%orb_true_iff & H); [left; right|right]; by exists r, p.
Qed.

Lemma backfill_policy now ts : seeded_policy ts -> seeded_policy (backfill_user_roles now ts).
Proof. by intros []. Qed.

Lemma migrated_policy now users tokens :
  distinct_seeds -> seeded_policy (migrated_tables now users tokens).
Proof. intros Hd. by apply backfill_policy, create_rbac_tables_policy. Qed.

(** What a policy lets a user do: what the user's roles grant. *)
Lemma policy_permissions ts uid p :
  seeded_policy ts ->
  holds_permission ts uid p <->
  In p (ts TPermissions) /\ exists r, holds_role ts uid r /\ grants r p = true.
Proof.
  intros [_ Hrk _ Hpk Hg]. unfold holds_permission, holds_role.
  split; intros [Hp HH]; (split; [done|]); revert HH.
  - intros (ur & rp & Hur & Hu & Hrp & Hr & Hpid).
    assert (In (ur_RoleID ur, p_ID p) (map rp_key (ts TRolePermissions))) as Hin.
    { apply in_map_iff. exists rp. unfold rp_key. by rewrite Hr, Hpid. }
    apply Hg in Hin as (r & p' & Hr' & Hp' & Hgr & Hrid & Hpid').
    assert (p' = p) as ->.
    { apply (keys_ok_unique TPermissions (ts TPermissions)); try done. simpl.
      by rewrite Hpid', Z.eqb_refl. }
    exists r. split; [|done]. split; [done|]. by exists ur.
  - intros (r & (Hr & ur & Hur & Hu & Hrid) & Hgr).
    assert (In (r_ID r, p_ID p) (map rp_key (ts TRolePermissions))) as Hin
      by (apply Hg; by exists r, p).
    apply in_map_iff in Hin as (rp & [= Hr' Hp'] & Hrp). exists ur, rp.
    split_and!; first [done|congruence].
Qed.
End policy.

(** * Who may do what under the policy *)

Section roles.
Context {STO : Storage} {AI : AutoIncrement}.

(** The permissions of every user; the others are the administrators'. *)
Definition user_seeds : list Permission := firstn 3 seed_permissions.

Definition has_role (ts : tables) (uid : Z) (code : string) : Prop :=
  exists r, holds_role ts uid r /\ coll_eqb (r_Code r) code = true.

Definition may (ts : tables) (uid : Z) (code : string) : Prop :=
  exists p, holds_permission ts uid p /\ coll_eqb (p_Code p) code = true.

Lemma seed_code_unique a b :
  distinct_seeds -> In a seed_permissions -> In b seed_permissions ->
  coll_eqb (p_Code a) (p_Code b) = true -> a = b.
Proof.
  intros Hd Ha Hb Hc. unfold permission_text in Hd.
  destruct (ForallOrdPairs_In (ds_permissions Hd) a b Ha Hb) as [?|[Hn|Hn]]; [done|..];
    unfold permission_text in Hn; [|rewrite (coll_eqb_sym (p_Code b)) in Hn]; by rewrite Hc in Hn.
Qed.

Lemma user_grant_seed r s :
  distinct_seeds -> In s seed_permissions ->
  user_grant r s = true <-> coll_eqb (r_Code r) "user" = true /\ In s user_seeds.
Proof.
  intros Hd Hs. unfold user_grant. rewrite andb_true_iff. apply and_iff_compat_l.
  change ["profile:read"; "profile:update"; "password:update"] with (map p_Code user_seeds).
  rewrite existsb_exists. setoid_rewrite in_map_iff. split.
  - intros (c & (s' & <- & Hs') & Hc). assert (s = s') as ->; [|done].
    apply seed_code_unique; try done. simpl in Hs' |- *. tauto.
  - intros Hu. exists (p_Code s). split; [by exists s|apply coll_refl].
Qed.

(** The row of a seed. *)
Lemma seed_row ts s :
  seeded_policy ts -> In s seed_permissions -> exists p, In p (ts TPermissions) /\ seeded_as s p.
Proof. intros Hp Hs. destruct (Forall2_In_l _ _ _ _ (sp_permissions _ Hp) Hs) as (p & ? & ?). by exists p. Qed.

Lemma row_seed ts p :
  seeded_policy ts -> In p (ts TPermissions) -> exists s, In s seed_permissions /\ seeded_as s p.
Proof. intros Hp Hin. destruct (Forall2_In_r _ _ _ _ (sp_permissions _ Hp) Hin) as (s & ? & ?). by exists s. Qed.

Lemma grants_seed r s p : seeded_as s p -> grants r p = grants r s.
Proof. intros (Hc & _). unfold grants, user_grant, admin_grant. by rewrite Hc. Qed.

Lemma policy_may ts uid s :
  distinct_seeds -> seeded_policy ts -> In s seed_permissions ->
  may ts uid (p_Code s) <-> has_role ts uid "admin" \/ has_role ts uid "user" /\ In s user_seeds.
Proof.
  intros Hd Hp Hs. unfold may, has_role.
  assert (forall r, grants r s = true <->
            coll_eqb (r_Code r) "admin" = true \/ coll_eqb (r_Code r) "user" = true /\ In s user_seeds) as Hg.
  { intros r. unfold grants. rewrite orb_true_iff, user_grant_seed by done. unfold admin_grant. tauto. }
  split.
  - intros (p & (Hin & r & Hr & Hgr)%policy_permissions & Hc); [|done].
    destruct (row_seed ts p Hp Hin) as (s' & Hs' & Has). rewrite (grants_seed r s' p Has) in Hgr.
    assert (s' = s) as ->.
    { apply seed_code_unique; try done. destruct Has as [<- _]. done. }
    apply Hg in Hgr as [?|[? ?]]; [left|right; split; [|done]]; by exists r.
  - intros Hr. destruct (seed_row ts s Hp Hs) as (p & Hin & Has).
    assert (exists r, holds_role ts uid r /\ grants r s = true) as (r & Hr' & Hgr).
    { destruct Hr as [(r & Hr & Hc)|((r & Hr & Hc) & Hu)]; exists r; (split; [done|]); apply Hg; auto. }
    exists p. split; [|destruct Has as [-> _]; apply coll_refl].
    apply policy_permissions; [done|]. split; [done|]. exists r. by rewrite (grants_seed r s p Has).
Qed.

(** ** The roles of the accounts there were *)

Lemma in_given now code uids roles l uid rid :
  In (uid, rid) (map ur_key (give_role now code uids roles l)) <->
  In (uid, rid) (map ur_key l) \/
  In uid uids /\ exists r, In r roles /\ coll_eqb (r_Code r) code = true /\ r_ID r = rid.
Proof.
  unfold give_role. rewrite (proj1 (insert_ignored_user_roles now _ l)).
  apply or_iff_compat_l. rewrite in_map_iff. setoid_rewrite in_flat_map.
  setoid_rewrite in_map_iff. setoid_rewrite filter_In. split.
  - intros (ur & [= <- <-] & x & Hx & r & <- & Hr & Hc). split; [done|]. by exists r.
  - intros (Hu & r & Hr & Hc & <-). eexists. split; [|exists uid; split; [done|];
      exists r; split; [reflexivity|done]]. done.
Qed.

Lemma holds_role_keys ts uid r :
  holds_role ts uid r <-> In r (ts TRoles) /\ In (uid, r_ID r) (map ur_key (ts TUserRoles)).
Proof.
  unfold holds_role. apply and_iff_compat_l. rewrite in_map_iff. split.
  - intros (ur & Hin & <- & <-). by exists ur.
  - intros (ur & [= <- <-] & Hin). by exists ur.
Qed.

(** The administrator is the account with the smallest id. *)
Lemma backfilled_keys now ts uid rid :
  In (uid, rid) (map ur_key (backfill_user_roles now ts TUserRoles)) <->
  In (uid, rid) (map ur_key (ts TUserRoles)) \/
  exists r, In r (ts TRoles) /\ r_ID r = rid /\
    (coll_eqb (r_Code r) "user" = true /\ In uid (map u_ID (ts TUsers)) \/
     coll_eqb (r_Code r) "admin" = true /\ min_id (ts TUsers) = Some uid).
Proof.
  unfold backfill_user_roles. rewrite !in_given.
  assert (In uid (option_list (min_id (ts TUsers))) <-> min_id (ts TUsers) = Some uid) as ->
    by (destruct (min_id (ts TUsers)); simpl; naive_solver).
  naive_solver.
Qed.

Lemma fold_min l : forall z,
  In (fold_left Z.min l z) (z :: l) /\ forall x, In x (z :: l) -> fold_left Z.min l z <= x.
Proof.
  induction l as [|y l IH]; intros z; simpl.
  - split; [by left|]. intros x [<-|[]]. lia.
  - destruct (IH (Z.min z y)) as [[Hin|Hin] Hle]; (split; [|
      intros x [<-|[<-|Hx]];
      [specialize (Hle (Z.min z y) (or_introl eq_refl)); lia..|by apply Hle; right]]).
    + destruct (Z.min_spec z y) as [[_ Heq]|[_ Heq]]; rewrite Heq in Hin at 1; auto.
    + auto.
Qed.

Lemma min_id_spec l uid :
  min_id l = Some uid <-> In uid (map u_ID l) /\ forall u, In u l -> uid <= u_ID u.
Proof.
  destruct l as [|u l]; simpl; [split; [done|tauto]|].
  destruct (fold_min (map u_ID l) (u_ID u)) as [Hin Hle]. split.
  - intros [= <-]. split; [done|]. intros v [<-|Hv]; apply Hle; [by left|]. right. by apply in_map.
  - intros [Hu Hm]. f_equal. specialize (Hle uid Hu).
    assert (forall x, In x (u_ID u :: map u_ID l) -> uid <= x) as Hall.
    { intros x [<-|Hx]; [apply Hm; by left|]. apply in_map_iff in Hx as (v & <- & Hv). apply Hm. by right. }
    specialize (Hall _ Hin). lia.
Qed.
End roles.

(** * The accounts and the tokens there were *)

Section legacy.
Context {STO : Storage} {AI : AutoIncrement}.

(** The keys of 00001 and 00003 hold, and a token has an identifier. *)
Record legacy_ok (users : list LegacyUser) (tokens : list LegacyToken) : Prop := {
  lo_users : ForallOrdPairs (fun a b =>
    (lu_ID a =? lu_ID b) || coll_eqb (lu_Username a) (lu_Username b) = false) users;
  lo_tokens : ForallOrdPairs (fun a b =>
    (lt_ID a =? lt_ID b) || coll_eqb (lt_JTI a) (lt_JTI b)
    || coll_eqb (lt_TokenHash a) (lt_TokenHash b) = false) tokens;
  lo_named : forall k, In k tokens -> lt_JTI k <> "";
}.

Lemma FOP_map {A C} (R : C -> C -> Prop) (f : A -> C) l :
  ForallOrdPairs (fun a b => R (f a) (f b)) l -> ForallOrdPairs R (map f l).
Proof.
  induction 1 as [|x l Hx Hl IH]; simpl; constructor; [|done]. rewrite List.Forall_forall in *.
  intros y (z & <- & Hz)%in_map_iff. auto.
Qed.

Lemma migrated_keys now users tokens :
  legacy_ok users tokens ->
  keys_ok TUsers (migrated_tables now users tokens TUsers) /\
  keys_ok TRefreshTokens (migrated_tables now users tokens TRefreshTokens).
Proof. intros [Hu Ht _]. split; apply FOP_map; [exact Hu|exact Ht]. Qed.

(** Every token is the root and the only token of its family. *)
Lemma migrated_tokens_sound now users tokens :
  legacy_ok users tokens -> sound_tokens (migrated_tables now users tokens TRefreshTokens).
Proof.
  intros Hl. destruct (migrated_keys now users tokens Hl) as [_ Hk].
  assert (forall a, In a (migrated_tables now users tokens TRefreshTokens) ->
            t_FamilyID a = t_JTI a /\ t_JTI a <> "") as Hroot.
  { intros a (k & <- & Hin)%in_map_iff. split; [done|]. by apply (lo_named _ _ Hl). }
  assert (forall a b, In a (migrated_tables now users tokens TRefreshTokens) ->
            In b (migrated_tables now users tokens TRefreshTokens) -> same_family a b -> a = b) as Halone.
  { intros a b Ha Hb Hf. apply (keys_ok_unique _ _ _ _ Hk Ha Hb). unfold same_family in Hf.
    rewrite (proj1 (Hroot a Ha)), (proj1 (Hroot b Hb)) in Hf. simpl. by rewrite Hf, orb_true_r. }
  split; [done|..].
  - intros k Hin. by destruct (Hroot k Hin) as [-> ?].
  - intros k Hin. exists k. split; [done|]. rewrite (proj1 (Hroot k Hin)). apply coll_refl.
  - intros a b Ha Hb Hf. by rewrite (Halone a b).
  - intros a b Ha Hb Hf _ _. by apply Halone.
Qed.
End legacy.

Section migrated.
Context {STO : Storage} {G : Gorm} {SS : Store} {AI : AutoIncrement}.

(** A world whose database is as the migrations left it. *)
Definition migrated (users : list LegacyUser) (tokens : list LegacyToken) (w : World) : Prop :=
  exists now, forall t, tbl t w = migrated_tables now users tokens t.

Lemma migrated_sound users tokens w : legacy_ok users tokens -> migrated users tokens w -> sound_tables w.
Proof.
  intros Hl [now Hw]. unfold sound_tables. rewrite !Hw. split.
  - by apply migrated_keys.
  - by apply migrated_tokens_sound.
Qed.

(** The policy is about three tables only. *)
Lemma seeded_policy_same ts ts' :
  ts' TRoles = ts TRoles -> ts' TPermissions = ts TPermissions ->
  ts' TRolePermissions = ts TRolePermissions -> seeded_policy ts -> seeded_policy ts'.
Proof. intros H1 H2 H3 []. by split; rewrite ?H1, ?H2, ?H3. Qed.

Lemma migrated_world_policy users tokens w :
  distinct_seeds -> migrated users tokens w -> seeded_policy (rows (w_db w)).
Proof.
  intros Hd [now Hw]. apply (seeded_policy_same (migrated_tables now users tokens)); [apply Hw..|].
  by apply migrated_policy.
Qed.

Lemma and_iff_cong (P Q A C : Prop) : (P <-> Q) -> (P -> (A <-> C)) -> (P /\ A <-> Q /\ C).
Proof. tauto. Qed.

(** The roles the backfill gave. *)
Definition smallest_id (users : list LegacyUser) (uid : Z) : Prop :=
  In uid (map lu_ID users) /\ forall u, In u users -> uid <= lu_ID u.

Lemma legacy_ids now users tokens :
  map u_ID (create_rbac_tables now (legacy_tables users tokens) TUsers) = map lu_ID users.
Proof. simpl. by rewrite map_map. Qed.

Lemma legacy_min_id now users tokens uid :
  min_id (create_rbac_tables now (legacy_tables users tokens) TUsers) = Some uid <->
  smallest_id users uid.
Proof.
  rewrite min_id_spec, legacy_ids. apply and_iff_compat_l. simpl. setoid_rewrite in_map_iff. split.
  - intros Hm u Hu. apply (Hm (add_auth_version u)). by exists u.
  - intros Hm _ (u & <- & Hu). by apply Hm.
Qed.

Lemma migrated_holds users tokens w uid r :
  distinct_seeds -> migrated users tokens w ->
  holds_role (rows (w_db w)) uid r <->
  In r (tbl TRoles w) /\
  (coll_eqb (r_Code r) "user" = true /\ In uid (map lu_ID users) \/
   coll_eqb (r_Code r) "admin" = true /\ smallest_id users uid).
Proof.
  intros Hd Hm. pose proof (migrated_world_policy _ _ _ Hd Hm) as Hp. destruct Hm as [now Hw].
  rewrite holds_role_keys. apply and_iff_cong; [done|]. intros Hr.
  change (rows (w_db w) TUserRoles) with (tbl TUserRoles w). rewrite Hw.
  etransitivity; [apply backfilled_keys|].
  pose proof (legacy_ids now users tokens) as Hids. pose proof (legacy_min_id now users tokens uid) as Hmin.
  cbn [row] in *. rewrite Hids. setoid_rewrite Hmin. change (map ur_key _) with (@nil (Z * Z)).
  split.
  - intros [[]|(r' & Hr' & Hid & Hc)]. assert (r' = r) as ->; [|done].
    apply (keys_ok_unique TRoles (tbl TRoles w)); [apply (sp_role_keys _ Hp)| |done|].
    + change (In r' (tbl TRoles w)). by rewrite (Hw TRoles).
    + simpl. by rewrite Hid, Z.eqb_refl.
  - intros Hc. right. exists r. split; [|done]. change (In r (tbl TRoles w)) in Hr. by rewrite (Hw TRoles) in Hr.
Qed.

(** Who holds a role of a code, after the migrations. *)
Lemma migrated_has_role users tokens w uid code :
  distinct_seeds -> migrated users tokens w ->
  has_role (rows (w_db w)) uid code <->
  coll_eqb "user" code = true /\ In uid (map lu_ID users) \/
  coll_eqb "admin" code = true /\ smallest_id users uid.
Proof.
  intros Hd Hm. pose proof (migrated_world_policy _ _ _ Hd Hm) as Hp. unfold has_role.
  setoid_rewrite (migrated_holds users tokens w uid _ Hd Hm).
  destruct (sp_roles _ Hp) as (a & u & Hroles & Ha & Hu).
  change (rows (w_db w) TRoles) with (tbl TRoles w) in Hroles. rewrite Hroles. simpl In.
  pose proof (ds_roles Hd) as Hau. pose proof Hau as Hua. rewrite coll_eqb_sym in Hua. split.
  - intros (r & ([<-|[<-|[]]] & Hr) & Hc); rewrite ?Ha, ?Hu in *;
      destruct Hr as [[Hx ?]|[Hx ?]]; try congruence; auto.
  - intros [[Hc Hin]|[Hc Hs]]; [exists u|exists a]; rewrite ?Ha, ?Hu; rewrite ?coll_refl; auto 6.
Qed.
End migrated.
