(* ===== verification/PolicyTheorems.v ===== *)
(** Roles and permissions along the histories of the system: the roles, the
    permissions and who grants what never change, and the rows that give users
    their roles follow the accounts, except for what administrators assign. *)
From S2P Require Import Prelude GoTime GoStrings Sha256 GoErrors Model Gorm AuthState World.
From S2P Require Import Dao RefreshRepo RbacRepo TokenManager AuthService UserService RbacService.
From S2P Require Import UserHandler AuthTheorems UserTheorems RbacTheorems System SystemTheorems.

Section policy.
Context {STO : Storage} {G : Gorm} {GL : GormLaws} {SS : Store}.
Context {E : Env} {B : Bcrypt} {BL : BcryptLaws}.
Context {US : UserStore} {UL : UserStoreLaws} {AUS : AuthUserStore} {AUL : AuthUserStoreLaws}.
Context {RR : RefreshTokenRepository} {RL : RefreshTokenRepositoryLaws}.
Context {RB : RBACRepository} {RBL : RBACRepositoryLaws}.

(** * Vocabulary *)

Definition account_exists (w : World) (uid : Z) : Prop :=
  exists u, In u (tbl TUsers w) /\ u_ID u = uid.

Definition policy_kept (w w' : World) : Prop :=
  tbl TRoles w' = tbl TRoles w /\ tbl TPermissions w' = tbl TPermissions w /\
  tbl TRolePermissions w' = tbl TRolePermissions w.

#[export] Instance policy_kept_preorder : PreOrder policy_kept.
Proof. split; [done|]. unfold policy_kept. intros a b c ? ?. intuition congruence. Qed.

(** Roles were given to accounts only, and none was taken away. *)
Definition roles_follow (w w' : World) : Prop :=
  (forall ur, In ur (tbl TUserRoles w') ->
     In ur (tbl TUserRoles w) \/ account_exists w' (ur_UserID ur)) /\
  forall ur, In ur (tbl TUserRoles w) -> In ur (tbl TUserRoles w').

(** Only the roles of the id changed. *)
Definition roles_of_one (uid : Z) (w w' : World) : Prop :=
  forall ur, ur_UserID ur <> uid -> In ur (tbl TUserRoles w) <-> In ur (tbl TUserRoles w').

(** An administrator assigned roles to the id. *)
Definition assigns (uid : Z) (w w' : World) : Prop :=
  exists s codes, AssignRolesToUser s uid codes w = (Ok tt, w').

Definition role_step (w w' : World) : Prop :=
  policy_kept w w' /\
  (roles_follow w w' \/
   exists uid, assigns uid w w' /\ roles_of_one uid w w').

(** * Steps *)

Lemma other_tables_role_step w w' :
  (forall t, t <> TUsers -> t <> TRefreshTokens -> tbl t w' = tbl t w) -> role_step w w'.
Proof.
  intros Ht. split; [by split_and!; apply Ht|]. left. unfold roles_follow. rewrite (Ht TUserRoles) by done. auto.
Qed.

Lemma quiet_role_step w w' : same_tables w w' -> role_step w w'.
Proof. intros Ht. apply other_tables_role_step. intros t _ _. symmetry. apply Ht. Qed.

Lemma sets_role_step w w' t l : t = TUsers \/ t = TRefreshTokens -> sets w w' t l -> role_step w w'.
Proof. intros Ht [_ Ho]. apply other_tables_role_step. intros t' H1 H2. apply Ho. by destruct Ht as [-> | ->]. Qed.

Lemma added_role_step w w' u codes : account_added w w' u codes -> role_step w w'.
Proof.
  intros (_ & Hu & (l & Hl & Hrows) & _ & Ho). split; [by split_and!; apply Ho|]. left.
  unfold roles_follow. rewrite Hl. split; [|intros ur Hur; apply in_or_app; by left].
  intros ur [Hur|Hur]%in_app_or; [by left|right].
  unfold role_rows_for in Hrows. rewrite List.Forall_forall in Hrows. apply Hrows in Hur as [-> _].
  exists u. split; [|done]. rewrite Hu. apply in_or_app. right. by left.
Qed.

Lemma register_role_step s req w r w' : Register s req w = (r, w') -> role_step w w'.
Proof.
  intros Hrun. apply (wp_run _ _ _ _ _ (Register_spec s req w)) in Hrun as [_ Hr].
  destruct r as [[]|e|]; [|by apply quiet_role_step, Hr|done].
  destruct Hr as (_ & _ & _ & u & _ & Ha). by eapply added_role_step.
Qed.

Lemma bootstrap_role_step s req w r w' : BootstrapAdmin s req w = (r, w') -> role_step w w'.
Proof.
  intros Hrun. apply (wp_run _ _ _ _ _ (BootstrapAdmin_spec s req w)) in Hrun as [_ Hr].
  destruct r as [[]|e|]; [|by apply quiet_role_step, Hr|done].
  destruct Hr as (_ & _ & _ & _ & u & _ & Ha). by eapply added_role_step.
Qed.

Lemma login_role_step s req w r w' : Login s req w = (r, w') -> role_step w w'.
Proof.
  intros Hrun. apply (wp_run _ _ _ _ _ (Login_spec s req w)) in Hrun as [_ Hr].
  destruct r as [u'|e|]; [|by apply quiet_role_step, Hr|done].
  destruct Hr as (u & t & now & _ & _ & _ & _ & _ & Hset). eapply sets_role_step; [by left|done].
Qed.

Lemma nickname_role_step s uid name w r w' : UpdateNickname s uid name w = (r, w') -> role_step w w'.
Proof.
  intros Hrun. apply (wp_run _ _ _ _ _ (UpdateNickname_spec s uid name w)) in Hrun as [_ Hr].
  destruct r as [[]|e|]; [|by apply quiet_role_step|done].
  destruct Hr as (u & _ & _ & _ & [[_ Ht]|(_ & now & Hset)]); [by apply quiet_role_step|].
  eapply sets_role_step; [by left|done].
Qed.

Lemma password_role_step s uid req w r w' :
  keys_ok TUsers (tbl TUsers w) -> UpdateUserPassword s uid req w = (r, w') -> role_step w w'.
Proof.
  intros Hk Hrun. apply (wp_run _ _ _ _ _ (UpdateUserPassword_spec s uid req w Hk)) in Hrun as [_ Hr].
  destruct r as [[]|e|]; [|by apply quiet_role_step|done].
  destruct Hr as (_ & _ & u & hash & _ & _ & _ & _ & _ & _ & Ho). apply other_tables_role_step. exact Ho.
Qed.

Lemma roles_role_step s uid codes w r w' : AssignRolesToUser s uid codes w = (r, w') -> role_step w w'.
Proof.
  intros Hrun. pose proof Hrun as Hspec.
  apply (wp_run _ _ _ _ _ (AssignRolesToUser_spec s uid codes w)) in Hspec as [_ Hr].
  destruct r as [[]|e|]; [|by apply quiet_role_step, Hr|done].
  destruct Hr as (_ & (roles & _ & l & Hl & Hset & Ho) & _). split; [by split_and!; apply Ho|].
  right. exists uid. split; [by exists s, codes|]. intros ur Hne. rewrite Hset. split.
  - intros Hur. apply in_or_app. left. apply in_delete_where. split; [done|]. by apply Z.eqb_neq.
  - intros [Hur|Hur]%in_app_or; [by apply in_delete_where in Hur as [? _]|].
    by destruct (user_role_rows_l _ _ _ _ Hl Hur) as (_ & _ & ? & _).
Qed.

Lemma store_role_step s k w r w' : StoreRefreshToken s k w = (r, w') -> role_step w w'.
Proof.
  intros Hrun. apply (wp_run _ _ _ _ _ (StoreRefreshToken_spec s k w)) in Hrun as [_ Hr].
  destruct r as [[]|e|]; [|by apply quiet_role_step|done].
  destruct Hr as (k' & id & now & _ & _ & _ & _ & _ & _ & Hset). eapply sets_role_step; [by right|done].
Qed.

Lemma rotate_role_step s uid ver jti hash next w r w' :
  RotateRefreshToken s uid ver jti hash next w = (r, w') -> role_step w w'.
Proof.
  intros Hrun. apply (wp_run _ _ _ _ _ (RotateRefreshToken_spec s uid ver jti hash next w)) in Hrun
    as [_ Hr].
  destruct r as [[]|e|]; [| |done].
  - destruct Hr as (k & _ & _ & old & id & n1 & n2 & at_ & _ & _ & _ & _ & _ & Hset).
    eapply sets_role_step; [by right|done].
  - destruct (errors_Is e "service.ErrRefreshTokenReplay"); [|by apply quiet_role_step].
    destruct Hr as (_ & old & now & at_ & _ & _ & _ & _ & Hset). eapply sets_role_step; [by right|done].
Qed.

Lemma revoke_role_step s uid jti hash w r w' :
  RevokeRefreshToken s uid jti hash w = (r, w') -> role_step w w'.
Proof.
  intros Hrun. apply (wp_run _ _ _ _ _ (RevokeRefreshToken_spec s uid jti hash w)) in Hrun as [_ Hr].
  destruct r as [[]|e|]; [|by apply quiet_role_step|done].
  destruct Hr as (k & _ & Heff). destruct (is_active k); [|by apply quiet_role_step].
  destruct Heff as (now & at_ & Hset). eapply sets_role_step; [by right|done].
Qed.

Lemma revoke_all_role_step s uid w r w' : RevokeAllRefreshTokens s uid w = (r, w') -> role_step w w'.
Proof.
  intros Hrun. apply (wp_run _ _ _ _ _ (RevokeAllRefreshTokens_spec s uid w)) in Hrun as [_ Hr].
  destruct r as [[]|e|]; [|by apply quiet_role_step|done].
  destruct Hr as (now & at_ & Hset). eapply sets_role_step; [by right|done].
Qed.

Lemma create_user_role_step name hash w r w' :
  on_db (us_CreateUser (new_user name hash)) w = (r, w') -> role_step w w'.
Proof.
  apply (wp_run _ (fun _ w' => role_step w w')).
  eapply wp_exec; [apply us_create_law|intros u w1 Hrest Hins|intros e w1 Hw He].
  - destruct Hins as (id & now & _ & _ & _ & Hc). eapply sets_role_step; [by left|done].
  - by apply quiet_role_step, same_world_tables.
Qed.

Lemma create_with_role_role_step name hash w r w' :
  Transaction (createWithRole (new_user name hash)) w = (r, w') -> role_step w w'.
Proof.
  apply (wp_run _ (fun _ w' => role_step w w')).
  eapply wp_mono; [apply (wp_Transaction_atomic _ (fun w0 _ w1 => created_with_role name hash w0 w1)
    (fun _ _ => True)); intros w0 _; apply createWithRole_adds|].
  intros [[]|e|] w1 [_ Hr]; [|by apply quiet_role_step, Hr|done].
  destruct Hr as (w0 & w2 & Hw0 & (id & now & _ & Ha) & _ & Ht). eapply added_role_step.
  eapply (account_added_same w w0 w2 w1); [by apply same_world_tables|done|exact Ha].
Qed.

(** An UPDATE of the accounts in one statement. *)
Lemma update_role_step (m : ST error DB unit) p f w r w' :
  (forall db, wp m (exec_post (fun _ => update_effect TUsers p f db) db) db) ->
  on_db m w = (r, w') -> role_step w w'.
Proof.
  intros Hm. apply (wp_run _ (fun _ w' => role_step w w')).
  eapply wp_exec; [apply Hm|intros [] w1 Hrest Heff|intros e w1 Hw He].
  - apply (sets_from w) in Heff as (now & Hset); [|done]. eapply sets_role_step; [by left|done].
  - by apply quiet_role_step, same_world_tables.
Qed.

Lemma last_login_role_step uid t w r w' :
  on_db (us_UpdateLastLoginAtByID uid t) w = (r, w') -> role_step w w'.
Proof. eapply update_role_step. intros db. apply us_last_login_law. Qed.

Lemma set_nickname_role_step uid name w r w' :
  on_db (us_UpdateNicknameByID uid name) w = (r, w') -> role_step w w'.
Proof. eapply update_role_step. intros db. apply us_nickname_law. Qed.

Lemma service_role_step w w' : sound_tables w -> service_step w w' -> role_step w w'.
Proof.
  intros [Hk _] Hstep. revert Hk. destruct Hstep; intros Hk; eauto 3 using quiet_role_step,
    register_role_step, login_role_step, nickname_role_step, password_role_step,
    bootstrap_role_step, roles_role_step, store_role_step, rotate_role_step, revoke_role_step,
    revoke_all_role_step, create_user_role_step, create_with_role_role_step, last_login_role_step,
    set_nickname_role_step.
Qed.

(** * Histories *)

Lemma history_policy w w' : history w w' -> sound_tables w -> policy_kept w w'.
Proof.
  induction 1 as [w|w w1 w' Hstep _ IH]; intros Hs; [done|].
  transitivity w1; [by apply service_role_step|]. by apply IH, (step_progress w).
Qed.

Lemma accounts_stay w w' uid : accounts_grow w w' -> account_exists w uid -> account_exists w' uid.
Proof. intros Hg (u & Hu & <-). destruct (Hg u Hu) as (u' & Hu' & Hid & _). by exists u'. Qed.

(** The id was assigned roles in the course of a history. *)
Definition assigned_during (uid : Z) (w w' : World) : Prop :=
  exists w1 w2, history w w1 /\ assigns uid w1 w2 /\ history w2 w'.

(** The rows that give roles belong to accounts, or to ids an administrator
    assigned roles to. *)
Lemma history_role_rows w w' :
  history w w' -> sound_tables w ->
  (forall ur, In ur (tbl TUserRoles w) -> account_exists w (ur_UserID ur)) ->
  forall ur, In ur (tbl TUserRoles w') ->
    account_exists w' (ur_UserID ur) \/ assigned_during (ur_UserID ur) w w'.
Proof.
  intros Hh Hs Hrows.
  apply (rtc_ind_r (R:=service_step) (fun w' => forall ur, In ur (tbl TUserRoles w') ->
    account_exists w' (ur_UserID ur) \/ assigned_during (ur_UserID ur) w w') w); [by left; auto| |done].
  clear w' Hh. intros w1 w2 Hh Hstep IH. destruct (history_progress w w1 Hh Hs) as [Hs1 _].
  destruct (step_progress w1 w2 Hs1 Hstep) as (_ & Hg & _).
  assert (forall ur, In ur (tbl TUserRoles w1) ->
            account_exists w2 (ur_UserID ur) \/ assigned_during (ur_UserID ur) w w2) as Hold.
  { intros ur Hur. destruct (IH ur Hur) as [Ha|(wa & wb & H1 & H2 & H3)].
    - left. by eapply accounts_stay.
    - right. exists wa, wb. split; [done|]. split; [done|]. by eapply rtc_r. }
  destruct (service_role_step w1 w2 Hs1 Hstep) as [_ [[Hf _]|(uid & Ha & Hf)]]; intros ur Hur.
  - destruct (Hf ur Hur); auto.
  - destruct (decide (ur_UserID ur = uid)) as [<-|Hne]; [right; exists w1, w2; by split_and!|].
    apply Hold. by apply Hf.
Qed.

(** A role is only taken away from an id by assigning roles to it. *)
Lemma history_keeps_role w w' ur :
  history w w' -> sound_tables w -> In ur (tbl TUserRoles w) ->
  In ur (tbl TUserRoles w') \/ assigned_during (ur_UserID ur) w w'.
Proof.
  induction 1 as [w|w w1 w' Hstep Hh IH]; intros Hs Hur; [by left|].
  destruct (step_progress w w1 Hs Hstep) as [Hs1 _].
  assert (In ur (tbl TUserRoles w1) \/ assigns (ur_UserID ur) w w1) as [Hur1|Ha].
  { destruct (service_role_step w w1 Hs Hstep) as [_ [[_ Hf]|(uid & Ha & Hf)]]; [left; auto|].
    destruct (decide (ur_UserID ur = uid)) as [<-|Hne]; [by right|left; by apply Hf]. }
  - destruct (IH Hs1 Hur1) as [?|(wa & wb & Hwa & Hab & Hwb)]; [by left|right].
    exists wa, wb. split; [by eapply rtc_l|done].
  - right. exists w, w1. by split_and!.
Qed.
End policy.
