(* ===== verification/Threads.v ===== *)
(** Requests that run at the same time.

    The goroutine of a request is a [thread]: a tree whose nodes are the
    operations that other requests can see, each of which runs without
    interruption, and whose branches are their results; the context of the
    request is its own. An operation ([atom]) is a reading of the clock or of
    the random source, one operation on the shared store, one query, one
    statement, or a call of a service whose only access to the database is one
    transaction or statement. A thread is one of a request if it does, run
    alone, what [serve] does.

    A pool of threads steps by running one operation of any of them
    ([pool_step]); what it does to the world is a history. *)
From S2P Require Import Prelude GoTime GoStrings Sha256 GoErrors Model Gorm AuthState World.
From S2P Require Import Dao RefreshRepo RbacRepo TokenManager AuthService UserService RbacService.
From S2P Require Import Web Metrics UserHandler RbacHandler Middleware.
From S2P Require Import TokenTheorems AuthTheorems UserTheorems RbacTheorems HttpTheorems System.

Create HintDb splits discriminated.
#[export] Hint Constants Opaque : splits.

Section threads.
Context {STO : Storage} {G : Gorm} {GL : GormLaws} {SS : Store}.
Context {E : Env} {UT : UnicodeTables} {J : JWT} {B : Bcrypt} {JB : JSONBinding}.
Context {US : UserStore} {UL : UserStoreLaws} {AUS : AuthUserStore} {AUL : AuthUserStoreLaws}.
Context {RR : RefreshTokenRepository} {RB : RBACRepository} {RBL : RBACRepositoryLaws}.

(** * Trees of operations *)

Inductive tree (R : Type) : Type :=
| Leaf (r : R)
| Node (A : Type) (m : M A) (k : res A -> tree R).

(** The tree run without interruption. *)
Fixpoint alone {R} (t : tree R) (w : World) : R * World :=
  match t with
  | Leaf _ r => (r, w)
  | Node _ A m k => let '(r, w') := m w in alone (k r) w'
  end.

Fixpoint tree_bind {R S} (t : tree R) (f : R -> tree S) : tree S :=
  match t with
  | Leaf _ r => f r
  | Node _ A m k => Node S A m (fun r => tree_bind (k r) f)
  end.

Fixpoint all_nodes {R} (P : forall A, M A -> Prop) (t : tree R) : Prop :=
  match t with
  | Leaf _ _ => True
  | Node _ A m k => P A m /\ forall r, all_nodes P (k r)
  end.

Lemma alone_bind {R S} (t : tree R) (f : R -> tree S) w :
  alone (tree_bind t f) w = let '(r, w') := alone t w in alone (f r) w'.
Proof.
  revert w. induction t as [r|A m k IH]; intros w; simpl; [done|].
  destruct (m w) as [r w']. apply IH.
Qed.

Lemma all_nodes_bind {R S} P (t : tree R) (f : R -> tree S) :
  all_nodes P t -> (forall r, all_nodes P (f r)) -> all_nodes P (tree_bind t f).
Proof.
  intros Ht Hf. induction t as [r|A m k IH]; simpl in *; [done|]. destruct Ht as [Hm Hk].
  split; [done|]. intros r. by apply IH.
Qed.

(** * Operations *)

(** [hh] is what the readiness check calls. *)
Variable (hh : HealthHandler).

Inductive atom : forall A, M A -> Prop :=
| atom_Now : atom Z Now
| atom_Rand : atom nat Rand
| atom_store A (m : ST error St A) : atom A (on_store m)
(** queries *)
| atom_query A (d : ST error DB A) : quiet (on_db d) -> atom A (on_db d)
| atom_has_permission uid code : atom bool (rb_UserHasPermission uid code)
| atom_roles : atom (list Role) rb_ListRoles
| atom_permissions : atom (list Permission) rb_ListPermissions
| atom_user_roles uid : atom (list string) (rb_ListUserRoleCodes uid)
| atom_user_permissions uid : atom (list string) (rb_ListUserPermissionCodes uid)
| atom_health db : hh_db hh = Some db -> quiet (hd_DB db) -> atom unit (hd_DB db)
| atom_ping db : hh_db hh = Some db -> quiet (hd_Ping db) -> atom unit (hd_Ping db)
| atom_check m : In (Some m) (hh_checkers hh) -> quiet m -> atom unit m
(** statements and transactions *)
| atom_create_user name hash : atom User (on_db (us_CreateUser (new_user name hash)))
| atom_create_with_role name hash : atom unit (Transaction (createWithRole (new_user name hash)))
| atom_last_login uid t : atom unit (on_db (us_UpdateLastLoginAtByID uid t))
| atom_set_nickname uid name : atom unit (on_db (us_UpdateNicknameByID uid name))
(** calls that access the database once *)
| atom_store_token s uid it hash : atom unit (StoreRefreshToken s (Some (refreshTokenModel uid it hash)))
| atom_rotate s uid ver jti hash next : atom unit (RotateRefreshToken s uid ver jti hash next)
| atom_revoke s uid jti hash : atom unit (RevokeRefreshToken s uid jti hash)
| atom_password s uid req : atom unit (UpdateUserPassword s uid req)
| atom_assign s uid codes : atom unit (AssignRolesToUser s uid codes).

(** * Computations as trees *)

Record splits {A} (m : M A) : Type := {
  sp_tree : tree (res A);
  sp_alone : forall w, alone sp_tree w = m w;
  sp_atoms : all_nodes atom sp_tree;
}.

Definition local_result (A : Type) : Type := outcome Empty_set A * Context.

Record hsplits {A} (m : H A) : Type := {
  hs_tree : Context -> tree (local_result A);
  hs_alone : forall c w, m (c, w) = let '((r, c'), w') := alone (hs_tree c) w in (r, (c', w'));
  hs_atoms : forall c, all_nodes atom (hs_tree c);
}.

Lemma splits_leaf {A} (m : M A) (r : res A) : (forall w, m w = (r, w)) -> splits m.
Proof. intros Hm. by exists (Leaf _ r). Defined.

Lemma splits_atom {A} (m : M A) : atom A m -> splits m.
Proof.
  intros Hm. exists (Node _ A m (Leaf _)); [|by split].
  intros w. simpl. by destruct (m w).
Defined.

Lemma splits_ret {A} (a : A) : splits (ret a).
Proof. by eapply splits_leaf. Defined.
Lemma splits_fail {A} e : splits (fail e : M A).
Proof. by eapply splits_leaf. Defined.
Lemma splits_panic {A} : splits (panic : M A).
Proof. by eapply splits_leaf. Defined.
Lemma splits_of_res {A} (r : res A) : splits (of_res r).
Proof. by eapply splits_leaf. Defined.
Lemma splits_Now : splits Now.
Proof. apply splits_atom, atom_Now. Defined.
Lemma splits_Rand : splits Rand.
Proof. apply splits_atom, atom_Rand. Defined.
Lemma splits_on_store {A} (m : ST error St A) : splits (on_store m).
Proof. apply splits_atom, atom_store. Defined.

Lemma splits_bind {A C} (m : M A) (k : A -> M C) :
  splits m -> (forall a, splits (k a)) -> splits (bind m k).
Proof.
  intros [t Ht Ha] Hk.
  exists (tree_bind t (fun r => match r with
                                | Ok a => sp_tree _ (Hk a)
                                | Err e => Leaf _ (Err e)
                                | Panic => Leaf _ Panic
                                end)).
  - intros w. rewrite alone_bind, Ht. unfold bind. destruct (m w) as [[a|e|] w']; [apply sp_alone|done..].
  - apply all_nodes_bind; [done|]. intros [a|e|]; [apply sp_atoms|done..].
Defined.

Lemma splits_map {A C} (m : M A) (f : res A -> res C) (m' : M C) :
  (forall w, m' w = let '(r, w') := m w in (f r, w')) -> splits m -> splits m'.
Proof.
  intros Hm [t Ht Ha]. exists (tree_bind t (fun r => Leaf _ (f r))).
  - intros w. rewrite alone_bind, Ht, Hm. by destruct (m w).
  - by apply all_nodes_bind.
Defined.

Lemma splits_attempt {A} (m : M A) : splits m -> splits (attempt m).
Proof.
  apply (splits_map _ (fun r => match r with Ok a => Ok (inr a) | Err e => Ok (inl e) | Panic => Panic end)).
  intros w. unfold attempt. by destruct (m w) as [[a|e|] w'].
Defined.

Lemma splits_map_err {A} f (m : M A) : splits m -> splits (map_err f m).
Proof.
  apply (splits_map _ (fun r => match r with Ok a => Ok a | Err e => Err (f e) | Panic => Panic end)).
  intros w. unfold map_err. by destruct (m w) as [[a|e|] w'].
Defined.

(** Handlers. *)
Lemma hsplits_leaf {A} (m : H A) (f : Context -> local_result A) :
  (forall c w, m (c, w) = let '(r, c') := f c in (r, (c', w))) -> hsplits m.
Proof.
  intros Hm. exists (fun c => Leaf _ (f c)); [|done]. intros c w. rewrite Hm. simpl. by destruct (f c).
Defined.

Lemma hsplits_ret {A} (a : A) : hsplits (ret a).
Proof. by apply (hsplits_leaf _ (fun c => (Ok a, c))). Defined.
Lemma hsplits_panic {A} : hsplits (panic : H A).
Proof. by apply (hsplits_leaf _ (fun c => (Panic, c))). Defined.
Lemma hsplits_on_context f : hsplits (on_context f).
Proof. by apply (hsplits_leaf _ (fun c => (Ok tt, f c))). Defined.
Lemma hsplits_gets {A} (f : Context -> A) : hsplits (gets (fun '(c, w) => f c)).
Proof. by apply (hsplits_leaf _ (fun c => (Ok (f c), c))). Defined.

Lemma hsplits_then {A C} (m : H A) (m' : H C) (k : local_result A -> tree (local_result C)) :
  (forall c w, m' (c, w) = let '(r, (c', w')) := m (c, w) in
                           let '((r2, c2), w2) := alone (k (r, c')) w' in (r2, (c2, w2))) ->
  (forall rc, all_nodes atom (k rc)) -> hsplits m -> hsplits m'.
Proof.
  intros Hm Hk [t Ht Ha]. exists (fun c => tree_bind (t c) k).
  - intros c w. rewrite Hm, Ht, alone_bind. by destruct (alone (t c) w) as [[r c'] w'].
  - intros c. by apply all_nodes_bind.
Defined.

Lemma hsplits_bind {A C} (m : H A) (k : A -> H C) :
  hsplits m -> (forall a, hsplits (k a)) -> hsplits (bind m k).
Proof.
  intros Hm Hk. apply (hsplits_then m _ (fun '(r, c) => match r with
                                                        | Ok a => hs_tree _ (Hk a) c
                                                        | Err e => Leaf _ (Err e, c)
                                                        | Panic => Leaf _ (Panic, c)
                                                        end)); [..|exact Hm].
  - intros c w. unfold bind. destruct (m (c, w)) as [[a|e|] [c' w']]; [apply hs_alone|done..].
  - intros [[a|e|] c]; [apply hs_atoms|done..].
Defined.

Lemma hsplits_call {A} (m : M A) : splits m -> hsplits (call m).
Proof.
  intros [t Ht Ha].
  exists (fun c => tree_bind t (fun r => Leaf _ (match r with
                                                 | Ok a => (Ok (inr a), c)
                                                 | Err e => (Ok (inl e), c)
                                                 | Panic => (Panic, c)
                                                 end))).
  - intros c w. rewrite alone_bind, Ht. unfold call. by destruct (m w) as [[a|e|] w'].
  - intros c. by apply all_nodes_bind.
Defined.

(** * Services *)

Lemma find_user_atom uid : atom User (on_db (aus_GetUserByID uid)).
Proof. apply atom_query, find_user_quiet. Qed.

Lemma first_user_quiet (d : ST error DB User) p :
  (forall db, wp d (first_post TUsers p db) db) -> quiet (on_db d).
Proof.
  intros Hd w. eapply (wp_first TUsers); [apply Hd|intros u w' Hw _ _|intros e w' Hw _ _];
    by apply same_world_tables.
Qed.

Lemma username_atom name : atom User (on_db (us_GetUserByUsername name)).
Proof. apply atom_query. eapply first_user_quiet. intros db. apply us_get_username_law. Qed.

Lemma user_atom uid : atom User (on_db (us_GetUserByID uid)).
Proof. apply atom_query. eapply first_user_quiet. intros db. apply us_get_law. Qed.

#[local] Hint Resolve splits_ret splits_fail splits_panic splits_of_res splits_Now splits_Rand
  splits_on_store : splits.
#[local] Hint Extern 1 (splits (on_db (us_GetUserByUsername _))) => apply splits_atom, username_atom : splits.
#[local] Hint Extern 1 (splits (on_db (us_GetUserByID _))) => apply splits_atom, user_atom : splits.
#[local] Hint Extern 1 (splits (on_db (aus_GetUserByID _))) => apply splits_atom, find_user_atom : splits.
#[local] Hint Extern 2 (splits _) =>
  apply splits_atom; first [apply atom_has_permission | apply atom_roles | apply atom_permissions
    | apply atom_user_roles | apply atom_user_permissions | apply atom_create_user
    | apply atom_create_with_role | apply atom_last_login | apply atom_set_nickname
    | apply atom_store_token | apply atom_rotate | apply atom_revoke | apply atom_password
    | apply atom_assign] : splits.

(** Cuts a service call into its operations. *)
Ltac splits_run :=
  cbv zeta;
  repeat first
    [ solve [eauto with splits nocore]
    | lazymatch goal with
      | |- splits (bind _ _) => apply splits_bind; [|intros ?]
      | |- splits (attempt _) => apply splits_attempt
      | |- splits (map_err _ _) => apply splits_map_err
      | |- splits (if ?b then _ else _) => destruct b
      | |- splits (match ?x with _ => _ end) => destruct x
      end ].

Lemma Register_splits s req : splits (Register s req).
Proof. unfold Register, GenerateFromPassword. splits_run. Defined.
Lemma Login_splits s req : splits (Login s req).
Proof. unfold Login. splits_run. Defined.
Lemma UpdateNickname_splits s uid name : splits (UpdateNickname s uid name).
Proof. unfold UpdateNickname. splits_run. Defined.
Lemma GetProfile_splits s uid : splits (GetProfile s uid).
Proof. unfold GetProfile. splits_run. Defined.
Lemma generateToken_splits m uid un ver ty ttl : splits (generateToken m uid un ver ty ttl).
Proof. unfold generateToken, NewUUID. splits_run. Defined.
Lemma GenerateAccessToken_splits m uid un ver : splits (GenerateAccessToken m uid un ver).
Proof. unfold GenerateAccessToken. apply splits_bind; [apply generateToken_splits|intros it; splits_run]. Defined.
Lemma ParseAccessToken_splits m tok : splits (ParseAccessToken m tok).
Proof. unfold ParseAccessToken, parseToken. splits_run. Defined.
Lemma ParseRefreshToken_splits m tok : splits (ParseRefreshToken m tok).
Proof. unfold ParseRefreshToken, parseToken. splits_run. Defined.
Lemma ValidateAccessToken_splits s claims : splits (ValidateAccessToken s claims).
Proof. unfold ValidateAccessToken, requireDB, with_stateStore. splits_run. Defined.
Lemma RevokeAccessToken_splits s jti exp : splits (RevokeAccessToken s jti exp).
Proof. unfold RevokeAccessToken. splits_run. Defined.
Lemma CheckLoginAllowed_splits s a ip : splits (CheckLoginAllowed s a ip).
Proof. unfold CheckLoginAllowed. splits_run. Defined.
Lemma RecordLoginFailure_splits s a ip : splits (RecordLoginFailure s a ip).
Proof. unfold RecordLoginFailure. splits_run. Defined.
Lemma ResetLoginFailures_splits s a : splits (ResetLoginFailures s a).
Proof. unfold ResetLoginFailures. splits_run. Defined.
Lemma HasPermission_splits s uid code : splits (HasPermission s uid code).
Proof. unfold HasPermission. splits_run. Defined.
Lemma ListRoles_splits s : splits (ListRoles s).
Proof. unfold ListRoles. splits_run. Defined.
Lemma ListPermissions_splits s : splits (ListPermissions s).
Proof. unfold ListPermissions. splits_run. Defined.
Lemma GetUserAuthorization_splits s uid : splits (GetUserAuthorization s uid).
Proof. unfold GetUserAuthorization. splits_run. Defined.
Lemma ensureRequestID_splits rq : splits (ensureRequestID rq).
Proof. unfold ensureRequestID, NewUUID. splits_run. Defined.
Lemma NewUUID_splits : splits NewUUID.
Proof. unfold NewUUID. splits_run. Defined.
Lemma GenerateRefreshToken_splits m uid un ver : splits (GenerateRefreshToken m uid un ver).
Proof. apply generateToken_splits. Defined.

(** * Handlers *)

#[local] Hint Resolve Register_splits Login_splits UpdateNickname_splits GetProfile_splits
  generateToken_splits GenerateAccessToken_splits GenerateRefreshToken_splits ParseAccessToken_splits
  ParseRefreshToken_splits ValidateAccessToken_splits RevokeAccessToken_splits CheckLoginAllowed_splits
  RecordLoginFailure_splits ResetLoginFailures_splits HasPermission_splits ListRoles_splits
  ListPermissions_splits GetUserAuthorization_splits ensureRequestID_splits NewUUID_splits : splits.
#[local] Hint Resolve hsplits_ret hsplits_panic hsplits_on_context hsplits_gets : splits.
#[local] Hint Extern 1 (hsplits (Success _)) => apply hsplits_on_context : splits.
#[local] Hint Extern 1 (hsplits (Fail _ _ _)) => apply hsplits_on_context : splits.
#[local] Hint Extern 1 (hsplits c_Abort) => apply hsplits_on_context : splits.
#[local] Hint Extern 1 (hsplits (c_Set _ _)) => apply hsplits_on_context : splits.
#[local] Hint Extern 1 (hsplits (c_Header _ _)) => apply hsplits_on_context : splits.
#[local] Hint Extern 1 (hsplits (SetCookie _)) => apply hsplits_on_context : splits.
#[local] Hint Extern 1 (hsplits (SetReady _)) => apply hsplits_on_context : splits.
#[local] Hint Extern 1 (hsplits request) => apply (hsplits_gets cx_Request) : splits.
#[local] Hint Extern 1 (hsplits (c_Get ?k)) => apply (hsplits_gets (fun c => cx_Keys c !! k)) : splits.
#[local] Hint Extern 1 (hsplits (call _)) => apply hsplits_call; solve [eauto with splits nocore] : splits.

(** Cuts a handler. *)
Ltac hsplits_run :=
  cbv zeta;
  repeat first
    [ solve [eauto with splits nocore]
    | lazymatch goal with
      | |- hsplits (bind _ _) => apply hsplits_bind; [|intros ?]
      | |- hsplits (lift _ _) => unfold lift
      | |- hsplits (call _) => apply hsplits_call; splits_run
      | |- hsplits (if ?b then _ else _) => destruct b
      | |- hsplits (match ?x with _ => _ end) => destruct x
      end ].

Lemma handleError_splits e code msg : hsplits (handleError e code msg).
Proof. unfold handleError. hsplits_run. Defined.
#[local] Hint Resolve handleError_splits : splits.

Lemma RegisterHandler_splits h : hsplits (RegisterHandler h).
Proof. unfold RegisterHandler, badRequest. hsplits_run. Defined.
Lemma issueLoginTokens_splits h u : hsplits (issueLoginTokens h u).
Proof. unfold issueLoginTokens, setRefreshTokenCookie. hsplits_run. Defined.
Lemma respondLoginRateLimited_splits d : hsplits (respondLoginRateLimited d).
Proof. unfold respondLoginRateLimited. hsplits_run. Defined.
#[local] Hint Resolve issueLoginTokens_splits respondLoginRateLimited_splits : splits.
Lemma refuseLogin_splits h req ip e : hsplits (refuseLogin h req ip e).
Proof. unfold refuseLogin. hsplits_run. Defined.
#[local] Hint Resolve refuseLogin_splits : splits.
Lemma LoginHandler_splits h : hsplits (LoginHandler h).
Proof. unfold LoginHandler, badRequest. hsplits_run. Defined.
Lemma RefreshTokenHandler_splits h : hsplits (RefreshTokenHandler h).
Proof.
  unfold RefreshTokenHandler, clearRefreshTokenCookie, setRefreshTokenCookie,
    handleRefreshTokenParseError, badRequest. hsplits_run.
Defined.
Lemma LogoutHandler_splits h : hsplits (LogoutHandler h).
Proof.
  unfold LogoutHandler, optionalAccessToken, logoutRefreshToken, clearRefreshTokenCookie,
    handleRefreshTokenParseError, badRequest. hsplits_run.
Defined.
Lemma MeHandler_splits h : hsplits (MeHandler h).
Proof. unfold MeHandler, callerID. hsplits_run. Defined.
Lemma UpdateProfileHandler_splits h : hsplits (UpdateProfileHandler h).
Proof. unfold UpdateProfileHandler, callerID, badRequest. hsplits_run. Defined.
Lemma UpdateUserPasswordHandler_splits h : hsplits (UpdateUserPasswordHandler h).
Proof. unfold UpdateUserPasswordHandler, callerID, clearRefreshTokenCookie, badRequest. hsplits_run. Defined.
Lemma ListRolesHandler_splits h : hsplits (ListRolesHandler h).
Proof. unfold ListRolesHandler. hsplits_run. Defined.
Lemma ListPermissionsHandler_splits h : hsplits (ListPermissionsHandler h).
Proof. unfold ListPermissionsHandler. hsplits_run. Defined.
Lemma GetMyAuthorizationHandler_splits h : hsplits (GetMyAuthorizationHandler h).
Proof. unfold GetMyAuthorizationHandler, authenticatedUser. hsplits_run. Defined.
Lemma AssignUserRolesHandler_splits h : hsplits (AssignUserRolesHandler h).
Proof. unfold AssignUserRolesHandler. hsplits_run. Defined.
Lemma AuthMiddleware_splits m vs : hsplits (AuthMiddleware m vs).
Proof. unfold AuthMiddleware, abortWith. hsplits_run. Defined.
Lemma RequirePermission_splits checker p : hsplits (RequirePermission checker p).
Proof. unfold RequirePermission, authenticatedUser, abortWith. hsplits_run. Defined.

Lemma pingCheckers_splits l :
  (forall m, In (Some m) l -> quiet m) -> (forall m, In m l -> In m (hh_checkers hh)) ->
  hsplits (pingCheckers l).
Proof.
  induction l as [|[m|] l IH]; intros Hq Hl; simpl; [hsplits_run|..].
  - apply hsplits_bind.
    + apply hsplits_call, splits_atom, atom_check; [apply Hl|apply Hq]; by left.
    + intros [e|[]]; [hsplits_run|]. apply IH; intros m' Hm'; [apply Hq|apply Hl]; by right.
  - apply IH; intros m' Hm'; [apply Hq|apply Hl]; by right.
Defined.

Lemma ReadyzHandler_splits : quiet_health hh -> hsplits (ReadyzHandler hh).
Proof.
  unfold quiet_health, ReadyzHandler, failReadiness, recordReadiness. intros Hq.
  destruct (hh_db hh) as [db|] eqn:Hdb; [|hsplits_run].
  assert (atom unit (hd_DB db)) as H1 by (destruct Hq as [[Hq1 _] _]; by apply atom_health).
  assert (atom unit (hd_Ping db)) as H2 by (destruct Hq as [[_ Hq2] _]; by apply atom_ping).
  hsplits_run; try (apply splits_atom; assumption).
  apply pingCheckers_splits; [apply Hq|done].
Defined.

(** * Requests *)

Lemma Recovery_splits m : hsplits m -> hsplits (Recovery m).
Proof.
  intros Hm.
  assert (forall b : bool, hsplits (if b then do! Fail StatusInternalServerError CodeInternalError
                                               "server error" in c_Abort
                                    else c_Abort)) as Hr by (intros b; hsplits_run).
  apply (hsplits_then m _ (fun '(r, c) => match r with
           | Panic => hs_tree _ (Hr (bool_decide (cx_Writes c = []))) c
           | r => Leaf _ (r, c)
           end)); [..|exact Hm].
  - intros c w. unfold Recovery. destruct (m (c, w)) as [[a|[]|] [c' w']]; [done|].
    apply (hs_alone _ (Hr (bool_decide (cx_Writes c' = [])))).
  - intros [[a|[]|] c]; [done|apply hs_atoms].
Defined.

Lemma RouteMiddleware_splits p : hsplits (RouteMiddleware p).
Proof.
  apply (hsplits_leaf _ (fun c => (Ok tt, routed p c))).
  intros c w. by rewrite RouteMiddleware_run.
Defined.

Lemma RequestID_splits : hsplits RequestID.
Proof. unfold RequestID, lift. hsplits_run. Defined.

Lemma AccessLog_splits p m : hsplits m -> hsplits (AccessLog p m).
Proof. intros Hm. unfold AccessLog, lift. hsplits_run. Defined.

Inductive all_split : list (H unit) -> Type :=
| split_nil : all_split []
| split_cons m ms : hsplits m -> all_split ms -> all_split (m :: ms).

Lemma chain_splits ms : all_split ms -> hsplits (chain_of ms).
Proof.
  induction 1 as [|m ms Hm _ IH]; simpl; [hsplits_run|].
  apply hsplits_bind; [exact Hm|intros _].
  apply hsplits_bind; [apply (hsplits_gets cx_Aborted)|intros []; [hsplits_run|exact IH]].
Defined.

Lemma serve_splits route : all_split (ro_Handlers route) -> hsplits (serve route).
Proof.
  intros Hr. unfold serve. apply hsplits_bind; [apply RequestID_splits|intros _].
  apply hsplits_bind; [apply RouteMiddleware_splits|intros _].
  by apply AccessLog_splits, Recovery_splits, chain_splits.
Defined.

(** * What an operation does *)

Lemma quiet_step {A} (m : M A) w r w' : quiet m -> m w = (r, w') -> service_step w w'.
Proof. intros Hq Hrun. apply step_quiet. exact (wp_run _ _ _ _ _ (Hq w) Hrun). Qed.

Lemma atom_step A (m : M A) w r w' : atom A m -> m w = (r, w') -> service_step w w'.
Proof.
  intros Ha. destruct Ha; intros Hrun; try (by econstructor; eassumption);
    (eapply quiet_step; [|exact Hrun]).
  - apply quiet_Now.
  - by intros w0.
  - apply quiet_on_store.
  - done.
  - eapply read_quiet. intros w0. apply rb_has_permission_law.
  - eapply read_quiet, rb_list_roles_law.
  - eapply read_quiet, rb_list_permissions_law.
  - eapply read_quiet. intros w0. apply rb_user_roles_law.
  - eapply read_quiet. intros w0. apply rb_user_permissions_law.
  - done.
  - done.
  - done.
Qed.
End threads.

(** * Pools *)

Section pools.
Context {STO : Storage} {G : Gorm} {GL : GormLaws} {SS : Store}.
Context {E : Env} {UT : UnicodeTables} {J : JWT} {JL : JWTLaws} {B : Bcrypt} {JB : JSONBinding}.
Context {US : UserStore} {UL : UserStoreLaws} {AUS : AuthUserStore} {AUL : AuthUserStoreLaws}.
Context {RR : RefreshTokenRepository} {RB : RBACRepository} {RBL : RBACRepositoryLaws}.

(** A goroutine: what is left of a request. *)
Definition thread : Type := tree (local_result unit).

Variables (hs : Handlers) (registration : bool).

(** [t] is the request [rq] to [route], cut into operations. *)
Definition thread_of (route : Route) (rq : Request) (t : thread) : Prop :=
  all_nodes (atom (hs_health hs)) t /\
  forall w, serve route (new_context rq, w) = let '((r, c), w') := alone t w in (r, (c, w')).

(** The requests in progress, in the order they came. *)
Inductive pool_step : list thread * World -> list thread * World -> Prop :=
| pool_arrive ts w route rq t :
    In route (routes hs registration) -> thread_of route rq t -> pool_step (ts, w) (ts ++ [t], w)
| pool_run ts w i A (m : M A) k r w' :
    ts !! i = Some (Node _ A m k) -> m w = (r, w') -> pool_step (ts, w) (<[i := k r]> ts, w').

Definition pool_ok (p : list thread * World) : Prop := Forall (all_nodes (atom (hs_health hs))) (fst p).

Lemma pool_step_history p p' :
  pool_ok p -> pool_step p p' -> pool_ok p' /\ history (snd p) (snd p').
Proof.
  unfold pool_ok. intros Hok Hs. destruct Hs as [ts w route rq t Hin [Ht _]|ts w i A m k r w' Hi Hm]; simpl in *.
  - split; [|apply rtc_refl]. apply Forall_app. split; [done|by constructor].
  - destruct (Forall_lookup_1 _ _ _ _ Hok Hi) as [Ha Hk]. split.
    + apply Forall_insert; [done|apply Hk].
    + apply rtc_once. by eapply atom_step.
Qed.

Lemma pool_history p p' :
  pool_ok p -> rtc pool_step p p' -> pool_ok p' /\ history (snd p) (snd p').
Proof.
  intros Hok Hr. induction Hr as [p|p p1 p' Hs _ IH]; [by split; [|apply rtc_refl]|].
  destruct (pool_step_history p p1 Hok Hs) as [Hok1 H1]. destruct (IH Hok1) as [Hok2 H2].
  split; [done|by transitivity (snd p1)].
Qed.

(** The handler of a route. *)
Ltac handler_splits Hq :=
  lazymatch goal with
  | |- hsplits _ (RegisterHandler _) => apply RegisterHandler_splits
  | |- hsplits _ (LoginHandler _) => apply LoginHandler_splits
  | |- hsplits _ (RefreshTokenHandler _) => apply RefreshTokenHandler_splits
  | |- hsplits _ (LogoutHandler _) => apply LogoutHandler_splits
  | |- hsplits _ (AuthMiddleware _ _) => apply AuthMiddleware_splits
  | |- hsplits _ (RequirePermission _ _) => apply RequirePermission_splits
  | |- hsplits _ (MeHandler _) => apply MeHandler_splits
  | |- hsplits _ (UpdateProfileHandler _) => apply UpdateProfileHandler_splits
  | |- hsplits _ (UpdateUserPasswordHandler _) => apply UpdateUserPasswordHandler_splits
  | |- hsplits _ (ListRolesHandler _) => apply ListRolesHandler_splits
  | |- hsplits _ (ListPermissionsHandler _) => apply ListPermissionsHandler_splits
  | |- hsplits _ (GetMyAuthorizationHandler _) => apply GetMyAuthorizationHandler_splits
  | |- hsplits _ (AssignUserRolesHandler _) => apply AssignUserRolesHandler_splits
  | |- hsplits _ (ReadyzHandler _) => apply ReadyzHandler_splits, Hq
  | |- hsplits _ _ => apply hsplits_on_context
  end.

(** Every request is a thread. *)
Lemma routes_split route :
  quiet_health (hs_health hs) -> In route (routes hs registration) ->
  inhabited (all_split (hs_health hs) (ro_Handlers route)).
Proof.
  intros Hq Hin. unfold routes, registerAPIRoutes, registerAuthRoutes in Hin. rewrite !in_app_iff in Hin.
  destruct registration;
    repeat (destruct Hin as [Hin|Hin]); try done; subst route; cbn [ro_Handlers];
    unfold authenticate, require, PingHandler, LivezHandler, VersionHandler;
    constructor; repeat first [apply split_nil|apply split_cons];
    handler_splits Hq.
Qed.

Lemma split_thread route rq (Hr : all_split (hs_health hs) (ro_Handlers route)) :
  thread_of route rq (hs_tree _ _ (serve_splits _ route Hr) (new_context rq)).
Proof. split; [apply hs_atoms|]. intros w. apply hs_alone. Qed.

Lemma request_is_thread route rq :
  quiet_health (hs_health hs) -> In route (routes hs registration) -> exists t, thread_of route rq t.
Proof.
  intros Hq Hin. destruct (routes_split route Hq Hin) as [Hr]. eexists. apply (split_thread route rq Hr).
Qed.

(** A scheduler: runs one operation of each thread of the list, in turn. *)
Definition run_one (p : list thread * World) (i : nat) : list thread * World :=
  let '(ts, w) := p in
  match ts !! i with
  | Some (Node _ A m k) => let '(r, w') := m w in (<[i := k r]> ts, w')
  | _ => (ts, w)
  end.

Definition run_schedule (schedule : list nat) (p : list thread * World) : list thread * World :=
  fold_left run_one schedule p.

Lemma run_one_steps p i : rtc pool_step p (run_one p i).
Proof.
  destruct p as [ts w]. simpl. destruct (ts !! i) as [[r|A m k]|] eqn:Hi; try apply rtc_refl.
  destruct (m w) as [r w'] eqn:Hm. apply rtc_once. by eapply pool_run.
Qed.

Lemma run_schedule_steps schedule p : rtc pool_step p (run_schedule schedule p).
Proof.
  revert p. induction schedule as [|i schedule IH]; intros p; simpl; [apply rtc_refl|].
  transitivity (run_one p i); [apply run_one_steps|apply IH].
Qed.
End pools.
