(* ===== verification/Traffic.v ===== *)
(** Traffic: sequences of requests, with their verdicts, through the handler
    that [SetupRouter] returns. What it does to the tables is a history, so
    that what holds along histories holds for clients. *)
From S2P Require Import Prelude GoTime GoStrings Sha256 GoErrors Model Gorm AuthState World.
From S2P Require Import Dao RefreshRepo RbacRepo TokenManager AuthService UserService RbacService.
From S2P Require Import Web Metrics UserHandler RbacHandler Middleware Server.
From S2P Require Import TokenTheorems AuthTheorems UserTheorems RbacTheorems ErrorTheorems HttpTheorems.
From S2P Require Import ServerTheorems EndpointTheorems System SystemTheorems.

Section traffic.
Context {STO : Storage} {G : Gorm} {GL : GormLaws} {SS : Store} {SL : StoreLaws}.
Context {E : Env} {UT : UnicodeTables} {J : JWT} {JL : JWTLaws}.
Context {B : Bcrypt} {BL : BcryptLaws} {JB : JSONBinding}.
Context {US : UserStore} {UL : UserStoreLaws} {AUS : AuthUserStore} {AUL : AuthUserStoreLaws}.
Context {RR : RefreshTokenRepository} {RL : RefreshTokenRepositoryLaws}.
Context {RB : RBACRepository} {RBL : RBACRepositoryLaws} {GIN : Gin} {GNL : GinLaws}.

(** One request, however it ends. *)
Definition request_step (h : verdict -> http_Handler) (w w' : World) : Prop :=
  exists v rq x r x', h v rq (x, w) = (r, (x', w')).

Definition traffic (h : verdict -> http_Handler) : World -> World -> Prop := rtc (request_step h).

(** What is relied on of the code around the routes: the readiness check and
    the pages of gin leave the tables alone. *)
Definition quiet_checks (healthDB : option HealthDB) : Prop :=
  match healthDB with Some db => quiet (hd_DB db) /\ quiet (hd_Ping db) | None => True end.
Definition quiet_pages : Prop := forall rq w r w', gin_other rq w = (r, w') -> same_tables w w'.

(** * Requests are histories *)

Definition historic (h : http_Handler) : Prop := forall rq x w r x' w',
  h rq (x, w) = (r, (x', w')) -> history w w'.

Lemma history_quiet w w' : same_tables w w' -> history w w'.
Proof. intros Ht. by apply rtc_once, step_quiet. Qed.

Lemma engine_historic hs registration :
  quiet_health (hs_health hs) -> quiet_pages -> historic (engine (routes hs registration)).
Proof.
  intros Hq Hp rq x w r x' w'. unfold engine. destruct (gin_match _ _ _) as [route|] eqn:Hm.
  - destruct (match_law _ _ _ _ Hm) as [Hin _]. destruct (serve _ _) as [r0 [c w0]] eqn:Hs.
    intros [= _ _ <-]. by eapply serve_steps.
  - destruct (gin_other rq w) as [r0 w0] eqn:Ho. specialize (Hp _ _ _ _ Ho).
    intros Hrun. apply history_quiet. by destruct r0 as [y|[]|]; injection Hrun as _ _ <-.
Qed.

Lemma http_TimeoutHandler_historic v body h : historic h -> historic (http_TimeoutHandler v body h).
Proof.
  intros Hh rq x w r x' w'. unfold http_TimeoutHandler. destruct (h rq _) as [r0 [x1 w1]] eqn:Hrun.
  intros Heq. replace w' with w1; [by eapply Hh|].
  destruct v as [|b|b]; [destruct r0|..]; by injection Heq.
Qed.

Lemma TimeoutHandler_historic v h t : historic h -> historic (TimeoutHandler v h t).
Proof.
  intros Hh. destruct (Z.leb_spec t 0) as [Ht|Ht]; intros rq x w r x' w' Hrun.
  - unfold TimeoutHandler in Hrun. rewrite (proj2 (Z.leb_le _ _) Ht) in Hrun. by eapply Hh.
  - rewrite TimeoutHandler_run in Hrun by done. transitivity (inner_world rq w).
    + apply history_quiet, (proj1 (inner_calm rq w)).
    + by eapply http_TimeoutHandler_historic.
Qed.

Lemma HTTPHandler_historic h : historic h -> historic (HTTPHandler h).
Proof.
  intros Hh rq x w r x' w' Hrun. destruct (String.eqb_spec (rq_Path rq) "/metrics") as [Hp|Hp].
  { unfold HTTPHandler in Hrun. rewrite Hp in Hrun. exact (Hh _ _ _ _ _ _ Hrun). }
  destruct (h (with_route_state rq) (counted_start rq x, tick w)) as [r1 [x1 w1]] eqn:Hn.
  pose proof (HTTPHandler_run h rq x w _ _ _ Hp Hn) as Hfin. cbv zeta in Hfin.
  transitivity (tick w); [by apply history_quiet|]. apply Hh in Hn. transitivity w1; [done|].
  apply history_quiet.
  destruct r1 as [[]|[]|]; [destruct (ex_Route x1)|]; rewrite Hfin in Hrun; by injection Hrun as _ _ <-.
Qed.

Lemma traffic_history db hdb m build runtime h w w' :
  SetupRouter db hdb m build [runtime] = inr h -> quiet_checks hdb -> quiet_pages ->
  traffic h w w' -> history w w'.
Proof.
  intros Hs Hq Hp. induction 1 as [w|w w1 w' (v & rq & x & r & x' & Hrun) _ IH]; [done|].
  transitivity w1; [|done]. rewrite (SetupRouter_inv _ _ _ _ _ _ Hs) in Hrun.
  refine (HTTPHandler_historic _ _ rq _ _ _ _ _ Hrun).
  apply TimeoutHandler_historic, engine_historic; [|done]. split; [done|].
  simpl. destruct (ar_StateStore runtime); [|done]. intros c [[= <-]|[]]. apply quiet_on_store.
Qed.

(** * Changing a password over HTTP *)

Definition password_path : string := "/api/v1/users/me/update/password".

(** A success changed the password of [uid], and nothing else does. *)
Definition password_answer (h : UserHandler) (uid : Z) (rq : Request) (w : World)
    (st : Z) (d : data) (cookies : list Cookie) (w' : World) : Prop :=
  st = StatusOK /\ (exists req, bind_password (rq_Body rq) = inr req /\
                    UpdateUserPassword (h_userService h) uid req w = (Ok tt, w')) \/
  400 <= st < 600 /\ same_tables w w'.

Lemma UpdateUserPasswordHandler_spec h uid c w :
  keys_ok TUsers (tbl TUsers w) -> cx_Keys c !! "user_id" = Some (VInt64 uid) -> cx_Writes c = [] ->
  wp (UpdateUserPasswordHandler h) (responds (password_answer h uid (cx_Request c) w)) (c, w).
Proof.
  intros Hk Hkey Hw. unfold UpdateUserPasswordHandler, callerID, badRequest, clearRefreshTokenCookie.
  h_step. h_step. h_step. rewrite Hkey. apply wp_ret. h_step. h_step.
  destruct (bind_password _) as [e|req] eqn:Hbind.
  { apply wp_Fail_responds; [done|]. by right. }
  h_step. h_step. apply wp_intro. intros r w1 Hrun.
  pose proof (wp_run _ _ _ _ _ (UpdateUserPassword_spec (h_userService h) uid req w Hk) Hrun) as [_ Hr].
  pose proof (wp_run _ _ _ _ _ (UpdateUserPassword_honest (h_userService h) uid req w) Hrun) as Hhon.
  destruct r as [[]|e|]; [| |done].
  - h_step. h_step. apply wp_Success_responds; [done|]. left. split; [done|]. by exists req.
  - apply wp_handleError_responds; [done|done|]. intros st Hst. by right.
Qed.

Lemma password_route hs registration route :
  In route (routes hs registration) -> ro_Path route = password_path ->
  route = mkRoute "PATCH" password_path
            (guarded hs (Some PermissionPasswordUpdate) (UpdateUserPasswordHandler (hs_user hs))).
Proof.
  unfold routes, registerAPIRoutes, registerAuthRoutes. rewrite !in_app_iff.
  destruct registration; intros Hin Hp; repeat (destruct Hin as [Hin|Hin]); subst; done.
Qed.

(** A change that was answered with success was one, by the caller. *)
Lemma password_ran hs registration route rq w w' :
  has_store (hs_authService hs) -> keys_ok TUsers (tbl TUsers w) ->
  In route (routes hs registration) -> ro_Path route = password_path ->
  ran route rq w w' StatusOK ->
  exists claims req w1 w2, authenticated (hs_tokenManager hs) w rq claims /\ same_tables w w1 /\
    UpdateUserPassword (h_userService (hs_user hs)) (c_UserID claims) req w1 = (Ok tt, w2) /\
    same_tables w2 w'.
Proof.
  intros Hst Hk Hin Hp (wa & c & wb & Ha & Hrun & Hc & Hb). destruct Ha as (Ht & Hsto & Htk).
  assert (keys_ok TUsers (tbl TUsers wa)) as Hka by (by rewrite (Ht TUsers) in Hk).
  rewrite (password_route _ _ _ Hin Hp) in Hrun.
  destruct (protected_serve_runs _ _ _ _ _ _ _ _ _ _ Hst Hka Hrun)
    as [[_ Href]|(claims & c1 & w1 & r0 & c0 & w0 & Hpass & Hh & Ht0 & Hans)].
  { exfalso. destruct Href as (st & code & msg & Hin' & Hw). unfold cx_Status in Hc. rewrite Hw in Hc.
    simpl in Hc, Hin'. subst st. unfold StatusOK in Hin'. lia. }
  destruct Hpass as (Hauth & _ & Ht1 & Hkey & Hrq & Hw1).
  assert (keys_ok TUsers (tbl TUsers w1)) as Hk1 by (by rewrite (Ht1 TUsers) in Hka).
  destruct (wp_run _ _ _ _ _ (UpdateUserPasswordHandler_spec _ _ c1 w1 Hk1 Hkey Hw1) Hh)
    as (-> & st & rsp & Hw0 & Hpa).
  destruct Hans as [Hans|[? _]]; [|done]. unfold cx_Status in Hc. rewrite Hans, Hw0 in Hc. simpl in Hc.
  subst st. destruct Hpa as [(_ & req & _ & Hupd)|[Hbad _]]; [|unfold StatusOK in Hbad; lia].
  exists claims, req, w1, w0. split; [by apply (authenticated_later _ _ wa)|].
  split; [by transitivity wa|]. split; [done|]. transitivity wb; [done|apply Hb].
Qed.
End traffic.
