(* ===== verification/SessionProperties.v ===== *)
(** The properties of the session service: what decides a rotation and what it
    changes, what a logout revokes, and access tokens are honoured exactly while their
    session stands. *)
From S2P Require Import Prelude GoTime GoStrings Sha256 GoErrors Model Gorm AuthState MemDB World.
From S2P Require Import Dao RefreshRepo RbacRepo TokenManager AuthService UserService Instances.
From S2P Require Import AuthStateTheorems AuthTheorems.

Section properties.
Context {STO : Storage} {G : Gorm} {GL : GormLaws} {SS : Store} {SL : StoreLaws}.
Context {E : Env} {US : AuthUserStore} {UL : AuthUserStoreLaws}.
Context {RR : RefreshTokenRepository} {RL : RefreshTokenRepositoryLaws}.

(** A successful rotation presented the owner's own, unrevoked, unexpired
    token under the user's current authentication version; afterwards no
    token with that JTI is active, exactly one new row is there, in the same
    family, and every token with another JTI and every other table are as
    they were. *)
Theorem rotate_success s uid ver j h next w w' :
  RotateRefreshToken s uid ver j h next w = (Ok tt, w') ->
  session_user w uid ver /\
  exists k old id now,
    next = Some k /\ presents w uid j h old /\ is_active old = true /\
    (exists t, read_between w w' t /\ t < t_ExpiresAt old) /\
    (forall x, In x (tbl TRefreshTokens w') -> coll_eqb (t_JTI x) j = true -> is_active x = false) /\
    (forall x, In x (tbl TRefreshTokens w) -> coll_eqb (t_JTI x) j = false ->
               In x (tbl TRefreshTokens w')) /\
    length (tbl TRefreshTokens w') = S (length (tbl TRefreshTokens w)) /\
    In (successor id now uid old k) (tbl TRefreshTokens w') /\
    (forall t, t <> TRefreshTokens -> tbl t w' = tbl t w).
Proof.
  intros Hrun. apply (wp_run _ _ _ _ _ (RotateRefreshToken_spec _ _ _ _ _ _ _)) in Hrun
    as [_ (k & -> & Hu & Heff)].
  split; [done|]. pose proof (rotation_old_inactive _ _ _ _ _ _ Heff) as Hold.
  destruct Heff as (old & id & n1 & n2 & at_ & Hp & Hrev & Hexp & _ & _ & Hset & Ho).
  exists k, old, id, n1. rewrite Hset in Hold |- *. do 2 (split; [done|]).
  split; [by apply is_active_None|]. split; [done|]. split; [done|]. split.
  { intros x Hx Hj. apply in_or_app. left. apply in_update_where. exists x. split; [done|].
    unfold active_by_jti. by rewrite Hj. }
  split; [rewrite length_app, length_update_where; simpl; lia|].
  split; [|done]. apply in_or_app. right. by left.
Qed.

(** What a rotation answers when the storage works: the caller's input is
    looked at first, then the session of the account, then the token. *)
Definition rotation_answer (s : option AuthService) (uid ver : Z) (j h : string)
    (next : option RefreshToken) (w : World) : res unit :=
  match ensureDB s, next with
  | Ok _, Some k =>
    if (0 <? uid) && (0 <? ver) && negb (String.eqb j "") && negb (String.eqb h "") &&
       negb (String.eqb (t_JTI k) "") && negb (String.eqb (t_TokenHash k) "") &&
       time_after (t_ExpiresAt k) (clock (w_tick w))
    then
      match transaction_answer w uid ver j h (clock (S (w_tick w))) with
      | Ok replay => if replay then Err ErrRefreshTokenReplay else Ok tt
      | Err e => Err e
      | Panic => Panic
      end
    else Err ErrRefreshTokenInvalid
  | Ok _, None => Err ErrRefreshTokenInvalid
  | Err e, _ => Err e
  | Panic, _ => Panic
  end.

(** C13. The answer to a rotation, on every input, is a function of the state:
    a service without a database says so; malformed input, a closed session
    and a token that is not the caller's are refused as invalid; of a token
    that is the caller's, under an open session, a live one is rotated, an
    expired or revoked one refused as such, and one that was rotated away
    raises the replay alarm. Only a failing database makes it otherwise. *)
Theorem rotate_verdict s uid ver j h next w r w' :
  keys_ok TUsers (tbl TUsers w) -> keys_ok TRefreshTokens (tbl TRefreshTokens w) ->
  RotateRefreshToken s uid ver j h next w = (r, w') ->
  r = rotation_answer s uid ver j h next w \/ exists e, r = Err e /\ storage_failure e.
Proof.
  intros Hku Hkt Hrun. pattern r. eapply wp_result; [exact Hrun|]. clear Hrun.
  unfold RotateRefreshToken, requireDB, rotation_answer.
  wp_step. apply wp_of_res. destruct (ensureDB s) as [[]|e|]; [|by left..].
  destruct (Z.leb_spec uid 0) as [Hid|Hid].
  { rewrite (proj2 (Z.ltb_ge 0 uid)) by lia. cbn [orb andb]. apply wp_fail. left. by destruct next. }
  destruct (Z.leb_spec ver 0) as [Hv|Hv].
  { rewrite (proj2 (Z.ltb_ge 0 ver)), andb_false_r by lia. cbn [orb andb]. apply wp_fail. left. by destruct next. }
  rewrite (proj2 (Z.ltb_lt 0 uid)), (proj2 (Z.ltb_lt 0 ver)) by lia. cbn [orb andb].
  destruct (String.eqb j "") eqn:Hj; [apply wp_fail; left; by destruct next|].
  destruct (String.eqb h "") eqn:Hh; [apply wp_fail; left; by destruct next|].
  cbn [orb negb andb]. destruct next as [k|]; [|apply wp_fail; by left].
  destruct (String.eqb (t_JTI k) ""); [apply wp_fail; by left|].
  destruct (String.eqb (t_TokenHash k) ""); [apply wp_fail; by left|]. cbn [orb negb andb].
  wp_step. apply wp_Now. destruct (time_after _ _); [|apply wp_fail; by left]. cbn [negb].
  wp_step. apply wp_Transaction; [intros e w1 He _; right; exists e; split; [done|by left]|].
  intros w0 Hw0.
  assert (same_tables w w0) as Ht by (transitivity (tick w); [done|by apply same_world_tables]).
  eapply wp_mono; [apply (rotateInTx_answer uid ver j h k w0)|].
  - by rewrite <- (Ht TUsers).
  - by rewrite <- (Ht TRefreshTokens).
  - assert (transaction_answer w0 uid ver j h (clock (w_tick w0))
            = transaction_answer w uid ver j h (clock (S (w_tick w)))) as ->.
    { unfold transaction_answer, session_open, presented.
      by rewrite (Ht TUsers), (Ht TRefreshTokens), <- (sw_tick _ _ Hw0). }
    intros res w1 Hres. split; intros w2 _ _.
    + destruct res as [b|e|].
      * intros e He. right. exists e. split; [done|by left].
      * destruct Hres as [<-|(e' & [= <-] & He)]; [by left|right; eauto].
      * destruct Hres as [<-|(e' & He & _)]; [by left|done].
    + destruct res as [b|e|]; [|done..].
      destruct Hres as [<-|(e' & He & _)]; [|done]. destruct b; [apply wp_fail|apply wp_ret]; by left.
Qed.

(** A rotation that fails, for any reason but a detected replay, changes
    no row, and no rotation panics. *)
Theorem failed_rotation_changes_nothing s uid ver j h next w r w' :
  RotateRefreshToken s uid ver j h next w = (r, w') ->
  r <> Panic /\
  (forall e, r = Err e -> errors_Is e "service.ErrRefreshTokenReplay" = false -> same_tables w w').
Proof.
  intros Hrun.
  apply (wp_run _ _ _ _ _ (RotateRefreshToken_spec _ _ _ _ _ _ _)) in Hrun as [_ Hr].
  split; [by intros ->|]. intros e -> He. by rewrite He in Hr.
Qed.

(** Logging out revokes the presented token of its owner and nothing
    else, for good: no later rotation accepts it. *)
Theorem logout_revokes s uid j h w w1 s2 uid2 ver2 h2 next2 r w2 :
  keys_ok TRefreshTokens (tbl TRefreshTokens w) ->
  RevokeRefreshToken s uid j h w = (Ok tt, w1) ->
  RotateRefreshToken s2 uid2 ver2 j h2 next2 w1 = (r, w2) ->
  (exists k, presents w uid j h k) /\
  (forall x, In x (tbl TRefreshTokens w1) -> coll_eqb (t_JTI x) j = true -> is_active x = false) /\
  (forall x, In x (tbl TRefreshTokens w) -> coll_eqb (t_JTI x) j = false ->
             In x (tbl TRefreshTokens w1)) /\
  (forall t, t <> TRefreshTokens -> tbl t w1 = tbl t w) /\
  r <> Ok tt.
Proof.
  intros Hkeys H1 H2.
  apply (wp_run _ _ _ _ _ (RevokeRefreshToken_spec _ _ _ _ _)) in H1 as [_ Heff].
  apply (wp_run _ _ _ _ _ (RotateRefreshToken_spec _ _ _ _ _ _ _)) in H2 as [_ H2].
  pose proof (logout_inactive _ _ _ _ _ Hkeys Heff) as Hin.
  split; [destruct Heff as (k & Hp & _); by exists k|]. split; [done|].
  assert ((forall x, In x (tbl TRefreshTokens w) -> coll_eqb (t_JTI x) j = false ->
             In x (tbl TRefreshTokens w1)) /\ (forall t, t <> TRefreshTokens -> tbl t w1 = tbl t w))
    as [Hkeep Hother].
  { destruct Heff as (k & _ & Heff). destruct (is_active k).
    - destruct Heff as (now & at_ & Hset & Ho). split; [|done]. rewrite Hset. intros x Hx Hj.
      apply in_update_where. exists x. split; [done|]. unfold active_by_jti. by rewrite Hj.
    - split; [by rewrite (Heff TRefreshTokens)|]. intros t _. symmetry. apply Heff. }
  split; [done|]. split; [done|]. intros ->. destruct H2 as (k & _ & _ & Heff2).
  by eapply rotation_needs_active.
Qed.

(** An access token is honoured exactly when its session stands: claims
    that name a user, an active account with that authentication version, and
    no revocation of the token. Otherwise it is refused, and when the
    database or the store fails it is refused as unavailable, never let
    through. *)
Theorem validate_access_token s claims w r w' :
  has_store s -> keys_ok TUsers (tbl TUsers w) ->
  ValidateAccessToken s claims w = (r, w') ->
  same_tables w w' /\
  (r = Ok tt -> exists c, claims = Some c /\ session_stands w (clock (w_tick w)) c) /\
  (r = Err ErrAccessSessionInvalid ->
   forall c, claims = Some c -> ~ session_stands w (clock (w_tick w)) c) /\
  (r = Ok tt \/ r = Err ErrAccessSessionInvalid \/ r = Err ErrDatabaseNotInitialized \/
   exists msg cause, r = Err (authStateUnavailable msg (Some cause))).
Proof.
  intros Hs Hk Hrun.
  apply (wp_run _ _ _ _ _ (ValidateAccessToken_spec _ _ _ Hs Hk)) in Hrun as [Ht Hr].
  split; [done|]. destruct r as [[]|e|]; [..|done].
  - split; [done|]. split; [done|by left].
  - split; [done|]. split; [intros [= ->]; by inversion Hr|]. right. inversion Hr; eauto.
Qed.

(** A revoked access token is refused until it expires: after a
    successful revocation, whatever happens to the database, no validation
    before the expiry (less the granularity of the store) lets it through. *)
Theorem revoked_access_token_refused s jti exp w w1 c w2 r w3 :
  has_store s -> monotone_clock -> in_int64 (exp - clock (w_tick w)) ->
  RevokeAccessToken s jti exp w = (Ok tt, w1) ->
  w_store w2 = w_store w1 -> (w_tick w1 <= w_tick w2)%nat ->
  clock (w_tick w2) < exp - granularity -> keys_ok TUsers (tbl TUsers w2) ->
  c_JTI c = jti ->
  ValidateAccessToken s (Some c) w2 = (r, w3) ->
  r <> Ok tt.
Proof.
  intros Hs Hm Hb H1 Hst Hle Hlt Hk Hj H2 ->.
  apply (wp_run _ _ _ _ _ (RevokeAccessToken_spec _ _ _ _ Hs Hm Hb)) in H1 as (_ & _ & _ & Hlive).
  apply (wp_run _ _ _ _ _ (ValidateAccessToken_spec _ _ _ Hs Hk)) in H2 as [_ (c' & [= <-] & _ & _ & Hn)].
  rewrite Hst, Hj, Hlive in Hn; [done|by apply Hm|done].
Qed.
End properties.

(** * Witnesses *)

(** Alice's token is rotated, and then presented again. *)
#[local] Abbreviation rotation_run :=
  (RotateRefreshToken auth_service 1 1 "jti-1" "hash-1" (Some (next_token "jti-2" "hash-2"))).
#[local] Abbreviation rotated := (snd (rotation_run alice_world)).
#[local] Abbreviation replay_run :=
  (RotateRefreshToken auth_service 1 1 "jti-1" "hash-1" (Some (next_token "jti-3" "hash-3"))).

Lemma rotate_success_witness :
  rotation_run alice_world = (Ok tt, rotated) /\
  forall x, In x (tbl TRefreshTokens rotated) -> coll_eqb (t_JTI x) "jti-1" = true ->
            is_active x = false.
Proof.
  assert (rotation_run alice_world = (Ok tt, rotated)) as Hrun by (apply run_of; vm_compute; reflexivity).
  split; [exact Hrun|].
  destruct (rotate_success auth_service 1 1 "jti-1" "hash-1" (Some (next_token "jti-2" "hash-2"))
              alice_world rotated Hrun) as (_ & k & old & id & now & _ & _ & _ & _ & H & _).
  exact H.
Defined.

(** Alice's live token, a stale version, a wrong hash and the rotated token. *)
Lemma rotate_verdict_witness :
  let next := Some (next_token "jti-3" "hash-3") in
  rotation_answer auth_service 1 1 "jti-1" "hash-1" next alice_world = Ok tt /\
  rotation_answer auth_service 1 2 "jti-1" "hash-1" next alice_world = Err ErrRefreshTokenInvalid /\
  rotation_answer auth_service 1 1 "jti-1" "hash-9" next alice_world = Err ErrRefreshTokenInvalid /\
  rotation_answer auth_service 1 1 "jti-1" "hash-1" next rotated = Err ErrRefreshTokenReplay /\
  (fst (replay_run rotated) = rotation_answer auth_service 1 1 "jti-1" "hash-1" next rotated \/
   exists e, fst (replay_run rotated) = Err e /\ storage_failure e).
Proof.
  do 4 (split; [vm_compute; reflexivity|]).
  apply (rotate_verdict auth_service 1 1 "jti-1" "hash-1" (Some (next_token "jti-3" "hash-3")) rotated
           (fst (replay_run rotated)) (snd (replay_run rotated))); [keys_by_computation..|].
  apply surjective_pairing.
Defined.

Lemma failed_rotation_changes_nothing_witness :
  fst (rotation_run alice_world) <> Panic.
Proof.
  apply (failed_rotation_changes_nothing auth_service 1 1 "jti-1" "hash-1"
           (Some (next_token "jti-2" "hash-2")) alice_world _ (snd (rotation_run alice_world))).
  apply surjective_pairing.
Defined.

#[local] Abbreviation logout_run := (RevokeRefreshToken auth_service 1 "jti-1" "hash-1").

Lemma logout_revokes_witness :
  fst (logout_run alice_world) = Ok tt /\
  fst (replay_run (snd (logout_run alice_world))) <> Ok tt.
Proof.
  assert (fst (logout_run alice_world) = Ok tt) as Hrun by (vm_compute; reflexivity).
  split; [exact Hrun|].
  apply (logout_revokes auth_service 1 "jti-1" "hash-1" alice_world (snd (logout_run alice_world))
           auth_service 1 1 "hash-1" (Some (next_token "jti-3" "hash-3")) _
           (snd (replay_run (snd (logout_run alice_world))))).
  - keys_by_computation.
  - by apply run_of.
  - apply surjective_pairing.
Defined.

Definition alice_claims (jti : string) : UserClaims :=
  mkUserClaims "alice" 1 TokenTypeAccess 1 jti "issuer" (Some launch) (Some (launch + Hour)) jti.

Lemma validate_access_token_witness :
  fst (ValidateAccessToken auth_service (Some (alice_claims "at-1")) alice_world) = Ok tt /\
  session_stands alice_world (clock 0) (alice_claims "at-1").
Proof.
  assert (fst (ValidateAccessToken auth_service (Some (alice_claims "at-1")) alice_world) = Ok tt)
    as Hrun by (vm_compute; reflexivity).
  split; [exact Hrun|].
  destruct (validate_access_token auth_service (Some (alice_claims "at-1")) alice_world (Ok tt)
              (snd (ValidateAccessToken auth_service (Some (alice_claims "at-1")) alice_world)))
    as (_ & Hok & _).
  - reflexivity.
  - keys_by_computation.
  - by apply run_of.
  - destruct (Hok eq_refl) as (c & Hc & Hs). injection Hc as <-. exact Hs.
Defined.

#[local] Abbreviation revoke_run := (RevokeAccessToken auth_service "at-1" (launch + Hour)).

Lemma revoked_access_token_refused_witness :
  fst (revoke_run alice_world) = Ok tt /\
  fst (ValidateAccessToken auth_service (Some (alice_claims "at-1")) (snd (revoke_run alice_world)))
  <> Ok tt.
Proof.
  assert (fst (revoke_run alice_world) = Ok tt) as Hrun by (vm_compute; reflexivity).
  split; [exact Hrun|].
  eapply (revoked_access_token_refused auth_service "at-1" (launch + Hour) alice_world
            (snd (revoke_run alice_world)) (alice_claims "at-1") (snd (revoke_run alice_world))).
  - reflexivity.
  - exact test_env_monotone.
  - vm_compute. split; congruence.
  - by apply run_of.
  - reflexivity.
  - reflexivity.
  - vm_compute. reflexivity.
  - keys_by_computation.
  - reflexivity.
  - apply surjective_pairing.
Defined.
