(* ===== verification/StoreProperties.v ===== *)
(** The properties of the in-memory authentication state: it answers as a
    store that never forgets would, its lockouts are exact, its waits are
    bounded. *)
From S2P Require Import Prelude GoTime GoStrings Sha256 GoErrors Model Gorm AuthState MemDB World.
From S2P Require Import AuthService Instances AuthStateTheorems.
Import Memory.

(** C17. The in-memory store, which drops expired entries as it meets them,
    gives the same answers as an ideal store that keeps every revocation and
    every window for ever, over every sequence of operations whose clock
    readings do not go back. *)
Theorem memory_store_refines_ideal ops t :
  ordered t ops -> fst (run_ops ops newMemoryStore) = fst (ideal_run ops ideal_empty).
Proof.
  intros Hord. by apply (run_simulates ops t).
Qed.

(** Lockout. When an account without a running window fails at [t0] and
    then [n] more times before [t0 + window], from whatever addresses, a
    check at any later time [t] waits for the account until exactly
    [t0 + window] if the limit is reached, and not at all otherwise. *)
Theorem account_lockout account ip al il window t0 ip0 rest s t :
  0 < window -> times_within t0 (t0 + window) rest ->
  window_at s t0 (accountFailureKey account) = None ->
  Z.of_nat (length rest) + 1 <= MaxInt64 ->
  (forall a, In a ((t0, ip0) :: rest) -> fst a <= t) ->
  let s' := fail_logins account al il window ((t0, ip0) :: rest) s in
  exists s'',
    CheckLoginLimit t account ip al il window s'
    = (Ok (Z.max (if (t <? t0 + window) && (al <=? Z.of_nat (length rest) + 1)
                  then time_sub (t0 + window) t else 0)
                 (retry_of (window_at s' t (ipFailureKey ip)) il t)), s'').
Proof.
  intros Hwin Hrest Hnone Hmax Ht s'.
  destruct (CheckLoginLimit_spec t account ip al il window s') as (s'' & Hrun & _).
  exists s''. rewrite Hrun. unfold s' at 1.
  rewrite (fail_logins_locks account al il window t0 ip0 rest s Hwin Hrest Hnone Hmax t Ht).
  unfold time_after. destruct (t <? t0 + window); [|done]. cbn [retry_of andb].
  destruct (Z.ltb_spec (Z.of_nat (length rest) + 1) al);
    destruct (Z.leb_spec al (Z.of_nat (length rest) + 1)); (done || lia).
Qed.

(** Over every run from an empty store with windows of at most [W],
    every wait the store asks for is between zero and [W]: nobody is locked
    out for longer than the window, and no duration overflows. *)
Theorem retry_durations_bounded W ops t :
  0 <= W <= MaxInt64 -> ordered t ops ->
  (forall op w, In op ops -> op_window op = Some w -> 0 < w <= W) ->
  Forall (reply_within W) (fst (run_ops ops newMemoryStore)).
Proof. intros HW Hord Hwin. eapply (run_bounds W ops t); done. Qed.

(** A revocation holds from the moment it is made until its time to live
    runs out, and only the revoked token is affected. *)
Theorem revocation_lifetime now jti ttl s t :
  now <= t -> 0 < ttl ->
  exists s', RevokeAccessToken now jti ttl s = (Ok tt, s') /\
    revoked_at s' t jti = (t <? now + ttl) /\
    (forall j, digest j <> digest jti -> revoked_at s' t j = revoked_at s t j) /\
    (forall k, window_at s' t k = window_at s t k).
Proof.
  intros Ht Httl. eexists. rewrite RevokeAccessToken_run, (proj2 (Z.leb_gt _ _)) by done.
  split; [done|]. split; [|split; [|done]].
  - by rewrite revoked_at_insert, decide_True.
  - intros j Hj. rewrite revoked_at_insert, decide_False; [done|]. congruence.
Qed.

(** * The service in front of the store *)

Section service.
Context {G : Gorm} {SS : Store} {SL : StoreLaws} {E : Env} {UT : UnicodeTables}.

(** An answer [r] of the limiter that comes from the store's [answer], or
    says that the state is unavailable. *)
Definition limiter_answer (s : option AuthService) (answer : LoginRateLimit -> res Z) (r : res Z)
    : Prop :=
  match r with
  | Ok d => exists limit, ensureRateLimiter s = Ok limit /\ answer limit = Ok d /\
                          0 < AccountLimit limit /\ 0 < IPLimit limit /\ 0 < Window limit
  | Err e => exists msg cause, e = authStateUnavailable msg cause
  | Panic => False
  end.

Lemma ensureRateLimiter_cases s :
  (exists limit, ensureRateLimiter s = Ok limit /\ 0 < AccountLimit limit /\ 0 < IPLimit limit /\
                 0 < Window limit) \/
  ensureRateLimiter s = Err (authStateUnavailable "登录限流未初始化" None).
Proof.
  destruct s as [[db [|] limit]|]; simpl; auto. destruct (_ || _) eqn:Hb; [by right|].
  left. bool_to_prop. eauto 10.
Qed.

(** The login limiter fails closed: a wait comes from the store alone,
    under positive limits; without limits, without a store or when the store
    fails, the answer is an error of status 503. *)
Theorem rate_limiter_fails_closed s account ip w :
  limiter_answer s (fun l => fst (st_CheckLoginLimit (clock (w_tick w)) (normalizeAccount account)
      (TrimSpace ip) (AccountLimit l) (IPLimit l) (Window l) (w_store w)))
    (fst (CheckLoginAllowed s account ip w)) /\
  limiter_answer s (fun l => fst (st_RecordLoginFailure (clock (w_tick w)) (normalizeAccount account)
      (TrimSpace ip) (AccountLimit l) (IPLimit l) (Window l) (w_store w)))
    (fst (AuthService.RecordLoginFailure s account ip w)).
Proof.
  assert (forall (m : LoginRateLimit -> Z -> ST error St Z) (f : error -> error) l,
    ensureRateLimiter s = Ok l -> 0 < AccountLimit l -> 0 < IPLimit l -> 0 < Window l ->
    (forall e, exists msg cause, f e = authStateUnavailable msg cause) ->
    fst (m l (clock (w_tick w)) (w_store w)) <> Panic ->
    limiter_answer s (fun l => fst (m l (clock (w_tick w)) (w_store w)))
      (fst ((let! now := Now in map_err f (on_store (m l now))) w))) as Hgen.
  { intros m f l Hl H1 H2 H3 Hf Hp. unfold bind, Now, map_err, on_store, zoom. simpl.
    destruct (m l (clock (w_tick w)) (w_store w)) as [[d|e|] st] eqn:Hm; simpl in *.
    - exists l. by rewrite Hm.
    - apply Hf.
    - done. }
  destruct (ensureRateLimiter_cases s) as [(l & Hl & H1 & H2 & H3)|Hl];
    unfold CheckLoginAllowed, AuthService.RecordLoginFailure, of_res; rewrite Hl.
  2:{ split; simpl; eauto. }
  split.
  - apply (Hgen (fun l now => st_CheckLoginLimit now (normalizeAccount account) (TrimSpace ip)
      (AccountLimit l) (IPLimit l) (Window l))); try done; [by eauto|].
    pose proof (check_law (clock (w_tick w)) (normalizeAccount account) (TrimSpace ip)
      (AccountLimit l) (IPLimit l) (Window l) (w_store w)) as Hlaw.
    unfold wp in Hlaw. destruct (st_CheckLoginLimit _ _ _ _ _ _ _). apply Hlaw.
  - apply (Hgen (fun l now => st_RecordLoginFailure now (normalizeAccount account) (TrimSpace ip)
      (AccountLimit l) (IPLimit l) (Window l))); try done; [by eauto|].
    pose proof (record_law (clock (w_tick w)) (normalizeAccount account) (TrimSpace ip)
      (AccountLimit l) (IPLimit l) (Window l) (w_store w)) as Hlaw.
    unfold wp in Hlaw. destruct (st_RecordLoginFailure _ _ _ _ _ _ _). apply Hlaw.
Qed.
End service.

(** * Witnesses *)

(** Three failures of one account, a revocation, and the checks after them. *)
Definition sample_ops : list store_op :=
  [OpFail 10 "alice" "1.1.1.1" 2 5 100; OpFail 20 "alice" "1.1.1.2" 2 5 100;
   OpCheck 30 "alice" "1.1.1.3" 2 5 100; OpRevoke 40 "jti" 50; OpIsRevoked 89 "jti";
   OpIsRevoked 90 "jti"; OpReset "alice"; OpCheck 95 "alice" "1.1.1.3" 2 5 100].

Lemma memory_store_refines_ideal_witness :
  ordered 10 sample_ops /\
  fst (run_ops sample_ops newMemoryStore) = fst (ideal_run sample_ops ideal_empty) /\
  fst (ideal_run sample_ops ideal_empty)
  = [ReplyDuration 0; ReplyDuration 90; ReplyDuration 80; ReplyUnit; ReplyBool true;
     ReplyBool false; ReplyUnit; ReplyDuration 0].
Proof.
  assert (ordered 10 sample_ops) as Hord by (simpl; lia).
  split; [exact Hord|]. split; [exact (memory_store_refines_ideal sample_ops 10 Hord)|].
  vm_compute. reflexivity.
Defined.

Lemma account_lockout_witness :
  let s' := fail_logins "alice" 2 5 100 [(10, "1.1.1.1"); (20, "1.1.1.2")] newMemoryStore in
  exists s'', CheckLoginLimit 30 "alice" "1.1.1.3" 2 5 100 s'
    = (Ok (Z.max (if (30 <? 10 + 100) && (2 <=? 2) then time_sub (10 + 100) 30 else 0)
                 (retry_of (window_at s' 30 (ipFailureKey "1.1.1.3")) 5 30)), s'').
Proof.
  apply (account_lockout "alice" "1.1.1.3" 2 5 100 10 "1.1.1.1" [(20, "1.1.1.2")] newMemoryStore 30).
  - lia.
  - simpl. lia.
  - reflexivity.
  - simpl. unfold MaxInt64. lia.
  - intros a [<-|[<-|[]]]; simpl; lia.
Defined.

Lemma retry_durations_bounded_witness :
  Forall (reply_within 100) (fst (run_ops sample_ops newMemoryStore)).
Proof.
  apply (retry_durations_bounded 100 sample_ops 10).
  - unfold MaxInt64. lia.
  - simpl. lia.
  - intros op w Hin Hw. repeat destruct Hin as [<-|Hin]; try discriminate Hw; try destruct Hin;
      injection Hw as <-; lia.
Defined.

Lemma revocation_lifetime_witness :
  exists s', RevokeAccessToken 10 "jti" 50 newMemoryStore = (Ok tt, s') /\
    revoked_at s' 59 "jti" = true.
Proof.
  destruct (revocation_lifetime 10 "jti" 50 newMemoryStore 59) as (s' & Hrun & Hlive & _); [lia..|].
  exists s'. split; [exact Hrun|]. rewrite Hlive. reflexivity.
Defined.

Lemma rate_limiter_fails_closed_witness :
  fst (CheckLoginAllowed auth_service "alice" "1.1.1.1" alice_world) = Ok 0 /\
  limiter_answer auth_service (fun l => fst (st_CheckLoginLimit (clock 0) "alice" "1.1.1.1"
      (AccountLimit l) (IPLimit l) (Window l) newMemoryStore))
    (fst (CheckLoginAllowed auth_service "alice" "1.1.1.1" alice_world)).
Proof.
  split; [vm_compute; reflexivity|].
  exact (proj1 (rate_limiter_fails_closed auth_service "alice" "1.1.1.1" alice_world)).
Defined.
