(* ===== verification/TokenProperties.v ===== *)
(** The properties of the token manager: what it issues it recognises, for
    the kind and the lifetime it was issued for; what it accepts is well
    formed. *)
From S2P Require Import Prelude GoTime GoStrings Sha256 GoErrors Model Gorm AuthState MemDB World.
From S2P Require Import Dao TokenManager AuthService UserService Instances.
From S2P Require Import AuthStateTheorems TokenTheorems AuthTheorems.

Section properties.
Context {G : Gorm} {SS : Store} {E : Env} {J : JWT} {JL : JWTLaws}.

(** C36. Round trip. A refresh token that was issued for a user parses, at
    any later time up to a second before its expiry and the leeway of 30
    seconds, to the claims it was issued with; its identifier is the fresh
    one, its lifetime the configured one, and it is refused as an access
    token. *)
Theorem refresh_token_round_trip m uid username ver w it w1 w2 :
  0 < uid -> TrimSpace username <> "" -> ValidString username = true ->
  TrimSpace (uuid_at (w_seed w)) <> "" ->
  GenerateRefreshToken m uid username ver w = (Ok it, w1) ->
  clock (w_tick w) <= clock (w_tick w2) < it_ExpiresAt it - Second + parse_leeway ->
  it_JTI it = uuid_at (w_seed w) /\
  it_ExpiresAt it = clock (w_tick w) + tm_refreshTTL m /\
  (exists c, fst (ParseRefreshToken m (it_Token it) w2) = Ok c /\
     c_UserID c = uid /\ c_Username c = username /\ c_AuthVersion c = ver /\
     c_JTI c = it_JTI it /\ c_TokenType c = TokenTypeRefresh) /\
  fst (ParseAccessToken m (it_Token it) w2) = Err auth_ErrAccessTokenInvalid.
Proof.
  intros Hu Hn Hvalid Huuid Hgen Hnow.
  apply (wp_run _ _ _ _ _ (generateToken_spec m uid username ver TokenTypeRefresh _ w)) in Hgen
    as (Hver & Hi & _).
  pose proof Hi as (Hj & _ & Hexp & _).
  pose proof (parse_fresh_token m w w2 uid username ver TokenTypeRefresh _ it Hi Hu Hver Hn Hvalid
    (or_intror eq_refl) ltac:(by rewrite Hj) Hnow) as Hparse.
  split; [done|]. split; [done|].
  unfold ParseRefreshToken, ParseAccessToken, bind. rewrite Hparse. split; [|done].
  eexists. split; [reflexivity|done].
Qed.

(** Expiry. Once the expiry is more than the leeway ago, a token is
    refused as an expired one, whatever it was issued for. *)
Theorem expired_token_refused m uid username ver w it w1 w2 :
  ValidString username = true ->
  GenerateAccessTokenIssue m uid username ver w = (Ok it, w1) ->
  clock (w_tick w) + tm_accessTTL m + parse_leeway <= clock (w_tick w2) ->
  exists e, fst (ParseAccessToken m (it_Token it) w2) = Err e /\
            errors_Is e jwt_ErrTokenExpired = true.
Proof.
  intros Hvalid Hgen Hnow.
  apply (wp_run _ _ _ _ _ (generateToken_spec m uid username ver TokenTypeAccess _ w)) in Hgen
    as (_ & Hi & _).
  pose proof Hi as (_ & _ & Hexp & _). rewrite <- Hexp in Hnow.
  destruct (parse_expired_token m w w2 uid username ver TokenTypeAccess _ it Hi Hvalid Hnow)
    as (e & He & Hx).
  exists e. unfold ParseAccessToken, bind. by rewrite He.
Qed.

(** Whatever string is parsed as an access token, the claims that come
    back name a user, an authentication version, a known identifier and the
    manager's issuer, are of the access kind and within their lifetime and
    leeway; parsing never panics and never touches the state. *)
Theorem parsed_access_claims_sound m tok w r w' :
  ParseAccessToken m tok w = (r, w') ->
  w' = tick w /\
  match r with
  | Ok c => accepted m (clock (w_tick w)) c /\ c_TokenType c = TokenTypeAccess
  | Err _ => True
  | Panic => False
  end.
Proof.
  intros Hrun. by apply (wp_run _ _ _ _ _ (ParseAccessToken_spec m tok w)) in Hrun.
Qed.

(** No string is both an access and a refresh token: what one parser
    accepts, the other refuses, at the same moment. *)
Theorem token_kinds_disjoint m tok w c w' :
  ParseAccessToken m tok w = (Ok c, w') ->
  fst (ParseRefreshToken m tok w) = Err auth_ErrRefreshTokenInvalid.
Proof.
  unfold ParseAccessToken, ParseRefreshToken, bind.
  destruct (parseToken m tok w) as [[d|e|] w1]; try done.
  destruct (String.eqb_spec (c_TokenType d) TokenTypeAccess) as [->|]; [done|done].
Qed.
End properties.

(** The manager is built only from a secret of at least 32 bytes, an
    issuer and positive lifetimes, and then keeps them. The one-lifetime
    constructor gives refresh tokens seven times the lifetime of access
    tokens wherever that is a 64-bit duration, and never a lifetime of zero
    or less. *)
Theorem manager_configuration secret issuer accessTTL refreshTTL ttl m :
  (NewTokenManagerWithTTL secret issuer accessTTL refreshTTL = Ok m <->
   32 <= len (TrimSpace secret) /\ issuer <> "" /\ 0 < accessTTL /\ 0 < refreshTTL /\
   m = mkTokenManager (TrimSpace secret) issuer accessTTL refreshTTL) /\
  (NewTokenManager secret issuer ttl = Ok m ->
   0 < AccessTokenTTL m /\ 0 < RefreshTokenTTL m /\ AccessTokenTTL m = ttl /\
   (in_int64 (ttl * 7) -> RefreshTokenTTL m = 7 * ttl)).
Proof.
  assert (forall a r m, NewTokenManagerWithTTL secret issuer a r = Ok m <->
    32 <= len (TrimSpace secret) /\ issuer <> "" /\ 0 < a /\ 0 < r /\
    m = mkTokenManager (TrimSpace secret) issuer a r) as Hnew.
  { intros a r m'. unfold NewTokenManagerWithTTL. cbv zeta.
    destruct (Z.ltb_spec (len (TrimSpace secret)) 32); [split; [done|lia]|].
    destruct (String.eqb_spec issuer ""); [split; [done|naive_solver]|].
    destruct (Z.leb_spec a 0); [split; [done|lia]|]. destruct (Z.leb_spec r 0); [split; [done|lia]|].
    simpl. split; [intros [= <-]; done|]. by intros (_ & _ & _ & _ & ->). }
  split; [apply Hnew|]. unfold NewTokenManager. rewrite Hnew. intros (_ & _ & Ha & Hr & ->).
  simpl. split; [done|]. split; [done|]. split; [done|]. intros Hin. rewrite mul64_id by done. lia.
Qed.

(** * The end of a revocation *)

Section gap.
Context {STO : Storage} {G : Gorm} {E : Env} {J : JWT} {JL : JWTLaws}.

Lemma not_revoked_later s t u j :
  t <= u -> revoked_at s t j = false -> revoked_at s u j = false.
Proof.
  unfold revoked_at. intros Hle. destruct (Memory.revoked s !! accessRevocationKey j); [|done].
  rewrite !time_after_false. lia.
Qed.

(** A revocation in the memory store is over by the expiry it was given, plus
    the time that passes between the two readings of the clock. *)
Lemma revocation_over (auth : option AuthService) jti exp w w2 t :
  RevokeAccessToken auth jti exp w = (Ok tt, w2) ->
  revoked_at (w_store w) t jti = false ->
  exp + (clock (S (w_tick w)) - clock (w_tick w)) <= t ->
  revoked_at (w_store w2) t jti = false.
Proof.
  unfold RevokeAccessToken. destruct (String.eqb (TrimSpace jti) ""); [done|].
  destruct auth as [[db [|] lim]|]; try done. unfold bind, Now.
  destruct (time_sub exp (clock (w_tick w)) <=? 0) eqn:Hle; [by intros [= <-]|].
  unfold map_err, on_store, zoom. simpl. rewrite RevokeAccessToken_run, Hle.
  intros [= <-] Hbefore Ht. simpl. rewrite revoked_at_insert, decide_True by done.
  apply time_after_false. unfold time_sub, MinInt64, MaxInt64 in *. bool_to_prop. lia.
Qed.

(** C35. A logged-out access token comes back to life. The store keeps a
    revocation until the token's expiry, but the parser accepts a token for
    another 30 seconds of leeway: between the two moments the token of a user
    whose account has not changed parses, and its session stands, although
    its revocation had succeeded. *)
Theorem revoked_access_token_outlives_revocation
    m uid username ver (auth : option AuthService) (w w1 w2 w3 : World) it :
  0 < uid -> TrimSpace username <> "" -> ValidString username = true ->
  TrimSpace (uuid_at (w_seed w)) <> "" -> monotone_clock ->
  GenerateAccessTokenIssue m uid username ver w = (Ok it, w1) ->
  revoked_at (w_store w1) (clock (w_tick w3)) (it_JTI it) = false ->
  RevokeAccessToken auth (it_JTI it) (numeric_date (it_ExpiresAt it)) w1 = (Ok tt, w2) ->
  w_store w3 = w_store w2 -> session_user w3 uid ver -> (w_tick w1 <= w_tick w3)%nat ->
  it_ExpiresAt it + (clock (S (w_tick w1)) - clock (w_tick w1)) <= clock (w_tick w3)
    < it_ExpiresAt it - Second + parse_leeway ->
  exists c w4, ParseAccessToken m (it_Token it) w3 = (Ok c, w4) /\
    c_JTI c = it_JTI it /\ session_stands w4 (clock (w_tick w4)) c.
Proof.
  intros Hu Hn Hvalid Huuid Hmono Hgen Hbefore Hrev Hst Hses Hle Hnow.
  apply (wp_run _ _ _ _ _ (generateToken_spec m uid username ver TokenTypeAccess _ w)) in Hgen
    as (Hver & Hi & Hw1).
  pose proof Hi as (Hj & _ & Hexp & _).
  pose proof (numeric_date_bounds (it_ExpiresAt it)) as Hd.
  apply (revocation_over _ _ _ _ _ (clock (w_tick w3))) in Hrev; [|done|lia].
  assert (clock (w_tick w) <= clock (w_tick w3)) as Hlate.
  { apply Hmono. subst w1. simpl in Hle. lia. }
  pose proof (parse_fresh_token m w w3 uid username ver TokenTypeAccess _ it Hi Hu Hver Hn Hvalid
    (or_introl eq_refl) ltac:(by rewrite Hj) ltac:(lia)) as Hparse.
  eexists _, _. split; [unfold ParseAccessToken, bind; rewrite Hparse; reflexivity|].
  split; [done|]. split; [|split].
  - split; [done|]. split; [done|]. simpl. by rewrite Hj.
  - exact Hses.
  - simpl. rewrite Hst. eapply not_revoked_later; [|exact Hrev]. apply Hmono. lia.
Qed.
End gap.

(** * Witnesses *)

#[local] Abbreviation issue_refresh := (GenerateRefreshToken sample_manager 1 "alice" 1).
#[local] Abbreviation issue_access := (GenerateAccessTokenIssue sample_manager 1 "alice" 1).

Definition no_token : IssuedToken := mkIssuedToken "" "" "" 0 0.
Definition result_of {E A} (d : A) (r : outcome E A) : A := match r with Ok a => a | _ => d end.

Definition refresh_token_of_alice : IssuedToken := result_of no_token (fst (issue_refresh alice_world)).
Definition access_token_of_alice : IssuedToken := result_of no_token (fst (issue_access alice_world)).

Lemma refresh_token_round_trip_witness :
  fst (issue_refresh alice_world) = Ok refresh_token_of_alice /\
  fst (ParseAccessToken sample_manager (it_Token refresh_token_of_alice) alice_world)
  = Err auth_ErrAccessTokenInvalid.
Proof.
  split; [vm_compute; reflexivity|].
  apply (refresh_token_round_trip sample_manager 1 "alice" 1 alice_world refresh_token_of_alice
            (snd (issue_refresh alice_world)) alice_world).
  - lia.
  - vm_compute. discriminate.
  - vm_compute. reflexivity.
  - vm_compute. discriminate.
  - apply run_of. vm_compute. reflexivity.
  - vm_compute. split; [discriminate|reflexivity].
Defined.

Lemma expired_token_refused_witness :
  exists e, fst (issue_access alice_world) = Ok access_token_of_alice /\
    fst (ParseAccessToken sample_manager (it_Token access_token_of_alice)
           (later_by 1000 alice_world)) = Err e /\
    errors_Is e jwt_ErrTokenExpired = true.
Proof.
  destruct (expired_token_refused sample_manager 1 "alice" 1 alice_world access_token_of_alice
    (snd (issue_access alice_world)) (later_by 1000 alice_world)) as (e & He & Hx).
  - vm_compute. reflexivity.
  - apply run_of. vm_compute. reflexivity.
  - vm_compute. discriminate.
  - exists e. split; [vm_compute; reflexivity|]. split; [exact He|exact Hx].
Defined.

Lemma parsed_access_claims_sound_witness :
  exists r w', ParseAccessToken sample_manager (it_Token access_token_of_alice) alice_world = (r, w') /\
    match r with
    | Ok c => accepted sample_manager (clock 0) c /\ c_TokenType c = TokenTypeAccess
    | Err _ => True
    | Panic => False
    end.
Proof.
  destruct (ParseAccessToken sample_manager (it_Token access_token_of_alice) alice_world)
    as [r w'] eqn:Hrun.
  exists r, w'. split; [reflexivity|].
  exact (proj2 (parsed_access_claims_sound sample_manager (it_Token access_token_of_alice)
                  alice_world r w' Hrun)).
Defined.

Lemma token_kinds_disjoint_witness :
  exists c, fst (ParseAccessToken sample_manager (it_Token access_token_of_alice) alice_world) = Ok c /\
    fst (ParseRefreshToken sample_manager (it_Token access_token_of_alice) alice_world)
    = Err auth_ErrRefreshTokenInvalid.
Proof.
  eexists. split; [vm_compute; reflexivity|].
  eapply (token_kinds_disjoint sample_manager (it_Token access_token_of_alice) alice_world).
  apply run_of. vm_compute. reflexivity.
Defined.

Lemma manager_configuration_witness :
  exists m, NewTokenManager "0123456789abcdef0123456789abcdef" "iss" Hour = Ok m /\
    RefreshTokenTTL m = 7 * Hour.
Proof.
  eexists. split; [vm_compute; reflexivity|].
  destruct (manager_configuration "0123456789abcdef0123456789abcdef" "iss" Hour Hour Hour
    (mkTokenManager "0123456789abcdef0123456789abcdef" "iss" Hour (7 * Hour))) as [_ H].
  destruct H as (_ & _ & _ & H); [vm_compute; reflexivity|].
  apply H. vm_compute. split; discriminate.
Defined.

(** Ten seconds after the expiry of the revoked token. *)
#[local] Abbreviation issued_world := (snd (issue_access alice_world)).
#[local] Abbreviation revoke_it :=
  (RevokeAccessToken auth_service (it_JTI access_token_of_alice)
     (numeric_date (it_ExpiresAt access_token_of_alice))).
#[local] Abbreviation after_expiry := (later_by 910 (snd (revoke_it issued_world))).

Lemma revoked_access_token_outlives_revocation_witness :
  fst (revoke_it issued_world) = Ok tt /\
  exists c w4, ParseAccessToken sample_manager (it_Token access_token_of_alice) after_expiry = (Ok c, w4) /\
    session_stands w4 (clock (w_tick w4)) c.
Proof.
  assert (fst (revoke_it issued_world) = Ok tt) as Hrun by (vm_compute; reflexivity).
  split; [exact Hrun|].
  destruct (revoked_access_token_outlives_revocation sample_manager 1 "alice" 1 auth_service
    alice_world issued_world (snd (revoke_it issued_world)) after_expiry access_token_of_alice)
    as (c & w4 & Hp & _ & Hs).
  - lia.
  - vm_compute. discriminate.
  - vm_compute. reflexivity.
  - vm_compute. discriminate.
  - exact test_env_monotone.
  - apply run_of. vm_compute. reflexivity.
  - vm_compute. reflexivity.
  - exact (run_of revoke_it issued_world (Ok tt) Hrun).
  - reflexivity.
  - exists alice. split; [vm_compute; exact (or_introl eq_refl)|repeat split].
  - apply Nat.leb_le. vm_compute. reflexivity.
  - vm_compute. split; [discriminate|reflexivity].
  - exists c, w4. split; [exact Hp|exact Hs].
Defined.
