(* ===== verification/AccountProperties.v ===== *)
(** The properties of the account service: registration, login, profile,
    password change and the first administrator. *)
From S2P Require Import Prelude GoTime GoStrings Sha256 GoErrors Model Gorm AuthState MemDB World.
From S2P Require Import Dao RefreshRepo RbacRepo TokenManager AuthService UserService Instances.
From S2P Require Import RbacService AuthStateTheorems AuthTheorems UserTheorems System SystemTheorems PolicyTheorems.

Section properties.
Context {STO : Storage} {G : Gorm} {GL : GormLaws} {SS : Store} {SL : StoreLaws} {E : Env}.
Context {B : Bcrypt} {BL : BcryptLaws}.
Context {US : UserStore} {UL : UserStoreLaws}.
Context {AUS : AuthUserStore} {AUL : AuthUserStoreLaws}.
Context {RR : RefreshTokenRepository} {RL : RefreshTokenRepositoryLaws}.
Context {RB : RBACRepository} {RBL : RBACRepositoryLaws}.

(** * Helpers *)

Lemma account_named_unique w name u v :
  keys_ok TUsers (tbl TUsers w) -> account_named w name u -> account_named w name v -> u = v.
Proof.
  intros Hk (Hu & _ & Hnu) (Hv & _ & Hnv). apply (keys_ok_unique TUsers (tbl TUsers w)); try done.
  simpl. apply orb_true_iff. right. eapply coll_trans; [exact Hnu|by apply coll_sym].
Qed.

Lemma password_effect_version w w' uid u hash b ver :
  keys_ok TUsers (tbl TUsers w) -> account_with_id w uid u -> password_effect b w w' uid hash ->
  session_user w' uid ver -> ver = u_AuthVersion u + 1.
Proof.
  intros Hk Hu ((now & Hset) & _) (v & Hv & Hd & Hid & _ & Hver). rewrite Hset in Hv.
  apply in_update_where in Hv as (x & Hx & ->).
  destruct (selects TUsers (fun x => u_ID x =? uid) x) eqn:Hsel.
  - assert (x = u) as ->; [|done]. eapply account_id_unique; [exact Hk| |exact Hu].
    by eapply selects_id.
  - unfold selects in Hsel. simpl in Hsel. by rewrite Hd, Hid, Z.eqb_refl in Hsel.
Qed.

Lemma password_effect_keys w w' uid hash b :
  keys_ok TUsers (tbl TUsers w) -> password_effect b w w' uid hash ->
  keys_ok TUsers (tbl TUsers w').
Proof.
  intros Hk ((now & Hset) & _). rewrite Hset. apply keys_ok_map; [|done].
  intros a b'. by destruct (selects _ _ a), (selects _ _ b').
Qed.

Lemma password_effect_inactive w w' uid hash k :
  password_effect true w w' uid hash -> In k (tbl TRefreshTokens w') -> t_UserID k = uid ->
  is_active k = false.
Proof.
  intros (_ & (now & at_ & Hset) & _) Hk Hu. rewrite Hset in Hk.
  apply in_update_where in Hk as (x & Hx & ->). destruct (active_of_user uid x) eqn:Ha; [done|].
  unfold active_of_user in Ha. by rewrite Hu, Z.eqb_refl in Ha.
Qed.

Lemma role_code_unique w code r1 r2 :
  keys_ok TRoles (tbl TRoles w) -> role_with_code w code r1 -> role_with_code w code r2 -> r1 = r2.
Proof.
  intros Hk [Hin1 Hc1] [Hin2 Hc2]. apply (keys_ok_unique TRoles (tbl TRoles w)); try done.
  simpl. apply orb_true_iff. right. eapply coll_trans; [exact Hc1|by apply coll_sym].
Qed.

Lemma no_administrator w role :
  keys_ok TRoles (tbl TRoles w) -> role_with_code w RoleCodeAdmin role ->
  (forall ur, In ur (tbl TUserRoles w) -> ur_RoleID ur <> r_ID role) -> ~ administrator_exists w.
Proof.
  intros Hk Hrole Hnone (r' & ur & Hr' & Hur & Hid).
  rewrite (role_code_unique w _ r' role Hk Hr' Hrole) in Hid. by eapply Hnone.
Qed.

Lemma administrator_blocks_bootstrap s req w r w' :
  keys_ok TRoles (tbl TRoles w) -> administrator_exists w ->
  BootstrapAdmin s req w = (r, w') -> r <> Ok tt /\ same_tables w w'.
Proof.
  intros Hk Ha Hrun. apply (wp_run _ _ _ _ _ (BootstrapAdmin_spec s req w)) in Hrun as [_ Hr].
  destruct r as [[]|e|]; [exfalso|by split; [|apply Hr]|done].
  destruct Hr as (_ & _ & (role & Hrole & Hnone) & _). by eapply no_administrator.
Qed.

(** * Properties *)

(** C29. A registration that succeeds had a free name of at least three bytes
    and a password within the bounds, and adds exactly one account: active,
    of version one, under the trimmed name, with a hash that matches the
    password and, where roles are set up, the role of users. One that fails
    changes nothing and says why. *)
Theorem register_creates_account s req w r w' :
  Register s req w = (r, w') ->
  let name := TrimSpace (reg_Username req) in
  match r with
  | Ok _ =>
      3 <= len name /\ valid_password (reg_Password req) /\
      (forall u, ~ account_named w name u) /\
      (exists u, fresh_account name (reg_Password req) u /\
         account_added w w' u (if has_rbacRepo s then [RoleCodeUser] else []))
  | Err e => same_tables w w' /\ register_error s req w e
  | Panic => False
  end.
Proof.
  intros Hrun. by apply (wp_run _ _ _ _ _ (Register_spec s req w)) in Hrun as [_ Hr].
Qed.

(** Login answers by the credentials. It lets in exactly the active
    account with the name and the password, and then writes only the time of
    the login of that account; an unknown name, a wrong password and a
    disabled account get one and the same error, and no other error ever says
    which it was. *)
Theorem login_by_credentials s req w r w' :
  keys_ok TUsers (tbl TUsers w) ->
  Login s req w = (r, w') ->
  match r with
  | Ok u' =>
      ~ bad_credentials w req /\
      exists u t now, account_named w (TrimSpace (login_Username req)) u /\
        u' = set_last_login t u /\ read_between w w' t /\
        sets w w' TUsers (update_where (selects TUsers (fun x => u_ID x =? u_ID u))
                            (updated TUsers now (set_last_login t)) (tbl TUsers w))
  | Err e =>
      same_tables w w' /\
      (e = ErrInvalidCredentials /\ bad_credentials w req \/
       e = ErrDatabaseNotInitialized \/ exists cause, sql_failure cause /\ e = loginFailed cause)
  | Panic => False
  end.
Proof.
  intros Hk Hrun. apply (wp_run _ _ _ _ _ (Login_spec s req w)) in Hrun as [_ Hr].
  destruct r as [u'|e|]; [| |done].
  - destruct Hr as (u & t & now & Hu & Hm & Hst & -> & Ht & Hs).
    split; [|by exists u, t, now].
    intros [Hnone|(v & Hv & Hbad)]; [by eapply Hnone|].
    assert (v = u) as -> by (by eapply account_named_unique). destruct Hbad; congruence.
  - destruct Hr as [Ht Hr]. split; [done|]. inversion Hr; subst; eauto 10.
Qed.

(** C26. A password change that succeeds proved the old password, stores a
    hash that matches the new one, raises the authentication version by one
    and revokes every active refresh token of the user in the same
    transaction; a failure of any step changes nothing. *)
Theorem password_change s uid req w r w' :
  keys_ok TUsers (tbl TUsers w) ->
  UpdateUserPassword s uid req w = (r, w') ->
  match r with
  | Ok _ => 0 < uid /\ OldPassword req <> NewPassword req /\ password_changed s uid req w w'
  | Err e => same_tables w w'
  | Panic => False
  end.
Proof.
  intros Hk Hrun. by apply (wp_run _ _ _ _ _ (UpdateUserPassword_spec s uid req w Hk)) in Hrun as [_ Hr].
Qed.

(** A password change ends every session of the user: no access token of
    the version before it is honoured again, and no refresh token that was
    there is accepted. *)
Theorem password_change_ends_sessions s uid req w w1 ver auth c r w2 ver2 j h next r2 w3 :
  keys_ok TUsers (tbl TUsers w) -> has_refreshRepo s = true -> session_user w uid ver ->
  UpdateUserPassword s uid req w = (Ok tt, w1) ->
  has_store auth -> c_UserID c = uid -> c_AuthVersion c <= ver ->
  ValidateAccessToken auth (Some c) w1 = (r, w2) ->
  RotateRefreshToken auth uid ver2 j h next w1 = (r2, w3) ->
  r <> Ok tt /\ r2 <> Ok tt.
Proof.
  intros Hk Hrepo Hu Hrun Hstore Hc Hver Hval Hrot.
  apply (wp_run _ _ _ _ _ (UpdateUserPassword_spec s uid req w Hk)) in Hrun
    as (_ & _ & _ & u & hash & Hacc & _ & _ & _ & Heff).
  rewrite Hrepo in Heff. pose proof (password_effect_keys _ _ _ _ _ Hk Heff) as Hk1.
  apply (wp_run _ _ _ _ _ (ValidateAccessToken_spec auth (Some c) w1 Hstore Hk1)) in Hval as [_ Hval].
  apply (wp_run _ _ _ _ _ (RotateRefreshToken_spec auth uid ver2 j h next w1)) in Hrot as [_ Hrot].
  assert (u_AuthVersion u = ver) as Hv.
  { destruct Hu as (v & Hin & Hd & Hid & _ & <-). f_equal.
    by apply (account_id_unique w uid). }
  split; intros ->.
  - destruct Hval as (c' & [= <-] & _ & Hs & _). rewrite Hc in Hs.
    eapply password_effect_version in Hs; [|exact Hk|exact Hacc|exact Heff]. lia.
  - destruct Hrot as (k & _ & _ & old & id & n1 & n2 & at_ & (Hin & _ & Huid & _) & Hrev & _).
    pose proof (password_effect_inactive _ _ _ _ old Heff Hin Huid) as Hi.
    unfold is_active in Hi. by rewrite Hrev in Hi.
Qed.

(** Only the owner's profile is read, and only while the account is
    active; nothing is written, and each refusal has its one reason. *)
Theorem profile_of_active_account s uid w r w' :
  GetProfile s uid w = (r, w') ->
  same_tables w w' /\
  match r with
  | Ok u => account_with_id w uid u /\ u_Status u = UserStatusActive
  | Err e => profile_error s uid w e
  | Panic => False
  end.
Proof.
  intros Hrun. apply (wp_run _ _ _ _ _ (GetProfile_spec s uid w)) in Hrun as [Hw Hr].
  split; [by apply same_world_tables|done].
Qed.

(** A nickname change stores the trimmed nickname, one to 64 bytes long,
    on the account of the caller and nowhere else, unless the account has it
    already; a refusal changes nothing. *)
Theorem nickname_change s uid nickname w r w' :
  UpdateNickname s uid nickname w = (r, w') ->
  match r with
  | Ok _ => exists u, account_with_id w uid u /\
      TrimSpace nickname <> "" /\ len (TrimSpace nickname) <= 64 /\
      (u_Nickname u = TrimSpace nickname /\ same_tables w w' \/
       u_Status u = UserStatusActive /\
       exists now, sets w w' TUsers (update_where (selects TUsers (fun x => u_ID x =? uid))
                     (updated TUsers now (set_nickname (TrimSpace nickname))) (tbl TUsers w)))
  | Err e => same_tables w w'
  | Panic => False
  end.
Proof.
  intros Hrun. by apply (wp_run _ _ _ _ _ (UpdateNickname_spec s uid nickname w)) in Hrun as [_ Hr].
Qed.

End properties.

(** * Witnesses *)

#[local] Abbreviation user_service := (NewUserService true).
#[local] Abbreviation register_run :=
  (Register user_service (mkRegisterRequest " bobby " "correct horse battery")).

Lemma register_creates_account_witness :
  fst (register_run alice_world) = Ok tt /\
  exists u, fresh_account "bobby" "correct horse battery" u /\
            account_added alice_world (snd (register_run alice_world)) u [RoleCodeUser].
Proof.
  assert (fst (register_run alice_world) = Ok tt) as Hrun by (vm_compute; reflexivity).
  split; [exact Hrun|].
  exact (proj2 (proj2 (proj2 (register_creates_account user_service
    (mkRegisterRequest " bobby " "correct horse battery") alice_world (Ok tt)
    (snd (register_run alice_world)) (run_of register_run alice_world (Ok tt) Hrun))))).
Defined.

#[local] Abbreviation wrong_login := (Login user_service (mkLoginRequest "alice" "wrong password")).

Lemma login_by_credentials_witness :
  fst (wrong_login alice_world) = Err ErrInvalidCredentials /\
  same_tables alice_world (snd (wrong_login alice_world)).
Proof.
  assert (fst (wrong_login alice_world) = Err ErrInvalidCredentials) as Hrun
    by (vm_compute; reflexivity).
  split; [exact Hrun|].
  refine (proj1 (login_by_credentials user_service (mkLoginRequest "alice" "wrong password")
    alice_world (Err ErrInvalidCredentials) (snd (wrong_login alice_world)) _
    (run_of wrong_login alice_world (Err ErrInvalidCredentials) Hrun))).
  keys_by_computation.
Defined.

#[local] Abbreviation password_request :=
  (mkUpdatePasswordRequest "correct horse battery" "another long password").
#[local] Abbreviation password_run := (UpdateUserPassword user_service 1 password_request).

Lemma password_change_witness :
  fst (password_run alice_world) = Ok tt /\
  password_changed user_service 1 password_request alice_world (snd (password_run alice_world)).
Proof.
  assert (fst (password_run alice_world) = Ok tt) as Hrun by (vm_compute; reflexivity).
  split; [exact Hrun|].
  refine (proj2 (proj2 (password_change user_service 1 password_request alice_world (Ok tt)
    (snd (password_run alice_world)) _ (run_of password_run alice_world (Ok tt) Hrun)))).
  keys_by_computation.
Defined.

#[local] Abbreviation old_claims :=
  (mkUserClaims "alice" 1 TokenTypeAccess 1 "at-1" "issuer" (Some launch) (Some (launch + Hour)) "at-1").
#[local] Abbreviation after_change := (snd (password_run alice_world)).
#[local] Abbreviation validate_old := (ValidateAccessToken auth_service (Some old_claims)).
#[local] Abbreviation rotate_old :=
  (RotateRefreshToken auth_service 1 2 "jti-1" "hash-1" (Some (next_token "jti-2" "hash-2"))).

Lemma password_change_ends_sessions_witness :
  fst (validate_old alice_world) = Ok tt /\
  fst (validate_old after_change) <> Ok tt /\ fst (rotate_old after_change) <> Ok tt.
Proof.
  split; [vm_compute; reflexivity|].
  apply (password_change_ends_sessions user_service 1 password_request alice_world after_change 1
    auth_service old_claims (fst (validate_old after_change)) (snd (validate_old after_change))
    2 "jti-1" "hash-1" (Some (next_token "jti-2" "hash-2")) (fst (rotate_old after_change))
    (snd (rotate_old after_change))).
  - keys_by_computation.
  - reflexivity.
  - exists alice. split; [by left|done].
  - apply run_of. vm_compute. reflexivity.
  - reflexivity.
  - reflexivity.
  - simpl. lia.
  - apply surjective_pairing.
  - apply surjective_pairing.
Defined.

Lemma profile_of_active_account_witness :
  exists u, fst (GetProfile user_service 1 alice_world) = Ok u /\ account_with_id alice_world 1 u.
Proof.
  exists alice. assert (fst (GetProfile user_service 1 alice_world) = Ok alice) as Hrun
    by (vm_compute; reflexivity).
  split; [exact Hrun|].
  exact (proj1 (proj2 (profile_of_active_account user_service 1 alice_world (Ok alice)
    (snd (GetProfile user_service 1 alice_world))
    (run_of (GetProfile user_service 1) alice_world (Ok alice) Hrun)))).
Defined.

#[local] Abbreviation nickname_run := (UpdateNickname user_service 1 " Al ").

Lemma nickname_change_witness :
  fst (nickname_run alice_world) = Ok tt /\
  exists u, account_with_id alice_world 1 u /\ TrimSpace " Al " <> "".
Proof.
  assert (fst (nickname_run alice_world) = Ok tt) as Hrun by (vm_compute; reflexivity).
  split; [exact Hrun|].
  destruct (nickname_change user_service 1 " Al " alice_world (Ok tt)
    (snd (nickname_run alice_world)) (run_of nickname_run alice_world (Ok tt) Hrun))
    as (u & Hu & Hn & _).
  exists u. split; [exact Hu|exact Hn].
Defined.

(** Where alice has an account and nobody is an administrator yet. *)
Definition plain_world : World :=
  world (with_roles [role_user; role_admin] [] [mkUserRole 1 1 launch] [] (db_with [alice] [])).

Lemma plain_world_sound : sound_tables plain_world.
Proof. split; [keys_by_computation|]. split; [constructor|intros; simpl in *; tauto..]. Qed.

#[local] Abbreviation bootstrap_run :=
  (BootstrapAdmin user_service (mkRegisterRequest "root" "correct horse battery")).
#[local] Abbreviation second_run :=
  (BootstrapAdmin user_service (mkRegisterRequest "other" "correct horse battery")).
#[local] Abbreviation bootstrapped_world := (snd (bootstrap_run plain_world)).

(** The only administrator is made a user. *)
#[local] Abbreviation demote_root :=
  (AssignRolesToUser (NewRBACService true) (u_ID (default alice (last (tbl TUsers bootstrapped_world)))) ["user"]).
#[local] Abbreviation demoted_world := (snd (demote_root bootstrapped_world)).

