(* ===== verification/RbacProperties.v ===== *)
(** The properties of the authorization service: assigning roles, checking
    permissions, listing what a user may do. *)
From S2P Require Import Prelude GoTime GoStrings Sha256 GoErrors Model Gorm AuthState MemDB World.
From S2P Require Import RbacRepo RbacService Instances RbacTheorems.

(** The codes of a request are normalized to their trimmed forms, each
    once, in the order of their first occurrences; an empty one refuses the
    whole request. *)
Theorem role_codes_normalized codes :
  normalizeRoleCodes ∅ codes
  = (if existsb (fun c => String.eqb (TrimSpace c) "") codes then Err ErrRoleNotFound
     else Ok (first_occurrences (map TrimSpace codes))) /\
  List.NoDup (first_occurrences (map TrimSpace codes)) /\
  (forall c, In c (first_occurrences (map TrimSpace codes)) <->
             exists c0, In c0 codes /\ TrimSpace c0 = c).
Proof.
  split; [apply normalizeRoleCodes_run|]. split; [apply first_occurrences_NoDup|].
  intros c. rewrite in_first_occurrences, in_map_iff. naive_solver.
Qed.

Section properties.
Context {STO : Storage} {G : Gorm} {GL : GormLaws} {SS : Store} {E : Env}.
Context {RB : RBACRepository} {RBL : RBACRepositoryLaws}.

(** C30. Assigning roles replaces them all at once: afterwards the user holds
    exactly the roles with the requested codes, every other user's roles and
    every other table are as they were; a failure changes nothing. *)
Theorem assign_roles_replaces s uid codes w r w' :
  keys_ok TRoles (tbl TRoles w) ->
  AssignRolesToUser s uid codes w = (r, w') ->
  match r with
  | Ok _ =>
      0 < uid /\
      (forall role, holds_role (rows (w_db w')) uid role <->
         exists c, In c codes /\ role_with_code w (TrimSpace c) role) /\
      (forall other role, other <> uid ->
         holds_role (rows (w_db w')) other role <-> holds_role (rows (w_db w)) other role) /\
      (forall t, t <> TUserRoles -> tbl t w' = tbl t w)
  | Err e => same_tables w w' /\ assign_error s uid codes w e
  | Panic => False
  end.
Proof.
  intros Hk Hrun.
  apply (wp_run _ _ _ _ _ (AssignRolesToUser_spec s uid codes w)) in Hrun as [_ Hr].
  destruct r as [[]|e|]; [|done..].
  destruct Hr as (Hid & (roles & Hroles & Hrep) & _).
  split; [done|]. split; [|split].
  - intros role. rewrite (holds_replaced w w' uid roles role Hrep). split.
    + intros (Hin & r' & Hr' & Heq).
      destruct (Forall2_In_r _ _ _ _ Hroles Hr') as (c & Hc & Hrc).
      rewrite in_first_occurrences, in_map_iff in Hc. destruct Hc as (c0 & <- & Hc0).
      exists c0. split; [done|].
      assert (role = r') as ->; [|done]. apply (keys_ok_unique TRoles (tbl TRoles w)); try done.
      * apply Hrc.
      * simpl. by rewrite Heq, Z.eqb_refl.
    + intros (c & Hc & Hrole). split; [apply Hrole|].
      assert (In (TrimSpace c) (first_occurrences (map TrimSpace codes))) as Hin
        by (rewrite in_first_occurrences; by apply in_map).
      destruct (Forall2_In_l _ _ _ _ Hroles Hin) as (r' & Hr' & Hrc). exists r'. split; [done|].
      assert (r' = role) as ->; [|done]. apply (keys_ok_unique TRoles (tbl TRoles w)); try done.
      * apply Hrc.
      * apply Hrole.
      * simpl. apply orb_true_iff. right. eapply coll_trans; [apply Hrc|apply coll_sym, Hrole].
  - intros other role Hne. destruct Hrep as (l & Hl & Hset & Ho). unfold holds_role.
    change (rows (w_db w') TRoles) with (tbl TRoles w'). rewrite Ho by done.
    apply and_iff_compat_l. change (rows (w_db w') TUserRoles) with (tbl TUserRoles w').
    rewrite Hset. split.
    + intros (ur & [Hin|Hin]%in_app_or & Hu & Hrid).
      * apply in_delete_where in Hin as [Hin _]. by exists ur.
      * destruct (user_role_rows_l _ _ _ _ Hl Hin) as (_ & _ & Hu' & _). congruence.
    + intros (ur & Hin & Hu & Hrid). exists ur. split; [|done]. apply in_or_app. left.
      apply in_delete_where. split; [done|]. apply Z.eqb_neq. congruence.
  - intros t Ht. destruct Hrep as (l & _ & _ & Ho). by apply Ho.
Qed.

(** C39. Two spellings of one role that differ in case or accents only can
    never be assigned together: the database takes both for the same role, the
    request is not reduced to one code, and the second row violates the primary
    key. Nothing is changed; and a request that is otherwise in order, with a
    positive id and codes of stored roles, ends in an internal error that wraps
    the database's. *)
Theorem spellings_of_one_role_fail s uid codes c1 c2 w r w' :
  keys_ok TRoles (tbl TRoles w) -> keys_ok TUserRoles (tbl TUserRoles w) ->
  In c1 codes -> In c2 codes -> TrimSpace c1 <> TrimSpace c2 ->
  coll_eqb (TrimSpace c1) (TrimSpace c2) = true ->
  AssignRolesToUser s uid codes w = (r, w') ->
  r <> Ok tt /\ same_tables w w' /\
  (0 < uid -> rbs_ensureDB s = Ok tt ->
   (forall c, In c codes -> TrimSpace c <> "" /\ exists role, role_with_code w (TrimSpace c) role) ->
   exists e, r = Err (rbacFailed "分配用户角色失败" e) /\ sql_failure e).
Proof.
  intros Hk Hku Hc1 Hc2 Hne Hcoll Hrun.
  apply (wp_run _ _ _ _ _ (AssignRolesToUser_spec s uid codes w)) in Hrun as [_ Hr].
  destruct r as [[]|e|]; [exfalso| |done].
  2:{ destruct Hr as [Ht He]. split; [done|]. split; [done|]. intros Hid Hdb Hcodes.
      destruct He as [Hbad|[Hempty|(c & Hc & Hb)]|c Hc Hnone|Hbad|cause Hcause].
      - lia.
      - by rewrite Hempty in Hc1.
      - by destruct (Hcodes c Hc).
      - destruct (Hcodes c Hc) as (_ & role & Hin & Hcode). by rewrite (Hnone role Hin) in Hcode.
      - congruence.
      - by exists cause. }
  destruct Hr as (_ & (roles & Hroles & (l & Hl & Hset & _)) & Hkeys).
  specialize (Hkeys Hku). rewrite Hset in Hkeys. apply keys_ok_app_r in Hkeys.
  set (cs := first_occurrences (map TrimSpace codes)) in *.
  assert (forall c, In c codes -> exists i, cs !! i = Some (TrimSpace c)) as Hlook.
  { intros c Hc. apply list_elem_of_lookup_1, list_elem_of_In. unfold cs.
    rewrite in_first_occurrences. by apply in_map. }
  destruct (Hlook c1 Hc1) as [i Hi], (Hlook c2 Hc2) as [j Hj].
  destruct (Forall2_lookup_l _ _ _ _ _ Hroles Hi) as (r1 & Hr1 & Hin1 & Hcode1).
  destruct (Forall2_lookup_l _ _ _ _ _ Hroles Hj) as (r2 & Hr2 & Hin2 & Hcode2).
  assert (r1 = r2) as <-.
  { apply (keys_ok_unique TRoles (tbl TRoles w)); try done. simpl. apply orb_true_iff. right.
    eapply coll_trans; [exact Hcode1|]. eapply coll_trans; [exact Hcoll|by apply coll_sym]. }
  assert (i = j) as -> by (by eapply duplicate_role_rows). congruence.
Qed.

(** A permission check answers yes exactly when one of the user's roles
    carries a permission with the code, reads only, and when it cannot tell
    it ends in an error, not in an answer. *)
Theorem permission_check s uid code w r w' :
  HasPermission s uid code w = (r, w') ->
  same_tables w w' /\
  match r with
  | Ok b => 0 < uid /\ TrimSpace code <> "" /\
            (b = true <-> exists p, holds_permission (rows (w_db w)) uid p /\
                                    coll_eqb (p_Code p) code = true)
  | Err e => e = ErrPermissionDenied /\ (uid <= 0 \/ TrimSpace code = "") \/
             e = ErrDatabaseNotInitialized /\ rbs_ensureDB s = Err e \/
             exists cause, sql_failure cause /\ e = rbacFailed "权限校验失败" cause
  | Panic => False
  end.
Proof.
  intros Hrun. by apply (wp_run _ _ _ _ _ (HasPermission_spec s uid code w)) in Hrun.
Qed.

(** The permissions listed for a user are those the check grants: a code
    passes the check exactly when the listing contains it, up to the
    collation; roles and permissions are listed once each. *)
Theorem listing_agrees_with_check s s' uid code w roles perms w1 b w2 :
  GetUserAuthorization s uid w = (Ok (roles, perms), w1) ->
  HasPermission s' uid code w1 = (Ok b, w2) ->
  (b = true <-> exists c, In c perms /\ coll_eqb c code = true) /\
  ForallOrdPairs (fun a b => coll_eqb a b = false) perms /\
  ForallOrdPairs (fun a b => coll_eqb a b = false) roles.
Proof.
  intros H1 H2.
  apply (wp_run _ _ _ _ _ (GetUserAuthorization_spec s uid w)) in H1 as (Ht & _ & Hroles & Hperms).
  apply (wp_run _ _ _ _ _ (HasPermission_spec s' uid code w1)) in H2 as (_ & _ & _ & Hb).
  destruct Hperms as (Hsub & Hcover & Huniq & _). destruct Hroles as (_ & _ & Hur & _).
  split; [|done]. rewrite Hb. split.
  - intros (p & Hp & Hc). rewrite <- (holds_permission_same w w1 uid p Ht) in Hp.
    destruct (Hcover p Hp) as (c & Hin & Hpc). exists c. split; [done|].
    eapply coll_trans; [apply coll_sym, Hpc|done].
  - intros (c & Hin & Hc). destruct (Hsub c Hin) as (p & Hp & <-). exists p. split; [|done].
    by rewrite <- (holds_permission_same w w1 uid p Ht).
Qed.
End properties.

(** * Witnesses *)

#[local] Abbreviation rbac_service := (NewRBACService true).
#[local] Abbreviation assign_run := (AssignRolesToUser rbac_service 1 ["admin"; " admin "]).
#[local] Abbreviation admin_world := (snd (assign_run alice_world)).

Lemma assign_roles_replaces_witness :
  fst (assign_run alice_world) = Ok tt /\
  (forall role, holds_role (rows (w_db admin_world)) 1 role <->
     exists c, In c ["admin"; " admin "] /\ role_with_code alice_world (TrimSpace c) role).
Proof.
  assert (fst (assign_run alice_world) = Ok tt) as Hrun by (vm_compute; reflexivity).
  split; [exact Hrun|].
  refine (proj1 (proj2 (assign_roles_replaces rbac_service 1 ["admin"; " admin "] alice_world (Ok tt)
    admin_world _ (run_of assign_run alice_world (Ok tt) Hrun)))).
  keys_by_computation.
Defined.

#[local] Abbreviation spellings_run := (AssignRolesToUser rbac_service 1 ["admin"; "Admin"]).

Lemma spellings_of_one_role_fail_witness :
  fst (AssignRolesToUser rbac_service 1 ["Admin"] alice_world) = Ok tt /\
  exists e, fst (spellings_run alice_world) = Err (rbacFailed "分配用户角色失败" e) /\ sql_failure e.
Proof.
  split; [vm_compute; reflexivity|].
  apply (spellings_of_one_role_fail rbac_service 1 ["admin"; "Admin"] "admin" "Admin" alice_world
    (fst (spellings_run alice_world)) (snd (spellings_run alice_world))).
  - keys_by_computation.
  - keys_by_computation.
  - by left.
  - right. by left.
  - vm_compute. discriminate.
  - vm_compute. reflexivity.
  - apply surjective_pairing.
  - lia.
  - reflexivity.
  - intros c [<-|[<-|[]]]; (split; [vm_compute; discriminate|]);
      exists role_admin; (split; [vm_compute; tauto|vm_compute; reflexivity]).
Defined.

#[local] Abbreviation check_run := (HasPermission rbac_service 1 PermissionAdminRolesRead).

Lemma permission_check_witness :
  fst (check_run alice_world) = Ok false /\ fst (check_run admin_world) = Ok true /\
  exists p, holds_permission (rows (w_db admin_world)) 1 p /\
            coll_eqb (p_Code p) PermissionAdminRolesRead = true.
Proof.
  assert (fst (check_run admin_world) = Ok true) as Hrun by (vm_compute; reflexivity).
  split; [vm_compute; reflexivity|]. split; [exact Hrun|].
  destruct (permission_check rbac_service 1 PermissionAdminRolesRead admin_world (Ok true)
    (snd (check_run admin_world)) (run_of check_run admin_world (Ok true) Hrun))
    as (_ & _ & _ & Hb).
  exact (proj1 Hb eq_refl).
Defined.

#[local] Abbreviation listing_run := (GetUserAuthorization rbac_service 1).

Lemma listing_agrees_with_check_witness :
  fst (listing_run admin_world) = Ok (["admin"], ["admin:roles:read"]) /\
  (true = true <-> exists c, In c ["admin:roles:read"] /\
                             coll_eqb c PermissionAdminRolesRead = true).
Proof.
  assert (fst (listing_run admin_world) = Ok (["admin"], ["admin:roles:read"])) as Hrun
    by (vm_compute; reflexivity).
  split; [exact Hrun|].
  eapply (listing_agrees_with_check rbac_service rbac_service 1 PermissionAdminRolesRead admin_world
    ["admin"] ["admin:roles:read"] (snd (listing_run admin_world)) true
    (snd (check_run (snd (listing_run admin_world))))).
  - exact (run_of listing_run admin_world _ Hrun).
  - apply run_of. vm_compute. reflexivity.
Defined.
