(* ===== verification/HttpProperties.v ===== *)
(** The properties of the HTTP interface: every request is answered once,
    protected routes are closed to everyone else, and what login, refresh and
    logout do when they say they succeeded. *)
From S2P Require Import Prelude GoTime GoStrings Sha256 GoErrors Model Gorm AuthState MemDB World.
From S2P Require Import Dao RefreshRepo RbacRepo TokenManager AuthService UserService RbacService.
From S2P Require Import Web Metrics UserHandler RbacHandler Middleware Instances.
From S2P Require Import AuthStateTheorems TokenTheorems AuthTheorems UserTheorems RbacTheorems.
From S2P Require Import ErrorTheorems HttpTheorems EndpointTheorems.

(** The access policy: the permission that a protected path needs, if it
    needs one besides a session. *)
Definition policy (path : string) : option string :=
  if String.eqb path "/api/v1/users/me" then Some PermissionProfileRead
  else if String.eqb path "/api/v1/users/me/profile" then Some PermissionProfileUpdate
  else if String.eqb path "/api/v1/users/me/update/password" then Some PermissionPasswordUpdate
  else if String.eqb path "/api/v1/admin/roles" then Some PermissionAdminRolesRead
  else if String.eqb path "/api/v1/admin/permissions" then Some PermissionAdminPermsRead
  else if String.eqb path "/api/v1/admin/users/:id/roles" then Some PermissionAdminUserRoleEdit
  else None.

Section properties.
Context {STO : Storage} {G : Gorm} {GL : GormLaws} {SS : Store} {SL : StoreLaws}.
Context {E : Env} {UT : UnicodeTables} {J : JWT} {JL : JWTLaws}.
Context {B : Bcrypt} {BL : BcryptLaws} {JB : JSONBinding}.
Context {US : UserStore} {UL : UserStoreLaws} {AUS : AuthUserStore} {AUL : AuthUserStoreLaws}.
Context {RR : RefreshTokenRepository} {RL : RefreshTokenRepositoryLaws}.
Context {RB : RBACRepository} {RBL : RBACRepositoryLaws}.

(** C14. Every request to every route with a handler of the repository is
    answered exactly once, whether the database and the state store work, fail
    or panic; and the answer is either a success with status 200 and code 0, or
    a client or server error with a business code and no data. *)
Theorem every_request_answered_once hs registration route rq w :
  In route (routes hs registration) ->
  exists x c' w', serve route (new_context rq, w) = (Ok tt, (c', w')) /\
                  cx_Writes c' = [x] /\ envelope x.
Proof.
  intros Hin. destruct (serve_run route rq w) as (id & w1 & _ & _ & _ & _ & Hserve).
  destruct (started_fresh (ro_Path route) id rq) as (Hab & _ & Hwr).
  destruct (Recovery_answers (ro_Handlers route) _ (tick w1) (routes_well_formed _ _ _ Hin) Hab Hwr)
    as (x & c' & w' & Hrec & Hx & He).
  rewrite (Hserve _ _ Hrec). by do 3 eexists.
Qed.

(** C6. A protected route is closed to everyone else: unless the request
    carries an access token whose session stands, of a user who holds the
    permission the path needs, it is refused and changes no row. *)
Theorem protected_routes_guarded hs route rq w r c' w' :
  has_store (hs_authService hs) -> keys_ok TUsers (tbl TUsers w) ->
  In route (registerUsersRoutes hs ++ registerAdminRoutes hs) ->
  serve route (new_context rq, w) = (r, (c', w')) ->
  same_tables w w' /\ refused [401; 403; 500; 503] (new_context rq) c' \/
  allowed (hs_tokenManager hs) (policy (ro_Path route)) rq w.
Proof.
  intros Hs Hk Hin Hrun.
  assert (exists h, ro_Handlers route = guarded hs (policy (ro_Path route)) h) as [h Hh].
  { simpl in Hin. unfold require, guarded.
    repeat (destruct Hin as [<-|Hin]; [eexists; reflexivity|]). done. }
  destruct route as [meth path handlers]. simpl in Hh |- *. subst handlers.
  by eapply protected_serve.
Qed.

(** C11. A login is answered with tokens only for name and password of an
    active account: the tokens are issued for that account, the refresh token
    is stored and set in an HttpOnly cookie. Any other answer is an error,
    and leaves no refresh token behind. *)
Theorem login_endpoint h s rq w r c' w' :
  h_authSessionService h = Some s ->
  LoginHandler h (new_context rq, w) = (r, (c', w')) ->
  r = Ok tt /\ exists st rsp, cx_Writes c' = [(st, rsp)] /\
  match resp_Data rsp with
  | DataLogin t => st = StatusOK /\ exists req, bind_login (rq_Body rq) = inr req /\
                   logged_in h w w' req t (cx_Cookies c')
  | NoData => 400 <= st < 600 /\ tbl TRefreshTokens w' = tbl TRefreshTokens w /\ cx_Cookies c' = []
  | _ => False
  end.
Proof.
  intros Hs Hrun. exact (wp_run _ _ _ _ _ (LoginHandler_spec h s rq w Hs) Hrun).
Qed.

(** C10. A refresh is answered with tokens only by rotating the presented
    token, which parses as a refresh token of a user whose session stands,
    into the one in the cookie. Any other answer is an error that sets no
    token, and changes no row unless a replay ended the family. *)
Theorem refresh_endpoint h s rq w r c' w' :
  h_authSessionService h = Some s ->
  RefreshTokenHandler h (new_context rq, w) = (r, (c', w')) ->
  r = Ok tt /\ exists st rsp, cx_Writes c' = [(st, rsp)] /\
  match resp_Data rsp with
  | DataTokens t => st = StatusOK /\ refreshed h rq w w' t (cx_Cookies c')
  | NoData => 400 <= st < 600 /\ no_token (cx_Cookies c') /\ refresh_refused h rq w w'
  | _ => False
  end.
Proof.
  intros Hs Hrun. exact (wp_run _ _ _ _ _ (RefreshTokenHandler_spec h s rq w Hs) Hrun).
Qed.

(** C12. A logout that is answered with 200 has revoked the presented refresh
    token of its owner, cleared the cookie, and, when an access token of the
    same user came along, revoked that until it expires. Any other answer is
    an error and changes no row. *)
Theorem logout_endpoint h s rq w r c' w' :
  h_authSessionService h = Some s -> has_store s ->
  LogoutHandler h (new_context rq, w) = (r, (c', w')) ->
  r = Ok tt /\ exists st rsp, cx_Writes c' = [(st, rsp)] /\
  resp_Data rsp = NoData /\ no_token (cx_Cookies c') /\
  (st = StatusOK /\ cx_Cookies c' <> [] /\ logged_out h rq w w' \/
   400 <= st < 600 /\ same_tables w w').
Proof.
  intros Hs Hst Hrun. exact (wp_run _ _ _ _ _ (LogoutHandler_spec h s rq w Hs Hst) Hrun).
Qed.

(** The caller's address as the limiter counts it. *)
Definition login_ip (rq : Request) : string :=
  if String.eqb (TrimSpace (rq_ClientIP rq)) "" then "unknown" else TrimSpace (rq_ClientIP rq).

(** A login that the limiter holds back is answered with 429 before any
    password is looked at: no row is read or written, and Retry-After is the
    wait in whole seconds, rounded up. *)
Theorem login_rate_limited h s rq req d w w1 :
  h_authSessionService h = Some s -> bind_login (rq_Body rq) = inr req ->
  CheckLoginAllowed s (login_Username req) (login_ip rq) w = (Ok d, w1) -> 0 < d ->
  in_int64 (d + Second) ->
  exists seconds,
    LoginHandler h (new_context rq, w) = (Ok tt, (limited d (new_context rq), w1)) /\
    cx_Writes (limited d (new_context rq))
    = [(StatusTooManyRequests, mkResponse CodeLoginRateLimited "too many login attempts" NoData)] /\
    cx_Headers (limited d (new_context rq)) = [("Retry-After", format_int seconds)] /\
    (seconds - 1) * Second < d <= seconds * Second /\
    w_db w1 = w_db w.
Proof.
  intros Hs Hb Hchk Hd Hmax. exists (retryAfterSeconds d). split; [|split; [done|]; split; [done|]].
  - unfold LoginHandler, bind, request, gets. cbn beta iota. simpl (cx_Request _). rewrite Hb, Hs.
    unfold call at 1. fold (login_ip rq). rewrite Hchk. cbn beta iota.
    unfold respondLoginRateLimited. rewrite (proj2 (Z.leb_gt _ _) Hd). done.
  - split; [by apply retryAfterSeconds_ceiling|].
    by pose proof (CheckLoginAllowed_db s (login_Username req) (login_ip rq) w) as Hdb; rewrite Hchk in Hdb.
Qed.

(** A login that fails for wrong credentials is counted, once, against
    the account and the address it came from: what the handler leaves is what
    recording the failure leaves, and when that reaches the limit the answer
    is already 429. *)
Theorem wrong_credentials_counted h s rq req d w w1 w2 retry w3 :
  h_authSessionService h = Some s -> bind_login (rq_Body rq) = inr req ->
  CheckLoginAllowed s (login_Username req) (login_ip rq) w = (Ok d, w1) -> d <= 0 ->
  Login (h_userService h) req w1 = (Err ErrInvalidCredentials, w2) ->
  RecordLoginFailure s (login_Username req) (login_ip rq) w2 = (Ok retry, w3) ->
  LoginHandler h (new_context rq, w)
  = (Ok tt, (if 0 <? retry then limited retry (new_context rq)
             else add_write (StatusUnauthorized,
                    mkResponse CodeLoginFailed "username or password incorrect" NoData) (new_context rq),
             w3)).
Proof.
  intros Hs Hb Hchk Hd Hlogin Hrec.
  unfold LoginHandler, bind, request, gets. cbn beta iota. simpl (cx_Request _). rewrite Hb, Hs.
  unfold call at 1. fold (login_ip rq). rewrite Hchk. cbn beta iota.
  unfold respondLoginRateLimited at 1. rewrite (proj2 (Z.leb_le _ _) Hd). cbn beta iota.
  unfold ret at 1. cbn beta iota. unfold call at 1. rewrite Hlogin. cbn beta iota.
  unfold refuseLogin, bind. rewrite Hs. cbn beta iota.
  change (errors_Is ErrInvalidCredentials "service.ErrInvalidCredentials") with true. cbn iota.
  unfold call at 1. rewrite Hrec. cbn beta iota. unfold respondLoginRateLimited.
  destruct (Z.leb_spec retry 0); [rewrite (proj2 (Z.ltb_ge 0 _)) by done|
    rewrite (proj2 (Z.ltb_lt 0 _)) by done]; done.
Qed.

(** The service says it is ready exactly when its database is set up,
    opens and answers, and then every dependency it checks answers; otherwise
    it says 503. The readiness it records is the one it says. *)
Theorem readiness h rq w r c' w' :
  hh_recorder h = true ->
  ReadyzHandler h (new_context rq, w) = (r, (c', w')) -> r <> Panic ->
  r = Ok tt /\ cx_Ready c' = [dependencies_answer h w] /\
  exists st rsp, cx_Writes c' = [(st, rsp)] /\
    st = (if dependencies_answer h w then StatusOK else StatusServiceUnavailable) /\
    resp_Data rsp = (if dependencies_answer h w then DataFields [("status", "ready")] else NoData).
Proof.
  intros Hrec Hrun Hp. pose proof (wp_run _ _ _ _ _ (ReadyzHandler_spec h (new_context rq) w Hrec) Hrun) as Hr.
  destruct r as [[]|[]|]; [|done]. destruct Hr as (Hw & Hready & x & Hx & Hst).
  split; [done|]. split; [by rewrite Hready|]. destruct x as [st rsp]. exists st, rsp. by rewrite Hx.
Qed.
End properties.

(** * Witnesses *)

#[local] Abbreviation users := (hs_user test_handlers).
#[local] Abbreviation login_request := (test_request "" "correct horse battery").
#[local] Abbreviation login_run := (LoginHandler users (new_context login_request, alice_world)).
#[local] Abbreviation login_context := (fst (snd login_run)).
#[local] Abbreviation login_world := (snd (snd login_run)).

Lemma every_request_answered_once_witness :
  exists x c' w', serve (mkRoute "POST" "/api/v1/auth/login" [LoginHandler users])
                    (new_context login_request, alice_world) = (Ok tt, (c', w')) /\
                  cx_Writes c' = [x] /\ envelope x.
Proof.
  apply (every_request_answered_once test_handlers true
           (mkRoute "POST" "/api/v1/auth/login" [LoginHandler users]) login_request alice_world).
  simpl. tauto.
Defined.

(** The tokens of a login. *)
Definition login_tokens (c : Context) : string * string :=
  match cx_Writes c, cx_Cookies c with
  | [(_, mkResponse _ _ (DataLogin t))], [ck] => (tu_AccessToken t, ck_Value ck)
  | _, _ => ("", "")
  end.

#[local] Abbreviation access_token := (fst (login_tokens login_context)).
#[local] Abbreviation refresh_token := (snd (login_tokens login_context)).

Lemma login_endpoint_witness :
  fst login_run = Ok tt /\ map fst (cx_Writes login_context) = [StatusOK] /\
  exists st rsp, cx_Writes login_context = [(st, rsp)] /\
  match resp_Data rsp with
  | DataLogin t => st = StatusOK /\ exists req, bind_login (rq_Body login_request) = inr req /\
                   logged_in users alice_world login_world req t (cx_Cookies login_context)
  | NoData => 400 <= st < 600 /\
      tbl TRefreshTokens login_world = tbl TRefreshTokens alice_world /\ cx_Cookies login_context = []
  | _ => False
  end.
Proof.
  assert (fst login_run = Ok tt) as Hrun by (vm_compute; reflexivity).
  split; [exact Hrun|]. split; [vm_compute; reflexivity|].
  exact (proj2 (login_endpoint users (hs_authService test_handlers) login_request alice_world (Ok tt)
    login_context login_world eq_refl (handler_run _ _ Hrun))).
Defined.

(** Alice as an administrator reads the roles. *)
#[local] Abbreviation admin_login_world := (promoted login_world).
#[local] Abbreviation roles_route :=
  (mkRoute "GET" "/api/v1/admin/roles"
     [authenticate test_handlers; require test_handlers PermissionAdminRolesRead;
      ListRolesHandler (hs_rbac test_handlers)]).
#[local] Abbreviation roles_run w :=
  (serve roles_route (new_context (test_request access_token ""), w)).

Lemma protected_routes_guarded_witness :
  map fst (cx_Writes (fst (snd (roles_run admin_login_world)))) = [StatusOK] /\
  map fst (cx_Writes (fst (snd (roles_run login_world)))) = [StatusForbidden] /\
  (same_tables admin_login_world (snd (snd (roles_run admin_login_world))) /\
   refused [401; 403; 500; 503] (new_context (test_request access_token ""))
     (fst (snd (roles_run admin_login_world))) \/
   allowed sample_manager (policy "/api/v1/admin/roles") (test_request access_token "")
     admin_login_world).
Proof.
  split; [vm_compute; reflexivity|]. split; [vm_compute; reflexivity|].
  apply (protected_routes_guarded test_handlers roles_route (test_request access_token "")
    admin_login_world (Ok tt)).
  - reflexivity.
  - keys_by_computation.
  - simpl. tauto.
  - apply handler_run. vm_compute. reflexivity.
Defined.

#[local] Abbreviation refresh_request := (test_request "" refresh_token).
#[local] Abbreviation refresh_run :=
  (RefreshTokenHandler users (new_context refresh_request, login_world)).

Lemma refresh_endpoint_witness :
  map fst (cx_Writes (fst (snd refresh_run))) = [StatusOK] /\
  exists st rsp, cx_Writes (fst (snd refresh_run)) = [(st, rsp)] /\
  match resp_Data rsp with
  | DataTokens t => st = StatusOK /\
      refreshed users refresh_request login_world (snd (snd refresh_run)) t
        (cx_Cookies (fst (snd refresh_run)))
  | NoData => 400 <= st < 600 /\ no_token (cx_Cookies (fst (snd refresh_run))) /\
      refresh_refused users refresh_request login_world (snd (snd refresh_run))
  | _ => False
  end.
Proof.
  split; [vm_compute; reflexivity|].
  assert (fst refresh_run = Ok tt) as Hrun by (vm_compute; reflexivity).
  exact (proj2 (refresh_endpoint users (hs_authService test_handlers) refresh_request login_world (Ok tt)
    (fst (snd refresh_run)) (snd (snd refresh_run)) eq_refl (handler_run _ _ Hrun))).
Defined.

#[local] Abbreviation logout_request := (test_request access_token refresh_token).
#[local] Abbreviation logout_run :=
  (LogoutHandler users (new_context logout_request, login_world)).

Lemma logout_endpoint_witness :
  map fst (cx_Writes (fst (snd logout_run))) = [StatusOK] /\
  exists st rsp, cx_Writes (fst (snd logout_run)) = [(st, rsp)] /\
  resp_Data rsp = NoData /\ no_token (cx_Cookies (fst (snd logout_run))) /\
  (st = StatusOK /\ cx_Cookies (fst (snd logout_run)) <> [] /\
   logged_out users logout_request login_world (snd (snd logout_run)) \/
   400 <= st < 600 /\ same_tables login_world (snd (snd logout_run))).
Proof.
  split; [vm_compute; reflexivity|].
  assert (fst logout_run = Ok tt) as Hrun by (vm_compute; reflexivity).
  exact (proj2 (logout_endpoint users (hs_authService test_handlers) logout_request login_world (Ok tt)
    (fst (snd logout_run)) (snd (snd logout_run)) eq_refl eq_refl (handler_run _ _ Hrun))).
Defined.

(** Two wrong passwords reach the limit of two, and a login with the right
    one has to wait. *)
#[local] Abbreviation wrong_request := (test_request "" "wrong horse battery").
#[local] Abbreviation wrong_run w := (LoginHandler users (new_context wrong_request, w)).
#[local] Abbreviation locked_world := (snd (snd (wrong_run (snd (snd (wrong_run alice_world)))))).
#[local] Abbreviation limiter_run w :=
  (CheckLoginAllowed (hs_authService test_handlers) "alice" "10.0.0.1" w).

Lemma wrong_credentials_counted_witness :
  exists retry w3,
    LoginHandler users (new_context wrong_request, alice_world)
    = (Ok tt, (if 0 <? retry then limited retry (new_context wrong_request)
               else add_write (StatusUnauthorized,
                      mkResponse CodeLoginFailed "username or password incorrect" NoData)
                      (new_context wrong_request),
               w3)).
Proof.
  set (w1 := snd (limiter_run alice_world)).
  set (login := Login (h_userService users) (mkLoginRequest "alice" "wrong horse battery") w1).
  set (record := RecordLoginFailure (hs_authService test_handlers) "alice" "10.0.0.1" (snd login)).
  exists 0, (snd record).
  assert (limiter_run alice_world = (Ok 0, w1)) as Hchk by (apply run_of; vm_compute; reflexivity).
  apply (wrong_credentials_counted users (hs_authService test_handlers) wrong_request
    (mkLoginRequest "alice" "wrong horse battery") 0 alice_world w1 (snd login) 0 (snd record)).
  - reflexivity.
  - reflexivity.
  - exact Hchk.
  - lia.
  - apply run_of. vm_compute. reflexivity.
  - apply run_of. vm_compute. reflexivity.
Defined.

Lemma login_rate_limited_witness :
  exists d seconds,
    fst (limiter_run locked_world) = Ok d /\
    cx_Headers (limited d (new_context login_request)) = [("Retry-After", format_int seconds)] /\
    (seconds - 1) * Second < d <= seconds * Second /\
    LoginHandler users (new_context login_request, locked_world)
    = (Ok tt, (limited d (new_context login_request), snd (limiter_run locked_world))).
Proof.
  assert (fst (limiter_run locked_world) = Ok (897 * Second)) as Hchk by (vm_compute; reflexivity).
  destruct (login_rate_limited users (hs_authService test_handlers) login_request
    (mkLoginRequest "alice" "correct horse battery") (897 * Second) locked_world
    (snd (limiter_run locked_world))) as (seconds & Hrun & _ & Hh & Hsec & _).
  - reflexivity.
  - reflexivity.
  - apply run_of. exact Hchk.
  - reflexivity.
  - split; vm_compute; discriminate.
  - exists (897 * Second), seconds. split; [exact Hchk|]. split; [exact Hh|]. split; [exact Hsec|exact Hrun].
Defined.

#[local] Abbreviation ready_run :=
  (ReadyzHandler (hs_health test_handlers) (new_context login_request, alice_world)).

Lemma readiness_witness :
  dependencies_answer (hs_health test_handlers) alice_world = true /\
  cx_Ready (fst (snd ready_run)) = [dependencies_answer (hs_health test_handlers) alice_world].
Proof.
  split; [vm_compute; reflexivity|].
  assert (fst ready_run = Ok tt) as Hrun by (vm_compute; reflexivity).
  refine (proj1 (proj2 (readiness (hs_health test_handlers) login_request alice_world (Ok tt)
    (fst (snd ready_run)) (snd (snd ready_run)) eq_refl (handler_run _ _ Hrun) _))).
  discriminate.
Defined.
