(* ===== verification/ConfigProperties.v ===== *)
(** The properties of the configuration: what a loaded configuration can be
    relied on for, and that looking for its file ends. *)
From S2P Require Import Prelude GoTime GoStrings GoNet GoPath GoErrors AuthService TokenManager.
From S2P Require Import Config ConfigTheorems Instances.

Section properties.
Context {UT : UnicodeTables} {SYS : System}.

(** C37. A configuration that loads is sound: it passes every check, in
    production it has Redis and secure cookies, the secret of the environment
    wins over the file's, and the login limiter it configures works. Loading
    does not see to it that the token manager starts: it starts when the secret
    has no space around it and the lifetimes fit 64 bits, and what it is then
    is what the configuration says; a secret that is shorter than 32 bytes
    without that space is refused. *)
Theorem loaded_configuration path cfg db :
  Load path = Some (Ok cfg) ->
  sound_config cfg /\
  (os_Getenv "JWT_SECRET" <> "" -> jc_Secret (cfg_JWT cfg) = os_Getenv "JWT_SECRET") /\
  (let l := ac_LoginRateLimit (cfg_Auth cfg) in
   let limit := mkLoginRateLimit (rl_AccountLimit l) (rl_IPLimit l) (rl_Window l) in
   ensureRateLimiter (NewAuthServiceWithState db true limit) = Ok limit) /\
  (let jwt := cfg_JWT cfg in
   TrimSpace (jc_Secret jwt) = jc_Secret jwt ->
   in_int64 (jc_AccessTokenExpireMinutes jwt * Minute) ->
   in_int64 (jc_RefreshTokenExpireHours jwt * Hour) ->
   NewTokenManagerWithTTL (jc_Secret jwt) "go-user-system"
     (mul64 (jc_AccessTokenExpireMinutes jwt) Minute) (mul64 (jc_RefreshTokenExpireHours jwt) Hour)
   = Ok (mkTokenManager (jc_Secret jwt) "go-user-system"
           (jc_AccessTokenExpireMinutes jwt * Minute) (jc_RefreshTokenExpireHours jwt * Hour))) /\
  (let jwt := cfg_JWT cfg in
   len (TrimSpace (jc_Secret jwt)) < 32 -> forall accessTTL refreshTTL,
   NewTokenManagerWithTTL (jc_Secret jwt) "go-user-system" accessTTL refreshTTL = Err ErrJWTSecretTooShort).
Proof.
  intros Hload. apply Load_ok in Hload as [Hsound Hsecret]. split; [done|]. split; [done|].
  destruct (sv_limits _ Hsound) as (H1 & H2 & H3). destruct (sv_jwt _ Hsound) as (_ & H4 & H5 & _ & H6).
  split; [|split].
  - simpl. by rewrite (proj2 (Z.leb_gt _ _) H1), (proj2 (Z.leb_gt _ _) H2), (proj2 (Z.leb_gt _ _) H3).
  - cbv zeta. intros Htrim Ha Hr. unfold NewTokenManagerWithTTL. cbv zeta.
    rewrite Htrim, (proj2 (Z.ltb_ge _ _) H6), !mul64_id by done. simpl.
    by rewrite (proj2 (Z.leb_gt _ _)), (proj2 (Z.leb_gt _ _)) by (unfold Minute, Hour, Minute, Second; lia).
  - cbv zeta. intros Hshort accessTTL refreshTTL. unfold NewTokenManagerWithTTL. cbv zeta.
    by rewrite (proj2 (Z.ltb_lt _ _) Hshort).
Qed.

(** C38. Looking for a file up the directories ends, from every directory it
    starts from; the file it finds is one, in a directory it climbed through,
    and when it finds none there is none in any of them. *)
Theorem file_search_terminates name :
  absolute_cwd ->
  exists found, findFileUpward name = Some found /\
    (forall p, found = Some p -> is_file p = true) /\
    (IsAbs name = false ->
     (forall p, found = Some p ->
        exists dir d, In dir searchStartDirs /\ above dir d /\ p = Join d name) /\
     (found = None -> forall dir d, In dir searchStartDirs -> above dir d ->
                      is_file (Join d name) = false)).
Proof.
  intros Hwd. unfold findFileUpward. destruct (IsAbs name) eqn:Habs.
  - eexists. split; [done|]. split; [|done]. intros p Hp.
    destruct (is_file name) eqn:Hf; [by injection Hp as <-|done].
  - destruct (search_dirs_spec searchStartDirs name (searchStartDirs_absolute Hwd))
      as (r & Hr & Hsome & Hnone).
    exists r. split; [done|]. split; [intros p Hp; by apply Hsome|]. intros _. split; [|done].
    intros p Hp. by apply Hsome.
Qed.
End properties.

(** * Witnesses *)

(** A system with one file, /srv/config.yml, and the program in /srv/app. *)
Definition file_config : Config :=
  mkConfig "" (mkServerConfig 8082)
    (mkMySQLConfig "127.0.0.1" "3306" "app" "users" 20 10 Hour (10 * Minute) (3 * Second))
    (mkRedisConfig true "" "" 0 0 0 0 0)
    (mkJWTConfig 24 15 0 "" "secret of the file")
    (mkAuthConfig (mkRegistrationConfig None) (mkLoginRateLimitConfig 0 0 0) (mkRefreshCookieConfig true))
    (mkHttpServer (mkHttpServerConfig 0 0 0 0 0 (15 * Second)) ["10.0.0.0/8"; "::1"]).

#[local] Instance test_system : System := {|
  os_Stat := fun p => if String.eqb p "/srv/config.yml" then Some false
                      else if String.eqb p "/srv/app" then Some true else None;
  os_ReadFile := fun p => if String.eqb p "/srv/config.yml" then inr "yaml"
                          else inl (Sentinel os_ErrNotExist);
  os_Getwd := Some "/srv/app";
  runtime_Caller := None;
  os_Executable := Some "/srv/app/server";
  os_Getenv := fun v => if String.eqb v "JWT_SECRET" then "0123456789abcdef0123456789abcdef"
                        else if String.eqb v "APP_ENV" then " Production " else "";
  yaml_Unmarshal := fun _ => inr file_config;
  godotenv_Load := fun _ => None;
|}.

Definition loaded : Config :=
  match Load "config.yml" with Some (Ok cfg) => cfg | _ => file_config end.

Lemma loaded_configuration_witness :
  Load "config.yml" = Some (Ok loaded) /\ Environment loaded = "production" /\
  sound_config loaded /\ jc_Secret (cfg_JWT loaded) = "0123456789abcdef0123456789abcdef".
Proof.
  assert (Load "config.yml" = Some (Ok loaded)) as Hload by (vm_compute; reflexivity).
  split; [exact Hload|]. split; [vm_compute; reflexivity|].
  destruct (loaded_configuration "config.yml" loaded true Hload) as (Hs & Hsec & _).
  split; [exact Hs|]. apply Hsec. vm_compute. discriminate.
Defined.

Lemma file_search_terminates_witness :
  findFileUpward "config.yml" = Some (Some "/srv/config.yml") /\
  exists found, findFileUpward "other.yml" = Some found /\
    (forall p, found = Some p -> is_file p = true).
Proof.
  split; [vm_compute; reflexivity|].
  destruct (file_search_terminates "other.yml") as (found & H1 & H2 & _).
  - intros wd [= <-]. reflexivity.
  - exists found. split; [exact H1|exact H2].
Defined.
