(* ===== verification/SystemProperties.v ===== *)
(** The properties of the running system, over every history: what the HTTP
    layer does is a history; the token table keeps its shape; a refresh token is
    used at most once; revoked tokens, old sessions and families closed by a replay never come back. *)
From S2P Require Import Prelude GoTime GoStrings Sha256 GoErrors Model Gorm AuthState MemDB World.
From S2P Require Import Dao RefreshRepo RbacRepo TokenManager AuthService UserService RbacService.
From S2P Require Import Web UserHandler RbacHandler Middleware Instances.
From S2P Require Import AuthStateTheorems TokenTheorems AuthTheorems UserTheorems RbacTheorems.
From S2P Require Import System SystemTheorems.

Section properties.
Context {STO : Storage} {G : Gorm} {GL : GormLaws} {SS : Store} {SL : StoreLaws}.
Context {E : Env} {UT : UnicodeTables} {J : JWT} {JL : JWTLaws}.
Context {B : Bcrypt} {BL : BcryptLaws} {JB : JSONBinding}.
Context {US : UserStore} {UL : UserStoreLaws} {AUS : AuthUserStore} {AUL : AuthUserStoreLaws}.
Context {RR : RefreshTokenRepository} {RL : RefreshTokenRepositoryLaws}.
Context {RB : RBACRepository} {RBL : RBACRepositoryLaws}.

(** * Helpers *)

(** No token with the identifier is active: rotating it fails. *)
Lemma inactive_not_rotated w s uid ver j h next r w' :
  (forall k, In k (tbl TRefreshTokens w) -> coll_eqb (t_JTI k) j = true -> is_active k = false) ->
  RotateRefreshToken s uid ver j h next w = (r, w') -> r <> Ok tt.
Proof.
  intros Hin Hrun ->.
  apply (wp_run _ _ _ _ _ (RotateRefreshToken_spec _ _ _ _ _ _ _)) in Hrun as [_ (k & _ & _ & Heff)].
  by eapply rotation_needs_active.
Qed.

(** A session of another version: rotating a token for it fails. *)
Lemma no_session_not_rotated w s uid ver j h next r w' :
  ~ session_user w uid ver -> RotateRefreshToken s uid ver j h next w = (r, w') -> r <> Ok tt.
Proof.
  intros Hno Hrun ->.
  by apply (wp_run _ _ _ _ _ (RotateRefreshToken_spec _ _ _ _ _ _ _)) in Hrun as [_ (k & _ & Hu & _)].
Qed.

Lemma no_session_not_validated w s c r w' :
  has_store s -> keys_ok TUsers (tbl TUsers w) -> ~ session_user w (c_UserID c) (c_AuthVersion c) ->
  ValidateAccessToken s (Some c) w = (r, w') -> r <> Ok tt.
Proof.
  intros Hs Hk Hno Hrun ->.
  by apply (wp_run _ _ _ _ _ (ValidateAccessToken_spec _ _ _ Hs Hk)) in Hrun
    as [_ (c' & [= <-] & _ & Hu & _)].
Qed.

(** The replay alarm leaves no token of the family active. *)
Lemma replay_ends_family s uid ver j h next w w1 :
  sound_tables w -> RotateRefreshToken s uid ver j h next w = (Err ErrRefreshTokenReplay, w1) ->
  exists old, presents w uid j h old /\
    forall k, In k (tbl TRefreshTokens w1) -> coll_eqb (t_FamilyID k) (t_FamilyID old) = true ->
      is_active k = false.
Proof.
  intros Hs Hrun. destruct (rotate_progress _ _ _ _ _ _ _ _ _ Hs Hrun) as (Hs1 & _ & Hkept & _).
  apply (wp_run _ _ _ _ _ (RotateRefreshToken_spec _ _ _ _ _ _ _)) in Hrun as [_ [_ Heff]].
  destruct (replay_family_inactive _ _ _ _ _ Heff) as (old & Hp & _ & Hclosed).
  exists old. split; [done|]. pose proof Hp as (Hin & _ & Hu & _).
  destruct (Hkept old Hin) as (old1 & Hin1 & (_ & Hu1 & _ & Hf1 & _) & _).
  intros k Hk Hf. apply Hclosed; [done| |done].
  rewrite <- Hu, Hu1. apply (so_owner _ (proj2 Hs1)); try done. unfold same_family. by rewrite <- Hf1.
Qed.

(** * Properties *)

(** What any request to any route does to the world is a history of
    service calls, however the request ends. *)
Theorem requests_are_histories hs registration route rq w r c' w' :
  quiet_health (hs_health hs) -> In route (routes hs registration) ->
  serve route (new_context rq, w) = (r, (c', w')) -> history w w'.
Proof. apply serve_steps. Qed.

(** C1. Invariant. Whatever service calls run, in any number and order, on a
    database that started without accounts and tokens: the keys of accounts
    and tokens are unique; every refresh token is of a named family, whose
    name is the identifier of a stored token; a family belongs to one user;
    and at most one token of a family is active. *)
Theorem reachable_tables_sound w w' :
  initial w -> history w w' ->
  keys_ok TUsers (tbl TUsers w') /\ keys_ok TRefreshTokens (tbl TRefreshTokens w') /\
  forall k, In k (tbl TRefreshTokens w') ->
    t_FamilyID k <> "" /\
    (exists root, In root (tbl TRefreshTokens w') /\ coll_eqb (t_JTI root) (t_FamilyID k) = true) /\
    forall k', In k' (tbl TRefreshTokens w') -> coll_eqb (t_FamilyID k) (t_FamilyID k') = true ->
      t_UserID k = t_UserID k' /\ (is_active k = true -> is_active k' = true -> k = k').
Proof.
  intros Hi Hh. destruct (history_progress w w' Hh (initial_sound w Hi)) as [[Hu Hs] _].
  destruct Hs as [Hk Hn Hr Ho Hone]. do 2 (split; [done|]). intros k Hin.
  split; [auto|]. split; [auto|]. intros k' Hin' Hf. split; [by apply Ho|]. by apply Hone.
Qed.

(** C2. A refresh token is used at most once, and theft is contained: after a
    rotation, and whatever service calls run after it, the old token is never
    accepted again, under whatever spelling of its identifier, account or
    version it is presented; and when presenting it is answered with the replay
    error, the token that replaced it and all that came after it in its family
    are revoked. *)
Theorem refresh_token_single_use s uid ver j h k w w1 w2 s' uid' ver' j' h' next' r w3 :
  sound_tables w ->
  RotateRefreshToken s uid ver j h (Some k) w = (Ok tt, w1) -> history w1 w2 ->
  coll_eqb j j' = true ->
  RotateRefreshToken s' uid' ver' j' h' next' w2 = (r, w3) ->
  r <> Ok tt /\
  exists new, In new (tbl TRefreshTokens w1) /\ t_JTI new = t_JTI k /\
    (r = Err ErrRefreshTokenReplay ->
     forall x, In x (tbl TRefreshTokens w3) ->
       coll_eqb (t_JTI x) (t_JTI k) = true \/ coll_eqb (t_FamilyID x) (t_FamilyID new) = true ->
       is_active x = false).
Proof.
  intros Hs H1 Hh Hj H2. destruct (rotate_progress _ _ _ _ _ _ _ _ _ Hs H1) as (Hs1 & _).
  destruct (history_progress w1 w2 Hh Hs1) as (Hs2 & _ & Hkept & _).
  destruct (rotate_progress _ _ _ _ _ _ _ _ _ Hs2 H2) as (Hs3 & _ & Hkept3 & _).
  apply (wp_run _ _ _ _ _ (RotateRefreshToken_spec _ _ _ _ _ _ _)) in H1 as [_ (k' & [= <-] & _ & Heff)].
  destruct (rotation_new_token _ _ _ _ _ _ Heff)
    as (old & new & Hp & Hnew & Hnj & _ & _ & Hnf & old1 & Ho1 & Hoj & Hof).
  assert (is_active old1 = false) as Hdead by (by apply (rotation_old_inactive _ _ _ _ _ _ Heff)).
  destruct (revoked_later w1 w2 old1 j' Hs2 Hkept Ho1 Hdead (coll_trans _ _ _ Hoj Hj)) as [Hin2 Hall].
  split; [by eapply inactive_not_rotated|]. exists new. split; [done|]. split; [done|]. intros ->.
  destruct (replay_ends_family _ _ _ _ _ _ _ _ Hs2 H2) as (seen & (Hseen & Hsj & _) & Hended).
  assert (seen = old1) as ->.
  { apply (token_jti_unique w2 j' _ _ (so_keys _ (proj2 Hs2))); try done. by eapply coll_trans. }
  assert (t_FamilyID new = t_FamilyID old1) as Hfam.
  { rewrite Hnf, Hof. unfold family_of. destruct (String.eqb_spec (t_FamilyID old) "") as [He|]; [|done].
    by destruct (so_named _ (proj2 Hs) old (proj1 Hp)). }
  intros x Hx [Hxj|Hxf]; [|by apply Hended; [|rewrite <- Hfam]].
  destruct (Hkept new Hnew) as (new2 & Hn2 & (_ & _ & Hj2 & Hf2 & _) & _).
  destruct (Hkept3 new2 Hn2) as (new3 & Hn3 & (_ & _ & Hj3 & Hf3 & _) & _).
  assert (x = new3) as ->.
  { apply (token_jti_unique w3 (t_JTI k) _ _ (so_keys _ (proj2 Hs3))); try done.
    rewrite <- Hnj, Hj2, Hj3. apply coll_refl. }
  apply Hended; [done|]. rewrite <- Hf3, <- Hf2, Hfam. apply coll_refl.
Qed.

(** A refresh token that was revoked, by a rotation, a logout, a replay or
    a password change, is dead: whatever happens afterwards its row stays as
    it is, and no rotation of it ever succeeds, under whatever spelling of
    its identifier, account or version it is presented. *)
Theorem revoked_refresh_token_stays_dead w w1 k j s uid ver h next r w2 :
  sound_tables w -> In k (tbl TRefreshTokens w) -> is_active k = false ->
  coll_eqb (t_JTI k) j = true -> history w w1 ->
  RotateRefreshToken s uid ver j h next w1 = (r, w2) ->
  In k (tbl TRefreshTokens w1) /\ In k (tbl TRefreshTokens w2) /\ r <> Ok tt.
Proof.
  intros Hs Hk Ha Hj Hh Hrun. destruct (history_progress w w1 Hh Hs) as (Hs1 & _ & Hkept & _).
  destruct (revoked_later w w1 k j Hs1 Hkept Hk Ha Hj) as [Hk1 Hdead].
  destruct (rotate_progress _ _ _ _ _ _ _ _ _ Hs1 Hrun) as (Hs2 & _ & Hkept2 & _).
  destruct (revoked_later w1 w2 k j Hs2 Hkept2 Hk1 Ha Hj) as [Hk2 _].
  split; [done|]. split; [done|]. by eapply inactive_not_rotated.
Qed.

(** C3. A password change is final: whatever runs after it, a login that was
    under way included, no access token issued under the version before it is
    honoured again, and no refresh token issued under that version is ever
    rotated again. *)
Theorem old_sessions_never_return s uid req w w1 w2 ver auth c r w3 ver' j h next r' w4 :
  sound_tables w -> session_user w uid ver ->
  UpdateUserPassword s uid req w = (Ok tt, w1) -> history w1 w2 ->
  has_store auth -> c_UserID c = uid -> c_AuthVersion c <= ver -> ver' <= ver ->
  ValidateAccessToken auth (Some c) w2 = (r, w3) ->
  RotateRefreshToken auth uid ver' j h next w2 = (r', w4) ->
  r <> Ok tt /\ r' <> Ok tt.
Proof.
  intros Hs Hu Hrun Hh Hst Hc Hver Hver' Hval Hrot. split.
  - eapply no_session_not_validated; [exact Hst| | |exact Hval]; [|rewrite Hc; by eapply password_passes].
    apply (history_progress w w2); [|done]. eapply rtc_l; [by eapply step_password|done].
  - eapply no_session_not_rotated; [|exact Hrot]. by eapply password_passes.
Qed.

(** C5. A replay closes the family for good: once presenting a rotated token
    has raised the alarm, no token of its family is active again, and none is
    ever rotated, whatever runs in between. *)
Theorem replay_closes_family s uid ver j h next w w1 w2 :
  sound_tables w -> RotateRefreshToken s uid ver j h next w = (Err ErrRefreshTokenReplay, w1) ->
  history w1 w2 ->
  exists old, presents w uid j h old /\
    forall k, In k (tbl TRefreshTokens w2) -> coll_eqb (t_FamilyID k) (t_FamilyID old) = true ->
      is_active k = false /\
      forall s' uid' ver' h' next' r w3,
        RotateRefreshToken s' uid' ver' (t_JTI k) h' next' w2 = (r, w3) -> r <> Ok tt.
Proof.
  intros Hs Hrun Hh. destruct (rotate_progress _ _ _ _ _ _ _ _ _ Hs Hrun) as (Hs1 & _ & Hkept & _).
  destruct (replay_ends_family _ _ _ _ _ _ _ _ Hs Hrun) as (old & Hp & Hall).
  exists old. split; [done|]. destruct (Hkept old (proj1 Hp)) as (old1 & Hin1 & (_ & _ & _ & Hf1 & _) & _).
  destruct (history_progress w1 w2 Hh Hs1) as (Hs2 & _ & Hg).
  assert (forall k, In k (tbl TRefreshTokens w2) -> coll_eqb (t_FamilyID k) (t_FamilyID old) = true ->
            is_active k = false) as Hall2.
  { apply (family_closed_later _ _ _ Hg); [|done]. exists old1. split; [done|].
    rewrite Hf1. apply coll_refl. }
  intros k Hk Hf. split; [auto|]. intros s' uid' ver' h' next' r w3 Hrot.
  eapply inactive_not_rotated; [|exact Hrot]. intros k' Hk' Hj.
  rewrite (token_jti_unique w2 (t_JTI k) k' k (so_keys _ (proj2 Hs2)) Hk' Hk Hj (coll_refl _)). auto.
Qed.
End properties.

(** * Witnesses *)

(** An empty system: alice registers, gets a refresh token, and rotates it. *)
Definition new_world : World :=
  world (with_roles [role_user; role_admin] [permission_roles] [] [mkRolePermission 2 1 launch]
           (db_with [] [])).

Definition issued_token (jti : string) : IssuedToken :=
  mkIssuedToken "token" jti jti (launch + Hour) 3600.

#[local] Abbreviation register_alice :=
  (Register (NewUserService true) (mkRegisterRequest "alice" "correct horse battery")).
#[local] Abbreviation store_alice :=
  (StoreRefreshToken auth_service (Some (refreshTokenModel 11 (issued_token "jti-1") "hash-1"))).
#[local] Abbreviation rotate_alice :=
  (RotateRefreshToken auth_service 11 1 "jti-1" "hash-1" (Some (next_token "jti-2" "hash-2"))).
#[local] Abbreviation registered_world := (snd (register_alice new_world)).
#[local] Abbreviation stored_world := (snd (store_alice registered_world)).
#[local] Abbreviation rotated_world := (snd (rotate_alice stored_world)).
#[local] Abbreviation rotate_again :=
  (RotateRefreshToken auth_service 11 1 "jti-1" "hash-1" (Some (next_token "jti-3" "hash-3"))).
#[local] Abbreviation replayed_world := (snd (rotate_again rotated_world)).
#[local] Abbreviation store_other :=
  (StoreRefreshToken auth_service (Some (refreshTokenModel 11 (issued_token "jti-9") "hash-9"))).

Lemma new_world_initial : initial new_world.
Proof. by split. Qed.

Lemma registered_history : history new_world registered_world.
Proof. apply rtc_once. eapply step_register, surjective_pairing. Qed.

Lemma stored_history : history new_world stored_world.
Proof.
  eapply rtc_r; [apply registered_history|].
  eapply (step_store auth_service 11 (issued_token "jti-1") "hash-1"), surjective_pairing.
Qed.

Lemma rotated_history : history new_world rotated_world.
Proof. eapply rtc_r; [apply stored_history|]. eapply step_rotate, surjective_pairing. Qed.

Lemma system_sound w : history new_world w -> sound_tables w.
Proof. intros Hh. apply (history_progress _ _ Hh), initial_sound, new_world_initial. Qed.

#[local] Abbreviation login_route := (mkRoute "POST" "/api/v1/auth/login" [LoginHandler (hs_user test_handlers)]).
#[local] Abbreviation login_request := (test_request "" "correct horse battery").

Lemma requests_are_histories_witness :
  length (tbl TRefreshTokens (snd (snd (serve login_route (new_context login_request, registered_world)))))
  = 1%nat /\
  history registered_world (snd (snd (serve login_route (new_context login_request, registered_world)))).
Proof.
  split; [vm_compute; reflexivity|].
  destruct (serve login_route (new_context login_request, registered_world)) as [r [c' w']] eqn:Hrun.
  refine (requests_are_histories test_handlers true login_route login_request registered_world r c' w'
            _ _ Hrun).
  - split; [split; apply quiet_ret|]. intros m [[= <-]|[]]. apply quiet_on_store.
  - unfold routes, registerAPIRoutes, registerAuthRoutes. rewrite !in_app_iff. simpl. tauto.
Defined.

Lemma reachable_tables_sound_witness :
  map is_active (tbl TRefreshTokens rotated_world) = [false; true] /\
  keys_ok TRefreshTokens (tbl TRefreshTokens rotated_world).
Proof.
  split; [vm_compute; reflexivity|].
  exact (proj1 (proj2 (reachable_tables_sound new_world rotated_world new_world_initial rotated_history))).
Defined.

(** The rotated token, after another login. *)
#[local] Abbreviation spent_token := (default alice_token (head (tbl TRefreshTokens rotated_world))).
#[local] Abbreviation other_login_world := (snd (store_other rotated_world)).

Lemma other_login_history : history rotated_world other_login_world.
Proof.
  apply rtc_once. eapply (step_store auth_service 11 (issued_token "jti-9") "hash-9"), surjective_pairing.
Qed.

Lemma revoked_refresh_token_stays_dead_witness :
  fst (rotate_alice stored_world) = Ok tt /\ fst (store_other rotated_world) = Ok tt /\
  fst (rotate_again other_login_world) <> Ok tt.
Proof.
  split; [vm_compute; reflexivity|]. split; [vm_compute; reflexivity|].
  refine (proj2 (proj2 (revoked_refresh_token_stays_dead rotated_world other_login_world spent_token
    "jti-1" auth_service 11 1 "hash-1" (Some (next_token "jti-3" "hash-3"))
    (fst (rotate_again other_login_world)) (snd (rotate_again other_login_world))
    (system_sound _ rotated_history) _ _ _ other_login_history (surjective_pairing _)))).
  - vm_compute. by left.
  - vm_compute. reflexivity.
  - vm_compute. reflexivity.
Defined.

(** The token is rotated, alice logs in elsewhere, and the token is presented
    again in capitals. *)
#[local] Abbreviation stolen_again :=
  (RotateRefreshToken auth_service 11 1 "JTI-1" "hash-1" (Some (next_token "jti-3" "hash-3"))).

Lemma refresh_token_single_use_witness :
  fst (stolen_again other_login_world) = Err ErrRefreshTokenReplay /\
  map is_active (tbl TRefreshTokens (snd (stolen_again other_login_world))) = [false; false; true] /\
  exists new, In new (tbl TRefreshTokens rotated_world) /\ t_JTI new = "jti-2" /\
    forall x, In x (tbl TRefreshTokens (snd (stolen_again other_login_world))) ->
      coll_eqb (t_JTI x) "jti-2" = true \/ coll_eqb (t_FamilyID x) (t_FamilyID new) = true ->
      is_active x = false.
Proof.
  assert (fst (stolen_again other_login_world) = Err ErrRefreshTokenReplay) as Hfst by (vm_compute; reflexivity).
  split; [exact Hfst|]. split; [vm_compute; reflexivity|].
  destruct (refresh_token_single_use auth_service 11 1 "jti-1" "hash-1" (next_token "jti-2" "hash-2")
    stored_world rotated_world other_login_world auth_service 11 1 "JTI-1" "hash-1"
    (Some (next_token "jti-3" "hash-3")) (Err ErrRefreshTokenReplay) (snd (stolen_again other_login_world))
    (system_sound _ stored_history)) as (_ & new & Hnew & Hj & Hreplay).
  - apply run_of. vm_compute. reflexivity.
  - apply other_login_history.
  - vm_compute. reflexivity.
  - apply run_of. exact Hfst.
  - exists new. split; [exact Hnew|]. split; [exact Hj|]. exact (Hreplay eq_refl).
Defined.

#[local] Abbreviation change_password :=
  (UpdateUserPassword (NewUserService true) 11
     (mkUpdatePasswordRequest "correct horse battery" "another horse battery")).
#[local] Abbreviation changed_world := (snd (change_password stored_world)).
#[local] Abbreviation late_world := (snd (store_other changed_world)).
Definition alice_session : UserClaims :=
  mkUserClaims "alice" 11 TokenTypeAccess 1 "at-1" "issuer" (Some launch) (Some (launch + Hour)) "at-1".
#[local] Abbreviation validate_session := (ValidateAccessToken auth_service (Some alice_session)).
#[local] Abbreviation rotate_late :=
  (RotateRefreshToken auth_service 11 1 "jti-9" "hash-9" (Some (next_token "jti-3" "hash-3"))).

(** A login that read the account before the change stores its token after it. *)
Lemma old_sessions_never_return_witness :
  fst (validate_session stored_world) = Ok tt /\ fst (store_other changed_world) = Ok tt /\
  fst (validate_session late_world) <> Ok tt /\ fst (rotate_late late_world) <> Ok tt.
Proof.
  split; [vm_compute; reflexivity|]. split; [vm_compute; reflexivity|].
  refine (old_sessions_never_return (NewUserService true) 11
    (mkUpdatePasswordRequest "correct horse battery" "another horse battery")
    stored_world changed_world late_world 1 auth_service alice_session
    (fst (validate_session late_world)) (snd (validate_session late_world)) 1 "jti-9" "hash-9"
    (Some (next_token "jti-3" "hash-3")) (fst (rotate_late late_world)) (snd (rotate_late late_world))
    (system_sound _ stored_history) _ _ _ eq_refl eq_refl _ _
    (surjective_pairing _) (surjective_pairing _)).
  - eexists. split; [vm_compute; left; reflexivity|]. repeat split.
  - apply run_of. vm_compute. reflexivity.
  - apply rtc_once.
    eapply (step_store auth_service 11 (issued_token "jti-9") "hash-9"), surjective_pairing.
  - simpl. lia.
  - lia.
Defined.

Lemma replay_closes_family_witness :
  fst (rotate_again rotated_world) = Err ErrRefreshTokenReplay /\
  map is_active (tbl TRefreshTokens (snd (store_other replayed_world))) = [false; false; true] /\
  exists old, presents rotated_world 11 "jti-1" "hash-1" old.
Proof.
  assert (fst (rotate_again rotated_world) = Err ErrRefreshTokenReplay) as Hrun by (vm_compute; reflexivity).
  split; [exact Hrun|]. split; [vm_compute; reflexivity|].
  destruct (replay_closes_family auth_service 11 1 "jti-1" "hash-1"
    (Some (next_token "jti-3" "hash-3")) rotated_world replayed_world (snd (store_other replayed_world))
    (system_sound _ rotated_history)
    (run_of rotate_again rotated_world (Err ErrRefreshTokenReplay) Hrun))
    as (old & Hp & _).
  - apply rtc_once.
    eapply (step_store auth_service 11 (issued_token "jti-9") "hash-9"), surjective_pairing.
  - exists old. exact Hp.
Defined.
