(* ===== verification/RedisProperties.v ===== *)
(** The properties of the Redis state store: the waits it asks for, its
    lockouts, and that no counter outlives its window. *)
From S2P Require Import Prelude GoTime GoStrings Sha256 GoErrors AuthState RedisStore.
From S2P Require Import AuthStateTheorems RedisTheorems RedisMem.

Section properties.
Context {RC : RedisClient} {RV : RedisView} {RL : RedisLaws}.

(** No failure is counted. *)
Definition no_failures (s : RS) (t : Z) : Prop := forall k, seen s t (failure_key k) = None.

Lemma no_failures_sound s t M : no_failures s t -> sound_counters s t M.
Proof. intros Hn k. by rewrite (Hn k). Qed.

Lemma expired_counters s t M u :
  sound_counters s t M -> t <= u -> t + M <= u -> no_failures s u.
Proof.
  intros Hs Htu Hu k. rewrite (seen_later s t u _ Htu). pose proof (Hs k) as Hk.
  destruct (seen s t (failure_key k)) as [[v x]|]; [|done].
  destruct Hk as (n & e & -> & _ & _ & He). simpl. by rewrite (proj2 (Z.ltb_ge _ _)) by lia.
Qed.

Lemma no_count s u k : seen s u k = None -> counter_of (seen s u k) = Ok 0.
Proof. by intros ->. Qed.

Lemma longest_second W : Z.max (longest W) Second = longest W.
Proof. unfold longest. assert (0 < Millisecond) by done. lia. Qed.

(** C22. No lockout outlasts the window. Over every run of store operations
    with windows of at most [W], whatever commands or connections fail in
    it, a check afterwards asks for a wait of at most the window, or a second
    when that is longer, and a millisecond more; it waits exactly when one of the two counters
    has reached its limit; and once the window has passed nobody waits. *)
Theorem redis_waits_bounded W ops s t a i al il win u d s' :
  no_failures s t -> ordered t ops -> Forall (window_within W) ops ->
  time_after_ops t ops <= u -> 0 < al -> 0 < il ->
  RedisCheckLoginLimit u a i al il win (redis_run ops s) = (Ok d, s') ->
  0 <= d <= longest W /\
  (exists na ni, counter_of (seen (redis_run ops s) u (accountFailureKey a)) = Ok na /\
                 counter_of (seen (redis_run ops s) u (ipFailureKey i)) = Ok ni /\
                 (0 < d <-> al <= na \/ il <= ni)) /\
  (time_after_ops t ops + longest W <= u -> d = 0).
Proof.
  intros Hn Hord Hwin Hu Hal Hil Hrun.
  destruct (run_counters W ops t s Hord Hwin (no_failures_sound _ _ _ Hn)) as [_ Hs].
  pose proof (sound_counters_later _ _ u _ Hu Hs) as Hsu.
  destruct (sound_check _ _ _ _ _ _ _ _ _ _ Hal Hil Hsu Hrun) as (na & ni & Ha & Hi & Hiff & Hd & _).
  split; [by rewrite longest_second in Hd|].
  split; [by exists na, ni|]. intros Hlate.
  pose proof (expired_counters _ _ _ u Hs Hu Hlate) as Hnone.
  rewrite (no_count _ _ (accountFailureKey a) (Hnone (AccountKey a))) in Ha. rewrite (no_count _ _ (ipFailureKey i) (Hnone (IPKey i))) in Hi.
  injection Ha as Ha. injection Hi as Hi. lia.
Qed.

Lemma positiveTTL_pos d : 0 < positiveTTL d.
Proof. unfold positiveTTL. by destruct (Z.ltb_spec 0 d). Qed.

(** Lockout in Redis. When an account without a counter fails at [t0] and
    then [n] more times within the window, each failure answered by the
    server, its counter stands at [n + 1] until the window, which begins at
    [t0], is over, and a check answered in that time asks for a wait as soon
    as the limit is reached. After the window the counter is gone. *)
Theorem redis_account_lockout a al il win t0 ip0 rest s s' t :
  0 < win -> 0 < al -> 0 < il ->
  seen s t0 (accountFailureKey a) = None ->
  redis_failures a al il win ((t0, ip0) :: rest) s s' ->
  times_within t0 (t0 + win - Second - Millisecond) rest ->
  (forall f, In f ((t0, ip0) :: rest) -> fst f <= t) ->
  (t < t0 + win - Second - Millisecond ->
   counter_of (seen s' t (accountFailureKey a)) = Ok (Z.of_nat (length rest) + 1)) /\
  (t0 + longest win <= t -> seen s' t (accountFailureKey a) = None) /\
  forall ip d s'', t < t0 + win - Second - Millisecond ->
    RedisCheckLoginLimit t a ip al il win s' = (Ok d, s'') ->
    al <= Z.of_nat (length rest) + 1 -> 0 < d.
Proof.
  intros Hw Hal Hil Hnone (d0 & s1 & Hrun & Hf) Hrest Hlast.
  apply (wp_run _ _ _ _ _ (RedisRecordLoginFailure_spec t0 a ip0 al il win s Hw)) in Hrun
    as [_ (oa & na & oi & ni & da & di & Hb & _ & Hsee & _)].
  rewrite Hnone in Hb. inversion Hb as [e He| |]; subst. destruct He as [He0 [He1 He2]].
  assert (t0 <= t) as Ht0 by (apply (Hlast (t0, ip0)); by left).
  destruct (redis_failures_running a al il win rest s1 s' 1 e t0 (t0 + win - Second - Millisecond)
              Hw Hf Hrest He1 ltac:(done) ltac:(intros u Hu; by apply Hsee) t Ht0
              ltac:(intros f Hin; apply Hlast; by right)) as [Hin Hfin].
  replace (1 + Z.of_nat (length rest)) with (Z.of_nat (length rest) + 1) in * by lia.
  assert (t < t0 + win - Second - Millisecond ->
          counter_of (seen s' t (accountFailureKey a)) = Ok (Z.of_nat (length rest) + 1)) as Hcount.
  { intros Ht. rewrite Hfin. simpl. rewrite (proj2 (Z.ltb_lt _ _)) by lia.
    by apply counterValue_number. }
  split; [done|]. split.
  { intros Ht. rewrite Hfin. simpl. rewrite (proj2 (Z.ltb_ge _ _)); [done|].
    unfold longest in Ht. lia. }
  intros ip d s'' Ht Hchk Hle. specialize (Hcount Ht).
  apply (wp_run _ _ _ _ _ (RedisCheckLoginLimit_spec t a ip al il win s')) in Hchk as [_ [Hr|[x Hx]]]; [|done].
  unfold check_answer in Hr. rewrite Hcount in Hr.
  destruct (counter_of (seen s' t (ipFailureKey ip))); [|by destruct Hr..].
  destruct Hr as (da' & di' & _ & _ & [= ->]). rewrite (proj2 (Z.leb_le _ _) Hle).
  pose proof (positiveTTL_pos da'). unfold maxDuration.
  match goal with |- context [if ?x <? ?y then _ else _] => destruct (Z.ltb_spec x y) end; lia.
Qed.

(** C18. The Redis store keeps what the services are promised of a store: a
    revocation that was stored holds until its time to live is over, less two
    milliseconds; a revocation is read as it stands; counting failures and
    resetting them never touch a revocation; nothing panics. *)
Theorem redis_store_meets_interface :
  exists L : @StoreLaws RedisStore,
    @granularity _ L = 2 * Millisecond /\
    forall s t j, @live _ L s t j = true <-> exists v x, seen s t (accessRevocationKey j) = Some (v, x).
Proof.
  exists RedisStore_laws. split; [done|]. intros s t j. change (@live _ RedisStore_laws s t j) with (redis_live s t j).
  unfold redis_live. destruct (seen s t (accessRevocationKey j)) as [[v x]|].
  - split; [by eexists _, _|done].
  - split; [done|]. by intros (v & x & ?).
Qed.
End properties.

(** * Witnesses *)

(** A run with its outcome. *)
Lemma ran {E S A} (m : ST E S A) s r : fst (m s) = r -> m s = (r, snd (m s)).
Proof. intros <-. apply surjective_pairing. Qed.

Definition empty_redis : RS := mkRedisMem ∅ [false; false; true].

(** Two failures that count, one lost to the connection, and a revocation. *)
Definition redis_ops : list store_op :=
  [OpFail 10 "alice" "1.1.1.1" 2 5 Minute; OpFail 20 "alice" "1.1.1.2" 2 5 Minute;
   OpFail 30 "alice" "1.1.1.3" 2 5 Minute; OpRevoke 40 "jti" Hour].

#[local] Abbreviation redis_after := (redis_run redis_ops empty_redis).

Lemma redis_waits_bounded_witness :
  fst (RedisCheckLoginLimit 50 "alice" "1.1.1.9" 2 5 Minute redis_after) = Ok (Minute - 40) /\
  0 <= Minute - 40 <= longest Minute.
Proof.
  assert (fst (RedisCheckLoginLimit 50 "alice" "1.1.1.9" 2 5 Minute redis_after) = Ok (Minute - 40))
    as Hrun by (vm_compute; reflexivity).
  split; [exact Hrun|].
  refine (proj1 (redis_waits_bounded Minute redis_ops empty_redis 10 "alice" "1.1.1.9" 2 5 Minute 50
    (Minute - 40) (snd (RedisCheckLoginLimit 50 "alice" "1.1.1.9" 2 5 Minute redis_after)) _ _ _ _ _ _ _)).
  - intros k. reflexivity.
  - simpl. lia.
  - repeat constructor; vm_compute; congruence.
  - vm_compute. discriminate.
  - lia.
  - lia.
  - rewrite <- Hrun. apply surjective_pairing.
Defined.

#[local] Abbreviation fail_at now ip := (RedisRecordLoginFailure now "alice" ip 2 5 Minute).
#[local] Abbreviation failed_twice :=
  (snd (fail_at (10 + Second) "1.1.1.2" (snd (fail_at 10 "1.1.1.1" empty_redis)))).

Lemma redis_account_lockout_witness :
  counter_of (seen failed_twice (2 * Second) (accountFailureKey "alice")) = Ok 2 /\
  seen failed_twice (10 + longest Minute) (accountFailureKey "alice") = None.
Proof.
  assert (redis_failures "alice" 2 5 Minute [(10, "1.1.1.1"); (10 + Second, "1.1.1.2")] empty_redis
            failed_twice) as Hf.
  { do 2 (eexists _, _; split; [apply ran; vm_compute; reflexivity|]). reflexivity. }
  split.
  - refine (proj1 (redis_account_lockout "alice" 2 5 Minute 10 "1.1.1.1" [(10 + Second, "1.1.1.2")]
      empty_redis failed_twice (2 * Second) eq_refl eq_refl eq_refl eq_refl Hf _ _) eq_refl).
    + vm_compute. repeat split; discriminate.
    + intros f [<-|[<-|[]]]; vm_compute; discriminate.
  - refine (proj1 (proj2 (redis_account_lockout "alice" 2 5 Minute 10 "1.1.1.1" [(10 + Second, "1.1.1.2")]
      empty_redis failed_twice (10 + longest Minute) eq_refl eq_refl eq_refl eq_refl Hf _ _)) _).
    + vm_compute. repeat split; discriminate.
    + intros f [<-|[<-|[]]]; vm_compute; discriminate.
    + lia.
Defined.

Lemma redis_store_meets_interface_witness :
  exists L : @StoreLaws RedisStore,
    @granularity _ L = 2 * Millisecond /\
    forall s t j, @live _ L s t j = true <->
                  exists v x, seen (s : RS) t (accessRevocationKey j) = Some (v, x).
Proof. exact (@redis_store_meets_interface mem_client mem_view mem_laws). Defined.
