(* ===== verification/ServerProperties.v ===== *)
(** The properties of the server in front of the routes: what a client can be
    answered, what is counted and logged of it, and the gauge of the requests
    in flight. *)
From S2P Require Import Prelude GoTime GoStrings GoNet Sha256 GoErrors Model Gorm AuthState MemDB World.
From S2P Require Import Dao RefreshRepo RbacRepo TokenManager AuthService UserService RbacService.
From S2P Require Import Web Metrics UserHandler RbacHandler Middleware Server Instances.
From S2P Require Import AuthStateTheorems HttpTheorems ServerTheorems.

Section properties.
Context {STO : Storage} {G : Gorm} {GL : GormLaws} {SS : Store} {E : Env} {UT : UnicodeTables}.
Context {J : JWT} {B : Bcrypt} {JB : JSONBinding}.
Context {US : UserStore} {UL : UserStoreLaws} {AUS : AuthUserStore} {AUL : AuthUserStoreLaws}.
Context {RR : RefreshTokenRepository} {RL : RefreshTokenRepositoryLaws}.
Context {RB : RBACRepository} {RBL : RBACRepositoryLaws} {GIN : Gin} {GNL : GinLaws}.

(** C25. A client is answered in full or with the timeout, never with a
    mixture: a request to a route ends with the one answer of its handler, or
    with 503 and the timeout body, or, when the client has gone, with a bare
    503. The access log has one line for it, at the level of the status the
    handler gave. *)
Theorem answered_in_full_or_timed_out db hdb m build runtime h v route rq w :
  SetupRouter db hdb m build [runtime] = inr h ->
  gin_match (setup_routes db hdb m build runtime) (rq_Method rq) (rq_Path rq) = Some route ->
  rq_Path rq <> "/metrics" ->
  exists x w' st l, h v rq (new_exchange, w) = (Ok tt, (x, w')) /\
    match kind_of v (ar_RequestTimeout runtime) with
    | Answered => exists body rest, ex_Calls x = WriteHeader st :: Write body :: map Write rest
    | TimedOut => ex_Calls x = [WriteHeader StatusServiceUnavailable; Write timeout_body]
    | Gone => ex_Calls x = [WriteHeader StatusServiceUnavailable]
    end /\
    (st = StatusOK \/ 400 <= st < 600) /\
    ex_Log x = [l] /\ le_Status l = st /\ le_Path l = rq_Path rq /\ le_Router l = ro_Path route /\
    (le_Level l = LevelInfo <-> st = StatusOK) /\ (le_Level l = LevelError <-> 500 <= st).
Proof.
  intros Hs Hm Hp. rewrite (SetupRouter_inv _ _ _ _ _ _ Hs).
  destruct (router_run v (ar_RequestTimeout runtime) _ _ _ rq w Hm Hp)
    as (x & w' & id & lid & st & Hrun & _ & [Hst _ Hc _ _ (l & Hl & Hv & _ & _ & Hpa & Hro & Hs' & _)]).
  exists x, w', st, l. do 7 (split; [done|]). rewrite Hv. unfold access_level, StatusOK in *.
  destruct (Z.leb_spec 500 st), (Z.leb_spec 400 st); intuition (done || lia).
Qed.

(** C24. Metrics. A request to a route is counted once, and with the status
    the client got, the timeout's included; its labels are bounded: a method
    of HTTP or OTHER, and the template of the route or, if the timeout came
    before the router found it, unmatched. It is counted into the requests in
    flight before and out after everything else. *)
Theorem requests_counted_as_sent db hdb m build runtime h v route rq w :
  SetupRouter db hdb m build [runtime] = inr h ->
  gin_match (setup_routes db hdb m build runtime) (rq_Method rq) (rq_Path rq) = Some route ->
  rq_Path rq <> "/metrics" ->
  exists x w' ready method label d, h v rq (new_exchange, w) = (Ok tt, (x, w')) /\
    ex_Metrics x = InFlightInc method :: map ready_call ready ++
      [RequestsInc method label (format_int (sent_status (ex_Calls x)));
       DurationObserve method label d; InFlightDec method] /\
    (method = rq_Method rq \/ method = "OTHER") /\ method ∈ "OTHER" :: standardMethods /\
    (label = route_label (ro_Path route) \/
     label = unmatchedRoute /\ kind_of v (ar_RequestTimeout runtime) <> Answered).
Proof.
  intros Hs Hm Hp. rewrite (SetupRouter_inv _ _ _ _ _ _ Hs).
  destruct (router_run v (ar_RequestTimeout runtime) _ _ _ rq w Hm Hp)
    as (x & w' & id & lid & st & Hrun & _ & [_ _ _ _ (ready & label & d & Hx & Hlabel) _]).
  exists x, w', ready, (metricMethod (rq_Method rq)), label, d.
  split; [done|]. split; [done|]. unfold metricMethod. case_bool_decide as Hin.
  - split; [by left|]. split; [by apply list_elem_of_further|]. naive_solver.
  - split; [by right|]. split; [by left|]. naive_solver.
Qed.

(** C34. Correlation. The identifier a client gets is the one of the line in
    the access log if and only if the request was answered by its handler or
    brought its own identifier: a request that timed out without one is
    logged under another. *)
Theorem request_id_correlates db hdb m build runtime h v route rq w :
  uuids_named -> (forall i j, uuid_at i = uuid_at j -> i = j) ->
  SetupRouter db hdb m build [runtime] = inr h ->
  gin_match (setup_routes db hdb m build runtime) (rq_Method rq) (rq_Path rq) = Some route ->
  rq_Path rq <> "/metrics" ->
  exists x w' id l, h v rq (new_exchange, w) = (Ok tt, (x, w')) /\
    ex_Header x !! RequestIDHeader = Some id /\ ex_Log x = [l] /\
    (id = le_RequestID l <->
     kind_of v (ar_RequestTimeout runtime) = Answered \/ rq_Header rq RequestIDHeader <> "").
Proof.
  intros Hu Hinj Hs Hm Hp. rewrite (SetupRouter_inv _ _ _ _ _ _ Hs).
  destruct (router_run v (ar_RequestTimeout runtime) _ _ _ rq w Hm Hp)
    as (x & w' & id & lid & st & Hrun & _ & [_ Hh _ Hid _ (l & Hl & _ & Hlid & _)]).
  exists x, w', id, l. do 3 (split; [done|]). rewrite Hlid. specialize (Hid Hu).
  destruct (kind_of v (ar_RequestTimeout runtime)).
  { split; [by left|done]. }
  all: destruct Hid as [-> ->]; unfold request_id, inner_world;
    destruct (String.eqb_spec (rq_Header rq RequestIDHeader) "") as [He|He]; simpl;
    (split; [|by intros [?|?]]); [|by right].
  all: intros Heq%Hinj; lia.
Qed.

(** What one request, however it ends, does to the metrics. *)
Definition calls_of_request (h : verdict -> http_Handler) (calls : list metric_call) : Prop :=
  exists v rq w r x w', h v rq (new_exchange, w) = (r, (x, w')) /\ calls = ex_Metrics x.

(** C20. Invariant. However the requests run side by side, and however each
    of them ends, a panic included, at every moment the gauge of a method
    stands at the number of requests of that method in progress: those that
    made their first call on the metrics and not yet their last. *)
Theorem in_flight_counts_requests db hdb m build runtime h requests calls todo method :
  SetupRouter db hdb m build [runtime] = inr h ->
  Forall (calls_of_request h) requests -> interleaved requests calls todo ->
  in_flight method calls = count_where (in_progress method) (zip requests todo).
Proof.
  intros Hs Hr Hi. apply in_flight_in_progress; [|done].
  eapply Forall_impl; [exact Hr|]. intros l (v & rq & w & r & x & w' & Hrun & ->).
  rewrite (SetupRouter_inv _ _ _ _ _ _ Hs) in Hrun.
  apply HTTPHandler_bracketed in Hrun; [|apply TimeoutHandler_sets_ready, engine_sets_ready].
  destruct (String.eqb _ _); [|by left; eexists].
  destruct Hrun as [ready ->]. right. apply ready_neutral.
Qed.
End properties.

(** The recorder agrees with net/http only while no informational status is
    written: it takes a 103 for the final status and drops the 404 that
    follows, so that the client gets 200. No handler of the program writes
    one. *)
Lemma recorder_drops_final_status :
  let calls := [WriteHeader 103; WriteHeader StatusNotFound] in
  sent_status calls = StatusNotFound /\
  sent_status (sr_forwarded (recorder_run calls)) = StatusOK /\ sr_status (recorder_run calls) = 103.
Proof. done. Qed.

(** * Witnesses *)

Definition test_runtime : AuthRuntime :=
  mkAuthRuntime true (mkLoginRateLimit 2 20 (15 * Minute)) None true ["10.0.0.0/8"] (5 * Second).

Definition test_health : option HealthDB := Some (mkHealthDB true (ret tt) (ret tt)).

Definition test_server (v : verdict) : http_Handler :=
  match SetupRouter true test_health sample_manager default_build [test_runtime] with
  | inl _ => fun _ => panic
  | inr h => h v
  end.

#[local] Abbreviation live_request :=
  (mkRequest "GET" "/livez" false (fun _ => "") (fun _ => None) (fun _ => "") "10.0.0.1" "").
#[local] Abbreviation live_route := (mkRoute "GET" "/livez" [LivezHandler]).
#[local] Abbreviation live_run v := (test_server v live_request (new_exchange, alice_world)).

Lemma test_server_setup :
  SetupRouter true test_health sample_manager default_build [test_runtime] = inr test_server.
Proof. reflexivity. Qed.

Lemma live_matched :
  gin_match (setup_routes true test_health sample_manager default_build test_runtime)
    (rq_Method live_request) (rq_Path live_request) = Some live_route.
Proof. reflexivity. Qed.

Lemma handler_result {A B C} (x : A * (B * C)) : x = (fst x, (fst (snd x), snd (snd x))).
Proof. by destruct x as [? [? ?]]. Qed.

Lemma test_uuids_named : uuids_named.
Proof. intros n. change ("uuid-" +:+ format_int (Z.of_nat n) <> ""). discriminate. Qed.

Lemma test_uuids_distinct i j : uuid_at i = uuid_at j -> i = j.
Proof.
  change ("uuid-" +:+ format_int (Z.of_nat i) = "uuid-" +:+ format_int (Z.of_nat j) -> i = j).
  intros H%string_app_inj. apply pretty.pretty_Z_inj in H. lia.
Qed.

Lemma answered_in_full_or_timed_out_witness :
  ex_Calls (fst (snd (live_run Finished))) = [WriteHeader StatusOK; Write "{}"] /\
  ex_Calls (fst (snd (live_run (DeadlineExceeded true))))
  = [WriteHeader StatusServiceUnavailable; Write timeout_body] /\
  exists x w' st l, live_run (DeadlineExceeded true) = (Ok tt, (x, w')) /\
    ex_Log x = [l] /\ le_Status l = st /\ (le_Level l = LevelInfo <-> st = StatusOK).
Proof.
  split; [vm_compute; reflexivity|]. split; [vm_compute; reflexivity|].
  destruct (answered_in_full_or_timed_out true test_health sample_manager default_build test_runtime
              test_server (DeadlineExceeded true) live_route live_request alice_world
              test_server_setup live_matched ltac:(discriminate))
    as (x & w' & st & l & Hrun & _ & _ & Hl & Hst & _ & _ & Hlv & _).
  exists x, w', st, l. repeat (split; [assumption|]). exact Hlv.
Defined.

Lemma requests_counted_as_sent_witness :
  List.filter (fun c => match c with RequestsInc _ _ _ => true | _ => false end)
    (ex_Metrics (fst (snd (live_run (DeadlineExceeded true))))) = [RequestsInc "GET" "/livez" "503"] /\
  exists x w' method label, live_run (DeadlineExceeded true) = (Ok tt, (x, w')) /\
    method ∈ "OTHER" :: standardMethods /\ In (InFlightDec method) (ex_Metrics x) /\
    (label = route_label (ro_Path live_route) \/ label = unmatchedRoute).
Proof.
  split; [vm_compute; reflexivity|].
  destruct (requests_counted_as_sent true test_health sample_manager default_build test_runtime
              test_server (DeadlineExceeded true) live_route live_request alice_world
              test_server_setup live_matched ltac:(discriminate))
    as (x & w' & ready & method & label & d & Hrun & Hx & _ & Hm & Hlabel).
  exists x, w', method, label. split; [assumption|]. split; [assumption|]. split.
  - rewrite Hx. right. apply in_or_app. right. right. right. by left.
  - destruct Hlabel as [?|[? _]]; [by left|by right].
Defined.

Lemma request_id_correlates_witness :
  ex_Header (fst (snd (live_run (DeadlineExceeded true)))) !! RequestIDHeader = Some "uuid-0" /\
  map le_RequestID (ex_Log (fst (snd (live_run (DeadlineExceeded true))))) = ["uuid-1"] /\
  exists x w' id l, live_run Finished = (Ok tt, (x, w')) /\
    ex_Header x !! RequestIDHeader = Some id /\ ex_Log x = [l] /\ id = le_RequestID l.
Proof.
  split; [vm_compute; reflexivity|]. split; [vm_compute; reflexivity|].
  destruct (request_id_correlates true test_health sample_manager default_build test_runtime
              test_server Finished live_route live_request alice_world
              test_uuids_named test_uuids_distinct
              test_server_setup live_matched ltac:(discriminate))
    as (x & w' & id & l & Hrun & Hh & Hl & Hid).
  exists x, w', id, l. repeat (split; [assumption|]). apply Hid. by left.
Defined.

(** Two requests, the first of which has come and the second not yet. *)
Lemma in_flight_counts_requests_witness :
  let calls := ex_Metrics (fst (snd (live_run Finished))) in
  in_flight "GET" [InFlightInc "GET"] = 1 /\
  in_flight "GET" [InFlightInc "GET"]
  = count_where (in_progress "GET") (zip [calls; calls] [tail calls; calls]).
Proof.
  intros calls. split; [reflexivity|].
  apply (in_flight_counts_requests true test_health sample_manager default_build test_runtime
           test_server [calls; calls] [InFlightInc "GET"] [tail calls; calls] "GET" test_server_setup).
  - assert (calls_of_request test_server calls) as Hc
      by (exists Finished, live_request, alice_world; do 3 eexists; split;
          [apply (handler_result (live_run Finished))|reflexivity]).
    repeat constructor; exact Hc.
  - apply (interleaved_call [calls; calls] [] [calls; calls] 0 (InFlightInc "GET") (tail calls)).
    + apply interleaved_start.
    + vm_compute. reflexivity.
Defined.
