(* ===== verification/TrafficProperties.v ===== *)
(** The properties of the service as its clients see it: what requests do to
    the tables, one after the other or at the same time, and what a change of
    the password closes to whom. *)
From S2P Require Import Prelude GoTime GoStrings Sha256 GoErrors Model Gorm AuthState MemDB World.
From S2P Require Import Dao RefreshRepo RbacRepo TokenManager AuthService UserService RbacService.
From S2P Require Import Web Metrics UserHandler RbacHandler Middleware Server Instances.
From S2P Require Import AuthStateTheorems TokenTheorems AuthTheorems UserTheorems RbacTheorems HttpTheorems.
From S2P Require Import ServerTheorems System SystemTheorems Threads Traffic.

Section properties.
Context {STO : Storage} {G : Gorm} {GL : GormLaws} {SS : Store} {SL : StoreLaws}.
Context {E : Env} {UT : UnicodeTables} {J : JWT} {JL : JWTLaws}.
Context {B : Bcrypt} {BL : BcryptLaws} {JB : JSONBinding}.
Context {US : UserStore} {UL : UserStoreLaws} {AUS : AuthUserStore} {AUL : AuthUserStoreLaws}.
Context {RR : RefreshTokenRepository} {RL : RefreshTokenRepositoryLaws}.
Context {RB : RBACRepository} {RBL : RBACRepositoryLaws} {GIN : Gin} {GNL : GinLaws}.

(** What any traffic through the handler that [SetupRouter] returns does
    to the world is a history of service calls, whatever the requests are and
    however each ends, the timeouts and panics included; so the tables stay
    sound under it. *)
Theorem traffic_is_history db hdb m build runtime h w w' :
  SetupRouter db hdb m build [runtime] = inr h -> quiet_checks hdb -> quiet_pages ->
  traffic h w w' -> history w w' /\ (sound_tables w -> sound_tables w').
Proof.
  intros Hs Hq Hp Ht. assert (history w w') as Hh by (by eapply traffic_history).
  split; [done|]. intros Hw. by apply (history_progress w w' Hh).
Qed.

(** C27. Concurrency. Whatever requests are in progress at the same time, and
    however their operations interleave (each runs its queries, statements,
    transactions and operations on the store one by one, in its own order),
    what they do to the world is a history: so everything that is proved of
    histories holds for them, and the tables stay sound. At any moment any
    request may come in. *)
Theorem concurrent_requests_are_histories hs registration w ts w' :
  quiet_health (hs_health hs) -> rtc (pool_step hs registration) ([], w) (ts, w') ->
  history w w' /\ (sound_tables w -> sound_tables w') /\
  forall route rq, In route (routes hs registration) ->
    exists t, thread_of hs route rq t /\ rtc (pool_step hs registration) ([], w) (ts ++ [t], w').
Proof.
  intros Hq Hr. destruct (pool_history hs registration ([], w) (ts, w')) as [_ Hh]; [constructor|done|].
  simpl in Hh. split; [done|]. split; [intros Hw; by apply (history_progress w w' Hh)|].
  intros route rq Hin. destruct (request_is_thread hs registration route rq Hq Hin) as [t Ht].
  exists t. split; [done|]. eapply rtc_r; [exact Hr|]. by eapply pool_arrive.
Qed.

Lemma setup_has_store db hdb m limit secure build stateStore :
  stateStore = true -> has_store (hs_authService (SetupHandlers db hdb m stateStore limit secure build)).
Proof. by intros ->. Qed.

Definition protected_routes (db : bool) (hdb : option HealthDB) (m : TokenManager) (build : Info)
    (runtime : AuthRuntime) : list Route :=
  let hs := SetupHandlers db hdb m (ar_StateStore runtime) (ar_LoginRateLimit runtime)
              (ar_SecureCookies runtime) build in
  registerUsersRoutes hs ++ registerAdminRoutes hs.

(** The client got the status the handler gave. *)
Lemma answered_status v t p rq w x id lid st :
  handled v t p rq w x id lid st -> kind_of v t = Answered -> sent_status (ex_Calls x) = st.
Proof.
  intros [Hst _ Hc _ _ _] Hk. rewrite Hk in Hc. destruct Hc as (body & rest & ->).
  apply sent_status_code. unfold informational. simpl.
  destruct Hst as [->|Hst]; [done|]. by rewrite (proj2 (Z.leb_gt st 199)), andb_false_r by lia.
Qed.

(** A request to a protected route is refused or its caller's session stands. *)
Lemma protected_ran db hdb m build runtime route rq w w' st :
  ar_StateStore runtime = true -> keys_ok TUsers (tbl TUsers w) ->
  In route (protected_routes db hdb m build runtime) -> ran route rq w w' st ->
  same_tables w w' /\ In st [401; 403; 500; 503] \/ exists claims, authenticated m w rq claims.
Proof.
  intros Hst Hk Hin (wa & c & wb & (Ht & Hsto & Htk) & Hrun & Hc & Hb).
  assert (keys_ok TUsers (tbl TUsers wa)) as Hka by (by rewrite (Ht TUsers) in Hk).
  set (hs := SetupHandlers db hdb m (ar_StateStore runtime) (ar_LoginRateLimit runtime)
               (ar_SecureCookies runtime) build) in *.
  assert (exists needs meth path h, route = mkRoute meth path (guarded hs needs h)) as (needs & meth & path & h & ->).
  { unfold protected_routes in Hin. fold hs in Hin. simpl in Hin.
    repeat (destruct Hin as [<-|Hin]; [unfold guarded, require;
      first [by eexists (Some _), _, _, _|by eexists None, _, _, _]|]). done. }
  pose proof (setup_has_store db hdb m (ar_LoginRateLimit runtime) (ar_SecureCookies runtime) build _ Hst)
    as Hs. fold hs in Hs.
  destruct (protected_serve _ _ _ _ _ _ _ _ _ _ Hs Hka Hrun)
    as [[Hw (s & code & msg & Hin' & Hwr)]|(claims & Hauth & _)].
  - left. split; [transitivity wa; [done|]; transitivity wb; [done|apply Hb]|].
    unfold cx_Status in Hc. rewrite Hwr in Hc. simpl in Hc. by subst s.
  - right. exists claims. by apply (authenticated_later _ _ wa).
Qed.

(** C4. Changing the password over HTTP ends the sessions. Once a client was
    told that the password is changed, then after any traffic, and whatever
    timeouts and panics it had, a request to a protected route either changes
    no table and is refused, or carries a token of another account or of a
    later version: one that was issued after the change. *)
Theorem password_change_locks_out db hdb m build runtime h v route rq x w w1 :
  SetupRouter db hdb m build [runtime] = inr h -> quiet_checks hdb -> quiet_pages ->
  ar_StateStore runtime = true -> sound_tables w ->
  gin_match (setup_routes db hdb m build runtime) (rq_Method rq) (rq_Path rq) = Some route ->
  ro_Path route = password_path -> rq_Path rq <> "/metrics" ->
  h v rq (new_exchange, w) = (Ok tt, (x, w1)) ->
  kind_of v (ar_RequestTimeout runtime) = Answered -> sent_status (ex_Calls x) = StatusOK ->
  exists claims, authenticated m w rq claims /\
    forall w2 v' route' rq' r' x' w3,
      traffic h w1 w2 ->
      gin_match (setup_routes db hdb m build runtime) (rq_Method rq') (rq_Path rq') = Some route' ->
      In route' (protected_routes db hdb m build runtime) -> rq_Path rq' <> "/metrics" ->
      h v' rq' (new_exchange, w2) = (r', (x', w3)) ->
      same_tables w2 w3 /\
      (kind_of v' (ar_RequestTimeout runtime) = Answered ->
       In (sent_status (ex_Calls x')) [401; 403; 500; 503]) \/
      exists claims', authenticated m w2 rq' claims' /\
        (c_UserID claims' = c_UserID claims -> c_AuthVersion claims < c_AuthVersion claims').
Proof.
  intros Hs Hq Hp Hst Hsound Hm Hpath Hmet Hrun Hk Hok.
  rewrite (SetupRouter_inv _ _ _ _ _ _ Hs) in Hrun.
  destruct (router_run v (ar_RequestTimeout runtime) _ _ _ rq w Hm Hmet)
    as (x1 & w1' & id & lid & st & Hrun' & Hran & Hh).
  unfold setup_routes in Hrun. rewrite Hrun' in Hrun. injection Hrun as -> ->.
  rewrite (answered_status _ _ _ _ _ _ _ _ _ Hh Hk) in Hok. subst st.
  destruct (match_law _ _ _ _ Hm) as [Hin _].
  destruct (password_ran _ _ _ _ _ _ (setup_has_store _ _ _ _ _ _ _ Hst) (proj1 Hsound) Hin Hpath Hran)
    as (claims & req & wa & wb & Hauth & Hta & Hupd & Htb).
  exists claims. split; [exact Hauth|].
  intros w2 v' route' rq' r' x' w3 Htr Hm' Hin' Hmet' Hrun2.
  pose proof (traffic_history _ _ _ _ _ _ _ _ Hs Hq Hp Htr) as Hh2.
  assert (sound_tables wa) as Hsa by (apply (progress_quiet w wa); done).
  destruct (password_progress _ _ _ _ _ _ Hsa Hupd) as (Hsb & _ & _).
  assert (history wb w2) as Hhb by (transitivity w1; [by apply history_quiet|done]).
  destruct (history_progress wb w2 Hhb Hsb) as (Hs2 & Hg & _).
  rewrite (SetupRouter_inv _ _ _ _ _ _ Hs) in Hrun2.
  destruct (router_run v' (ar_RequestTimeout runtime) _ _ _ rq' w2 Hm' Hmet')
    as (x2 & w3' & id' & lid' & st' & Hrun3 & Hran' & Hhd).
  unfold setup_routes in Hrun2. rewrite Hrun3 in Hrun2. injection Hrun2 as <- -> ->.
  destruct (protected_ran _ _ _ _ _ _ _ _ _ _ Hst (proj1 Hs2) Hin' Hran') as [[Ht Hst']|(claims' & Ha')].
  { left. split; [done|]. intros Hk'. by rewrite (answered_status _ _ _ _ _ _ _ _ _ Hhd Hk'). }
  right. exists claims'. split; [exact Ha'|]. intros Huid.
  apply Z.nle_gt. intros Hle. apply authenticated_session in Ha'. rewrite Huid in Ha'. revert Ha'.
  refine (password_passes _ _ req wa wb w2 (c_AuthVersion claims) _ Hsa _ Hupd Hhb Hle).
  eapply session_user_mono; [symmetry; exact Hta|by eapply authenticated_session].
Qed.
End properties.

(** * Witnesses *)

(** Alice has an account and may change her password. *)
Definition password_permission : Permission :=
  mkPermission 1 PermissionPasswordUpdate "password" "PATCH" password_path launch launch.

Definition traffic_world : World :=
  world (with_roles [role_user; role_admin] [password_permission] [mkUserRole 1 1 launch]
           [mkRolePermission 1 1 launch] (db_with [alice] [])).

Lemma traffic_world_sound : sound_tables traffic_world.
Proof. split; [keys_by_computation|]. split; [constructor|intros; simpl in *; tauto..]. Qed.

Definition traffic_runtime : AuthRuntime :=
  mkAuthRuntime true (mkLoginRateLimit 2 20 (15 * Minute)) None true ["10.0.0.0/8"] (5 * Second).

Definition traffic_checks : option HealthDB := Some (mkHealthDB true (ret tt) (ret tt)).

Definition traffic_handler (v : verdict) : http_Handler :=
  match SetupRouter true traffic_checks sample_manager default_build [traffic_runtime] with
  | inl _ => fun _ => panic
  | inr h => h v
  end.

Lemma traffic_setup :
  SetupRouter true traffic_checks sample_manager default_build [traffic_runtime] = inr traffic_handler.
Proof. reflexivity. Qed.

Lemma traffic_checks_quiet : quiet_checks traffic_checks.
Proof. split; apply quiet_ret. Qed.

Lemma traffic_pages_quiet : quiet_pages.
Proof. by intros rq w r w' [= _ <-]. Qed.

(** A request, as one of the client's that has [token]. *)
Definition client_request (method path token body : string) : Request :=
  mkRequest method path false
    (fun k => if String.eqb k "Authorization" && negb (String.eqb token "") then "Bearer " +:+ token else "")
    (fun _ => None) (fun _ => "") "10.0.0.1" body.

Definition alice_access : string :=
  match fst (GenerateAccessToken sample_manager 1 "alice" 1 traffic_world) with Ok tok => tok | _ => "" end.

#[local] Abbreviation change_request :=
  (client_request "PATCH" password_path alice_access "another horse battery").
#[local] Abbreviation change_run := (traffic_handler Finished change_request (new_exchange, traffic_world)).
#[local] Abbreviation changed_world := (snd (snd change_run)).
#[local] Abbreviation again_run :=
  (traffic_handler Finished (client_request "POST" "/api/v1/auth/login" "" "another horse battery")
     (new_exchange, changed_world)).
#[local] Abbreviation again_world := (snd (snd again_run)).
#[local] Abbreviation old_token_run := (traffic_handler Finished change_request (new_exchange, again_world)).

Lemma exchange_run {A B C} (x : A * (B * C)) r : fst x = r -> x = (r, (fst (snd x), snd (snd x))).
Proof. intros <-. by destruct x as [? [? ?]]. Qed.

Lemma again_traffic : traffic traffic_handler changed_world again_world.
Proof.
  apply rtc_once. do 5 eexists. apply exchange_run. reflexivity.
Qed.

Lemma traffic_is_history_witness :
  length (tbl TRefreshTokens again_world) = 1%nat /\
  history changed_world again_world /\ (sound_tables changed_world -> sound_tables again_world).
Proof.
  split; [vm_compute; reflexivity|].
  exact (traffic_is_history true traffic_checks sample_manager default_build traffic_runtime traffic_handler
           changed_world again_world traffic_setup traffic_checks_quiet traffic_pages_quiet again_traffic).
Defined.

#[local] Abbreviation traffic_handlers :=
  (SetupHandlers true traffic_checks sample_manager true (ar_LoginRateLimit traffic_runtime) true default_build).
#[local] Abbreviation change_route :=
  (mkRoute "PATCH" password_path
     [authenticate traffic_handlers; require traffic_handlers PermissionPasswordUpdate;
      UpdateUserPasswordHandler (hs_user traffic_handlers)]).

Lemma change_matched :
  gin_match (setup_routes true traffic_checks sample_manager default_build traffic_runtime)
    (rq_Method change_request) (rq_Path change_request) = Some change_route.
Proof. reflexivity. Qed.

(** Alice changes her password, logs in with the new one, and then the token
    she changed it with is refused. *)
Lemma password_change_locks_out_witness :
  sent_status (ex_Calls (fst (snd change_run))) = StatusOK /\
  sent_status (ex_Calls (fst (snd again_run))) = StatusOK /\
  sent_status (ex_Calls (fst (snd old_token_run))) = StatusUnauthorized /\
  exists claims, authenticated sample_manager traffic_world change_request claims /\
    (same_tables again_world (snd (snd old_token_run)) /\
     (kind_of Finished (ar_RequestTimeout traffic_runtime) = Answered ->
      In (sent_status (ex_Calls (fst (snd old_token_run)))) [401; 403; 500; 503]) \/
     exists claims', authenticated sample_manager again_world change_request claims' /\
       (c_UserID claims' = c_UserID claims -> c_AuthVersion claims < c_AuthVersion claims')).
Proof.
  assert (sent_status (ex_Calls (fst (snd change_run))) = StatusOK) as Hok by (vm_compute; reflexivity).
  split; [exact Hok|]. split; [vm_compute; reflexivity|]. split; [vm_compute; reflexivity|].
  assert (fst change_run = Ok tt) as Hrun by (vm_compute; reflexivity).
  destruct (password_change_locks_out true traffic_checks sample_manager default_build traffic_runtime
    traffic_handler Finished change_route change_request (fst (snd change_run)) traffic_world changed_world
    traffic_setup traffic_checks_quiet traffic_pages_quiet eq_refl traffic_world_sound change_matched eq_refl
    ltac:(discriminate) (exchange_run _ _ Hrun) eq_refl Hok) as (claims & Ha & Hlater).
  exists claims. split; [exact Ha|].
  refine (Hlater again_world Finished change_route change_request (fst old_token_run)
    (fst (snd old_token_run)) (snd (snd old_token_run)) again_traffic change_matched _ ltac:(discriminate)
    (exchange_run _ _ eq_refl)).
  unfold protected_routes. simpl. tauto.
Defined.

(** Two logins of alice at the same time, operation by operation in turn. *)
#[local] Abbreviation login_route :=
  (mkRoute "POST" "/api/v1/auth/login" [LoginHandler (hs_user traffic_handlers)]).
#[local] Abbreviation login_request :=
  (client_request "POST" "/api/v1/auth/login" "" "correct horse battery").

Definition login_split : all_split (hs_health traffic_handlers) (ro_Handlers login_route) :=
  split_cons _ _ _ (LoginHandler_splits _ _) (split_nil _).

Definition login_thread : thread :=
  hs_tree _ _ (serve_splits _ login_route login_split) (new_context login_request).

Definition in_turn (n : nat) : list nat := concat (repeat [0; 1]%nat n).

#[local] Abbreviation two_logins n :=
  (run_schedule (in_turn n) ([login_thread; login_thread], traffic_world)).

Lemma login_routed : In login_route (routes traffic_handlers true).
Proof. unfold routes, registerAPIRoutes, registerAuthRoutes. rewrite !in_app_iff. simpl. tauto. Qed.

Lemma concurrent_requests_are_histories_witness :
  length (tbl TRefreshTokens (snd (two_logins 12))) = 0%nat /\
  length (tbl TRefreshTokens (snd (two_logins 40))) = 2%nat /\
  history traffic_world (snd (two_logins 40)) /\ sound_tables (snd (two_logins 40)).
Proof.
  split; [vm_compute; reflexivity|]. split; [vm_compute; reflexivity|].
  destruct (concurrent_requests_are_histories traffic_handlers true traffic_world
              (fst (two_logins 40)) (snd (two_logins 40))) as (Hh & Hs & _).
  - split; [split; apply quiet_ret|]. intros m [[= <-]|[]]. apply quiet_on_store.
  - rewrite <- surjective_pairing.
    apply (rtc_l _ _ ([login_thread], traffic_world)).
    { apply (pool_arrive _ _ [] traffic_world login_route login_request); [apply login_routed|apply split_thread]. }
    apply (rtc_l _ _ ([login_thread; login_thread], traffic_world)); [|apply run_schedule_steps].
    apply (pool_arrive _ _ [login_thread] traffic_world login_route login_request);
      [apply login_routed|apply split_thread].
  - split; [exact Hh|exact (Hs traffic_world_sound)].
Defined.
