(* ===== verification/MainProperties.v ===== *)
(** The properties of the process: its connections are closed whatever
    happens, what it serves on, how serving ends, and what it needs to
    connect to the database. *)
From S2P Require Import Prelude GoTime GoStrings GoNet GoPath GoErrors Model Gorm AuthState MemDB World.
From S2P Require Import Dao RefreshRepo RbacRepo TokenManager AuthService UserService RbacService.
From S2P Require Import Web Metrics UserHandler RbacHandler Middleware Server Config Database Main.
From S2P Require Import Instances ConfigTheorems ServerTheorems MainTheorems ConfigProperties.

Section properties.
Context {STO : Storage} {G : Gorm} {SS : Store} {E : Env} {UT : UnicodeTables} {J : JWT}.
Context {B : Bcrypt} {JB : JSONBinding}.
Context {US : UserStore} {AUS : AuthUserStore}.
Context {RR : RefreshTokenRepository} {RB : RBACRepository} {GIN : Gin} {GNL : GinLaws}.
Context {SYS : System} {D : Drivers} {DL : DriversLaws}.

(** What serves keeps its connections and does not close what is not its. *)
Definition keeps_connections (serving : http_Server -> Z -> P unit) : Prop :=
  forall server timeout p, wp (serving server timeout) (fun _ p' => conn p' = conn p) p.

(** The message of [main] that says that a handle was lost. *)
Definition reported_lost (r : outcome error (option string)) : Prop :=
  exists e, handle_lost e /\ r = Ok (Some ("application failed: " +:+ error_string e)).

Lemma reported (m : P unit) p :
  wp m (fun r p' => conn p' = conn p \/ exists e, r = Err e /\ handle_lost e) p ->
  wp (attempt m) (fun r s' =>
    match r with
    | Ok a => wp (ret (match a with
                       | inl err => Some ("application failed: " +:+ error_string err)
                       | inr _ => None
                       end)) (fun r p' => conn p' = conn p \/ reported_lost r) s'
    | Err e => conn s' = conn p \/ reported_lost (Err e)
    | Panic => conn s' = conn p \/ reported_lost Panic
    end) p.
Proof.
  intros Hm. wp_step. wp_use Hm. intros [[]|e|] s' Hc; try apply wp_ret;
    (destruct Hc as [Hc|(e' & He & Hl)]; [by left|]); try done.
  right. exists e'. by injection He as ->.
Qed.

(** C19. Whatever command the process runs, and whatever fails or panics on
    the way, it leaves open exactly the connections it found open: what it
    opened it closed again, once, and nothing else. The one exception is a
    database that gorm opened and then gives no handle of; the process then
    ends with the error that says so. *)
Theorem process_closes_connections serving health build args p r p' :
  absolute_cwd -> keeps_connections serving ->
  main serving (defaultAppDeps health build) args p = (r, p') ->
  conn p' = conn p \/
  (exists e, handle_lost e /\ r = Ok (Some ("application failed: " +:+ error_string e))).
Proof.
  intros Hcwd Hs Hrun. revert Hrun.
  apply (wp_run _ (fun r p' => conn p' = conn p \/ reported_lost r)). unfold main. wp_step.
  destruct (_ && _); [apply reported, runBootstrapAdmin_spec; done|].
  destruct (_ && _); [destruct (_ || _)|].
  - by left.
  - apply reported. wp_use runMigrateUp_spec; [done|]. intros r1 p1 Hp1. by left.
  - apply reported. wp_use (run_spec serving health build Hs Hcwd). by intros r1 p1 [Hp1 _].
Qed.

(** [serving] is what [run] does once its goroutine has started: it ends as
    the state machine of serving ends, and the connections are not its. *)
Definition serves (serving : http_Server -> Z -> P unit) : Prop :=
  forall server timeout p, wp (serving server timeout) (fun r p' =>
    conn p' = conn p /\ exists l, rtc life_step initial_life l /\ lf_main l = Finished_run r) p.

Lemma serves_keeps serving : serves serving -> keeps_connections serving.
Proof. intros Hs server timeout p. wp_use (Hs server timeout p). by intros r p' [Hp _]. Qed.

(** The ends of serving: a clean one, a failure of the server that is not its
    closing, or a shutdown that failed. *)
Definition ended (r : outcome error unit) : Prop :=
  r = Ok tt \/
  (exists e, r = Err (Errorf "server run failed" e) /\ errors_Is e http_ErrServerClosed = false) \/
  exists e, r = Err (Errorf "server shutdown failed" e).

Lemma serves_ended serving server timeout p r p' :
  serves serving -> serving server timeout p = (r, p') -> ended r.
Proof.
  intros Hs Hrun. destruct (wp_run _ _ _ _ _ (Hs server timeout p) Hrun) as (_ & l & Hl & Hr).
  apply life_reachable in Hl. destruct l as [state serverErr quit main].
  unfold life_inv in Hl. cbn [lf_server lf_serverErr lf_quit lf_main] in *. subst main.
  assert (forall e, ended (finish_shutdown e)) as Hshut by (intros [e|]; [right; right; by exists e|by left]).
  destruct state as [| | |e]; [by destruct (proj2 Hl r eq_refl) as [e ->]..|].
  destruct Hl as [[[_ ->]|[_ [e' ->]]] He]; [|apply Hshut].
  destruct e as [e|]; [|by left]. right. left. exists e. split; [done|by apply He].
Qed.

(** What a configuration makes of the server: the address, the time limits,
    all of them positive, and the size of the headers in bytes. *)
Definition configured_server (cfg : Config) (server : http_Server) : Prop :=
  let h := hs_Server (cfg_HttpServer cfg) in
  sv_Addr server = ":" +:+ format_int (sc_Port (Server cfg)) /\
  sv_ReadTimeout server = hc_ReadTimeOut h /\ 0 < sv_ReadTimeout server /\
  sv_WriteTimeout server = hc_WriteTimeout h /\ 0 < sv_WriteTimeout server /\
  sv_IdleTimeout server = hc_IdleTimeout h /\ 0 < sv_IdleTimeout server /\
  sv_ReadHeaderTimeout server = hc_ReadHeaderTimeout h /\ 0 < sv_ReadHeaderTimeout server /\
  (in_int64 (hc_MaxHeaderBytesKib h * 1024) ->
   sv_MaxHeaderBytes server = hc_MaxHeaderBytesKib h * 1024).

(** C21. Fail fast. The process either ends with an error of its startup
    before it serves anything, or it serves, and ends as serving ends: on a
    sound configuration, with the handler that [SetupRouter] built for it,
    the database open, and the store the configuration asks for, which in
    production is Redis, open too. Serving ends cleanly, with the server's own
    failure, or with that of the shutdown; the closing of the server is no
    failure. *)
Theorem run_serves_or_refuses serving health build p r p' :
  absolute_cwd -> serves serving ->
  run serving (defaultAppDeps health build) p = (r, p') ->
  refused_to_start r \/
  ended r /\ exists cfg db tm store server p1 p2,
    Load "config.yml" = Some (Ok cfg) /\ sound_config cfg /\ configured_server cfg server /\
    SetupRouter true (Some (health db)) tm build [auth_runtime cfg] = inr (sv_Handler server) /\
    (Environment cfg = "production" -> exists client, store = AppRedis client) /\
    conn p1 = store_conns store ∪ ({[gorm_id db]} ∪ conn p) /\
    serving server (10 * Second) p1 = (r, p2).
Proof.
  intros Hcwd Hs Hrun.
  pose proof (run_spec serving health build (serves_keeps _ Hs) Hcwd p) as Hspec.
  destruct (wp_run _ _ _ _ _ Hspec Hrun) as [_ [Hr|Hr]]; [|by left].
  right. destruct Hr as (cfg & db & tm & store & h & p1 & p2 & Hl & Htm & Hset & Hst & Hc & Hend).
  destruct (Load_ok _ _ Hl) as [Hsound _]. split; [by eapply serves_ended|].
  exists cfg, db, tm, store, (server_of cfg h), p1, p2. split; [done|]. split; [done|]. split.
  { destruct (sv_http _ Hsound) as (? & ? & ? & ? & ? & _).
    do 9 (split; [done|]). simpl. intros Hb. rewrite Z.shiftl_mul_pow2 by lia. by apply wrap64_id. }
  split; [done|]. split; [|done]. intros Hp.
  destruct (sv_production _ Hsound Hp) as [Hen _]. destruct store as [|c]; [|by exists c].
  destruct Hst as [Hst _]. specialize (Hst eq_refl). congruence.
Qed.

(** C23. Serving, as a state machine. In every state it can reach: the
    goroutine of the server is never stuck on its channel; a failure of the
    server that was sent is there until [run] takes it, and
    [http.ErrServerClosed] is never reported as one; [run] ends with what the
    server sent or what the shutdown returned, and as long as it has not
    ended it can go on as soon as a signal came or the server ended, and
    nothing takes that away. *)
Theorem serving_ends_in_order l :
  rtc life_step initial_life l ->
  (forall err, lf_server l = Returned err ->
     exists l', life_step l l' /\ lf_server l' = Sent (server_failure err)) /\
  (forall e, lf_server l = Sent e -> (forall r, lf_main l <> Finished_run r) -> lf_serverErr l = [e]) /\
  (forall r, lf_main l = Finished_run r ->
     (exists e, lf_server l = Sent e /\ r = finish_served e /\
                forall x, e = Some x -> errors_Is x http_ErrServerClosed = false) \/
     exists e, r = finish_shutdown e) /\
  ((forall r, lf_main l <> Finished_run r) ->
   lf_quit l <> [] \/ (exists e, lf_server l = Sent e) ->
   exists l', life_step l l' /\ (life_rank l' < life_rank l)%nat) /\
  (forall l', life_step l l' -> (life_rank l' < life_rank l)%nat \/
     lf_main l' = lf_main l /\ (lf_quit l <> [] -> lf_quit l' <> [])).
Proof.
  intros Hr. apply life_reachable in Hr. destruct l as [server serverErr quit main].
  unfold life_inv in Hr. cbn [lf_server lf_serverErr lf_quit lf_main] in *. split_and!.
  - intros err ->. destruct Hr as [-> _]. eexists. split; [apply life_send|done].
  - intros e -> Hn. destruct Hr as [Hr _]. destruct main; try done. by destruct (Hn r).
  - intros r ->. destruct server as [| | |e]; [right; by apply (proj2 Hr)..|].
    destruct Hr as [[[_ ->]|[_ [e' ->]]] He]; [left; by exists e|right; by exists e'].
  - intros Hn Hready. destruct main as [| | |r].
    + eexists. split; [apply life_notify|]. unfold life_rank. simpl. lia.
    + destruct quit as [|[] quit].
      * destruct Hready as [?|[e ->]]; [done|]. destruct Hr as [-> _].
        eexists. split; [apply life_served|]. unfold life_rank. simpl. lia.
      * eexists. split; [apply life_quit|]. unfold life_rank. simpl. lia.
    + eexists. split; [apply (life_shutdown None)|]. unfold life_rank. simpl. lia.
    + by destruct (Hn r).
  - intros l' Hs. destruct (life_rank_step _ _ Hs) as [?|(? & ? & _)]; [by left|by right].
Qed.

(** What the environment gives for a name: the password as it stands, the
    others without the space around them. *)
Definition migration_value (gv : string -> string) (name : string) : string :=
  if String.eqb name "DB_PASSWORD" then gv name else TrimSpace (gv name).

Definition migration_names : list string := ["DB_HOST"; "DB_PORT"; "DB_USER"; "DB_PASSWORD"; "DB_NAME"].

Lemma filter_named (f : string -> string) names :
  map fst (List.filter (fun field => String.eqb field.2 "") (map (fun n => (n, f n)) names))
  = List.filter (fun n => String.eqb (f n) "") names.
Proof.
  induction names as [|n names IH]; simpl; [done|]. destruct (String.eqb (f n) ""); simpl; congruence.
Qed.

Lemma filter_is_sublist {A} (f : A -> bool) l : List.filter f l `sublist_of` l.
Proof. induction l as [|x l IH]; simpl; [done|]. destruct (f x); by constructor. Qed.

(** The configuration of the migrations is complete, with the values of
    the environment, or it is refused with the names of all that is missing,
    in order, and of nothing else. *)
Theorem migration_config_complete gv :
  match MigrationConfigFromEnv gv with
  | Ok cfg => migration_fields cfg = map (fun n => (n, migration_value gv n)) migration_names /\
              forall n, In n migration_names -> migration_value gv n <> ""
  | Err e => exists missing, missing <> [] /\ missing `sublist_of` migration_names /\
      e = Plain ("migration database config missing: " +:+ String.concat ", " missing) /\
      forall n, In n missing <-> In n migration_names /\ migration_value gv n = ""
  | Panic => False
  end.
Proof.
  unfold MigrationConfigFromEnv. cbv zeta.
  change (migration_fields _) with (map (fun n => (n, migration_value gv n)) migration_names) at 1.
  rewrite filter_named. set (missing := List.filter _ migration_names).
  assert (forall n, In n missing <-> In n migration_names /\ migration_value gv n = "") as Hm.
  { intros n. unfold missing. rewrite filter_In. by rewrite String.eqb_eq. }
  destruct (Nat.ltb_spec 0 (length missing)) as [Hl|Hl].
  - exists missing. split; [by destruct missing; [simpl in Hl; lia|]|].
    split; [apply filter_is_sublist|]. split; [|done].
    do 2 f_equal. unfold missing. by rewrite <- filter_named.
  - split; [done|]. intros n Hn He. destruct missing as [|x missing]; [|simpl in Hl; lia].
    by destruct (proj2 (Hm n) (conj Hn He)).
Qed.

(** A loaded configuration is enough to address the database as soon as
    the environment has its password, and without a password no connection is
    tried. *)
Theorem loaded_configuration_has_dsn path cfg password :
  Load path = Some (Ok cfg) ->
  (password <> "" -> exists dsn, buildDSN cfg password = Ok dsn /\ dsn <> "") /\
  (password = "" -> forall gv s, gv "DB_PASSWORD" = "" ->
     InitDB gv cfg s = (Err (Plain "database config missing"), s)).
Proof.
  intros Hl. destruct (Load_ok _ _ Hl) as [Hs _]. destruct (sv_mysql _ Hs) as (Hh & Hd & Hu & port & Hp & Hr).
  assert (my_Port (MySQL cfg) <> "") as Hport by (intros He; by rewrite He in Hp).
  unfold InitDB, buildDSN.
  rewrite (proj2 (String.eqb_neq _ _) Hh), (proj2 (String.eqb_neq _ _) Hd), (proj2 (String.eqb_neq _ _) Hu),
    (proj2 (String.eqb_neq _ _) Hport). simpl. split.
  - intros Hpw. rewrite (proj2 (String.eqb_neq _ _) Hpw). eexists. split; [done|].
    destruct (my_User (MySQL cfg)); [done|]. discriminate.
  - intros -> gv s Hgv. by rewrite Hgv.
Qed.
End properties.

(** * Witnesses *)

(** Drivers in memory: connections are numbers, and a ping fails when the list
    says so. *)
Record mem_os := mkMemOS { mo_opened : gset nat; mo_faults : list bool }.

Definition mo_open : ST error mem_os nat := fun s =>
  let n := fresh (mo_opened s) in (Ok n, mkMemOS ({[n]} ∪ mo_opened s) (mo_faults s)).
Definition mo_ping : ST error mem_os unit := fun s =>
  match mo_faults s with
  | true :: fs => (Err (Plain "ping failed"), mkMemOS (mo_opened s) fs)
  | fs => (Ok tt, mkMemOS (mo_opened s) (tail fs))
  end.
Definition mo_close (n : nat) : ST error mem_os unit :=
  modify (fun s => mkMemOS (mo_opened s ∖ {[n]}) (mo_faults s)).

#[local] Instance mem_drivers : Drivers := {|
  OS := mem_os;
  GormDB := nat;
  SqlDB := nat;
  RedisConn := nat;
  gorm_Open := fun _ => mo_open;
  gorm_DB := fun g => ret g;
  sql_Open := fun _ => mo_open;
  sql_Set := fun _ _ => ret tt;
  sql_Ping := fun _ _ => mo_ping;
  sql_Close := mo_close;
  mysql_FormatDSN := dc_Addr;
  redis_NewClient := fun _ => mo_open;
  redis_Ping := fun _ _ => mo_ping;
  redis_Close := mo_close;
  goose_SetDialect := fun _ => ret tt;
  goose_Up := fun _ _ => ret tt;
|}.

Lemma mo_ping_spec s : wp mo_ping (fun r s' => mo_opened s' = mo_opened s /\ r <> Panic) s.
Proof. unfold wp, mo_ping. by destruct (mo_faults s) as [|[|] fs]. Qed.

#[local] Instance mem_drivers_laws : DriversLaws.
Proof.
  refine {| opened := mo_opened : @OS mem_drivers -> _; sql_id := (fun d => d) : @SqlDB mem_drivers -> _;
            gorm_id := (fun d => d) : @GormDB mem_drivers -> _;
            redis_id := (fun d => d) : @RedisConn mem_drivers -> _ |}; intros;
    try apply mo_ping_spec; try (by repeat split); unfold wp, mo_open; simpl; (split; [apply is_fresh|done]).
Defined.

(** The system of ConfigProperties with a password for the database. *)
#[local] Instance process_system : System := {|
  os_Stat := @os_Stat test_system;
  os_ReadFile := @os_ReadFile test_system;
  os_Getwd := @os_Getwd test_system;
  runtime_Caller := @runtime_Caller test_system;
  os_Executable := @os_Executable test_system;
  os_Getenv := fun v => if String.eqb v "DB_PASSWORD" then "secret"
                        else @os_Getenv test_system v;
  yaml_Unmarshal := @yaml_Unmarshal test_system;
  godotenv_Load := @godotenv_Load test_system;
|}.

Lemma process_cwd : absolute_cwd.
Proof. intros wd [= <-]. reflexivity. Qed.

(** A server that a signal stops at once. *)
Definition stop_at_once (server : http_Server) (timeout : Z) : P unit := ret tt.

Lemma stop_serves : serves stop_at_once.
Proof.
  intros server timeout p. split; [done|]. exists (mkLife Starting [] [] (Finished_run (Ok tt))).
  split; [|done]. eapply rtc_l; [apply life_notify|]. eapply rtc_l; [by apply life_signal|].
  eapply rtc_l; [apply life_quit|]. eapply rtc_l; [apply (life_shutdown None)|]. apply rtc_refl.
Qed.

Definition test_deps : appDeps := defaultAppDeps (fun _ => mkHealthDB true (ret tt) (ret tt)) default_build.

Definition fresh_process (faults : list bool) : Proc := mkProc alice_world (mkMemOS {[7%nat]} faults).

Lemma process_closes_connections_witness :
  fst (main stop_at_once test_deps ["server"] (fresh_process [])) = Ok None /\
  fst (main stop_at_once test_deps ["server"] (fresh_process [false; true]))
  = Ok (Some "application failed: initialize authentication state store failed: ping redis: ping failed") /\
  (conn (snd (main stop_at_once test_deps ["server"] (fresh_process [false; true])))
   = conn (fresh_process [false; true]) \/
   exists e, handle_lost e /\ fst (main stop_at_once test_deps ["server"] (fresh_process [false; true]))
                              = Ok (Some ("application failed: " +:+ error_string e))).
Proof.
  split; [vm_compute; reflexivity|]. split; [vm_compute; reflexivity|].
  exact (process_closes_connections stop_at_once _ default_build ["server"] (fresh_process [false; true])
    _ _ process_cwd (serves_keeps _ stop_serves) (surjective_pairing _)).
Defined.

Lemma run_serves_or_refuses_witness :
  fst (run stop_at_once test_deps (fresh_process [])) = Ok tt /\
  exists cfg server, Load "config.yml" = Some (Ok cfg) /\ configured_server cfg server.
Proof.
  assert (fst (run stop_at_once test_deps (fresh_process [])) = Ok tt) as Hr by (vm_compute; reflexivity).
  split; [exact Hr|].
  destruct (run_serves_or_refuses stop_at_once _ default_build (fresh_process []) _ _ process_cwd stop_serves
              (surjective_pairing (run stop_at_once test_deps (fresh_process []))))
    as [(e & He & _)|(_ & cfg & db & tm & store & server & p1 & p2 & Hl & _ & Hc & _)].
  - exfalso. rewrite Hr in He. discriminate.
  - exists cfg, server. split; [exact Hl|exact Hc].
Defined.

(** The server fails to listen while a signal comes: [run] ends with the
    failure. *)
Lemma serving_ends_in_order_witness :
  exists l, rtc life_step initial_life l /\
    lf_main l = Finished_run (Err (Errorf "server run failed" (Plain "address already in use"))) /\
    forall l', life_step l l' -> (life_rank l' < life_rank l)%nat \/ lf_main l' = lf_main l.
Proof.
  set (failure := Some (Plain "address already in use")).
  exists (mkLife (Sent failure) [] [tt] (Finished_run (finish_served failure))).
  assert (rtc life_step initial_life
            (mkLife (Sent failure) [] [tt] (Finished_run (finish_served failure)))) as Hr.
  { eapply rtc_l; [apply life_listen|]. eapply rtc_l; [apply (life_return failure)|].
    eapply rtc_l; [apply life_send|]. eapply rtc_l; [apply life_notify|].
    eapply rtc_l; [by apply life_signal|]. eapply rtc_l; [apply life_served|]. apply rtc_refl. }
  split; [exact Hr|]. split; [reflexivity|]. intros l' Hl'.
  destruct (serving_ends_in_order _ Hr) as (_ & _ & _ & _ & H).
  destruct (H l' Hl') as [?|[? _]]; [left|right]; assumption.
Defined.

Lemma loaded_configuration_has_dsn_witness :
  exists cfg, Load "config.yml" = Some (Ok cfg) /\
    buildDSN cfg "secret"
    = Ok "app:secret@tcp(127.0.0.1:3306)/users?charset=utf8mb4&parseTime=True&loc=Local" /\
    exists dsn, buildDSN cfg "secret" = Ok dsn /\ dsn <> "".
Proof.
  destruct (Load "config.yml") as [[cfg|e|]|] eqn:Hl; [|exfalso; vm_compute in Hl; discriminate..].
  exists cfg. split; [reflexivity|]. split.
  - vm_compute in Hl. injection Hl as <-. reflexivity.
  - apply (loaded_configuration_has_dsn "config.yml" cfg "secret" Hl). discriminate.
Defined.
