(* ===== verification/MigrationProperties.v ===== *)
(** The properties of a database the migrations prepared, with the system that
    runs on it: what there was before stays sound; who may reach which route;
    what a new account may do; and how roles can be given to an account that
    does not exist yet. *)
From S2P Require Import Prelude GoTime GoStrings Sha256 GoErrors Model Gorm AuthState MemDB World.
From S2P Require Import Dao RefreshRepo RbacRepo TokenManager AuthService UserService RbacService.
From S2P Require Import Web Metrics UserHandler RbacHandler Middleware Server Instances.
From S2P Require Import AuthStateTheorems AuthTheorems UserTheorems RbacTheorems HttpTheorems.
From S2P Require Import System SystemTheorems Migrations MigrationTheorems PolicyTheorems.

Section properties.
Context {STO : Storage} {AI : AutoIncrement} {G : Gorm} {GL : GormLaws} {SS : Store} {SL : StoreLaws}.
Context {E : Env} {UT : UnicodeTables} {J : JWT} {JL : JWTLaws}.
Context {B : Bcrypt} {BL : BcryptLaws} {JB : JSONBinding}.
Context {US : UserStore} {UL : UserStoreLaws} {AUS : AuthUserStore} {AUL : AuthUserStoreLaws}.
Context {RR : RefreshTokenRepository} {RL : RefreshTokenRepositoryLaws}.
Context {RB : RBACRepository} {RBL : RBACRepositoryLaws}.

(** * Helpers *)

(** The policy is that of the seeds for good. *)
Lemma policy_for_good users tokens w0 w :
  distinct_seeds -> legacy_ok users tokens -> migrated users tokens w0 -> history w0 w ->
  sound_tables w /\ seeded_policy (rows (w_db w)).
Proof.
  intros Hd Hl Hm Hh. pose proof (migrated_sound _ _ _ Hl Hm) as Hs.
  split; [by apply (history_progress w0)|].
  destruct (history_policy w0 w Hh Hs) as (H1 & H2 & H3).
  apply (seeded_policy_same (rows (w_db w0))); [done..|]. by eapply migrated_world_policy.
Qed.

(** The rows a migrated database has for roles are those of its accounts. *)
Lemma migrated_role_rows users tokens w ur :
  distinct_seeds -> migrated users tokens w -> In ur (tbl TUserRoles w) ->
  account_exists w (ur_UserID ur).
Proof.
  intros Hd [now Hw] Hur. rewrite (Hw TUserRoles) in Hur.
  assert (In (ur_UserID ur, ur_RoleID ur)
            (map ur_key (backfill_user_roles now (create_rbac_tables now (legacy_tables users tokens)) TUserRoles)))
    as Hin by (apply in_map_iff; by exists ur).
  apply backfilled_keys in Hin as [[]|(r & _ & _ & Hr)]. unfold account_exists. rewrite (Hw TUsers).
  assert (In (ur_UserID ur) (map u_ID (create_rbac_tables now (legacy_tables users tokens) TUsers)))
    as (u & Hid & Hu)%in_map_iff; [|by exists u].
  destruct Hr as [[_ ?]|[_ Hm%min_id_spec]]; [done|apply Hm].
Qed.

Lemma permitted_by_role w uid s :
  distinct_seeds -> seeded_policy (rows (w_db w)) -> In s seed_permissions ->
  permitted w uid (p_Code s) <->
  has_role (rows (w_db w)) uid "admin" \/ has_role (rows (w_db w)) uid "user" /\ In s user_seeds.
Proof. intros Hd Hp Hs. exact (policy_may _ uid s Hd Hp Hs). Qed.

(** The roles of an account that was just added. *)
Lemma added_roles w w' u codes code :
  account_added w w' u codes -> has_role (rows (w_db w')) (u_ID u) code ->
  (exists ur, In ur (tbl TUserRoles w) /\ ur_UserID ur = u_ID u) \/
  exists c r r', In c codes /\ role_with_code w c r /\ In r' (tbl TRoles w) /\ r_ID r' = r_ID r /\
                 coll_eqb (r_Code r') code = true.
Proof.
  intros (_ & _ & (l & Hl & Hrows) & _ & Ho) (r' & (Hr' & ur & Hur & Hu & Hid) & Hc).
  change (In ur (tbl TUserRoles w')) in Hur. rewrite Hl in Hur.
  apply in_app_or in Hur as [Hur|Hur]; [left; by exists ur|right].
  unfold role_rows_for in Hrows. rewrite List.Forall_forall in Hrows.
  destruct (Hrows ur Hur) as (_ & c & r & Hin & Hrole & Hrid).
  exists c, r, r'. change (In r' (tbl TRoles w')) in Hr'. rewrite Ho in Hr' by done.
  split_and!; try done. congruence.
Qed.

Lemma in_routes hs registration route :
  In route (routes hs registration) <->
  In route (registerSystemRoutes hs ++ registerAuthRoutes hs registration) \/
  In route (registerUsersRoutes hs ++ registerAdminRoutes hs).
Proof. unfold routes, registerAPIRoutes. rewrite !in_app_iff. tauto. Qed.

Definition seed_route (s : Permission) (route : Route) : bool :=
  String.eqb (ro_Method route) (p_Method s) && String.eqb (ro_Path route) (p_Path s).

Lemma seed_has_route hs s :
  In s seed_permissions -> existsb (seed_route s) (registerUsersRoutes hs ++ registerAdminRoutes hs) = true.
Proof. intros Hs. simpl in Hs. by repeat (destruct Hs as [<-|Hs]; [reflexivity|]). Qed.

(** The other routes have other paths. *)
Lemma seed_is_protected hs registration s :
  In s seed_permissions ->
  forallb (fun r => negb (seed_route s r))
    (registerSystemRoutes hs ++ registerAuthRoutes hs registration) = true.
Proof.
  intros Hs. simpl in Hs. by repeat (destruct Hs as [<-|Hs]; [destruct registration; reflexivity|]).
Qed.

Lemma seed_route_guarded hs s route :
  In s seed_permissions -> In route (registerUsersRoutes hs ++ registerAdminRoutes hs) ->
  seed_route s route = true -> exists h, ro_Handlers route = guarded hs (Some (p_Code s)) h.
Proof.
  intros Hs Hr. simpl in Hs, Hr.
  repeat (destruct Hr as [<-|Hr]; [repeat (destruct Hs as [<-|Hs]; [try done; intros _; by eexists|]); done|]).
  done.
Qed.

Lemma added_id_free w w' u codes v :
  account_added w w' u codes -> In v (tbl TUsers w) -> u_ID v <> u_ID u.
Proof.
  intros (Hf & _) Hv Heq. rewrite List.Forall_forall in Hf. specialize (Hf v Hv). simpl in Hf.
  by rewrite Heq, Z.eqb_refl in Hf.
Qed.

(** What a protected route requires: nothing, or a seed, which is not one of
    the users' when the route is of the administration. *)
Lemma protected_route hs route :
  In route (registerUsersRoutes hs ++ registerAdminRoutes hs) ->
  exists (needs : option Permission) h,
    ro_Handlers route = guarded hs (option_map p_Code needs) h /\
    match needs with
    | Some s => In s seed_permissions /\
                (HasPrefix (ro_Path route) "/api/v1/admin/" = true -> ~ In s user_seeds)
    | None => HasPrefix (ro_Path route) "/api/v1/admin/" = false /\
              ro_Path route = "/api/v1/users/me/authorization"
    end.
Proof.
  intros Hin. destruct (decide (ro_Path route = "/api/v1/users/me/authorization")) as [He|Hne].
  - exists None. simpl in Hin.
    repeat (destruct Hin as [<-|Hin]; [try done; by eexists|]). done.
  - assert (existsb (fun s => seed_route s route &&
        (negb (HasPrefix (ro_Path route) "/api/v1/admin/") || HasPrefix (p_Code s) "admin:"))
        seed_permissions = true) as (s & Hs & Hm)%existsb_exists.
    { simpl in Hin. repeat (destruct Hin as [<-|Hin]; [first [reflexivity|by destruct Hne]|]). done. }
    apply andb_true_iff in Hm as [Hm Ha]. destruct (seed_route_guarded hs s route Hs Hin Hm) as [h Hh].
    exists (Some s), h. split; [done|]. split; [done|]. intros Hpre Hu. rewrite Hpre in Ha. simpl in Ha, Hu.
    by repeat (destruct Hu as [<-|Hu]; [done|]).
Qed.

(** * Properties *)

(** C8. Invariant. The migrations take over the accounts and tokens of the
    earlier schema: on the database they leave, whatever service calls run, the
    keys are unique, every token is of a named family with one owner, and at
    most one token of a family is active. *)
Theorem migrated_system_sound users tokens w w' :
  legacy_ok users tokens -> migrated users tokens w -> history w w' ->
  keys_ok TUsers (tbl TUsers w') /\ keys_ok TRefreshTokens (tbl TRefreshTokens w') /\
  forall k k', In k (tbl TRefreshTokens w') -> In k' (tbl TRefreshTokens w') ->
    t_FamilyID k <> "" /\
    (coll_eqb (t_FamilyID k) (t_FamilyID k') = true ->
       t_UserID k = t_UserID k' /\ (is_active k = true -> is_active k' = true -> k = k')).
Proof.
  intros Hl Hm Hh.
  destruct (history_progress w w' Hh (migrated_sound _ _ _ Hl Hm)) as [[Hu Hs] _].
  destruct Hs as [Hk Hn _ Ho Hone]. do 2 (split; [done|]). intros k k' Hin Hin'.
  split; [auto|]. intros Hf. split; [by apply Ho|]. by apply Hone.
Qed.

(** Right after the migrations every account has the permissions of
    users, the one with the smallest id has them all, and nobody else has any. *)
Theorem migrated_permissions users tokens w uid s :
  distinct_seeds -> migrated users tokens w -> In s seed_permissions ->
  permitted w uid (p_Code s) <->
  In uid (map lu_ID users) /\ In s user_seeds \/ smallest_id users uid.
Proof.
  intros Hd Hm Hs. rewrite permitted_by_role by (try done; by eapply migrated_world_policy).
  rewrite !(migrated_has_role users tokens w uid) by done.
  pose proof (ds_roles Hd) as Hau. pose proof Hau as Hua. rewrite coll_eqb_sym in Hua.
  rewrite Hau, Hua, !coll_refl. assert (smallest_id users uid -> In uid (map lu_ID users)) by (by intros []).
  intuition congruence.
Qed.

(** C16. The seeds and the router agree: each seeded permission is required by
    exactly the route with its method and path, and each protected route but
    the one that lists the caller's own permissions requires a seeded one. *)
Theorem seeds_match_routes hs registration :
  (forall s, In s seed_permissions ->
     (exists route, In route (routes hs registration) /\ seed_route s route = true) /\
     forall route, In route (routes hs registration) -> seed_route s route = true ->
       exists h, ro_Handlers route = guarded hs (Some (p_Code s)) h) /\
  (forall route, In route (registerUsersRoutes hs ++ registerAdminRoutes hs) ->
     ro_Path route <> "/api/v1/users/me/authorization" ->
     exists s, In s seed_permissions /\ seed_route s route = true).
Proof.
  split.
  - intros s Hs. split.
    + destruct (proj1 (existsb_exists _ _) (seed_has_route hs s Hs)) as (route & Hin & Hr).
      exists route. split; [|done]. apply in_routes. by right.
    + intros route [Hin|Hin]%in_routes Hr; [|by apply seed_route_guarded].
      pose proof (proj1 (forallb_forall _ _) (seed_is_protected hs registration s Hs) route Hin) as Hn.
      simpl in Hn. by rewrite Hr in Hn.
  - intros route Hr Hne. apply existsb_exists. simpl in Hr.
    repeat (destruct Hr as [<-|Hr]; [first [reflexivity|by destruct Hne]|]). done.
Qed.

(** C7. Over any history of a system on a migrated database, the
    administration is closed to everyone but administrators: unless it is
    refused and changes no row, a request to a protected route is of an
    authenticated user, who has the role of administrators when the path is
    one of the administration, and one of the two roles otherwise; only the
    listing of one's own permissions is open to users without a role. *)
Theorem admin_routes_need_admin_role users tokens hs route rq w0 w r c' w' :
  distinct_seeds -> legacy_ok users tokens -> migrated users tokens w0 -> history w0 w ->
  has_store (hs_authService hs) ->
  In route (registerUsersRoutes hs ++ registerAdminRoutes hs) ->
  serve route (new_context rq, w) = (r, (c', w')) ->
  same_tables w w' /\ refused [401; 403; 500; 503] (new_context rq) c' \/
  exists claims, authenticated (hs_tokenManager hs) w rq claims /\
    if HasPrefix (ro_Path route) "/api/v1/admin/"
    then has_role (rows (w_db w)) (c_UserID claims) "admin"
    else ro_Path route = "/api/v1/users/me/authorization" \/
         has_role (rows (w_db w)) (c_UserID claims) "admin" \/
         has_role (rows (w_db w)) (c_UserID claims) "user".
Proof.
  intros Hd Hl Hm Hh Hs Hin Hrun.
  destruct (policy_for_good _ _ _ _ Hd Hl Hm Hh) as [[Hk _] Hp].
  destruct (protected_route hs route Hin) as (needs & h & Hhandlers & Hneeds).
  destruct route as [meth path handlers]. simpl in Hhandlers, Hneeds |- *. subst handlers.
  destruct (protected_serve _ _ _ _ _ _ _ _ _ _ Hs Hk Hrun) as [?|(claims & Ha & Hc)]; [by left|right].
  exists claims. split; [done|]. destruct needs as [s|]; simpl in Hc.
  - destruct Hneeds as [Hseed Hadmin]. apply permitted_by_role in Hc; [|done..].
    destruct (HasPrefix path "/api/v1/admin/"); [|tauto]. destruct Hc as [?|[_ Hu]]; [done|].
    by destruct (Hadmin eq_refl).
  - destruct Hneeds as [-> ->]. by left.
Qed.

(** C9. A new account may do what users may do, and nothing else, unless an
    administrator assigned roles to its id before the account existed. *)
Theorem new_account_permissions users tokens s req w0 w w' :
  distinct_seeds -> legacy_ok users tokens -> migrated users tokens w0 -> history w0 w ->
  has_rbacRepo s = true -> Register s req w = (Ok tt, w') ->
  exists u, fresh_account (TrimSpace (reg_Username req)) (reg_Password req) u /\
    tbl TUsers w' = tbl TUsers w ++ [u] /\
    forall p, In p seed_permissions ->
      (In p user_seeds -> permitted w' (u_ID u) (p_Code p)) /\
      (permitted w' (u_ID u) (p_Code p) -> In p user_seeds \/ assigned_during (u_ID u) w0 w).
Proof.
  intros Hd Hl Hm Hh Hs Hrun. destruct (policy_for_good _ _ _ _ Hd Hl Hm Hh) as [_ Hp].
  destruct (policy_for_good users tokens w0 w' Hd Hl Hm) as [_ Hp'].
  { eapply rtc_r; [exact Hh|]. by eapply step_register. }
  apply (wp_run _ _ _ _ _ (Register_spec s req w)) in Hrun as [_ (_ & _ & _ & u & Hf & Hadd)].
  rewrite Hs in Hadd. exists u. split; [done|]. split; [apply Hadd|]. intros p Hin.
  rewrite permitted_by_role by done. split.
  - intros Hu. right. split; [|done]. destruct Hadd as (_ & _ & _ & Hhas & Ho).
    destruct (Hhas RoleCodeUser) as (role & [Hr Hc] & Hur); [by left|].
    exists role. split; [|exact Hc]. split; [|exact Hur]. change (In role (tbl TRoles w')). by rewrite Ho.
  - intros [Ha|[_ Hu]]; [right|by left].
    destruct (added_roles _ _ _ _ _ Hadd Ha) as [(ur & Hur & Hid)|(c & r & r' & [<-|[]] & Hr & Hr' & Hid & Hc)].
    + destruct (history_role_rows w0 w Hh (migrated_sound _ _ _ Hl Hm)
        (fun ur => migrated_role_rows _ _ _ ur Hd Hm) ur Hur) as [(v & Hv & Hvid)|Has]; rewrite Hid in *; [|done].
      by destruct (added_id_free _ _ _ _ _ Hadd Hv).
    + assert (r' = r) as ->.
      { apply (keys_ok_unique TRoles (tbl TRoles w)); [apply (sp_role_keys _ Hp)|done|apply Hr|].
        simpl. by rewrite Hid, Z.eqb_refl. }
      pose proof (coll_trans _ _ _ (coll_sym _ _ Hc) (proj2 Hr)) as Hau. unfold RoleCodeUser in Hau.
      by rewrite (ds_roles Hd) in Hau.
Qed.

(** C33. Nothing checks that the account exists when roles are assigned to an
    id: the rows stay, and the account that is registered later under the id
    starts with these roles. *)
Theorem roles_wait_for_accounts sv uid codes w w1 s req w2 u c :
  AssignRolesToUser sv uid codes w = (Ok tt, w1) ->
  Register s req w1 = (Ok tt, w2) -> tbl TUsers w2 = tbl TUsers w1 ++ [u] -> u_ID u = uid ->
  In c codes ->
  ~ account_exists w uid /\ has_role (rows (w_db w2)) uid (TrimSpace c).
Proof.
  intros Hassign Hreg Hset Hid Hc.
  apply (wp_run _ _ _ _ _ (AssignRolesToUser_spec sv uid codes w)) in Hassign
    as [_ (_ & (roles & Hroles & Hrep) & _)].
  apply (wp_run _ _ _ _ _ (Register_spec s req w1)) in Hreg as [_ (_ & _ & _ & v & _ & Hadd)].
  assert (v = u) as ->.
  { destruct Hadd as (_ & Hset' & _). rewrite Hset in Hset'. by apply app_inj_tail in Hset' as [_ ->]. }
  assert (tbl TUsers w1 = tbl TUsers w) as Hu by (destruct Hrep as (l & _ & _ & Ho); by apply Ho).
  split.
  - intros (v & Hv & Hvid). rewrite <- Hu in Hv. apply (added_id_free _ _ _ _ _ Hadd Hv). congruence.
  - assert (In (TrimSpace c) (first_occurrences (map TrimSpace codes))) as Hin
      by (rewrite in_first_occurrences; by apply in_map).
    destruct (Forall2_In_l _ _ _ _ Hroles Hin) as (r & Hr & Hrin & Hrc).
    exists r. split; [|done].
    assert (holds_role (rows (w_db w1)) uid r) as [Hr1 (ur & Hur & Hrest)].
    { apply (holds_replaced w w1 uid roles r Hrep). split; [done|]. by exists r. }
    destruct Hadd as (_ & _ & (l & Hl & _) & _ & Ho). split.
    + change (In r (tbl TRoles w2)). by rewrite Ho.
    + exists ur. split; [|done]. change (In ur (tbl TUserRoles w2)). rewrite Hl. apply in_or_app. by left.
Qed.
End properties.

(** * Witnesses *)

(** AUTO_INCREMENT: one more than the largest id. *)
Definition next_id (t : table) (l : list (row t)) : Z := 1 + fold_right (fun r m => Z.max (row_id t r) m) 0 l.

#[local] Instance count_up : AutoIncrement.
Proof.
  refine {| auto_id := next_id |}; unfold next_id.
  - intros t l. induction l; simpl; lia.
  - intros t l r. induction l as [|x l IH]; simpl; [done|]. intros [->|Hin]; [lia|]. specialize (IH Hin). lia.
Defined.

Lemma folded_distinct_seeds : distinct_seeds.
Proof. split; [done|]. repeat constructor. Qed.

(** Two accounts and a token from before. *)
Definition old_users : list LegacyUser :=
  [mkLegacyUser 4 "root" "hash:correct horse battery" "root" 1 launch launch None None;
   mkLegacyUser 7 "alice" "hash:correct horse battery" "alice" 1 launch launch None None].
Definition old_tokens : list LegacyToken :=
  [mkLegacyToken 1 7 "jti-1" "hash-1" (launch + Hour) None None launch launch].

Lemma old_ok : legacy_ok old_users old_tokens.
Proof. split; [by repeat constructor..|]. by intros k [<-|[]]. Qed.

Definition migration_times (i : nat) : Z := launch + Z.of_nat i.

Definition migrated_world : World :=
  world (mkMemDB (migrated_tables migration_times old_users old_tokens) 10 []).

Lemma migrated_world_ok : migrated old_users old_tokens migrated_world.
Proof. by exists migration_times. Qed.

#[local] Abbreviation rotate_old :=
  (RotateRefreshToken auth_service 7 1 "jti-1" "hash-1" (Some (next_token "jti-2" "hash-2"))).
#[local] Abbreviation rotated_old_world := (snd (rotate_old migrated_world)).

Lemma rotated_old_history : history migrated_world rotated_old_world.
Proof. apply rtc_once. eapply step_rotate, surjective_pairing. Qed.

Lemma migrated_system_sound_witness :
  map is_active (tbl TRefreshTokens rotated_old_world) = [false; true] /\
  keys_ok TRefreshTokens (tbl TRefreshTokens rotated_old_world).
Proof.
  split; [vm_compute; reflexivity|].
  exact (proj1 (proj2 (migrated_system_sound old_users old_tokens migrated_world rotated_old_world
    old_ok migrated_world_ok rotated_old_history))).
Defined.

Lemma migrated_permissions_witness :
  permitted migrated_world 4 "admin:roles:read" <->
  In 4 [4; 7] /\ In (new_permission "admin:roles:read" "读取角色列表" "GET" "/api/v1/admin/roles") user_seeds \/
  smallest_id old_users 4.
Proof.
  apply (migrated_permissions old_users old_tokens migrated_world 4
    (new_permission "admin:roles:read" "读取角色列表" "GET" "/api/v1/admin/roles")
    folded_distinct_seeds migrated_world_ok).
  simpl. tauto.
Defined.

(** root administers, alice does not. *)
#[local] Abbreviation token_for uid name :=
  (match fst (GenerateAccessToken sample_manager uid name 1 migrated_world) with
   | Ok tok => tok | _ => "" end).
#[local] Abbreviation admin_roles_route :=
  (mkRoute "GET" "/api/v1/admin/roles"
     [authenticate test_handlers; require test_handlers PermissionAdminRolesRead;
      ListRolesHandler (hs_rbac test_handlers)]).
#[local] Abbreviation list_roles_as uid name :=
  (serve admin_roles_route (new_context (test_request (token_for uid name) ""), rotated_old_world)).

Lemma admin_routes_need_admin_role_witness :
  map fst (cx_Writes (fst (snd (list_roles_as 4 "root")))) = [StatusOK] /\
  map fst (cx_Writes (fst (snd (list_roles_as 7 "alice")))) = [StatusForbidden] /\
  (same_tables rotated_old_world (snd (snd (list_roles_as 4 "root"))) /\
   refused [401; 403; 500; 503] (new_context (test_request (token_for 4 "root") ""))
     (fst (snd (list_roles_as 4 "root"))) \/
   exists claims, authenticated sample_manager rotated_old_world (test_request (token_for 4 "root") "") claims /\
     has_role (rows (w_db rotated_old_world)) (c_UserID claims) "admin").
Proof.
  split; [vm_compute; reflexivity|]. split; [vm_compute; reflexivity|].
  apply (admin_routes_need_admin_role old_users old_tokens test_handlers admin_roles_route
    (test_request (token_for 4 "root") "") migrated_world rotated_old_world (Ok tt)
    (fst (snd (list_roles_as 4 "root"))) (snd (snd (list_roles_as 4 "root")))
    folded_distinct_seeds old_ok migrated_world_ok rotated_old_history).
  - reflexivity.
  - simpl. tauto.
  - apply handler_run. vm_compute. reflexivity.
Defined.

#[local] Abbreviation register_bobby :=
  (Register (NewUserService true) (mkRegisterRequest "bobby" "correct horse battery")).

Lemma new_account_permissions_witness :
  map u_ID (tbl TUsers (snd (register_bobby migrated_world))) = [4; 7; 11] /\
  exists u, tbl TUsers (snd (register_bobby migrated_world)) = tbl TUsers migrated_world ++ [u] /\
            permitted (snd (register_bobby migrated_world)) (u_ID u) "profile:read".
Proof.
  split; [vm_compute; reflexivity|].
  destruct (new_account_permissions old_users old_tokens (NewUserService true)
    (mkRegisterRequest "bobby" "correct horse battery") migrated_world migrated_world
    (snd (register_bobby migrated_world)) folded_distinct_seeds old_ok migrated_world_ok
    (rtc_refl _ _) eq_refl) as (u & _ & Hset & Hp).
  - apply run_of. vm_compute. reflexivity.
  - exists u. split; [exact Hset|].
    apply (Hp (new_permission "profile:read" "读取个人资料" "GET" "/api/v1/users/me")); simpl; tauto.
Defined.

(** The id 13 is made an administrator before there is such an account; the
    next account to register gets it. *)
#[local] Abbreviation assign_13 := (AssignRolesToUser (NewRBACService true) 13 ["admin"]).
#[local] Abbreviation waiting_world := (snd (assign_13 migrated_world)).
#[local] Abbreviation bobby :=
  (List.last (tbl TUsers (snd (register_bobby waiting_world))) alice).

Lemma roles_wait_for_accounts_witness :
  fst (assign_13 migrated_world) = Ok tt /\ map u_ID (tbl TUsers migrated_world) = [4; 7] /\
  ~ account_exists migrated_world 13 /\
  has_role (rows (w_db (snd (register_bobby waiting_world)))) 13 (TrimSpace "admin").
Proof.
  split; [vm_compute; reflexivity|]. split; [vm_compute; reflexivity|].
  apply (roles_wait_for_accounts (NewRBACService true) 13 ["admin"] migrated_world waiting_world
    (NewUserService true) (mkRegisterRequest "bobby" "correct horse battery")
    (snd (register_bobby waiting_world)) bobby "admin").
  - apply run_of. vm_compute. reflexivity.
  - apply run_of. vm_compute. reflexivity.
  - vm_compute. reflexivity.
  - vm_compute. reflexivity.
  - by left.
Defined.
