(* ===== verification/TestUtilProperties.v ===== *)
(** The properties of the test helpers: identifiers are quoted safely, tables
    are reset with the foreign key checks restored, and only test databases are
    handed out. *)
From S2P Require Import Prelude GoTime GoStrings Sha256 GoErrors Model Gorm MemDB AuthService TestUtil Instances.

(** * Bytes below 0x80 *)

Definition continues (b : Z) : Prop := RuneSelf <= b.

Lemma in_range_lo lo hi b : RuneSelf <= lo -> in_range lo hi b = true -> continues b.
Proof. unfold in_range, continues. intros Hlo [?%Z.leb_le _]%andb_true_iff. lia. Qed.

Lemma lead_cases b sz lo hi :
  lead b = Some (sz, lo, hi) -> RuneSelf <= lo /\ (sz = 2 \/ sz = 3 \/ sz = 4)%nat.
Proof.
  unfold lead, RuneSelf. intros Hl. repeat case_match; try done; injection Hl as <- <- <-; lia.
Qed.

(** What a rune takes after its first byte are bytes of 0x80 or more. *)
Lemma decode_rune_skips b l :
  Forall continues (firstn (snd (decode_rune (b :: l)) - 1) l) /\
  (b < RuneSelf -> decode_rune (b :: l) = (b, 1%nat)).
Proof.
  unfold decode_rune. destruct (Z.ltb_spec b RuneSelf) as [Hb|Hb]; [by split; [constructor|]|].
  split; [|lia]. destruct (lead b) as [[[sz lo] hi]|] eqn:Hl; [|by constructor].
  apply lead_cases in Hl as [Hlo Hsz].
  assert (forall c, cont c = true -> continues c) as Hcont by (intros c; by apply in_range_lo).
  destruct l as [|b1 l]; [by constructor|].
  destruct (in_range lo hi b1) eqn:H1; [|by constructor]. apply in_range_lo in H1; [|done].
  destruct Hsz as [-> |[-> | ->]]; cbv beta iota zeta delta [negb]; [by repeat constructor|..].
  all: destruct l as [|b2 l]; [by constructor|]; destruct (cont b2) eqn:H2; [|by constructor];
    apply Hcont in H2.
  - by repeat constructor.
  - destruct l as [|b3 l]; [by constructor|]. destruct (cont b3) eqn:H3; [|by constructor].
    apply Hcont in H3. by repeat constructor.
Qed.

Lemma runes_keep_ascii l : forall k b,
  Forall continues (firstn k l) -> In b l -> b < RuneSelf -> In b (runes_from k l).
Proof.
  induction l as [|x l IH]; intros k b Hk Hin Hb; [done|].
  destruct k as [|k]; cbn [runes_from].
  - destruct (decode_rune_skips x l) as [Hs Hx]. destruct Hin as [->|Hin].
    + rewrite Hx by done. by left.
    + destruct (decode_rune (x :: l)) as [r w]. right. auto.
  - cbn [firstn] in Hk. inversion Hk as [|? ? Hx Hk']; subst.
    destruct Hin as [->|Hin]; [unfold continues in Hx; lia|auto].
Qed.

Lemma ascii_byte_rune s b : In b (bytes s) -> b < RuneSelf -> In b (runes s).
Proof. intros Hin. apply runes_keep_ascii; [constructor|done]. Qed.

Section helpers.
Context {D : TestDriver} {UC : UnicodeClasses} {UT : UnicodeTables}.

(** * Identifiers *)

(** What a quoted identifier may have below 0x80. *)
Definition identifier_byte (b : Z) : Prop := b = 95 \/ 65 <= b <= 90 \/ 97 <= b <= 122 \/ 48 <= b <= 57.

Lemma identifier_rune_ascii r : 0 <= r < RuneSelf -> identifier_rune r = true -> identifier_byte r.
Proof.
  unfold identifier_rune, IsLetter, IsDigit, in_range, identifier_byte, RuneSelf. intros Hr Hi.
  destruct (Z.leb_spec r 0xFF); [|lia].
  rewrite !orb_true_iff, !andb_true_iff, !Z.leb_le, !Z.eqb_eq in Hi. lia.
Qed.

Lemma check_identifier_ok rs : check_identifier rs = Ok tt <-> forallb identifier_rune rs = true.
Proof. induction rs as [|r rs IH]; simpl; [done|]. by destruct (identifier_rune r). Qed.

Lemma quoteIdentifier_run identifier :
  quoteIdentifier identifier =
    if String.eqb identifier "" then Err (Failed "empty sql identifier" None)
    else if forallb identifier_rune (runes identifier) then Ok ("`" +:+ identifier +:+ "`")
    else Err (Failed "invalid sql identifier" None).
Proof.
  unfold quoteIdentifier. destruct (String.eqb _ _); [done|].
  assert (forall rs, check_identifier rs = if forallb identifier_rune rs then Ok tt
                                           else Err (Failed "invalid sql identifier" None)) as ->.
  { induction rs as [|r rs IH]; simpl; [done|]. by destruct (identifier_rune r). }
  by destruct (forallb _ _).
Qed.

Lemma quoted_bytes identifier q b :
  quoteIdentifier identifier = Ok q -> In b (bytes identifier) -> b < RuneSelf -> identifier_byte b.
Proof.
  rewrite quoteIdentifier_run. destruct (String.eqb _ _); [done|].
  destruct (forallb _ _) eqn:Hf; [|done]. intros _ Hin Hb. apply identifier_rune_ascii.
  - pose proof (bytes_range identifier) as Hr. rewrite List.Forall_forall in Hr.
    specialize (Hr b Hin). unfold is_byte in Hr. lia.
  - rewrite forallb_forall in Hf. by apply Hf, ascii_byte_rune.
Qed.

(** * Statements *)

(** Sends the statements [l], of which only the last may fail. *)
Definition sends {A} (m : Test A) (ok : A -> list string -> Prop) (stopped : list string -> Prop) : Prop :=
  forall s, wp m (fun r s' => exists l, ts_sent s' = ts_sent s ++ l /\
                   match r with Ok a => ok a l | _ => stopped l end) s.

Lemma or_fatal_sends {A} msg (m : ST error TS A) :
  sends (or_fatal msg m) (fun _ l => l = []) (fun l => l = []).
Proof.
  intros s. unfold wp, or_fatal. destruct (m (ts_driver s)) as [[a|e|] d]; exists []; by rewrite app_nil_r.
Qed.

Lemma Exec_sends msg db sql : sends (Exec msg db sql) (fun _ l => l = [sql]) (fun l => l = [sql]).
Proof.
  intros s. unfold Exec. wp_step. apply wp_modify.
  eapply wp_mono; [apply or_fatal_sends|]. intros [a|e|] s' (l & Hs & ->); exists [sql];
    by rewrite Hs, app_nil_r.
Qed.

Definition drop_statement (tableName : string) : string := "DROP TABLE IF EXISTS `" +:+ tableName +:+ "`".

Definition valid_identifier (identifier : string) : Prop := exists q, quoteIdentifier identifier = Ok q.

Lemma quoteIdentifier_quoted identifier q :
  quoteIdentifier identifier = Ok q -> q = "`" +:+ identifier +:+ "`".
Proof.
  rewrite quoteIdentifier_run. destruct (String.eqb _ _); [done|].
  destruct (forallb _ _); [|done]. by intros [= <-].
Qed.

(** The first names of the list, all valid. *)
Definition drops (names sent : list string) (k : nat) : Prop :=
  sent = map drop_statement (firstn k names) /\ (k <= length names)%nat /\
  Forall valid_identifier (firstn k names).

Lemma dropTables_sends db names :
  sends (dropTables db names) (fun _ l => drops names l (length names)) (fun l => exists k, drops names l k).
Proof.
  induction names as [|name names IH]; intros s; cbn [dropTables].
  { apply wp_ret. exists []. rewrite app_nil_r. by repeat split. }
  wp_step. unfold wp at 1, of_outcome. destruct (quoteIdentifier name) as [q|e|] eqn:Hq.
  2,3: exists []; rewrite app_nil_r; split; [done|]; exists 0%nat; repeat split; [simpl; lia|constructor].
  assert (valid_identifier name) as Hv by by exists q. apply quoteIdentifier_quoted in Hq as ->.
  assert (forall l k, drops names l k -> drops (name :: names) (drop_statement name :: l) (S k)) as Hcons.
  { intros l k (-> & Hk & Hf). split; [done|]. split; [simpl; lia|]. by constructor. }
  wp_step. wp_use (Exec_sends ("drop table " +:+ name +:+ " failed") db
    ("DROP TABLE IF EXISTS " +:+ ("`" +:+ name +:+ "`")) s).
  intros [[]|e|] s1 (l1 & Hs1 & ->); [|exists [drop_statement name]; split; [done|];
    exists 1%nat; apply (Hcons [] 0%nat); repeat split; [lia|constructor]..].
  wp_use (IH s1). intros r s2 (l2 & Hs2 & Hr). exists (drop_statement name :: l2).
  split; [by rewrite Hs2, Hs1, <- app_assoc|]. destruct r as [[]|e|]; [by apply Hcons|..];
    destruct Hr as [k Hk]; exists (S k); by apply Hcons.
Qed.

Definition reset_post (names : list string) (r : outcome stop unit) (l : list string) : Prop :=
  names = [] /\ r = Ok tt /\ l = [] \/
  names <> [] /\ r <> Ok tt /\ l = ["SET FOREIGN_KEY_CHECKS = 0"] \/
  names <> [] /\ exists k sent, drops names sent k /\ (r = Ok tt -> k = length names) /\
    l = "SET FOREIGN_KEY_CHECKS = 0" :: sent ++ ["SET FOREIGN_KEY_CHECKS = 1"].

Lemma ResetTables_spec db names s :
  wp (ResetTables db names) (fun r s' => exists l, ts_sent s' = ts_sent s ++ l /\ reset_post names r l) s.
Proof.
  unfold ResetTables, reset_post. destruct names as [|name names]; cbn [length Nat.eqb].
  { apply wp_ret. exists []. rewrite app_nil_r. auto. }
  wp_step. wp_use (Exec_sends "disable foreign key checks failed" db "SET FOREIGN_KEY_CHECKS = 0" s).
  intros [[]|e|] s1 (l1 & Hs1 & ->);
    [|exists ["SET FOREIGN_KEY_CHECKS = 0"]; split; [done|]; right; left; done..].
  pose proof (dropTables_sends db (name :: names) s1) as Hdrop. unfold wp, deferred in *.
  destruct (dropTables db (name :: names) s1) as [r s2]. destruct Hdrop as (sent & Hs2 & Hr).
  pose proof (Exec_sends "enable foreign key checks failed" db "SET FOREIGN_KEY_CHECKS = 1" s2) as Hend.
  unfold wp in Hend. destruct (Exec _ _ _ s2) as [r' s3]. destruct Hend as (l3 & Hs3 & Hl3).
  assert (l3 = ["SET FOREIGN_KEY_CHECKS = 1"]) as -> by by destruct r'.
  exists ("SET FOREIGN_KEY_CHECKS = 0" :: sent ++ ["SET FOREIGN_KEY_CHECKS = 1"]).
  split; [rewrite Hs3, Hs2, Hs1, <- !app_assoc; done|]. right. right. split; [done|].
  destruct r as [[]|e|]; [exists (length (name :: names))|destruct Hr as [k Hr]; exists k..];
    exists sent; (split; [done|]); split; try done; by destruct r'.
Qed.

(** * Properties *)

(** Resetting tables sends nothing but the DROPs of the first of the
    named tables, all of them when it returns, between turning the foreign key
    checks off and, however it ends, on again; and each name is inside a pair
    of backquotes it cannot break: below 0x80 it has only letters, digits and
    underscores. *)
Theorem reset_tables_safe db names s r s' :
  ResetTables db names s = (r, s') ->
  (exists l, ts_sent s' = ts_sent s ++ l /\ reset_post names r l) /\
  forall name b, valid_identifier name -> In b (bytes name) -> b < RuneSelf -> identifier_byte b.
Proof.
  intros Hrun. split; [by apply (wp_run _ _ _ _ _ (ResetTables_spec db names s)) in Hrun|].
  intros name b [q Hq]. by apply quoted_bytes with q.
Qed.

(** A database is handed out only under a name that has "test" in it, and with
    the lock of the integration tests held; nothing was changed on the way. *)
Theorem open_mysql_guarded Getenv s db s' :
  OpenMySQL Getenv s = (Ok db, s') ->
  ts_sent s' = ts_sent s /\ TrimSpace (Getenv TestDatabaseDSNEnv) <> "" /\
  exists d1 name d2,
    t_ScanString db "SELECT DATABASE()" [] d1 = (Ok name, d2) /\
    Contains (ToLower unicode_to_lower name) "test" = true /\
    t_ScanInt db "SELECT GET_LOCK(?, 30)" [mysqlIntegrationLockName] d2 = (Ok 1, ts_driver s').
Proof.
  unfold OpenMySQL, assertTestDatabase, acquireIntegrationLock, Fatal, bind, or_fatal, ret, fail.
  destruct (String.eqb_spec (TrimSpace (Getenv TestDatabaseDSNEnv)) ""); [done|].
  destruct (openMySQLDB _ _) as [[db0|e|] d0]; [|done..]. cbn [ts_driver ts_sent].
  destruct (t_DB db0 d0) as [[q|e|] d1]; [|done..]. cbn [ts_driver ts_sent].
  destruct (t_SetMaxOpenConns q 1 d1) as [[u|e|] d2]; [|done..]. cbn [ts_driver ts_sent].
  destruct (t_SetMaxIdleConns q 1 d2) as [[u'|e|] d3]; [|done..]. cbn [ts_driver ts_sent].
  destruct (t_ScanString db0 _ _ d3) as [[name|e|] d4] eqn:Hname; [|done..]. cbn [ts_driver ts_sent].
  destruct (Contains _ _) eqn:Hc; [|done]. cbn [negb ts_driver ts_sent].
  destruct (t_ScanInt db0 _ _ d4) as [[z|e|] d5] eqn:Hlock; [|done..]. cbn [ts_driver ts_sent].
  destruct (Z.eqb_spec z 1) as [->|]; [|done]. cbn [negb]. intros [= <- <-].
  split; [done|]. split; [done|]. by exists d3, name, d4.
Qed.
End helpers.

(** * Witnesses *)

(** A driver whose calls fail as the list says. *)
Definition flaky {A} (a : A) : ST error (list bool) A := fun faults =>
  match faults with
  | true :: rest => (Err (Plain "driver: bad connection"), rest)
  | false :: rest => (Ok a, rest)
  | [] => (Ok a, [])
  end.

#[local] Instance flaky_driver : TestDriver := {|
  TS := list bool;
  TestGorm := unit;
  TestSql := unit;
  t_Open := fun _ => flaky tt;
  t_DB := fun _ => flaky tt;
  t_SetMaxOpenConns := fun _ _ => flaky tt;
  t_SetMaxIdleConns := fun _ _ => flaky tt;
  t_Close := fun _ => flaky tt;
  t_Exec := fun _ _ => flaky tt;
  t_ScanString := fun _ _ _ => flaky "Go_User_Test";
  t_ScanInt := fun _ _ _ => flaky 1;
  t_RandRead := fun n => flaky (repeat 171 n);
|}.

#[local] Instance latin_only : UnicodeClasses := {| letter_table := fun _ => false; digit_table := fun _ => false |}.

Definition quiet_state : TestState := mkTestState [] [].
Definition dropping_fails : TestState := mkTestState [false; true] [].

Lemma reset_tables_safe_witness :
  fst (ResetTables tt ["users"; "roles`; DROP"] quiet_state) = Err (Failed "invalid sql identifier" None) /\
  ts_sent (snd (ResetTables tt ["users"; "roles"] dropping_fails)) =
    ["SET FOREIGN_KEY_CHECKS = 0"; "DROP TABLE IF EXISTS `users`"; "SET FOREIGN_KEY_CHECKS = 1"] /\
  exists l, ts_sent (snd (ResetTables tt ["users"; "roles"] dropping_fails)) = [] ++ l /\
            reset_post ["users"; "roles"] (fst (ResetTables tt ["users"; "roles"] dropping_fails)) l.
Proof.
  split; [vm_compute; reflexivity|]. split; [vm_compute; reflexivity|].
  exact (proj1 (reset_tables_safe tt ["users"; "roles"] dropping_fails _ _ (surjective_pairing _))).
Defined.

Definition test_env_vars (k : string) : string := if String.eqb k "TEST_DATABASE_DSN" then "dsn" else "".

Lemma open_mysql_guarded_witness :
  fst (OpenMySQL test_env_vars quiet_state) = Ok tt /\ TrimSpace (test_env_vars TestDatabaseDSNEnv) <> "".
Proof.
  split; [vm_compute; reflexivity|].
  apply (open_mysql_guarded test_env_vars quiet_state tt (snd (OpenMySQL test_env_vars quiet_state))).
  apply run_of. vm_compute. reflexivity.
Defined.
