(* ===== verification/MetricsProperties.v ===== *)
(** The metrics are well formed: registering them cannot panic, and every call
    a request makes on them has the labels of its vector. *)
From S2P Require Import Prelude GoTime GoStrings GoNet Sha256 GoErrors Model Gorm AuthState MemDB World.
From S2P Require Import Dao RefreshRepo RbacRepo TokenManager AuthService UserService RbacService.
From S2P Require Import Web Metrics Registry UserHandler RbacHandler Middleware Server Instances.
From S2P Require Import AuthTheorems HttpTheorems ServerTheorems.

(** * ASCII text is valid UTF-8 *)

Definition ascii_bytes (s : string) : Prop := forall b, In b (bytes s) -> b < RuneSelf.

Lemma runes_ascii l : (forall b, In b l -> 0 <= b < RuneSelf) -> runes_from 0 l = l.
Proof.
  induction l as [|b l IH]; intros Hl; [done|]. cbn [runes_from]. unfold decode_rune.
  destruct (Hl b ltac:(by left)) as [_ Hb]. rewrite (proj2 (Z.ltb_lt _ _) Hb). cbn [Nat.sub].
  rewrite IH; [done|]. intros c Hc. apply Hl. by right.
Qed.

Lemma encode_ascii l : (forall b, In b l -> 0 <= b < RuneSelf) -> flat_map encode_rune l = l.
Proof.
  induction l as [|b l IH]; intros Hl; [done|]. cbn [flat_map].
  rewrite IH by (intros c Hc; apply Hl; by right). unfold encode_rune, in_range.
  destruct (Hl b ltac:(by left)) as [H0 Hb]. unfold RuneSelf in Hb.
  rewrite (proj2 (Z.leb_le 0 b)), (proj2 (Z.leb_le b 127)) by lia. done.
Qed.

Lemma ascii_valid s : ascii_bytes s -> ValidString s = true.
Proof.
  intros Ha. unfold ValidString. apply bool_decide_eq_true.
  assert (forall b, In b (bytes s) -> 0 <= b < RuneSelf) as Hb.
  { intros b Hin. pose proof (bytes_range s) as Hr. rewrite List.Forall_forall in Hr.
    specialize (Hr b Hin). unfold is_byte in Hr. split; [lia|by apply Ha]. }
  unfold runes. rewrite runes_ascii, encode_ascii by done. apply of_bytes_bytes.
Qed.

(** ** Decimal numbers *)

Lemma parsed_digits l : forall acc z, parse_digits acc l = Some z -> forall b, In b l -> b < RuneSelf.
Proof.
  induction l as [|c l IH]; intros acc z Hp b Hb; [done|]. simpl in Hp. unfold in_range, RuneSelf in *.
  destruct ((48 <=? c) && (c <=? 57)) eqn:Hc; [|done].
  apply andb_true_iff in Hc as [_ Hc%Z.leb_le]. destruct Hb as [<-|Hb]; [lia|by eapply IH].
Qed.

Lemma format_int_ascii z : ascii_bytes (format_int z).
Proof.
  assert (forall x : N, ascii_bytes (pretty.pretty x)) as Hn
    by (intros x b; eapply parsed_digits, parse_pretty_N).
  unfold format_int. destruct z as [|p|p].
  - by intros b [<-|[]].
  - exact (Hn (N.pos p)).
  - intros b [<-|Hb]; [done|]. exact (Hn (N.pos p) b Hb).
Qed.

Section properties.
Context {STO : Storage} {G : Gorm} {GL : GormLaws} {SS : Store}.
Context {E : Env} {UT : UnicodeTables} {J : JWT} {JL : JWTLaws} {B : Bcrypt} {JB : JSONBinding}.
Context {US : UserStore} {UL : UserStoreLaws} {AUS : AuthUserStore} {AUL : AuthUserStoreLaws}.
Context {RR : RefreshTokenRepository} {RB : RBACRepository}.
Context {GIN : Gin} {GNL : GinLaws} {P : Prometheus} {PL : PrometheusLaws}.

(** * Registration *)

Definition own_vecs : list Vec :=
  [requests_total; request_duration; requests_in_flight; readiness_gauge; build_info].

Lemma own_names :
  map (fun v => fq_name (vec_Opts v)) own_vecs =
    ["go_user_system_http_requests_total"; "go_user_system_http_request_duration_seconds";
     "go_user_system_http_requests_in_flight"; "go_user_system_readiness"; "go_user_system_build_info"].
Proof. unfold fq_name. simpl. by rewrite !fq_name_law. Qed.

Definition valid_vecb (v : Vec) : bool :=
  bool_decide (NoDup (vec_Labels v)) &&
  forallb (fun l => valid_name l && negb (HasPrefix l "__") && negb (String.eqb l "le")) (vec_Labels v).

Lemma own_valid v : In v own_vecs -> valid_vec v.
Proof.
  intros Hv. unfold valid_vec. split; [|split].
  - assert (forallb valid_name (map (fun v => fq_name (vec_Opts v)) own_vecs) = true) as Hn
      by (by rewrite own_names).
    rewrite forallb_forall in Hn. apply Hn. by apply (in_map (fun v => fq_name (vec_Opts v))).
  - assert (forallb valid_vecb own_vecs = true) as Hall by done. rewrite forallb_forall in Hall.
    specialize (Hall v Hv). apply andb_true_iff in Hall as [Hd _]. apply NoDup_ListNoDup.
    by apply bool_decide_eq_true in Hd.
  - assert (forallb valid_vecb own_vecs = true) as Hall by done. rewrite forallb_forall in Hall.
    specialize (Hall v Hv). apply andb_true_iff in Hall as [_ Hl]. rewrite forallb_forall in Hl.
    intros l Hin. specialize (Hl l Hin). bool_to_prop. done.
Qed.

Definition runtime_names : list string := described GoCollector ++ described ProcessCollector.

Lemma own_names_fresh :
  List.NoDup (runtime_names ++ map (fun v => fq_name (vec_Opts v)) own_vecs).
Proof.
  destruct runtime_described_law as [Hd Hn]. rewrite own_names.
  apply List.NoDup_app; [done|..].
  - apply NoDup_ListNoDup, (bool_decide_unpack _). vm_compute. exact I.
  - intros name Hr Ho. apply Hn in Hr.
    assert (forallb (fun n => HasPrefix n "go_user_system_")
      ["go_user_system_http_requests_total"; "go_user_system_http_request_duration_seconds";
       "go_user_system_http_requests_in_flight"; "go_user_system_readiness"; "go_user_system_build_info"]
      = true) as Hall by done.
    rewrite forallb_forall in Hall. by rewrite (Hall name Ho) in Hr.
Qed.

Definition valid_build (build : Info) : Prop :=
  ValidString (Version build) = true /\ ValidString (Commit build) = true /\
  ValidString (BuildTime build) = true.

Lemma NewMetrics_ok build :
  valid_build build -> exists reg,
    NewMetrics build = Ok (mkMetricSet reg requests_total request_duration requests_in_flight readiness_gauge).
Proof.
  intros (Hv & Hc & Ht). unfold NewMetrics.
  rewrite with_law by (try done; intros x [<-|[<-|[<-|[]]]]; done).
  edestruct (register_law prom_NewRegistry) as (reg & -> & _); [| |by exists reg].
  - intros v Hin. apply own_valid. simpl in Hin. unfold own_vecs.
    destruct Hin as [?|[?|Hin]]; [done..|]. simpl.
    repeat (destruct Hin as [[= <-]|Hin]; [tauto|]). done.
  - rewrite new_registry_law. simpl. rewrite !own_described_law.
    pose proof own_names_fresh as Hf. unfold runtime_names in Hf. rewrite <- app_assoc in Hf. exact Hf.
Qed.

(** * Labels *)

Definition labels_of (c : metric_call) : list string :=
  match c with
  | InFlightInc m | InFlightDec m => [m]
  | RequestsInc m r s => [m; r; s]
  | DurationObserve m r _ => [m; r]
  | ReadinessSet _ => []
  end.

Lemma valid_call reg c :
  (forall x, In x (labels_of c) -> ValidString x = true) ->
  accepted (mkMetricSet reg requests_total request_duration requests_in_flight readiness_gauge) c = true.
Proof. intros Hl. destruct c; unfold accepted; simpl; by rewrite with_law. Qed.

Lemma method_valid method : ValidString (metricMethod method) = true.
Proof.
  unfold metricMethod. case_bool_decide as Hin; [|done].
  assert (forallb ValidString standardMethods = true) as Hall by done.
  rewrite forallb_forall in Hall. by apply Hall, list_elem_of_In.
Qed.

Lemma route_valid hs registration route :
  In route (routes hs registration) -> ValidString (route_label (ro_Path route)) = true.
Proof.
  intros Hin.
  assert (forallb (fun r => ValidString (route_label (ro_Path r))) (routes hs registration) = true) as Hall
    by (destruct registration; vm_compute; reflexivity).
  rewrite forallb_forall in Hall. by apply Hall.
Qed.

(** * Properties *)

(** C31. Typing of the metrics. With build information in UTF-8, [NewMetrics]
    does not panic: the names are valid and different, the ones of the Go
    runtime included, and so are the labels. And whatever a request to a route
    does on the metrics, timed out or not, each call is on a vector of a type
    that has the operation, with a value in UTF-8 for each of its labels, so
    that none of them panics. *)
Theorem metrics_well_typed build db hdb tm runtime h v route rq w r x w' :
  valid_build build -> SetupRouter db hdb tm build [runtime] = inr h ->
  gin_match (setup_routes db hdb tm build runtime) (rq_Method rq) (rq_Path rq) = Some route ->
  rq_Path rq <> "/metrics" -> h v rq (new_exchange, w) = (r, (x, w')) ->
  exists m, NewMetrics build = Ok m /\ ex_Metrics x <> [] /\
            forallb (accepted m) (ex_Metrics x) = true.
Proof.
  intros Hb Hs Hm Hp Hrun. destruct (NewMetrics_ok build Hb) as [reg Hnew].
  eexists. split; [exact Hnew|]. rewrite (SetupRouter_inv _ _ _ _ _ _ Hs) in Hrun.
  destruct (match_law _ _ _ _ Hm) as [Hin _].
  destruct (router_run v (ar_RequestTimeout runtime) _ _ _ rq w Hm Hp)
    as (x0 & w0 & id & lid & st & Hrun0 & _ & [_ _ _ _ (ready & label & d & Hx & Hlabel) _]).
  unfold setup_routes in Hrun, Hin. rewrite Hrun0 in Hrun. injection Hrun as <- <- <-.
  rewrite Hx. split; [done|]. apply forallb_forall. intros c Hc. apply valid_call.
  assert (ValidString label = true) as Hl.
  { destruct Hlabel as [->|[_ ->]]; [by eapply route_valid|done]. }
  pose proof (method_valid (rq_Method rq)) as Hmv.
  pose proof (ascii_valid _ (format_int_ascii (sent_status (ex_Calls x0)))) as Hst.
  apply (in_app_or [_] _ c) in Hc as [[<-|[]]|[Hc|Hc]%in_app_or].
  - by intros y [<-|[]].
  - by apply in_map_iff in Hc as (b & <- & _).
  - destruct Hc as [<-|[<-|[<-|[]]]]; intros y; simpl; intros Hy;
      repeat (destruct Hy as [<-|Hy]; [done|]); done.
Qed.
End properties.

(** * Witness *)

(** A registry as the list of its names, which checks the labels of a call. *)
#[local] Instance list_prometheus : Prometheus := {|
  PromRegistry := list string;
  prom_NewRegistry := [];
  prom_MustRegister := fun reg cs =>
    let names := flat_map (fun c => match c with
      | GoCollector => ["go_goroutines"]
      | ProcessCollector => ["process_open_fds"]
      | OwnVec v => [String.concat "_" (List.filter (fun part => negb (String.eqb part ""))
                       [o_Namespace (vec_Opts v); o_Subsystem (vec_Opts v); o_Name (vec_Opts v)])]
      end) cs in
    if bool_decide (NoDup (reg ++ names)) then Ok (reg ++ names) else Panic;
  prom_WithLabelValues := fun v values =>
    (length values =? length (vec_Labels v))%nat && forallb ValidString values;
  prom_BuildFQName := fun namespace subsystem name =>
    String.concat "_" (List.filter (fun part => negb (String.eqb part "")) [namespace; subsystem; name]);
|}.

#[local] Instance list_prometheus_laws : PrometheusLaws.
Proof.
  refine {| registered := fun reg => reg;
            described := fun c => match c with
              | GoCollector => ["go_goroutines"]
              | ProcessCollector => ["process_open_fds"]
              | OwnVec v => [fq_name (vec_Opts v)]
              end |}; try done.
  - split; [apply NoDup_ListNoDup, (bool_decide_unpack _); exact I|].
    by intros name [<-|[<-|[]]].
  - intros reg cs _ Hnd. eexists. split; [|reflexivity]. unfold prom_MustRegister. simpl.
    by rewrite bool_decide_eq_true_2 by (apply NoDup_ListNoDup; exact Hnd).
  - intros v values Hlen Hval. simpl. rewrite Hlen, Nat.eqb_refl. by apply forallb_forall.
Defined.

#[local] Abbreviation sample_runtime :=
  (mkAuthRuntime true (mkLoginRateLimit 2 20 (15 * Minute)) (Some true) true [] (10 * Second)).
#[local] Abbreviation sample_health := (Some (mkHealthDB true (ret tt) (ret tt))).
#[local] Abbreviation sample_server :=
  (match SetupRouter true sample_health sample_manager default_build [sample_runtime] with
   | inr h => h | inl _ => fun _ _ => panic end).
#[local] Abbreviation ready_request :=
  (mkRequest "GET" "/readyz" false (fun _ => "") (fun _ => None) (fun _ => "") "10.0.0.1" "").
#[local] Abbreviation ready_run := (sample_server Finished ready_request (new_exchange, alice_world)).

Lemma run_parts {A C D} (x : A * (C * D)) : x = (fst x, (fst (snd x), snd (snd x))).
Proof. by destruct x as [? [? ?]]. Qed.

Lemma metrics_well_typed_witness :
  length (ex_Metrics (fst (snd ready_run))) = 5%nat /\
  exists m, NewMetrics default_build = Ok m /\ ex_Metrics (fst (snd ready_run)) <> [] /\
            forallb (accepted m) (ex_Metrics (fst (snd ready_run))) = true.
Proof.
  split; [vm_compute; reflexivity|].
  apply (metrics_well_typed default_build true sample_health sample_manager sample_runtime sample_server
    Finished (mkRoute "GET" "/readyz"
      [ReadyzHandler (hs_health (SetupHandlers true sample_health sample_manager true
         (mkLoginRateLimit 2 20 (15 * Minute)) true default_build))])
    ready_request alice_world (fst ready_run) (fst (snd ready_run)) (snd (snd ready_run))).
  - by vm_compute.
  - reflexivity.
  - reflexivity.
  - discriminate.
  - apply run_parts.
Defined.
