(* ===== verification/ApiProperties.v ===== *)
(** The properties of the documentation of the API: it names the routes of the
    service, and lists the answers they give. *)
From S2P Require Import Prelude GoTime GoStrings Sha256 GoErrors Model Gorm AuthState MemDB World.
From S2P Require Import Dao RefreshRepo RbacRepo TokenManager AuthService UserService RbacService.
From S2P Require Import Web Metrics UserHandler RbacHandler ApiDocs Middleware Server Instances.
From S2P Require Import AuthStateTheorems TokenTheorems AuthTheorems UserTheorems RbacTheorems HttpTheorems.
From S2P Require Import ServerTheorems ApiTheorems.

Section properties.
Context {STO : Storage} {G : Gorm} {GL : GormLaws} {SS : Store} {SL : StoreLaws}.
Context {E : Env} {UT : UnicodeTables} {J : JWT} {JL : JWTLaws}.
Context {B : Bcrypt} {BL : BcryptLaws} {JB : JSONBinding}.
Context {US : UserStore} {UL : UserStoreLaws} {AUS : AuthUserStore} {AUL : AuthUserStoreLaws}.
Context {RR : RefreshTokenRepository} {RL : RefreshTokenRepositoryLaws}.
Context {RB : RBACRepository} {RBL : RBACRepositoryLaws} {GIN : Gin} {GNL : GinLaws}.

(** C32. Equivalence. The document generated for the API and the router agree.
    What [SetupRouter] registers with registration open are the operations of
    the document, path parameters spelled as the format spells them, and two
    routes more, whose handlers are libraries': the metrics and the pages of
    Swagger, which the document does not have. And the document asks for a
    token on those routes alone that are behind the authentication
    middleware. *)
Theorem documented_routes hs :
  map (fun '(method, path) => (ToLower (fun c => c) method, doc_path path)) (registeredRoutes hs true) ≡ₚ
  map (fun '(path, method, _) => (method, path)) doc_operations ++
    [("get", "/metrics"); ("get", "/swagger/*any")] /\
  Forall (fun r => (needs_token <$> doc_operation (ro_Method r) (ro_Path r)) = Some false)
    (registerSystemRoutes hs ++ registerAuthRoutes hs true) /\
  Forall (fun r => (needs_token <$> doc_operation (ro_Method r) (ro_Path r)) = Some true /\
                   exists rest, ro_Handlers r = authenticate hs :: rest)
    (registerUsersRoutes hs ++ registerAdminRoutes hs).
Proof.
  split; [apply (bool_decide_eq_true_1 _); vm_compute; reflexivity|]. split.
  - repeat (apply Forall_cons_2; [vm_compute; reflexivity|]). apply Forall_nil_2.
  - repeat (apply Forall_cons_2; [split; [vm_compute; reflexivity|by eexists]|]). apply Forall_nil_2.
Qed.

(** The routes that answer without the authentication middleware. *)
Lemma open_routes_listed format w hs :
  Forall (route_listed format w) (registerSystemRoutes hs ++ registerAuthRoutes hs true).
Proof.
  repeat (apply Forall_cons_2; [apply open_listed|]); try apply Forall_nil_2.
  all: try (intros key; first
    [ apply PingHandler_says | apply LivezHandler_says | apply ReadyzHandler_says | apply VersionHandler_says
    | apply RegisterHandler_says | apply LoginHandler_says | apply RefreshTokenHandler_says
    | apply LogoutHandler_says ]).
  all: first [left; by intros [c w0] | right; answer_by_computation].
Qed.

(** An error whose status is one of a few is listed. *)
Ltac errors_by_computation :=
  intros st code msg Hin; simpl in Hin; repeat (destruct Hin as [<-|Hin]; [answer_by_computation|]);
  destruct Hin.

(** The routes behind it. *)
Lemma guarded_routes_listed format w hs :
  has_store (hs_authService hs) -> keys_ok TUsers (tbl TUsers w) ->
  Forall (route_listed format w) (registerUsersRoutes hs ++ registerAdminRoutes hs).
Proof.
  intros Hst Hk.
  unfold registerUsersRoutes, registerAdminRoutes. cbn [app].
  repeat (apply Forall_cons_2;
    [ lazymatch goal with
      | |- route_listed _ _ (mkRoute ?m ?p [_; require _ ?code; ?h]) =>
        apply (guarded_listed format hs w m p (Some code) h Hst Hk)
      | |- route_listed _ _ (mkRoute ?m ?p [_; ?h]) => apply (guarded_listed format hs w m p None h Hst Hk)
      end |]); try apply Forall_nil_2.
  all: first [by errors_by_computation | intros uid Hu].
  all: lazymatch goal with
    | |- says _ _ (MeHandler _) => by apply (MeHandler_says format _ uid)
    | |- says _ _ (UpdateProfileHandler _) => by apply (UpdateProfileHandler_says format _ uid)
    | |- says _ _ (UpdateUserPasswordHandler _) => by apply (UpdateUserPasswordHandler_says format _ uid)
    | |- says _ _ (GetMyAuthorizationHandler _) => by apply (GetMyAuthorizationHandler_says format _ uid)
    | |- says _ _ (ListRolesHandler _) => apply ListRolesHandler_says
    | |- says _ _ (ListPermissionsHandler _) => apply ListPermissionsHandler_says
    | |- says _ _ (AssignUserRolesHandler _) => apply AssignUserRolesHandler_says
    end.
Qed.

Lemma in_all_routes hs registration route :
  In route (routes hs registration) ->
  In route ((registerSystemRoutes hs ++ registerAuthRoutes hs true) ++
            (registerUsersRoutes hs ++ registerAdminRoutes hs)).
Proof. unfold routes, registerAPIRoutes. destruct registration; simpl; tauto. Qed.

(** What the handlers of a route and the middleware around them write. *)
Lemma served_listed format w hs registration route :
  has_store (hs_authService hs) -> keys_ok TUsers (tbl TUsers w) ->
  In route (routes hs registration) -> route_listed format w route.
Proof.
  intros Hst Hk Hin%in_all_routes. apply in_app_iff in Hin as [Hin|Hin].
  - by apply (proj1 (List.Forall_forall _ _) (open_routes_listed format w hs)).
  - by apply (proj1 (List.Forall_forall _ _) (guarded_routes_listed format w hs Hst Hk)).
Qed.

(** The answer of the timeout, whose body is [Server.timeout_body]. *)
Definition timeout_answer : Response := mkResponse CodeRequestTimeout "request timeout" NoData.

(** The document lists it for the readiness probe alone. *)
Definition timeout_documented_at (format : Z -> string) (method path : string) : bool :=
  match doc_operation method path with
  | Some operation =>
    Bool.eqb (documented format operation StatusServiceUnavailable timeout_answer) (String.eqb path "/readyz")
  | None => false
  end.

Lemma timeout_documented format hs registration route :
  In route (routes hs registration) ->
  exists operation, doc_operation (ro_Method route) (ro_Path route) = Some operation /\
    documented format operation StatusServiceUnavailable timeout_answer
    = String.eqb (ro_Path route) "/readyz".
Proof.
  intros Hin%in_all_routes.
  assert (forallb (fun r => timeout_documented_at format (ro_Method r) (ro_Path r))
            ((registerSystemRoutes hs ++ registerAuthRoutes hs true) ++
             (registerUsersRoutes hs ++ registerAdminRoutes hs)) = true) as Hall
    by (vm_compute; reflexivity).
  pose proof (proj1 (forallb_forall _ _) Hall _ Hin) as Hr. cbv beta in Hr. unfold timeout_documented_at in Hr.
  destruct (doc_operation _ _) as [op|]; [|discriminate Hr].
  exists op. split; [reflexivity|]. by apply Bool.eqb_prop.
Qed.

(** C15. Contract. Every answer to a request to a route of the repository, by
    what [SetupRouter] returns, is one that the document lists for the
    operation of the route, with a body of the schema the document gives,
    whatever the request: the answers of the middleware, of the handler and of
    the recovery from a panic. The document leaves out a few failures, which
    carry no data: that the state store is not available (503) wherever one is
    used, that the account is gone (404) under [/users/me], that the new
    password is the old one (409), and a panic of a probe (500). A request that
    times out is answered with 503 and the body of the timeout, which the
    document lists for the readiness probe and for no other operation; a client
    that has gone gets a bare 503. *)
Theorem documented_answers format db hdb m build runtime h v route rq w :
  SetupRouter db hdb m build [runtime] = inr h -> ar_StateStore runtime = true ->
  keys_ok TUsers (tbl TUsers w) ->
  gin_match (setup_routes db hdb m build runtime) (rq_Method rq) (rq_Path rq) = Some route ->
  rq_Path rq <> "/metrics" ->
  exists x w' operation wa c wb status answer,
    h v rq (new_exchange, w) = (Ok tt, (x, w')) /\
    doc_operation (ro_Method route) (ro_Path route) = Some operation /\
    calm w wa /\ serve route (new_context (with_route_state rq), wa) = (Ok tt, (c, wb)) /\
    cx_Writes c = [(status, answer)] /\
    (documented format operation status answer = true \/
     In status (undocumented (ro_Path route)) /\ resp_Data answer = NoData) /\
    match kind_of v (ar_RequestTimeout runtime) with
    | Answered => exists body rest, ex_Calls x = WriteHeader status :: Write body :: map Write rest
    | TimedOut =>
      ex_Calls x = [WriteHeader StatusServiceUnavailable;
                    Write (json_Response (resp_Code timeout_answer) (resp_Msg timeout_answer))] /\
      documented format operation StatusServiceUnavailable timeout_answer
      = String.eqb (ro_Path route) "/readyz"
    | Gone => ex_Calls x = [WriteHeader StatusServiceUnavailable]
    end.
Proof.
  intros Hs Hstore Hk Hm Hp. destruct (match_law _ _ _ _ Hm) as [Hin _]. unfold setup_routes in Hin.
  rewrite (SetupRouter_inv _ _ _ _ _ _ Hs).
  destruct (router_run v (ar_RequestTimeout runtime) _ _ _ rq w Hm Hp)
    as (x & w' & id & lid & st & Hrun & (wa & c & wb & Ha & Hserve & Hst & _) & Hh).
  destruct (serve_outcome _ _ route (with_route_state rq) wa Hin)
    as (id' & [status answer] & c' & wb' & Hserve' & _ & Hw & _).
  rewrite Hserve in Hserve'. injection Hserve' as <- <-.
  assert (status = st) as -> by (unfold cx_Status in Hst; by rewrite Hw in Hst).
  destruct (timeout_documented format _ _ route Hin) as (op & Hop & Htimeout).
  exists x, w', op, wa, c, wb, st, answer. do 5 (split; [done|]). split.
  - assert (route_listed format wa route) as Hl.
    { eapply served_listed; [| |exact Hin]; [by rewrite Hstore|]. by rewrite <- (proj1 Ha TUsers). }
    pose proof (Hl _ _ _ _ Hserve) as Hf. rewrite Hw in Hf. apply Forall_inv in Hf.
    unfold listed_answers in Hf. by rewrite Hop in Hf.
  - pose proof (hd_calls _ _ _ _ _ _ _ _ _ Hh) as Hc. by destruct (kind_of _ _).
Qed.
End properties.

(** * Witness *)

(** Alice may change her password, and offers the one she has. *)
Definition password_route_path : string := "/api/v1/users/me/update/password".
Definition api_world : World :=
  world (with_roles [role_user] [mkPermission 1 PermissionPasswordUpdate "password" "PATCH" password_route_path launch launch]
           [mkUserRole 1 1 launch] [mkRolePermission 1 1 launch] (db_with [alice] [])).

#[local] Abbreviation same_password_request :=
  (mkRequest "PATCH" password_route_path false
     (fun k => if String.eqb k "Authorization" then "Bearer " +:+
                 match fst (GenerateAccessToken sample_manager 1 "alice" 1 api_world) with Ok tok => tok | _ => "" end
               else "")
     (fun _ => None) (fun _ => "") "10.0.0.1" "correct horse battery").

Definition api_runtime : AuthRuntime :=
  mkAuthRuntime true (mkLoginRateLimit 2 20 (15 * Minute)) None true ["10.0.0.0/8"] (5 * Second).

Definition api_health : option HealthDB := Some (mkHealthDB true (ret tt) (ret tt)).

Definition api_server (v : verdict) : http_Handler :=
  match SetupRouter true api_health sample_manager default_build [api_runtime] with
  | inl _ => fun _ => panic
  | inr h => h v
  end.

#[local] Abbreviation api_handlers :=
  (SetupHandlers true api_health sample_manager true (ar_LoginRateLimit api_runtime) true default_build).
#[local] Abbreviation password_route :=
  (mkRoute "PATCH" password_route_path
     [authenticate api_handlers; require api_handlers PermissionPasswordUpdate;
      UpdateUserPasswordHandler (hs_user api_handlers)]).
#[local] Abbreviation same_password_run v := (api_server v same_password_request (new_exchange, api_world)).

Lemma api_setup : SetupRouter true api_health sample_manager default_build [api_runtime] = inr api_server.
Proof. reflexivity. Qed.

Lemma password_matched :
  gin_match (setup_routes true api_health sample_manager default_build api_runtime)
    (rq_Method same_password_request) (rq_Path same_password_request) = Some password_route.
Proof. reflexivity. Qed.

Lemma documented_answers_witness :
  sent_status (ex_Calls (fst (snd (same_password_run Finished)))) = StatusConflict /\
  ex_Calls (fst (snd (same_password_run (DeadlineExceeded true)))) =
    [WriteHeader StatusServiceUnavailable; Write timeout_body] /\
  exists x w' operation status answer,
    same_password_run Finished = (Ok tt, (x, w')) /\
    doc_operation (ro_Method password_route) (ro_Path password_route) = Some operation /\
    (documented format_int operation status answer = true \/
     In status (undocumented (ro_Path password_route)) /\ resp_Data answer = NoData).
Proof.
  split; [vm_compute; reflexivity|]. split; [vm_compute; reflexivity|].
  destruct (documented_answers format_int true api_health sample_manager default_build api_runtime api_server
    Finished password_route same_password_request api_world api_setup eq_refl
    ltac:(keys_by_computation) password_matched ltac:(discriminate))
    as (x & w' & op & wa & c & wb & st & answer & Hrun & Hop & _ & _ & _ & Hl & _).
  exists x, w', op, st, answer. split; [exact Hrun|]. split; [exact Hop|exact Hl].
Defined.
