(* ===== verification/SchemaProperties.v ===== *)
(** The properties of the schema: the migrations make the one the structs ask
    for and the model has, which is that of the tests too, and going down
    takes back what going up did. *)
From S2P Require Import Prelude GoTime GoStrings Sha256 GoErrors Model Gorm AuthState MemDB World.
From S2P Require Import AuthService TestUtil Schema Instances.

(** A value of a column, as the model has it. *)
Inductive cell :=
| CInt (z : Z)
| CText (s : string)
| CTime (t : Z)
| CNullText (s : option string)
| CNullTime (t : option Z).

(** The columns of a row under gorm's names for the fields, in the order of
    the struct. *)
Definition cells (t : table) : row t -> list (string * cell) :=
  match t with
  | TUsers => fun u =>
      [("id", CInt (u_ID u)); ("username", CText (u_Username u));
       ("password_hash", CText (u_PasswordHash u)); ("nickname", CText (u_Nickname u));
       ("status", CInt (u_Status u)); ("auth_version", CInt (u_AuthVersion u));
       ("created_at", CTime (u_CreatedAt u)); ("updated_at", CTime (u_UpdatedAt u));
       ("last_login_at", CNullTime (u_LastLoginAt u)); ("deleted_at", CNullTime (u_DeletedAt u))]
  | TRefreshTokens => fun k =>
      [("id", CInt (t_ID k)); ("user_id", CInt (t_UserID k)); ("jti", CText (t_JTI k));
       ("family_id", CText (t_FamilyID k)); ("token_hash", CText (t_TokenHash k));
       ("expires_at", CTime (t_ExpiresAt k)); ("revoked_at", CNullTime (t_RevokedAt k));
       ("revoked_reason", CNullText (t_RevokedReason k));
       ("replaced_by_jti", CNullText (t_ReplacedByJTI k));
       ("created_at", CTime (t_CreatedAt k)); ("updated_at", CTime (t_UpdatedAt k))]
  | TRoles => fun r =>
      [("id", CInt (r_ID r)); ("code", CText (r_Code r)); ("name", CText (r_Name r));
       ("created_at", CTime (r_CreatedAt r)); ("updated_at", CTime (r_UpdatedAt r))]
  | TPermissions => fun p =>
      [("id", CInt (p_ID p)); ("code", CText (p_Code p)); ("name", CText (p_Name p));
       ("method", CText (p_Method p)); ("path", CText (p_Path p));
       ("created_at", CTime (p_CreatedAt p)); ("updated_at", CTime (p_UpdatedAt p))]
  | TUserRoles => fun r =>
      [("user_id", CInt (ur_UserID r)); ("role_id", CInt (ur_RoleID r)); ("created_at", CTime (ur_CreatedAt r))]
  | TRolePermissions => fun r =>
      [("role_id", CInt (rp_RoleID r)); ("permission_id", CInt (rp_PermissionID r));
       ("created_at", CTime (rp_CreatedAt r))]
  end.

Section schema.
Context {STO : Storage}.

Definition cell_eqb (a b : option cell) : bool :=
  match a, b with
  | Some (CInt x), Some (CInt y) => x =? y
  | Some (CText x), Some (CText y) => coll_eqb x y
  | _, _ => false
  end.

Definition column (t : table) (r : row t) (name : string) : option cell :=
  option_map snd (List.find (fun c => String.eqb (fst c) name) (cells t r)).

Lemma two_keys (f : string -> bool) x y : existsb (forallb f) [[x]; [y]] = f x || f y.
Proof. simpl. by rewrite !andb_true_r, orb_false_r. Qed.

Lemma three_keys (f : string -> bool) x y z : existsb (forallb f) [[x]; [y]; [z]] = f x || f y || f z.
Proof. simpl. by rewrite !andb_true_r, orb_false_r, orb_assoc. Qed.

(** Two rows that agree on all columns of a key. *)
Definition key_violated (t : table) (keys : list (string * list string)) (a b : row t) : bool :=
  existsb (forallb (fun name => cell_eqb (column t a name) (column t b name))) (map snd keys).

(** The statements of [CreateUsersTable], [CreateRefreshTokensTable] and
    [CreateRoleAssignmentTables]. *)
Definition test_statements : list string :=
  [createUsersTableSQL; createRefreshTokensTableSQL; createRolesTableSQL; createUserRolesTableSQL; seedRolesSQL].

Definition all_tables : list table :=
  [TUsers; TRefreshTokens; TRoles; TPermissions; TUserRoles; TRolePermissions].

(** * The schema of the model *)

(** The schema of a table is what the struct asks for. *)
Definition made_for (t : table) (ts : TableSchema) : bool :=
  forallb (field_kept ts) (struct_fields t) && bool_decide (sc_Keys ts = tagged_keys (struct_fields t)) &&
  bool_decide (map_to_set (C := gset string) (fun name _ => name) (sc_Columns ts) =
               list_to_set (map f_Column (struct_fields t))).

Lemma cells_fields t r : map fst (cells t r) = map f_Column (struct_fields t).
Proof. by destruct t. Qed.

(** The keys of the tags forbid what the model forbids. *)
Lemma conflicts_tagged t a b : conflicts t a b = key_violated t (tagged_keys (struct_fields t)) a b.
Proof. destruct t; cbn; by rewrite ?andb_true_r, ?orb_false_r, ?orb_assoc. Qed.

Definition made_for_all (s : Schema) : bool :=
  forallb (fun t => match s !! TableName t with Some ts => made_for t ts | None => false end) all_tables.

(** The two schemas have one and the same table [t]. *)
Definition same_table (s s' : Schema) (t : table) : bool := bool_decide (s !! TableName t = s' !! TableName t).

Definition tested : list table := [TUsers; TRefreshTokens; TRoles; TUserRoles].

Lemma all_tables_in t : In t all_tables.
Proof. destruct t; simpl; tauto. Qed.

Lemma made_for_spec t ts : made_for t ts = true ->
  forallb (field_kept ts) (struct_fields t) = true /\ sc_Keys ts = tagged_keys (struct_fields t) /\
  forall name, is_Some (sc_Columns ts !! name) <-> In name (map f_Column (struct_fields t)).
Proof.
  unfold made_for. rewrite !andb_true_iff, !bool_decide_eq_true. intros [[Hf Hk] Hd]. do 2 (split; [done|]).
  intros name. rewrite <- list_elem_of_In, <- (elem_of_list_to_set (C := gset string)), <- Hd, elem_of_map_to_set.
  split; [intros [d Hn]; by exists name, d|by intros (i & d & Hn & ->)].
Qed.

Definition schemas_agree : bool :=
  match schema_after 6, apply_statements ∅ test_statements with
  | Some s, Some s' => made_for_all s && forallb (same_table s s') tested
  | _, _ => false
  end.

Lemma schemas_agree_ok : schemas_agree = true.
Proof. vm_compute. reflexivity. Qed.

#[local] Opaque schema_after apply_statements.

(** * Properties *)

(** C40. Equivalence. The migrations, run in order on an empty database, all
    succeed, and the schema they leave is the one that gorm takes from the
    structs and the theorems assume of the rows: each table has exactly the
    columns of its struct, of a type that holds the field, with the defaults,
    the NOT NULLs and the indexes of its tags, and its keys are those of the
    tags, which forbid exactly the pairs of rows that the model says cannot
    both be stored. The integration tests create the same tables. *)
Theorem schema_matches_model : exists s s',
  schema_after 6 = Some s /\ apply_statements ∅ test_statements = Some s' /\
  (forall t, exists ts, s !! TableName t = Some ts /\
     (forall r, map fst (cells t r) = map f_Column (struct_fields t)) /\
     (forall name, is_Some (sc_Columns ts !! name) <-> In name (map f_Column (struct_fields t))) /\
     forallb (field_kept ts) (struct_fields t) = true /\ sc_Keys ts = tagged_keys (struct_fields t) /\
     (forall a b, conflicts t a b = key_violated t (sc_Keys ts) a b)) /\
  (forall t, In t tested -> s !! TableName t = s' !! TableName t).
Proof.
  pose proof schemas_agree_ok as H. unfold schemas_agree in H.
  destruct (schema_after 6) as [s|]; [|discriminate].
  destruct (apply_statements ∅ test_statements) as [s'|]; [|discriminate].
  apply andb_true_iff in H as [Hall Htest]. exists s, s'. do 2 (split; [reflexivity|]). split.
  - intros t. pose proof (proj1 (forallb_forall _ _) Hall t (all_tables_in t)) as Ht. cbv beta in Ht.
    destruct (s !! TableName t) as [ts|]; [|discriminate]. exists ts. split; [reflexivity|].
    apply made_for_spec in Ht as (Hf & Hk & Hd). split; [apply cells_fields|]. do 3 (split; [assumption|]).
    intros a b. rewrite Hk. apply conflicts_tagged.
  - intros t Ht. apply (bool_decide_eq_true_1 _), (proj1 (forallb_forall _ _) Htest t Ht).
Qed.

(** Up from the schema [n] migrations leave to the next, and down again. *)
Definition goes_down (n : nat) (m : Migration) : bool :=
  match schema_after n with
  | Some s =>
    match apply_statements s (mg_Up m) with
    | Some s' => bool_decide (schema_after (S n) = Some s' /\ apply_statements s' (mg_Down m) = Some s)
    | None => false
    end
  | None => false
  end.

(** What the first [k] statements did is kept when the next one fails, as the
    migrations run outside of transactions: the schema when all of them are run
    again after that. *)
Definition run_again (n k : nat) (m : Migration) : option Schema :=
  match schema_after n with
  | Some s => apply_statements s (firstn k (mg_Up m) ++ mg_Up m)
  | None => None
  end.

(** The migrations that alter a table. *)
Definition alters (m : Migration) : bool := existsb (Z.eqb (mg_Version m)) [2; 6].

Definition interrupted_ok (n : nat) (m : Migration) : bool :=
  forallb (fun k => bool_decide (run_again n k m = if alters m then None else schema_after (S n)))
    (seq 1 (length (mg_Up m))).

(** Round trip. Going down takes back what going up did, from every version.
    And a migration that failed after some of its statements can be run again
    when it only creates tables and writes rows; one that alters a table
    cannot, since it stops at the columns that are there already. *)
Theorem migrations_undone n m :
  nth_error migrations n = Some m ->
  (exists s s', schema_after n = Some s /\ apply_statements s (mg_Up m) = Some s' /\
     schema_after (S n) = Some s' /\ apply_statements s' (mg_Down m) = Some s) /\
  forall k, (0 < k <= length (mg_Up m))%nat ->
    run_again n k m = if alters m then None else schema_after (S n).
Proof.
  intros Hm.
  assert (forallb (fun n => match nth_error migrations n with
                            | Some m => goes_down n m && interrupted_ok n m | None => true end) (seq 0 6) = true)
    as Hall by (vm_compute; reflexivity).
  assert (In n (seq 0 6)) as Hn.
  { apply in_seq. assert (n < length migrations)%nat as Hlt by (apply nth_error_Some; by rewrite Hm).
    simpl in Hlt. lia. }
  apply (proj1 (forallb_forall _ _) Hall) in Hn. rewrite Hm in Hn. apply andb_true_iff in Hn as [Hd Hi]. split.
  - unfold goes_down in Hd. destruct (schema_after n) as [s|]; [|discriminate].
    destruct (apply_statements s (mg_Up m)) as [s'|] eqn:Hs'; [|discriminate].
    apply bool_decide_eq_true in Hd as [H1 H2]. exists s, s'. split; [reflexivity|]. split; [exact Hs'|]. split; assumption.
  - intros k Hk. apply (bool_decide_eq_true_1 _).
    apply (proj1 (forallb_forall _ _) Hi k), in_seq. lia.
Qed.

Lemma migrations_undone_witness :
  run_again 5 1 migration_harden_auth_sessions = None /\
  exists s s', schema_after 5 = Some s /\ apply_statements s (mg_Up migration_harden_auth_sessions) = Some s' /\
     schema_after 6 = Some s' /\ apply_statements s' (mg_Down migration_harden_auth_sessions) = Some s.
Proof.
  split; [vm_compute; reflexivity|].
  exact (proj1 (migrations_undone 5 migration_harden_auth_sessions eq_refl)).
Defined.
End schema.
